(* ===== verification/_CoqProject ===== *)
-Q . S2P
Prelude.v
Bytes.v
HexInt.v
HexText.v
Flags.v
Rlp.v
RlpRead.v
Address.v
Crypto.v
Store.v
Handles.v
Backends.v
Codec.v
Typed.v
TypedCodec.v
Account.v
ClaimDB.v
ClaimJournal.v
History.v
Management.v
IISSData.v
IScoreDB.v
Context.v
Mirror.v
Reward.v
CalcDebug.v
DebugTrace.v
MsgDebug.v
Calculate.v
AccountDBs.v
BlockProduce.v
Delegation.v
PRepReward.v
DoCalculate.v
DebugCalc.v
DebugCalcSpec.v
AccountPass.v
CalcState.v
CalcTotal.v
Messages.v
Dispatch.v
Life.v
Main.v
DBTest.v
ClaimLedger.v
Rollback.v
SameStores.v
Interrupted.v
Reapply.v
Resume.v
Ipc.v
Server.v
ClaimTypes.v
WellTyped.v
Client.v
Remote.v
ClaimRemote.v
Concurrent.v
DBTool.v
DBToolIISS.v
DBToolCLI.v
DBToolSpec.v
SendIpc.v
SendIpcSpec.v
IISSTool.v
IISSToolCLI.v
RcTool.v
Wire.v
Examples.v
CalcExamples.v
PayExamples.v
CodecExamples.v
DebugExamples.v
DebugCalcExamples.v
IpcExamples.v
SendIpcExamples.v
SoundExamples.v
ConcurrentExamples.v
ResumeExamples.v
ToolExamples.v
