(* ===== verification/Prelude.v ===== *)
(** * Reward Calculator: a verification library

    The program is the I-Score calculator of ICON ([core/], with its libraries
    under [common/]).  An ICON node sends it messages; it keeps, in goleveldb
    stores, the I-Score of every account, what each address has claimed of it,
    and the records a calculation needs.  This library translates its Go code
    into Rocq definitions, file by file, and proves what the code promises.

    ** The program and its state

    - Account DBs: two lists of stores, [query] and [calculate].  Queries and
      claims read the query DBs; a calculation reads them, writes the calculate
      DBs, and the two are exchanged when it begins ([core/context.go]: [IScoreDB]).
    - Pre-commit DB, claim DB, claim backup DB ([core/db_claim.go]): a CLAIM is a
      pre-commit of its block, COMMIT_CLAIM confirms or drops it, COMMIT_BLOCK
      moves the confirmed ones to the claim DB and journals the old values, so
      that ROLLBACK can take blocks back.
    - Management DB ([core/db_management.go]), mirrored in memory ([Context]): block
      heights, governance variables, P-Rep lists, P-Rep candidates.
    - IISS data ([core/db_iissdata.go]): the input of one calculation, written by
      the node: governance variables, block producers, P-Reps, transactions.
    - Result DB ([core/db_calculate.go]): outcome of past calculations.

    CALCULATE ([core/msg_calculate.go]) resets the account DBs, pays the delegation
    reward of every account, re-prices delegation transactions, pays block
    producers and P-Reps, and stores the result; a ROLLBACK or the exit of the
    process may cancel it between batches.

    ** Files

    Vocabulary: [Prelude] (machine integers, outcomes, tactics, sums), [Bytes]
    (byte strings, big-endian numbers, key ranges), [HexInt] and [HexText]
    ([common/hexint.go], [common/hexbytes.go]), [Flags] (the package [flag] of Go, as
    far as it is used), [Address] ([common/address.go]).

    Libraries of the program: [Rlp], [RlpRead] ([common/codec/rlp.go]), [Codec]
    (the record encoding as a class, with msgpack as an instance, and the wrapper of
    [common/codec/codec.go]), [Typed], [TypedCodec] ([common/codec/typed.go],
    [common/codec.go]: values as typed objects, typed objects as bytes), [Crypto]
    ([common/crypto], [common/signature.go]), [Store] ([common/db]: buckets,
    iterators, batches of goleveldb over the class [LevelDB]), [Handles] (open and
    closed databases, iterators and snapshots as handles), [Backends] (the map,
    null, layer and proxy databases over the class [Backend]).

    Data: [Account] ([core/db_account.go]), [ClaimDB], [ClaimJournal], [History]
    ([core/db_claim.go]), [Management] ([core/db_management.go]), [IISSData]
    ([core/db_iissdata.go]), [IScoreDB] and [Context] ([core/context.go],
    [core/statistics.go]), [Mirror] (the management DB against the context).

    Calculation ([core/msg_calculate.go], [core/db_calculate.go]): [Reward] (one
    account, one account DB), [Calculate] (transactions, block producers, P-Reps),
    [DoCalculate] (the request), and their properties in [AccountDBs],
    [BlockProduce], [Delegation], [PRepReward], [AccountPass], [CalcState], [CalcTotal].
    Restart ([core/manager.go]: [InitManager] and the reload of interrupted IISS
    data): [SameStores] (states with the same content, and that the reward
    functions respect it), [Interrupted] (a pass after one that stopped early),
    [Reapply] (the updates of the context made twice), [Resume] (all of it).

    Debug output: [CalcDebug] ([core/calculation_debug.go]), [MsgDebug]
    ([core/msg_debug.go]) and [DebugTrace] (what the output says); [DebugCalc] (the
    calculation with the calls of the output in it) and [DebugCalcSpec] (it computes
    what the one without computes).

    Messages: [Messages] ([core/msg.go], [core/msg_claim.go], [core/msg_rollback.go]),
    [Dispatch] (which handler runs for a message), and their properties in
    [ClaimLedger] and [Rollback]; [Concurrent] has the claim handlers as the sequence of
    their accesses to the stores.

    The process: [Life] (its goroutines, connections, signal and shutdown as a step
    relation: [core/manager.go], [common/ipc/server.go]) and [Main]
    ([cmd/icon_rc/main.go]: the options and the start).

    Connections: [Ipc] ([common/ipc/connection.go], [common/ipc/server.go]: messages
    on a byte stream), [Server] (whole handlers, from the bytes of a request to
    the replies), [Client] ([core/api_ipc.go], over an interface of one call
    that has two implementations: the stream, and the server's operations
    themselves), and what holds of both ends together in [Remote] and [ClaimRemote];
    [ClaimTypes] and [WellTyped] show that no message makes the server panic.

    Tools: [DBTool] and [DBToolIISS] ([cmd/dbtool], [cmd/common/db_utils.go]: the
    database browser), [DBToolSpec] (what it reports against what the server
    answers), [IISSTool] ([cmd/iissdata]: writing and reading IISS data),
    [DBToolCLI] and [IISSToolCLI] (their command lines, and [cmd/common]), [RcTool]
    ([cmd/rctool]: the monitor program), [DBTest] ([cmd/dbtest]: random accounts),
    [SendIpc] ([cmd/sendipc]: messages from the command line) and [SendIpcSpec] (what they
    do to the server).

    [Wire] gives codecs for all records; the files named [Examples] with a prefix
    or none apply the theorems to concrete states.

    A definition has the name of the Go function, type or constant it
    translates; a method is prefixed with its type (or an abbreviation: [pc_]
    for [PreCommit], [c_] for [Claim], [cb_] for [ClaimBackupInfo], [ia_] for
    [IScoreAccount], [tx_], [bp_], [ig_] for the IISS records).  A suffix as in
    [_loop] names a loop of the function.

    ** What is proved

    - Claims: a ledger invariant (nobody claims more than the calculated
      I-Score), the flow of one claim from request to claim DB, the answer to
      every request, and what a query says afterwards ([ClaimLedger]).
    - Claims at the same time: those of different accounts or blocks do not
      disturb one another in any interleaving ([Concurrent]); of the same
      account and block they do.
    - Connections: each message that decodes is answered under its number and
      id ([Server]); calls over a stream refine the operations of the server
      ([Remote]), and with them a claim from the client to the claim DB
      ([ClaimRemote]); after a refused CALCULATE they no longer do.
    - Type soundness: from a well-typed state, where every stored value decodes
      and every account is in its place, any sequence of well-formed messages
      runs without a panic to a well-typed state ([WellTyped]).
    - Tools: the I-Scores the browser exports are those queries answer, where its
      guess of the query DBs is right; what it finds of pre-commits; a
      delegation written by the IISS tool is the one a calculation reads, and its
      count of missing heights ([DBToolSpec], [IISSTool]); a claim from the command line
      does on the server what a claim does ([SendIpcSpec]).
    - Blocks: the pre-commit life cycle and the clean-up at start ([ClaimDB]);
      the claim DB with its journal refines a log of versions, under any sequence of
      commits and rollbacks ([ClaimJournal], [History]).
    - Rollback: it restores claims, account DBs, heights and records, or is refused
      and changes no store ([Rollback], [IScoreDB], [Mirror]).
    - Calculation: it always returns ([CalcTotal], termination), it pays
      exactly what it announces (conservation), the batched passes refine one calculation of
      every account ([AccountPass]), batches and Go's map order do not matter
      ([Reward], [BlockProduce]), rewards stay within their rates ([Reward],
      [BlockProduce], [PRepReward]), a delegation transaction re-prices one account
      ([Delegation]), and the heights and the result store move as a state machine
      ([CalcState]).
    - Restart: a calculation that the exit of the process cancelled is completed
      by the next start as if it had not been ([Resume]), with at most one P-Rep list
      in the IISS data; with more, and after a crash in the last part of a
      calculation, rewards are paid twice ([ResumeExamples]).
    - Context: memory and management DB mirror each other and a restart reads
      the memory back ([Mirror]).
    - Shutdown: Close waits for the handlers of all connections and closes the
      stores, unless a message that does not decode has left the wait group
      counted; it waits neither for the reload of IISS data nor for messages that arrive
      later ([Life]).
    - Serialisation: round trips of addresses, integers, texts, accounts, typed
      objects, signatures and RLP values; RLP written as its specification has it, and
      the lengths its decoder misreads ([RlpRead]).
    - Debug output: it changes nothing of a calculation, its panics included, as
      long as no total delegation is a multiple of 2^64 ([DebugCalcSpec]); what is
      recorded for an address adds up to its total, and in full where its products fit
      in 64 bits ([DebugTrace]); a stored result is found by the last
      bytes of its height ([MsgDebug]).
    - Store back ends: a write layer is a transaction, a proxy is transparent
      ([Backends]); an iterator delivers the entries of its range in order, a snapshot
      what the store held when it was taken ([Handles]).

    ** How the code is modelled

    - Integers: [uint64] and [int64] are [Z] with the wrap-around written out
      ([u64], [i64]); a [big.Int] (and the [HexInt] around it) is a [Z]; [Uint64()]
      of a [big.Int] truncates.
    - Errors: a call is an [outcome]: a value, an error (with the stores it leaves
      where they matter), or [Panic], which also stands for a loop that does not
      end.  A loop that is not structural has fuel: the number of entries, of
      heights, or of bytes left, which the termination theorems show to be enough.
    - Pointers: a nil-able pointer or slice is an [option] where the code
      tells nil apart.  Shared objects ([Context], a receiver of [SetBytes]) are
      threaded as state.
    - Stores: any type with the operations of [LevelDB] and the laws goleveldb
      documents ([LevelDBLaws]); I/O errors of a store are not modelled, and that it is
      closed only in [Handles] and [Life].  The directory of the account DBs is a map from names to
      stores; [os.Rename] and [os.RemoveAll] act on it.
    - Record encodings: the class [Codec], whose law says that a well-formed
      record decodes whatever the receiver held; the vendored msgpack library is
      not in the source.  [shake256], the order in which a map is iterated and the
      reading of a JSON string are parameters as well, and so are SHA3-256, the curve
      secp256k1 (a class with its laws), and random bytes.
    - Concurrency: the passes over the account DBs write disjoint stores and
      are run in index order; the cancellation flag is an input, read where the
      code reads the channel.  The reload at the start of the process is run to its
      end before the next message.  A handler runs as one step, except in [Concurrent],
      where claim handlers interleave between their accesses to the stores, and in
      [Life], which has their goroutines and the count of them.
    - Connections: the framing of a message is the class [Framing] with its law,
      requests and responses are encoded by [ProtocolCodecs]; a stream is a list of bytes
      that arrives whole, and waiting is left out.
    - [sort.Slice] is a sort by the given order; logging is left out.
    - Debug output: the passes of [Reward], [Calculate] and [DoCalculate] are those with
      its switch off; [CalcDebug] has the calls they make with it on and [DebugCalc] the
      passes with these calls.  A formula it prints is the list of the
      numbers in it.

    ** Not modelled

    Sockets and the file that [-gen] writes; the stores badger and bolt
    ([common/db/badger_db.go], [bolt_db.go]), which wrap third-party code and which no
    program selects; the msgpack and JSON handles, SHA3 and logging
    ([common/codec/msgpack.go], [json.go], [common/crypto/hash.go], [common/log.go]),
    which are third-party code; the [String] methods and the layout of what is
    printed; the test drivers ([tests/]). *)

From Stdlib Require Export ZArith Lia.
From stdpp Require Export sorting.
From stdpp Require Export base decidable numbers list gmap.

#[global] Open Scope Z_scope.

(** ** Notations and machine integers *)

(** A Go [byte] is a [Z] in [0, 256); a [[]byte] is a list of them.  A Go
    string is a byte sequence too. *)
Abbreviation byte := Z (only parsing).
Abbreviation bytes := (list Z).

Declare Scope rc_scope.
Delimit Scope rc_scope with rc.

Definition is_byte (b : Z) : Prop := 0 <= b < 256.
Abbreviation all_bytes := (Forall is_byte).

(** [uint64] arithmetic wraps modulo 2^64, [int64] in two's complement. *)
Definition u64 (z : Z) : Z := z mod 2 ^ 64.
Definition i64 (z : Z) : Z := (z + 2 ^ 63) mod 2 ^ 64 - 2 ^ 63.
Definition is_u64 (z : Z) : Prop := 0 <= z < 2 ^ 64.
Definition is_i64 (z : Z) : Prop := - 2 ^ 63 <= z < 2 ^ 63.
Definition max_u64 : Z := 2 ^ 64 - 1.

Notation "x +u y" := (u64 (x + y)) (at level 50, left associativity) : rc_scope.
Notation "x -u y" := (u64 (x - y)) (at level 50, left associativity) : rc_scope.
#[global] Open Scope rc_scope.

Create HintDb rc discriminated.
Create Rewrite HintDb rc_rw.

Lemma u64_small z : is_u64 z -> u64 z = z.
Proof. unfold is_u64, u64. intros. apply Z.mod_small. lia. Qed.

Lemma u64_range z : is_u64 (u64 z).
Proof. unfold is_u64, u64. apply Z.mod_pos_bound. lia. Qed.

Lemma i64_small z : is_i64 z -> i64 z = z.
Proof. unfold is_i64, i64. intros. rewrite Z.mod_small; lia. Qed.

#[export] Hint Resolve u64_range : rc.
#[global] Instance is_byte_dec b : Decision (is_byte b).
Proof. unfold is_byte. apply _. Defined.
#[global] Instance is_u64_dec z : Decision (is_u64 z).
Proof. unfold is_u64. apply _. Defined.

(** ** Outcomes

    A Go call returns a value, returns an [error], or does neither: it panics
    (a nil dereference, an index out of range, [log.Panicf]) or runs a loop
    that does not end.  [Panic] stands for the last two, so that a theorem
    that a call is not [Panic] includes its termination.  Where a call changes
    a store before it fails, the error carries the stores. *)

Inductive outcome (E A : Type) : Type :=
  | Ok (a : A)
  | Err (e : E)
  | Panic.
Arguments Ok {E A} a.
Arguments Err {E A} e.
Arguments Panic {E A}.

Definition obind {E A B} (m : outcome E A) (f : A -> outcome E B) : outcome E B :=
  match m with Ok a => f a | Err e => Err e | Panic => Panic end.

Notation "'let!' x := m 'in' k" := (obind m (fun x => k))
  (at level 10, x pattern, m at level 100, k at level 200) : rc_scope.

Lemma obind_ok {E A B} (m : outcome E A) (f : A -> outcome E B) b :
  obind m f = Ok b <-> exists a, m = Ok a /\ f a = Ok b.
Proof. destruct m; simpl; naive_solver. Qed.

(** The same kind of outcome, with related values. *)
Definition outcome_rel {E A B} (R : A -> B -> Prop) (m : outcome E A) (m' : outcome E B) : Prop :=
  match m, m' with
  | Ok a, Ok b => R a b
  | Err e, Err e' => e = e'
  | Panic, Panic => True
  | _, _ => False
  end.

Lemma outcome_rel_bind {E A B A' B'} (R : A -> B -> Prop) (R' : A' -> B' -> Prop)
    (m : outcome E A) (m' : outcome E B) f f' :
  outcome_rel R m m' -> (forall a b, R a b -> outcome_rel R' (f a) (f' b)) ->
  outcome_rel R' (obind m f) (obind m' f').
Proof. destruct m, m'; cbn; auto; done. Qed.

Lemma outcome_rel_ok {E A B} (R : A -> B -> Prop) (m : outcome E A) (m' : outcome E B) a :
  outcome_rel R m m' -> m = Ok a -> exists b, m' = Ok b /\ R a b.
Proof. intros H ->. destruct m' as [b| |]; [by exists b|done..]. Qed.

(** ** Tactics *)

(** Case analysis on the innermost discriminee of a [match] or [if]. *)
Ltac case_step :=
  match goal with
  | |- context [match ?x with _ => _ end] =>
      lazymatch x with context [match _ with _ => _ end] => fail | _ => destruct x eqn:? end
  end.
Ltac case_all := repeat (case_step; simplify_eq/=).

(** Turns boolean comparisons on [Z] into propositions. *)
Ltac bool_to_Z :=
  repeat match goal with
  | H : (_ =? _) = true |- _ => apply Z.eqb_eq in H
  | H : (_ =? _) = false |- _ => apply Z.eqb_neq in H
  | H : (_ <? _) = true |- _ => apply Z.ltb_lt in H
  | H : (_ <? _) = false |- _ => apply Z.ltb_ge in H
  | H : (_ <=? _) = true |- _ => apply Z.leb_le in H
  | H : (_ <=? _) = false |- _ => apply Z.leb_gt in H
  | H : _ && _ = true |- _ => apply andb_true_iff in H as [? ?]
  | H : _ && _ = false |- _ => apply andb_false_iff in H
  | H : _ || _ = true |- _ => apply orb_true_iff in H
  | H : _ || _ = false |- _ => apply orb_false_iff in H as [? ?]
  | H : negb _ = true |- _ => apply negb_true_iff in H
  | H : negb _ = false |- _ => apply negb_false_iff in H
  end.

(** Linear arithmetic after unfolding the machine ranges. *)
Ltac zlia := unfold is_byte, is_u64, is_i64, max_u64 in *; bool_to_Z; lia.

(** ** Sums *)

Definition Zsum (l : list Z) : Z := foldr Z.add 0 l.

Lemma Zsum_app l1 l2 : Zsum (l1 ++ l2) = Zsum l1 + Zsum l2.
Proof. unfold Zsum. induction l1 as [|x l1 IH]; cbn [app foldr]; lia. Qed.

#[export] Instance Zsum_perm : Proper (Permutation ==> eq) Zsum.
Proof. intros l1 l2 H. unfold Zsum. induction H; cbn [foldr]; lia. Qed.

Lemma Zsum_map_add {A} (f g : A -> Z) l : Zsum (map (fun x => f x + g x) l) = Zsum (map f l) + Zsum (map g l).
Proof. unfold Zsum. induction l as [|x l IH]; cbn [map foldr]; lia. Qed.

Lemma Zsum_map_0 {A} (f : A -> Z) l : (forall x, f x = 0) -> Zsum (map f l) = 0.
Proof. intros Hf. unfold Zsum. induction l as [|x l IH]; cbn [map foldr]; [done|]. rewrite Hf. lia. Qed.

Lemma u64_add_u64 x y : u64 (u64 x + y) = u64 (x + y).
Proof. unfold u64. by rewrite Zplus_mod_idemp_l. Qed.

Lemma Zsum_filter {A} (P : A -> Prop) `{!forall x, Decision (P x)} (f : A -> Z) l :
  Zsum (map f (filter P l)) = Zsum (map (fun x => if decide (P x) then f x else 0) l).
Proof.
  unfold Zsum. induction l as [|x l IH]; [done|]. rewrite filter_cons. cbn [map foldr].
  case_decide; cbn [map foldr]; lia.
Qed.

(** The order of two summations does not matter; a sum with one term. *)
Lemma Zsum_swap {A B} (h : A -> B -> Z) la lb :
  Zsum (map (fun a => Zsum (map (h a) lb)) la) = Zsum (map (fun b => Zsum (map (fun a => h a b) la)) lb).
Proof.
  induction la as [|a la IH].
  - symmetry. by apply Zsum_map_0.
  - change (Zsum (map (h a) lb) + Zsum (map (fun a => Zsum (map (h a) lb)) la) =
      Zsum (map (fun b => h a b + Zsum (map (fun a => h a b) la)) lb)).
    by rewrite Zsum_map_add, IH.
Qed.

Lemma Zsum_single {A} (f : A -> Z) l x : NoDup l -> x ∈ l -> (forall y, y ∈ l -> y <> x -> f y = 0) ->
  Zsum (map f l) = f x.
Proof.
  intros Hnd Hx Hf. apply list_elem_of_split in Hx as (l1 & l2 & ->).
  apply NoDup_app in Hnd as (_ & H1 & H2). apply NoDup_cons in H2 as [H2 _].
  assert (Hz : forall l, (forall y, y ∈ l -> f y = 0) -> Zsum (map f l) = 0).
  { intros l Hl. unfold Zsum. induction l as [|y l IH]; cbn [map foldr]; [done|].
    rewrite Hl by (by left). rewrite IH; [done|]. intros z Hz. apply Hl. by right. }
  rewrite map_app, Zsum_app. cbn [map]. change (Zsum (f x :: map f l2)) with (f x + Zsum (map f l2)).
  rewrite !Hz; [lia| |].
  - intros y Hy. apply Hf; [apply elem_of_app; right; by right|]. by intros ->.
  - intros y Hy. apply Hf; [apply elem_of_app; by left|]. intros ->. apply (H1 x Hy). by left.
Qed.
