(* ===== verification/Bytes.v ===== *)
(** * Byte strings

    The byte-level vocabulary of the code: [bytes.Compare] and its order,
    [copy] into a buffer, big-endian numbers, [bytes.HasPrefix] and the key
    range of a prefix ([util.BytesPrefix] of goleveldb). *)

From S2P Require Import Prelude.

(** ** [copy(dst[off:], src)] *)

(** Copies as many bytes of [src] as fit in [dst] after [off]. *)
Definition copy_at (off : nat) (src dst : bytes) : bytes :=
  take off dst ++ take (length dst - off) src ++ drop (off + length src) dst.

#[global] Arguments copy_at : simpl never.

(** [make([]byte, n)]. *)
Definition make_bytes (n : nat) : bytes := replicate n 0.

Lemma length_make_bytes n : length (make_bytes n) = n.
Proof. apply length_replicate. Qed.

Lemma length_copy_at off src dst :
  (off <= length dst)%nat -> length (copy_at off src dst) = length dst.
Proof. intros. unfold copy_at. rewrite !length_app, !length_take, length_drop. lia. Qed.

(** A copy that fits exactly between two parts of the buffer. *)
Lemma copy_at_app (l m r src : bytes) :
  length src = length m ->
  copy_at (length l) src (l ++ m ++ r) = l ++ src ++ r.
Proof.
  intros Hlen. unfold copy_at.
  rewrite take_app_le, take_ge by lia. f_equal. f_equal.
  - rewrite take_ge; [done|]. rewrite !length_app. lia.
  - rewrite drop_app_ge by lia.
    replace (length l + length src - length l)%nat with (length m) by lia.
    by rewrite drop_app_length.
Qed.

Lemma copy_at_0 (m r src : bytes) :
  length src = length m -> copy_at 0 src (m ++ r) = src ++ r.
Proof. apply (copy_at_app []). Qed.

Lemma copy_at_end (l m src : bytes) :
  length src = length m -> copy_at (length l) src (l ++ m) = l ++ src.
Proof. intros. rewrite <-(app_nil_r m), copy_at_app, app_nil_r; done. Qed.

(** A copy of a source longer than the room left is cut. *)
Lemma copy_at_cut (l m src : bytes) :
  (length m <= length src)%nat ->
  copy_at (length l) src (l ++ m) = l ++ take (length m) src.
Proof.
  intros Hlen. unfold copy_at.
  rewrite take_app_le, take_ge by lia. f_equal.
  rewrite length_app, (drop_ge (l ++ m)) by (rewrite length_app; lia).
  rewrite app_nil_r. f_equal. lia.
Qed.

(** ** [bytes.Compare] *)

Fixpoint bytes_compare (a b : bytes) : comparison :=
  match a, b with
  | [], [] => Eq
  | [], _ :: _ => Lt
  | _ :: _, [] => Gt
  | x :: a', y :: b' =>
      match x ?= y with Eq => bytes_compare a' b' | c => c end
  end.

Definition bytes_lt (a b : bytes) : Prop := bytes_compare a b = Lt.
Definition bytes_le (a b : bytes) : Prop := bytes_compare a b <> Gt.

Infix "<b" := bytes_lt (at level 70) : rc_scope.
Infix "<=b" := bytes_le (at level 70) : rc_scope.

#[global] Instance bytes_lt_dec : RelDecision bytes_lt.
Proof. intros a b. unfold bytes_lt. apply _. Defined.
#[global] Instance bytes_le_dec : RelDecision bytes_le.
Proof. intros a b. unfold bytes_le. apply _. Defined.

Lemma bytes_compare_eq a b : bytes_compare a b = Eq <-> a = b.
Proof.
  revert b. induction a as [|x a IH]; intros [|y b]; simpl; try done.
  destruct (Z.compare_spec x y); subst; rewrite ?IH; split; intros; simplify_eq; try done; lia.
Qed.

Lemma bytes_compare_refl a : bytes_compare a a = Eq.
Proof. by apply bytes_compare_eq. Qed.

Lemma bytes_compare_antisym a b : bytes_compare b a = CompOpp (bytes_compare a b).
Proof.
  revert b. induction a as [|x a IH]; intros [|y b]; simpl; try done.
  rewrite (Z.compare_antisym x y). destruct (x ?= y); simpl; auto.
Qed.

Lemma bytes_lt_cons x a y b : x :: a <b y :: b <-> x < y \/ x = y /\ a <b b.
Proof. unfold bytes_lt. simpl. destruct (Z.compare_spec x y); naive_solver lia. Qed.

Lemma bytes_le_cons x a y b : x :: a <=b y :: b <-> x < y \/ x = y /\ a <=b b.
Proof.
  unfold bytes_le. simpl. destruct (Z.compare_spec x y); intuition (congruence || lia).
Qed.

#[global] Instance bytes_lt_trans : Transitive bytes_lt.
Proof.
  intros a. induction a as [|x a IH]; intros [|y b] [|z c]; try done.
  rewrite !bytes_lt_cons. intros [|[-> ?]] [|[-> ?]]; eauto with lia.
Qed.

#[global] Instance bytes_lt_irrefl : Irreflexive bytes_lt.
Proof. intros a. unfold complement, bytes_lt. by rewrite bytes_compare_refl. Qed.

Lemma bytes_le_lt_eq a b : a <=b b <-> a <b b \/ a = b.
Proof.
  unfold bytes_le, bytes_lt. rewrite <-bytes_compare_eq.
  destruct (bytes_compare a b); intuition congruence.
Qed.

Lemma bytes_nlt_le a b : ~ a <b b <-> b <=b a.
Proof.
  unfold bytes_le, bytes_lt. rewrite (bytes_compare_antisym a b).
  destruct (bytes_compare a b); simpl; split; congruence.
Qed.

Lemma bytes_lt_nge a b : a <b b -> ~ b <=b a.
Proof. rewrite <-bytes_nlt_le. auto. Qed.

#[global] Instance bytes_le_trans : Transitive bytes_le.
Proof.
  intros a b c. rewrite !bytes_le_lt_eq. intros [?| ->] [?| ->]; auto.
  left. by transitivity b.
Qed.

#[global] Instance bytes_le_total : Total bytes_le.
Proof.
  intros a b. destruct (decide (a <b b)) as [|H]; [left; rewrite bytes_le_lt_eq; auto|].
  right. by apply bytes_nlt_le.
Qed.

#[global] Instance bytes_le_antisymm : AntiSymm (=) bytes_le.
Proof.
  intros a b Hab Hba. apply bytes_le_lt_eq in Hab as [Hab|]; [|done].
  by apply bytes_lt_nge in Hab.
Qed.

Lemma bytes_le_nil a : [] <=b a.
Proof. by destruct a. Qed.

Lemma bytes_le_app_r a b : a <=b a ++ b.
Proof.
  induction a as [|x a IH]; simpl; [apply bytes_le_nil|].
  unfold bytes_le in *. simpl. by rewrite Z.compare_refl.
Qed.

#[export] Hint Resolve bytes_le_nil bytes_le_app_r : rc.

(** ** Big-endian numbers *)

Definition be_combine (bs : bytes) : Z := fold_left (fun v b => v * 256 + b) bs 0.

Fixpoint be_split (n : nat) (z : Z) : bytes :=
  match n with
  | O => []
  | S m => (z / 256 ^ Z.of_nat m) mod 256 :: be_split m z
  end.

Lemma length_be_split n z : length (be_split n z) = n.
Proof. induction n; simpl; auto. Qed.

Lemma be_split_bytes n z : all_bytes (be_split n z).
Proof.
  induction n; simpl; constructor; auto. unfold is_byte. apply Z.mod_pos_bound. lia.
Qed.

#[export] Hint Resolve be_split_bytes : rc.

Lemma be_combine_acc bs v :
  fold_left (fun v b => v * 256 + b) bs v = v * 256 ^ Z.of_nat (length bs) + be_combine bs.
Proof.
  unfold be_combine. revert v. induction bs as [|b bs IH]; intros v; simpl.
  - rewrite Z.pow_0_r. lia.
  - rewrite (IH (v * 256 + b)), (IH (0 * 256 + b)).
    replace (Z.of_nat (S (length bs))) with (Z.of_nat (length bs) + 1) by lia.
    rewrite Z.pow_add_r by lia. lia.
Qed.

Lemma be_combine_cons b bs :
  be_combine (b :: bs) = b * 256 ^ Z.of_nat (length bs) + be_combine bs.
Proof. unfold be_combine at 1. simpl. apply be_combine_acc. Qed.

Lemma be_combine_app bs1 bs2 :
  be_combine (bs1 ++ bs2) = be_combine bs1 * 256 ^ Z.of_nat (length bs2) + be_combine bs2.
Proof. unfold be_combine at 1. rewrite fold_left_app. apply be_combine_acc. Qed.

Lemma be_combine_bound bs :
  all_bytes bs -> 0 <= be_combine bs < 256 ^ Z.of_nat (length bs).
Proof.
  induction 1 as [|b bs Hb _ IH]; simpl; [unfold be_combine; simpl; lia|].
  rewrite be_combine_cons.
  replace (Z.of_nat (S (length bs))) with (Z.of_nat (length bs) + 1) by lia.
  rewrite Z.pow_add_r by lia. unfold is_byte in Hb. nia.
Qed.

Lemma be_combine_split n z : be_combine (be_split n z) = z mod 256 ^ Z.of_nat n.
Proof.
  induction n as [|n IH]; simpl.
  - by rewrite Z.mod_1_r.
  - rewrite be_combine_cons, length_be_split, IH.
    replace (Z.of_nat (S n)) with (Z.of_nat n + 1) by lia.
    rewrite Z.pow_add_r by lia.
    assert (0 < 256 ^ Z.of_nat n) by (apply Z.pow_pos_nonneg; lia).
    rewrite Z.pow_1_r, Z.rem_mul_r by lia. lia.
Qed.

Lemma be_split_mod n z : be_split n (z mod 256 ^ Z.of_nat n) = be_split n z.
Proof.
  assert (forall m, (m <= n)%nat -> be_split m (z mod 256 ^ Z.of_nat n) = be_split m z)
    as H; [|by apply H].
  induction m as [|m IH]; intros Hm; simpl; [done|]. f_equal; [|apply IH; lia].
  assert (0 < 256 ^ Z.of_nat m) by (apply Z.pow_pos_nonneg; lia).
  assert (256 ^ Z.of_nat n = 256 ^ Z.of_nat m * 256 * 256 ^ (Z.of_nat n - Z.of_nat m - 1)) as E.
  { rewrite <-(Z.pow_1_r 256) at 3. rewrite <-!Z.pow_add_r by lia. f_equal. lia. }
  assert (0 < 256 ^ (Z.of_nat n - Z.of_nat m - 1)) by (apply Z.pow_pos_nonneg; lia).
  rewrite E, <-Z.mul_assoc, Z.rem_mul_r by nia.
  rewrite (Z.mul_comm (256 ^ Z.of_nat m)), Z.div_add by lia.
  rewrite Z.div_small by (apply Z.mod_pos_bound; lia). simpl.
  apply Z.mod_mod_divide. eexists. apply Z.mul_comm.
Qed.

Lemma be_split_combine bs : all_bytes bs -> be_split (length bs) (be_combine bs) = bs.
Proof.
  induction 1 as [|b bs Hb Hbs IH]; simpl; [done|].
  pose proof (be_combine_bound bs Hbs). rewrite be_combine_cons. f_equal.
  - rewrite Z.add_comm, Z.div_add, Z.div_small by lia. simpl. apply Z.mod_small, Hb.
  - etransitivity; [|apply IH]. rewrite <-(be_split_mod _ (b * _ + _)).
    by rewrite Z.add_comm, Z_mod_plus_full, Z.mod_small by lia.
Qed.

Lemma be_combine_inj a b :
  length a = length b -> all_bytes a -> all_bytes b -> be_combine a = be_combine b -> a = b.
Proof.
  intros Hl Ha Hb E. rewrite <-(be_split_combine a), <-(be_split_combine b) by done.
  by rewrite E, Hl.
Qed.

(** Equal-length big-endian strings are ordered as the numbers they denote. *)
Lemma bytes_compare_be a b :
  length a = length b -> all_bytes a -> all_bytes b ->
  bytes_compare a b = (be_combine a ?= be_combine b).
Proof.
  revert b. induction a as [|x a IH]; intros [|y b] Hlen Ha Hb; simplify_eq/=; [done|].
  inversion_clear Ha as [|?? Hx Ha']. inversion_clear Hb as [|?? Hy Hb'].
  rewrite !be_combine_cons, Hlen.
  pose proof (be_combine_bound _ Ha') as Ba. pose proof (be_combine_bound _ Hb').
  rewrite Hlen in Ba. unfold is_byte in *.
  destruct (Z.compare_spec x y) as [->|?|?].
  - rewrite IH by done. symmetry. apply Z.add_compare_mono_l.
  - symmetry. apply Z.compare_lt_iff. nia.
  - symmetry. apply Z.compare_gt_iff. nia.
Qed.

Lemma bytes_compare_app_same p a b : bytes_compare (p ++ a) (p ++ b) = bytes_compare a b.
Proof. induction p; simpl; rewrite ?Z.compare_refl; auto. Qed.

(** The eight-byte big-endian form of a [uint64]. *)
Definition be64 (v : Z) : bytes := be_split 8 v.

Lemma length_be64 v : length (be64 v) = 8%nat.
Proof. apply length_be_split. Qed.

Lemma be64_bytes v : all_bytes (be64 v).
Proof. apply be_split_bytes. Qed.

#[export] Hint Resolve be64_bytes : rc.

Lemma be64_combine v : is_u64 v -> be_combine (be64 v) = v.
Proof. intros. unfold be64. rewrite be_combine_split. by apply Z.mod_small. Qed.

(** The last bytes of a number. *)
Lemma drop_be_split n m v : drop n (be_split (n + m) v) = be_split m v.
Proof. induction n as [|n IH]; [done|]. simpl. apply IH. Qed.

Lemma drop_be64 n v : (n <= 8)%nat -> drop (8 - n) (be64 v) = be_split n v.
Proof. intros Hn. unfold be64. replace 8%nat with ((8 - n) + n)%nat at 2 by lia. apply drop_be_split. Qed.

Lemma be64_inj v w : is_u64 v -> is_u64 w -> be64 v = be64 w -> v = w.
Proof. intros Hv Hw E. by rewrite <-(be64_combine v), <-(be64_combine w), E. Qed.

Lemma be64_compare v w : is_u64 v -> is_u64 w -> bytes_compare (be64 v) (be64 w) = (v ?= w).
Proof.
  intros. rewrite bytes_compare_be by (rewrite ?length_be64; auto with rc).
  by rewrite !be64_combine by done.
Qed.

#[global] Opaque be64.

#[export] Hint Rewrite length_be64 length_be_split length_make_bytes : rc_rw.

(** ** Key ranges of a prefix: [util.BytesPrefix] *)

Fixpoint BytesPrefix_limit (prefix : bytes) (i : nat) : option bytes :=
  match i with
  | O => None
  | S j =>
      match prefix !! j with
      | Some c => if c <? 0xff then Some (take j prefix ++ [c + 1]) else BytesPrefix_limit prefix j
      | None => None
      end
  end.

(** The half-open key range holding exactly the keys with the prefix; no
    limit when every byte of the prefix is 0xff. *)
Definition BytesPrefix (prefix : bytes) : bytes * option bytes :=
  (prefix, BytesPrefix_limit prefix (length prefix)).

Definition in_range (start : bytes) (limit : option bytes) (k : bytes) : Prop :=
  start <=b k /\ match limit with Some l => k <b l | None => True end.

#[global] Instance in_range_dec s l k : Decision (in_range s l k).
Proof. unfold in_range. destruct l; apply _. Defined.

Lemma all_ff_prefix p k :
  Forall (fun c => c = 255) p -> all_bytes k -> p <=b k -> p `prefix_of` k.
Proof.
  intros Hp. revert k. induction Hp as [|c p -> _ IH]; intros k Hk Hle.
  { apply prefix_nil. }
  destruct k as [|x k]; [done|]. inversion_clear Hk as [|?? Hx Hk'].
  apply bytes_le_cons in Hle as [?|[<- ?]]; [zlia|]. apply prefix_cons. by apply IH.
Qed.

Lemma prefix_le p k : p `prefix_of` k -> p <=b k.
Proof. intros [r ->]. auto with rc. Qed.

Lemma BytesPrefix_limit_ff p i :
  (i <= length p)%nat -> BytesPrefix_limit p i = None -> all_bytes p ->
  Forall (fun c => c = 255) (take i p).
Proof.
  intros Hi Hl Hp. induction i as [|j IH]; [constructor|]. simpl in Hl.
  destruct (lookup_lt_is_Some_2 p j) as [c Hc]; [lia|]. rewrite Hc in Hl.
  destruct (c <? 255) eqn:Hcf; [done|]. erewrite take_S_r by done.
  apply Forall_app; split; [apply IH; [lia|done]|]. constructor; [|constructor].
  eapply Forall_lookup_1 in Hp; [|done]. zlia.
Qed.

Lemma BytesPrefix_limit_some p i l :
  (i <= length p)%nat -> BytesPrefix_limit p i = Some l -> all_bytes p ->
  exists q c f, take i p = q ++ c :: f /\ l = q ++ [c + 1] /\ c < 255 /\
    Forall (fun c => c = 255) f.
Proof.
  intros Hi Hl Hp. induction i as [|j IH]; [done|]. simpl in Hl.
  destruct (lookup_lt_is_Some_2 p j) as [c Hc]; [lia|]. rewrite Hc in Hl.
  erewrite take_S_r by done.
  destruct (c <? 255) eqn:Hcf; simplify_eq.
  - exists (take j p), c, []. split_and!; auto. zlia.
  - destruct IH as (q & c' & f & -> & -> & ? & ?); [lia|done|].
    exists q, c', (f ++ [c]). rewrite <-app_assoc. split_and!; auto.
    apply Forall_app; split; [done|]. constructor; [|constructor].
    eapply Forall_lookup_1 in Hp; [|done]. zlia.
Qed.

Lemma app_lt_same q a b : q ++ a <b q ++ b <-> a <b b.
Proof. unfold bytes_lt. by rewrite bytes_compare_app_same. Qed.
Lemma app_le_same q a b : q ++ a <=b q ++ b <-> a <=b b.
Proof. unfold bytes_le. by rewrite bytes_compare_app_same. Qed.

(** A key between [q ++ _] and [q ++ [x]] starts with [q]. *)
Lemma between_prefix q a x k : q ++ a <=b k -> k <b q ++ [x] -> exists r, k = q ++ r.
Proof.
  revert k. induction q as [|y q IH]; intros k H1 H2; [by exists k|].
  destruct k as [|z k]; [done|]. unfold bytes_le, bytes_lt in *. simpl in *.
  rewrite (Z.compare_antisym y z) in H2.
  destruct (Z.compare_spec y z) as [->|?|?]; simpl in *; try done.
  destruct (IH k) as [r ->]; [done..|]. by exists r.
Qed.

(** The range of a prefix holds exactly the keys that start with it. *)
Lemma BytesPrefix_spec p k :
  all_bytes p -> all_bytes k ->
  in_range (BytesPrefix p).1 (BytesPrefix p).2 k <-> p `prefix_of` k.
Proof.
  intros Hp Hk. unfold BytesPrefix, in_range; simpl.
  destruct (BytesPrefix_limit p (length p)) as [l|] eqn:Hl.
  - apply BytesPrefix_limit_some in Hl as (q & c & f & Hq & -> & Hc & Hf); [|lia|done].
    rewrite take_ge in Hq by lia. subst p. split.
    + intros [H1 H2]. destruct (between_prefix _ _ _ _ H1 H2) as [r ->].
      rewrite app_le_same in H1. rewrite app_lt_same in H2. apply prefix_app.
      apply Forall_app in Hk as [_ Hr].
      destruct r as [|x r]; [done|]. unfold bytes_le, bytes_lt in H1, H2. simpl in *.
      destruct (Z.compare_spec c x) as [->|?|?]; [|destruct (Z.compare_spec x (c+1)); try lia; by destruct r|done].
      apply prefix_cons, all_ff_prefix; [done| |done]. by inversion Hr.
    + intros [r ->]. split; [auto with rc|]. rewrite <-app_assoc, app_lt_same. simpl.
      apply bytes_lt_cons. lia.
  - apply BytesPrefix_limit_ff in Hl; [|lia|done]. rewrite take_ge in Hl by lia.
    split; [intros [? _]; by apply all_ff_prefix|]. intros; split; [by apply prefix_le|done].
Qed.

(** ** Bit operations on bytes *)

(** A decidable fact about one byte is checked on the 256 values. *)
Lemma byte_forall (P : Z -> bool) :
  forallb P (seqZ 0 256) = true -> forall b, is_byte b -> P b = true.
Proof.
  rewrite forallb_forall. intros H b Hb. apply H.
  apply list_elem_of_In, elem_of_seqZ. zlia.
Qed.

Lemma byte_sign_bit b : is_byte b -> (Z.land b 0x80 =? 0) = (b <? 128).
Proof.
  intros Hb. apply eqb_true_iff.
  apply (byte_forall (fun b => eqb (Z.land b 0x80 =? 0) (b <? 128))); [|done].
  by vm_compute.
Qed.

Lemma byte_complement b : is_byte b -> Z.lxor b 0xff = 255 - b.
Proof.
  intros Hb. apply Z.eqb_eq.
  apply (byte_forall (fun b => Z.lxor b 0xff =? 255 - b)); [|done]. by vm_compute.
Qed.

Lemma land_ff v : Z.land v 0xff = v mod 256.
Proof. change 0xff with (Z.ones 8). by rewrite Z.land_ones by lia. Qed.

Lemma shiftr_8 v : Z.shiftr v 8 = v / 256.
Proof. by rewrite Z.shiftr_div_pow2 by lia. Qed.

Lemma shiftl_8 v : Z.shiftl v 8 = v * 256.
Proof. by rewrite Z.shiftl_mul_pow2 by lia. Qed.

Lemma land_mask_128 v : Z.land v (- 0x80) = v - v mod 128.
Proof.
  change (- 0x80) with (Z.lnot (Z.ones 7)). rewrite <-Z.ldiff_land, Z.ldiff_ones_r by lia.
  rewrite Z.shiftr_div_pow2, Z.shiftl_mul_pow2 by lia. change (2 ^ 7) with 128.
  pose proof (Z.div_mod v 128). lia.
Qed.

(** A byte fills the low bits of a multiple of 256. *)
Lemma lor_byte k b : is_byte b -> Z.lor (k * 256) b = k * 256 + b.
Proof.
  intros Hb. symmetry. apply Z.add_nocarry_lor. rewrite Z.land_comm.
  assert (b = Z.land b (Z.ones 8)) as ->.
  { rewrite Z.land_ones by lia. symmetry. by apply Z.mod_small. }
  rewrite <-Z.land_assoc, (Z.land_comm (Z.ones 8)), Z.land_ones by lia.
  by rewrite Z_mod_mult, Z.land_0_r.
Qed.
