(* ===== verification/HexInt.v ===== *)
(** * Integers and their encodings: [common/hexint.go]

    The byte encodings of [uint64], [int64] and [big.Int] values (the last is
    the minimal two's-complement form every stored I-Score uses) and the
    hexadecimal text form.  [HexInt] embeds a [big.Int]: its value is a [Z]. *)

From Stdlib Require Strings.String.
From S2P Require Import Prelude Bytes.

Import String.StringSyntax.

(** ** [math/big] *)

(** The bit length of the absolute value; zero has none. *)
Definition big_BitLen (z : Z) : Z := if z =? 0 then 0 else Z.log2 (Z.abs z) + 1.

(** The absolute value as a minimal big-endian byte slice. *)
Definition big_Bytes (z : Z) : bytes := be_split (Z.to_nat ((big_BitLen z + 7) / 8)) (Z.abs z).

(** Reads a big-endian unsigned number. *)
Definition big_SetBytes (bs : bytes) : Z := be_combine bs.

(** [new(big.Int).SetBit(0, i, 1)]. *)
Definition big_bit (i : Z) : Z := Z.shiftl 1 i.

(** [Uint64]: the low 64 bits of the absolute value. *)
Definition big_Uint64 (z : Z) : Z := u64 (Z.abs z).

(** [Div] and [Mod] are Euclidean: the remainder is never negative. *)
Definition big_Div (x y : Z) : Z := if y <? 0 then - (x / - y) else x / y.
Definition big_Mod (x y : Z) : Z := x mod Z.abs y.

(** ** [BigIntToBytes], [BigIntSetBytes] *)

Definition BigIntToBytes (i : Z) : bytes :=
  if i =? 0 then []
  else if 0 <? i then
    let bl := big_BitLen i in
    if bl mod 8 =? 0 then copy_at 1 (big_Bytes i) (make_bytes (Z.to_nat (bl / 8 + 1)))
    else big_Bytes i
  else
    let ti := i + 1 in
    let bl := big_BitLen ti in
    let nb := big_bit ((bl + 8) / 8 * 8) in
    big_Bytes (nb + i).

Definition BigIntSetBytes (bs : bytes) : Z :=
  let i := big_SetBytes bs in
  match bs with
  | b0 :: _ => if negb (Z.land b0 0x80 =? 0) then i - big_bit (big_BitLen i) else i
  | [] => i
  end.

(** ** [uint64] and [int64] *)

Fixpoint Uint64ToBytes_loop (idx : nat) (v : Z) (acc : bytes) : bytes :=
  match idx with
  | O => acc
  | S idx' =>
      let acc' := Z.land v 0xff :: acc in
      let v' := Z.shiftr v 8 in
      if v' =? 0 then acc' else Uint64ToBytes_loop idx' v' acc'
  end.

Definition Uint64ToBytes (v : Z) : bytes :=
  if v =? 0 then [] else Uint64ToBytes_loop 8 v [].

Definition BytesToUint64 (bs : bytes) : Z :=
  fold_left (fun v b => Z.lor (u64 (Z.shiftl v 8)) b) bs 0.

Definition BytesToInt64 (bs : bytes) : Z :=
  match bs with
  | [] => 0
  | b0 :: _ =>
      if negb (Z.land b0 0x80 =? 0) then
        let v := fold_left (fun v b => Z.lor (i64 (Z.shiftl v 8)) (Z.lxor b 0xff)) bs 0 in
        i64 (i64 (- v) - 1)
      else fold_left (fun v b => Z.lor (i64 (Z.shiftl v 8)) b) bs 0
  end.

Fixpoint Int64ToBytes_loop (target : Z) (idx : nat) (v : Z) (acc : bytes) : bytes :=
  match idx with
  | O => acc
  | S idx' =>
      let acc' := Z.land v 0xff :: acc in
      if Z.land v (- 0x80) =? target then acc'
      else Int64ToBytes_loop target idx' (Z.shiftr v 8) acc'
  end.

Definition Int64ToBytes (v : Z) : bytes :=
  if v =? 0 then []
  else Int64ToBytes_loop (if v <? 0 then - 0x80 else 0) 8 v [].

(** ** Hexadecimal text *)

(** The bytes of a Go string literal. *)
Definition str (s : String.string) : bytes :=
  map (fun a => Z.of_N (Ascii.N_of_ascii a)) (String.list_ascii_of_string s).
Arguments str s%_string_scope.

(** [encoding/hex]: lower-case digits out, either case in; an odd length or a
    bad digit is an error. *)
Definition hex_digit (d : Z) : byte := if d <? 10 then 48 + d else 87 + d.

Definition hex_EncodeToString (bs : bytes) : bytes :=
  concat (map (fun b => [hex_digit (b / 16); hex_digit (b mod 16)]) bs).

#[global] Arguments hex_EncodeToString : simpl never.

Definition from_hex_char (c : byte) : option Z :=
  if (48 <=? c) && (c <=? 57) then Some (c - 48)
  else if (97 <=? c) && (c <=? 102) then Some (c - 87)
  else if (65 <=? c) && (c <=? 70) then Some (c - 55)
  else None.

Fixpoint hex_DecodeString (s : bytes) : option bytes :=
  match s with
  | [] => Some []
  | a :: b :: s' =>
      match from_hex_char a, from_hex_char b, hex_DecodeString s' with
      | Some x, Some y, Some r => Some (x * 16 + y :: r)
      | _, _, _ => None
      end
  | [_] => None
  end.

Definition encodeHexNumber (neg : bool) (b : bytes) : bytes :=
  match hex_EncodeToString b with
  | [] => str "0x0"
  | c :: s' =>
      let s := if c =? 48 then s' else c :: s' in
      if neg then str "-0x" ++ s else str "0x" ++ s
  end.

(** [s[0:2] == p] for a two-byte [p]. *)
Definition has_prefix2 (p s : bytes) : bool := bool_decide (take 2 s = p).

Definition decodeHexNumber (s : bytes) : option (bool * bytes) :=
  let '(negative, s) :=
    match s with
    | c :: s' => if c =? 45 then (true, s') else (false, s)
    | [] => (false, s)
    end in
  let s := if (2 <? Z.of_nat (length s)) && has_prefix2 (str "0x") s then drop 2 s else s in
  let s := if Z.of_nat (length s) mod 2 =? 1 then 48 :: s else s in
  match hex_DecodeString s with
  | Some bs => Some (negative, bs)
  | None => None
  end.

Definition FormatInt (v : Z) : bytes :=
  if v <? 0 then encodeHexNumber true (Uint64ToBytes (u64 (i64 (- v))))
  else encodeHexNumber false (Uint64ToBytes (u64 v)).

Definition FormatUint (v : Z) : bytes := encodeHexNumber false (Uint64ToBytes v).

(** ** [HexInt] *)

Definition HexInt_Bytes (i : Z) : bytes := BigIntToBytes i.
Definition HexInt_SetBytes (bs : bytes) : Z := BigIntSetBytes bs.
Definition HexInt_String (i : Z) : bytes := encodeHexNumber (i <? 0) (big_Bytes i).

(** [UnmarshalJSON] of a JSON string: the text is a hexadecimal number. *)
Definition HexInt_UnmarshalText (s : bytes) : option Z :=
  match decodeHexNumber s with
  | Some (neg, bs) => let i := big_SetBytes bs in Some (if neg then - i else i)
  | None => None
  end.

Definition NewHexInt (v : Z) : Z := v.
Definition NewHexIntFromUint64 (v : Z) : Z := v.

Example BigIntToBytes_ex :
  map BigIntToBytes [0; 1; 127; 128; 255; 256; -1; -128; -129; -256; -32768]
  = [[]; [1]; [127]; [0;128]; [0;255]; [1;0]; [255]; [128]; [255;127]; [255;0]; [128;0]].
Proof. reflexivity. Qed.

Example Int64ToBytes_ex :
  map Int64ToBytes [0; 1; 127; 128; -1; -128; -129; -2 ^ 63; 2 ^ 63 - 1]
  = [[]; [1]; [127]; [0;128]; [255]; [128]; [255;127]; [128;0;0;0;0;0;0;0];
     [127;255;255;255;255;255;255;255]].
Proof. reflexivity. Qed.

Example HexInt_String_ex : HexInt_String (-256) = str "-0x100" /\ FormatUint 0 = str "0x0".
Proof. split; reflexivity. Qed.

(** ** Bit length and magnitude bytes *)

Lemma BitLen_unique z n : 0 < n -> 2 ^ (n - 1) <= Z.abs z < 2 ^ n -> big_BitLen z = n.
Proof.
  intros Hn Hz. unfold big_BitLen.
  assert (0 < 2 ^ (n - 1)) by (apply Z.pow_pos_nonneg; lia).
  destruct (z =? 0) eqn:E; bool_to_Z; [lia|].
  rewrite (Z.log2_unique _ (n - 1)); [lia|lia|]. by rewrite Z.sub_1_r, Z.succ_pred.
Qed.

Lemma BitLen_spec z : z <> 0 ->
  0 < big_BitLen z /\ 2 ^ (big_BitLen z - 1) <= Z.abs z < 2 ^ big_BitLen z.
Proof.
  intros Hz. unfold big_BitLen. destruct (z =? 0) eqn:E; bool_to_Z; [done|].
  pose proof (Z.log2_nonneg (Z.abs z)). pose proof (Z.log2_spec (Z.abs z)).
  replace (Z.log2 (Z.abs z) + 1 - 1) with (Z.log2 (Z.abs z)) by lia.
  rewrite <-Z.add_1_r in *. lia.
Qed.

Lemma BitLen_bound z : 0 <= big_BitLen z /\ Z.abs z < 2 ^ big_BitLen z.
Proof.
  destruct (decide (z = 0)) as [->|Hz]; [done|]. pose proof (BitLen_spec z Hz). lia.
Qed.

(** The number of magnitude bytes. *)
Definition big_len (z : Z) : nat := Z.to_nat ((big_BitLen z + 7) / 8).

Lemma pow_256 n : 256 ^ Z.of_nat n = 2 ^ (8 * Z.of_nat n).
Proof. change 256 with (2 ^ 8). by rewrite <-Z.pow_mul_r by lia. Qed.

Lemma big_len_bound z : Z.abs z < 256 ^ Z.of_nat (big_len z).
Proof.
  destruct (BitLen_bound z) as [H0 H]. unfold big_len.
  rewrite pow_256, Z2Nat.id by (apply Z.div_pos; lia).
  eapply Z.lt_le_trans; [done|]. apply Z.pow_le_mono_r; [lia|].
  pose proof (Z.div_mod (big_BitLen z + 7) 8). pose proof (Z.mod_pos_bound (big_BitLen z + 7) 8).
  lia.
Qed.

Lemma length_big_Bytes z : length (big_Bytes z) = big_len z.
Proof. apply length_be_split. Qed.

Lemma big_Bytes_bytes z : all_bytes (big_Bytes z).
Proof. apply be_split_bytes. Qed.

#[export] Hint Resolve big_Bytes_bytes : rc.
#[export] Hint Rewrite length_big_Bytes : rc_rw.

Lemma big_SetBytes_Bytes z : big_SetBytes (big_Bytes z) = Z.abs z.
Proof.
  unfold big_SetBytes, big_Bytes. rewrite be_combine_split. apply Z.mod_small.
  pose proof (big_len_bound z). unfold big_len in *. lia.
Qed.

(** The leading magnitude byte of a non-zero number. *)
Lemma big_Bytes_head z : z <> 0 ->
  exists b r, big_Bytes z = b :: r /\ is_byte b /\ all_bytes r /\
    b = Z.abs z / 256 ^ (Z.of_nat (big_len z) - 1) /\ 0 < b.
Proof.
  intros Hz. destruct (BitLen_spec z Hz) as (Hpos & Hlo & Hhi).
  pose proof (big_len_bound z) as Hb. pose proof (big_Bytes_bytes z) as Hall.
  unfold big_Bytes in *. fold (big_len z) in *.
  pose proof (Z.div_mod (big_BitLen z + 7) 8). pose proof (Z.mod_pos_bound (big_BitLen z + 7) 8).
  assert (Z.of_nat (big_len z) = (big_BitLen z + 7) / 8) as Hlen by (unfold big_len; lia).
  destruct (big_len z) as [|n] eqn:En; [lia|]. simpl in *.
  inversion_clear Hall as [|?? H1 H2]. eexists _, _. split_and!; [done|done|done| |].
  - replace (Z.of_nat (S n) - 1) with (Z.of_nat n) by lia. apply Z.mod_small. split.
    + apply Z.div_pos; [lia|]. apply Z.pow_pos_nonneg; lia.
    + apply Z.div_lt_upper_bound; [apply Z.pow_pos_nonneg; lia|].
      rewrite <-(Z.pow_1_r 256) at 2. rewrite <-Z.pow_add_r by lia.
      by replace (Z.of_nat n + 1) with (Z.of_nat (S n)) by lia.
  - assert (256 ^ Z.of_nat n <= Z.abs z).
    { rewrite pow_256. etransitivity; [|done]. apply Z.pow_le_mono_r; lia. }
    assert (0 < 256 ^ Z.of_nat n) by (apply Z.pow_pos_nonneg; lia).
    rewrite Z.mod_small; [apply Z.div_str_pos; lia|]. split; [apply Z.div_pos; lia|].
    apply Z.div_lt_upper_bound; [lia|].
    rewrite <-(Z.pow_1_r 256) at 2. rewrite <-Z.pow_add_r by lia.
    by replace (Z.of_nat n + 1) with (Z.of_nat (S n)) by lia.
Qed.

(** ** Two's complement

    The number a byte string denotes in two's complement: the reference both
    signed decoders are checked against. *)
Definition tc_value (bs : bytes) : Z :=
  match bs with
  | [] => 0
  | b0 :: _ => be_combine bs - if 128 <=? b0 then 256 ^ Z.of_nat (length bs) else 0
  end.

Lemma pow2_half n : 0 < n -> 2 ^ n = 2 ^ (n - 1) * 2.
Proof. intros. rewrite Z.mul_comm, <-Z.pow_succ_r by lia. f_equal. lia. Qed.

Lemma be_combine_head b bs :
  all_bytes (b :: bs) -> 128 <= b ->
  256 ^ Z.of_nat (length (b :: bs)) / 2 <= be_combine (b :: bs).
Proof.
  intros Hall Hb. inversion_clear Hall as [|?? _ Hbs].
  pose proof (be_combine_bound bs Hbs). rewrite be_combine_cons. simpl.
  replace (Z.of_nat (S (length bs))) with (Z.of_nat (length bs) + 1) by lia.
  rewrite Z.pow_add_r, Z.pow_1_r by lia.
  replace (256 ^ Z.of_nat (length bs) * 256) with (256 ^ Z.of_nat (length bs) * 128 * 2) by lia.
  rewrite Z.div_mul by lia. nia.
Qed.

Lemma BigIntSetBytes_tc bs : all_bytes bs -> BigIntSetBytes bs = tc_value bs.
Proof.
  intros Hall. destruct bs as [|b bs]; [done|].
  assert (is_byte b) as Hb by (by inversion Hall).
  unfold BigIntSetBytes, tc_value, big_SetBytes. rewrite byte_sign_bit by done.
  destruct (b <? 128) eqn:E; bool_to_Z; simpl.
  { rewrite (proj2 (Z.leb_gt _ _)) by lia. lia. }
  rewrite (proj2 (Z.leb_le _ _)) by lia.
  pose proof (be_combine_bound _ Hall) as [H1 H2]. pose proof (be_combine_head _ _ Hall E) as H3.
  rewrite pow_256 in *. set (n := 8 * Z.of_nat (length (b :: bs))) in *.
  assert (0 < n) by (unfold n; simpl; lia).
  assert (2 ^ n = 2 ^ (n - 1) * 2) as Hn by (apply pow2_half; lia).
  rewrite Hn, Z.div_mul in H3 by lia.
  rewrite (BitLen_unique _ n) by lia. unfold big_bit. by rewrite Z.shiftl_1_l.
Qed.

Lemma BigIntToBytes_pos z : 0 < z ->
  BigIntToBytes z = if big_BitLen z mod 8 =? 0 then 0 :: big_Bytes z else big_Bytes z.
Proof.
  intros Hz. unfold BigIntToBytes.
  rewrite (proj2 (Z.eqb_neq _ _)), (proj2 (Z.ltb_lt _ _)) by lia. simpl.
  destruct (big_BitLen z mod 8 =? 0) eqn:E; [|done]. bool_to_Z.
  destruct (BitLen_bound z) as [H0 _].
  assert (Z.to_nat (big_BitLen z / 8 + 1) = S (big_len z)) as ->.
  { unfold big_len. rewrite Z2Nat.inj_add by (try apply Z.div_pos; lia).
    replace ((big_BitLen z + 7) / 8) with (big_BitLen z / 8); [lia|].
    pose proof (Z.div_mod (big_BitLen z) 8).
    apply (Z.div_unique_pos _ _ _ 7); lia. }
  change (make_bytes (S (big_len z))) with ([0] ++ make_bytes (big_len z)).
  rewrite <-(app_nil_r (make_bytes _)), (copy_at_app [0]), app_nil_r; [done|].
  by autorewrite with rc_rw.
Qed.

(** The bit width [BigIntToBytes] picks for a negative number. *)
Lemma neg_width z : z < 0 ->
  let n := (big_BitLen (z + 1) + 8) / 8 * 8 in
  0 < n /\ n mod 8 = 0 /\ 2 ^ (n - 1) <= 2 ^ n + z < 2 ^ n.
Proof.
  intros Hz n. destruct (BitLen_bound (z + 1)) as [H0 H1].
  pose proof (Z.div_mod (big_BitLen (z + 1) + 8) 8).
  pose proof (Z.mod_pos_bound (big_BitLen (z + 1) + 8) 8).
  assert (big_BitLen (z + 1) + 1 <= n) by (unfold n; lia).
  assert (0 < n) by lia. split_and!; [lia|unfold n; apply Z_mod_mult| |lia].
  rewrite (pow2_half n) by lia.
  assert (2 ^ big_BitLen (z + 1) <= 2 ^ (n - 1)) by (apply Z.pow_le_mono_r; lia). lia.
Qed.

Lemma BigIntToBytes_neg z : z < 0 ->
  exists n, 0 < n /\ n mod 8 = 0 /\ 2 ^ (n - 1) <= 2 ^ n + z < 2 ^ n /\
    BigIntToBytes z = big_Bytes (2 ^ n + z).
Proof.
  intros Hz. destruct (neg_width z Hz) as (Hn & Hm & Hb).
  exists ((big_BitLen (z + 1) + 8) / 8 * 8). split_and!; try done; try apply Hb.
  unfold BigIntToBytes.
  rewrite (proj2 (Z.eqb_neq _ _)), (proj2 (Z.ltb_ge _ _)) by lia.
  unfold big_bit. by rewrite Z.shiftl_1_l.
Qed.

Lemma BigIntToBytes_bytes z : all_bytes (BigIntToBytes z).
Proof.
  destruct (Z.lt_trichotomy z 0) as [Hz|[->|Hz]]; [|constructor|].
  - destruct (BigIntToBytes_neg z Hz) as (n & _ & _ & _ & ->). auto with rc.
  - rewrite BigIntToBytes_pos by done. destruct (_ =? 0); auto with rc.
    constructor; [unfold is_byte; lia|auto with rc].
Qed.

#[export] Hint Resolve BigIntToBytes_bytes : rc.

Lemma big_len_mul n z : 0 < n -> n mod 8 = 0 -> big_BitLen z = n ->
  8 * Z.of_nat (big_len z) = n.
Proof.
  intros Hn Hm Hl. unfold big_len. rewrite Hl. pose proof (Z.div_mod n 8).
  rewrite Z2Nat.id by (apply Z.div_pos; lia).
  replace ((n + 7) / 8) with (n / 8); [lia|]. apply (Z.div_unique_pos _ _ _ 7); lia.
Qed.

(** When the bit length is a multiple of eight the leading bit is set, and
    otherwise it is not. *)
Lemma big_Bytes_sign z : z <> 0 ->
  exists b r, big_Bytes z = b :: r /\ (128 <=? b) = (big_BitLen z mod 8 =? 0).
Proof.
  intros Hz. destruct (big_Bytes_head z Hz) as (b & r & Eb & Hb & Hr & Hd & _).
  exists b, r. split; [done|]. destruct (BitLen_spec z Hz) as (Hpos & Hlo & Hhi).
  set (n := big_BitLen z) in *. subst b.
  pose proof (Z.div_mod (n + 7) 8). pose proof (Z.mod_pos_bound (n + 7) 8).
  pose proof (Z.div_mod n 8). pose proof (Z.mod_pos_bound n 8).
  assert (Z.of_nat (big_len z) = (n + 7) / 8) as Hlen by (unfold big_len; fold n; lia).
  rewrite Hlen. set (m := (n + 7) / 8) in *.
  assert (256 ^ (m - 1) = 2 ^ (8 * (m - 1))) as E.
  { change 256 with (2 ^ 8). by rewrite <-Z.pow_mul_r by lia. }
  rewrite E in *. assert (0 < 2 ^ (8 * (m - 1))) by (apply Z.pow_pos_nonneg; lia).
  assert (2 ^ (8 * (m - 1)) * 128 = 2 ^ (8 * m - 1)) as E128.
  { change 128 with (2 ^ 7). rewrite <-Z.pow_add_r by lia. f_equal. lia. }
  destruct (n mod 8 =? 0) eqn:En; bool_to_Z.
  - apply Z.leb_le. apply Z.div_le_lower_bound; [lia|]. rewrite E128.
    etransitivity; [|apply Hlo]. apply Z.pow_le_mono_r; lia.
  - apply Z.leb_gt. apply Z.div_lt_upper_bound; [lia|]. rewrite E128.
    eapply Z.lt_le_trans; [apply Hhi|]. apply Z.pow_le_mono_r; lia.
Qed.

Lemma BigIntToBytes_tc z : tc_value (BigIntToBytes z) = z.
Proof.
  destruct (Z.lt_trichotomy z 0) as [Hz|[->|Hz]]; [|done|].
  - destruct (BigIntToBytes_neg z Hz) as (n & Hn & Hm & Hb & ->).
    assert (0 < 2 ^ (n - 1)) by (apply Z.pow_pos_nonneg; lia).
    assert (big_BitLen (2 ^ n + z) = n) as Hbl by (apply BitLen_unique; lia).
    destruct (big_Bytes_sign (2 ^ n + z)) as (b & r & E & Hs); [lia|].
    rewrite Hbl, Hm in Hs. simpl in Hs. unfold tc_value. rewrite E, Hs, <-E.
    fold (big_SetBytes (big_Bytes (2 ^ n + z))). rewrite big_SetBytes_Bytes.
    rewrite length_big_Bytes, pow_256, (big_len_mul n) by done. lia.
  - rewrite BigIntToBytes_pos by done. pose proof (big_SetBytes_Bytes z) as Hv.
    destruct (big_Bytes_sign z) as (b & r & E & Hs); [lia|].
    destruct (big_BitLen z mod 8 =? 0) eqn:Em.
    + unfold tc_value. simpl. rewrite be_combine_cons.
      unfold big_SetBytes in Hv. rewrite Hv. lia.
    + unfold tc_value. rewrite E, Hs, <-E.
      unfold big_SetBytes in Hv. rewrite Hv. lia.
Qed.

(** The stored form of an I-Score reads back as the same number, for every integer. *)
Theorem BigInt_roundtrip z : BigIntSetBytes (BigIntToBytes z) = z.
Proof. rewrite BigIntSetBytes_tc by auto with rc. apply BigIntToBytes_tc. Qed.

(** ** [uint64] *)

Lemma BytesToUint64_spec bs : all_bytes bs -> BytesToUint64 bs = u64 (be_combine bs).
Proof.
  unfold BytesToUint64, be_combine. intros Hall.
  assert (forall v, fold_left (fun v b => Z.lor (u64 (Z.shiftl v 8)) b) bs (u64 v)
                    = u64 (fold_left (fun v b => v * 256 + b) bs v)) as H; [|by apply (H 0)].
  induction Hall as [|b bs Hb _ IH]; intros v; simpl; [done|]. rewrite <-IH. f_equal.
  rewrite shiftl_8.
  assert (u64 (u64 v * 256) = (v mod 2 ^ 56) * 256) as ->.
  { unfold u64. change (2 ^ 64) with (2 ^ 56 * 256) at 2. rewrite Z.mul_mod_distr_r by lia.
    f_equal. apply Z.mod_mod_divide. by exists 256. }
  rewrite lor_byte by done. unfold u64. change (2 ^ 64) with (256 * 2 ^ 56).
  rewrite Z.rem_mul_r by lia. rewrite (Z.add_comm (v * 256)), Z_mod_plus_full, Z.div_add by lia.
  rewrite (Z.mod_small b), (Z.div_small b) by exact Hb. rewrite Z.add_0_l. lia.
Qed.

Lemma BytesToUint64_be64 h : is_u64 h -> BytesToUint64 (be64 h) = h.
Proof. intros Hh. rewrite BytesToUint64_spec by auto with rc. by rewrite be64_combine, u64_small. Qed.

Lemma Uint64ToBytes_loop_spec idx v acc :
  0 <= v < 256 ^ Z.of_nat idx -> all_bytes acc ->
  let r := Uint64ToBytes_loop idx v acc in
  be_combine r = v * 256 ^ Z.of_nat (length acc) + be_combine acc /\ all_bytes r /\
  (length r <= idx + length acc)%nat /\ (0 < v -> exists b r', r = b :: r' /\ 0 < b).
Proof.
  revert v acc. induction idx as [|idx IH]; intros v acc Hv Hacc; simpl in *.
  { split_and!; auto; lia. }
  rewrite land_ff, shiftr_8.
  replace (Z.of_nat (S idx)) with (Z.of_nat idx + 1) in Hv by lia.
  rewrite Z.pow_add_r, Z.pow_1_r in Hv by lia.
  pose proof (Z.div_mod v 256) as Ediv. pose proof (Z.mod_pos_bound v 256).
  assert (all_bytes (v mod 256 :: acc)) as Hacc' by (constructor; [zlia|done]).
  assert (be_combine (v mod 256 :: acc) = v mod 256 * 256 ^ Z.of_nat (length acc) + be_combine acc)
    as Ec by apply be_combine_cons.
  destruct (v / 256 =? 0) eqn:E; bool_to_Z.
  - split_and!; auto; [|simpl; lia|].
    + rewrite Ec. f_equal. f_equal. lia.
    + intros. eexists _, _. split; [done|lia].
  - assert (0 <= v / 256 < 256 ^ Z.of_nat idx) as Hv'.
    { split; [apply Z.div_pos; lia|]. apply Z.div_lt_upper_bound; lia. }
    destruct (IH (v / 256) (v mod 256 :: acc) Hv' Hacc') as (H1 & H2 & H3 & H4).
    split_and!; [|done|simpl in *; lia|intros; apply H4; lia].
    rewrite H1, Ec. simpl.
    replace (Z.of_nat (S (length acc))) with (Z.of_nat (length acc) + 1) by lia.
    rewrite Z.pow_add_r, Z.pow_1_r by lia. nia.
Qed.

Lemma Uint64ToBytes_spec v : is_u64 v ->
  be_combine (Uint64ToBytes v) = v /\ all_bytes (Uint64ToBytes v) /\
  (length (Uint64ToBytes v) <= 8)%nat /\ (0 < v -> exists b r, Uint64ToBytes v = b :: r /\ 0 < b).
Proof.
  intros Hv. unfold Uint64ToBytes. destruct (v =? 0) eqn:E; bool_to_Z.
  { subst. split_and!; [done|constructor|simpl; lia|lia]. }
  destruct (Uint64ToBytes_loop_spec 8 v []) as (H1 & H2 & H3 & H4);
    [unfold is_u64 in Hv; change (256 ^ Z.of_nat 8) with (2 ^ 64); lia|constructor|].
  revert H1 H2 H3 H4. generalize (Uint64ToBytes_loop 8 v []). intros r H1 H2 H3 H4.
  split_and!; [|done|simpl in *; lia|done]. rewrite H1. unfold be_combine. simpl. lia.
Qed.

(** Uint64ToBytes is minimal and BytesToUint64 reads it back. *)
Lemma Uint64_roundtrip v : is_u64 v ->
  BytesToUint64 (Uint64ToBytes v) = v /\ (length (Uint64ToBytes v) <= 8)%nat /\
  head (Uint64ToBytes v) <> Some 0.
Proof.
  intros Hv. destruct (Uint64ToBytes_spec v Hv) as (H1 & H2 & H3 & H4).
  rewrite BytesToUint64_spec, H1, u64_small by done. split_and!; auto.
  destruct (decide (v = 0)) as [->|]; [done|].
  destruct H4 as (b & r & -> & ?); [zlia|]. simpl. intros [= ->]. lia.
Qed.

(** The fixed-width big-endian form the keys use. *)
Lemma Uint64ToBytes_pad v : is_u64 v ->
  make_bytes (8 - length (Uint64ToBytes v)) ++ Uint64ToBytes v = be64 v.
Proof.
  intros Hv. destruct (Uint64ToBytes_spec v Hv) as (H1 & H2 & H3 & _).
  apply be_combine_inj.
  - rewrite length_app. autorewrite with rc_rw. lia.
  - apply Forall_app; split; [|done]. apply Forall_replicate. zlia.
  - auto with rc.
  - rewrite be_combine_app, H1, be64_combine by done.
    assert (forall n, be_combine (make_bytes n) = 0) as ->; [|lia].
    unfold make_bytes. induction n; [done|]. simpl. rewrite be_combine_cons. lia.
Qed.

(** A height copied right-aligned into an eight-byte gap of a buffer. *)
Lemma copy_height_app (l r : bytes) v n : is_u64 v -> n = (length l + 8)%nat ->
  copy_at (n - length (Uint64ToBytes v)) (Uint64ToBytes v) (l ++ make_bytes 8 ++ r)
  = l ++ be64 v ++ r.
Proof.
  intros Hv ->. destruct (Uint64ToBytes_spec v Hv) as (_ & _ & Hlen & _).
  rewrite <-(Uint64ToBytes_pad v Hv).
  replace (make_bytes 8) with (make_bytes (8 - length (Uint64ToBytes v))
    ++ make_bytes (length (Uint64ToBytes v)))
    by (unfold make_bytes; rewrite <-replicate_add; f_equal; lia).
  revert Hlen. generalize (Uint64ToBytes v). intros u Hlen.
  rewrite <-!app_assoc, (app_assoc l), (app_assoc l (make_bytes _) (u ++ r)).
  rewrite <-(copy_at_app _ (make_bytes (length u)) r u) by (by rewrite length_make_bytes).
  f_equal. rewrite length_app, length_make_bytes. lia.
Qed.

(** The eight-byte database keys. *)
Lemma copy_height_key v : is_u64 v ->
  copy_at (8 - length (Uint64ToBytes v)) (Uint64ToBytes v) (make_bytes 8) = be64 v.
Proof.
  intros Hv. pose proof (copy_height_app [] [] v 8 Hv eq_refl) as H.
  by rewrite !app_nil_r in H.
Qed.

(** ** [int64] *)

Lemma Int64ToBytes_loop_spec idx v acc :
  - 2 ^ (8 * Z.of_nat (S idx) - 1) <= v < 2 ^ (8 * Z.of_nat (S idx) - 1) -> all_bytes acc ->
  let r := Int64ToBytes_loop (if v <? 0 then - 0x80 else 0) (S idx) v acc in
  tc_value r = v * 256 ^ Z.of_nat (length acc) + be_combine acc /\ all_bytes r /\
  (length r <= S idx + length acc)%nat.
Proof.
  revert v acc. induction idx as [|idx IH]; intros v acc Hv Hacc.
  all: cbn [Int64ToBytes_loop].
  all: rewrite land_ff, land_mask_128.
  all: pose proof (Z.div_mod v 256); pose proof (Z.mod_pos_bound v 256).
  all: pose proof (Z.div_mod v 128); pose proof (Z.mod_pos_bound v 128).
  all: assert (all_bytes (v mod 256 :: acc)) as Hacc' by (constructor; [zlia|done]).
  all: assert (be_combine (v mod 256 :: acc)
    = v mod 256 * 256 ^ Z.of_nat (length acc) + be_combine acc) as Ec by apply be_combine_cons.
  all: assert (- 128 <= v < 128 -> tc_value (v mod 256 :: acc)
    = v * 256 ^ Z.of_nat (length acc) + be_combine acc) as Hsmall.
  1, 3: intros Hs; unfold tc_value; rewrite Ec; simpl length;
    replace (Z.of_nat (S (length acc))) with (Z.of_nat (length acc) + 1) by lia;
    rewrite Z.pow_add_r, Z.pow_1_r by lia;
    destruct (Z.leb_spec 128 (v mod 256)); [assert (v mod 256 = v + 256) by lia|
      assert (v mod 256 = v) by lia]; nia.
  - change (2 ^ (8 * Z.of_nat 1 - 1)) with 128 in Hv.
    destruct (v <? 0) eqn:Es; bool_to_Z;
      rewrite (proj2 (Z.eqb_eq _ _)) by lia; split_and!; auto; simpl; lia.
  - destruct (v - v mod 128 =? (if v <? 0 then - 0x80 else 0)) eqn:Et.
    { assert (- 128 <= v < 128) by (destruct (v <? 0) eqn:Es; bool_to_Z; lia).
      split_and!; auto; simpl; lia. }
    rewrite shiftr_8.
    assert ((v <? 0) = (v / 256 <? 0)) as Es.
    { destruct (Z.ltb_spec v 0), (Z.ltb_spec (v / 256) 0); lia. }
    rewrite Es.
    replace (8 * Z.of_nat (S (S idx)) - 1) with (8 * Z.of_nat (S idx) - 1 + 8) in Hv by lia.
    rewrite Z.pow_add_r in Hv by lia. change (2 ^ 8) with 256 in Hv.
    destruct (IH (v / 256) (v mod 256 :: acc)) as (R1 & R2 & R3); [lia|done|].
    cbn [Int64ToBytes_loop] in R1, R2, R3.
    split_and!; [|done|simpl in *; lia]. rewrite R1, Ec. simpl length.
    replace (Z.of_nat (S (length acc))) with (Z.of_nat (length acc) + 1) by lia.
    rewrite Z.pow_add_r, Z.pow_1_r by lia. nia.
Qed.

Lemma Int64ToBytes_spec v : is_i64 v ->
  tc_value (Int64ToBytes v) = v /\ all_bytes (Int64ToBytes v) /\
  (length (Int64ToBytes v) <= 8)%nat.
Proof.
  intros Hv. unfold Int64ToBytes. destruct (v =? 0) eqn:E; bool_to_Z.
  { subst. split_and!; [done|constructor|simpl; lia]. }
  destruct (Int64ToBytes_loop_spec 7 v []) as (H1 & H2 & H3);
    [unfold is_i64 in Hv; change (8 * Z.of_nat 8 - 1) with 63; lia|constructor|].
  revert H1 H2 H3. generalize (Int64ToBytes_loop (if v <? 0 then - 0x80 else 0) 8 v []).
  intros r H1 H2 H3.
  split_and!; [|done|simpl in *; lia]. rewrite H1. unfold be_combine. simpl. lia.
Qed.

Lemma i64_fold_bound (f : Z -> Z) bs :
  (forall b, is_byte b -> is_byte (f b)) -> all_bytes bs ->
  be_combine (map f bs) < 2 ^ 63 ->
  fold_left (fun v b => Z.lor (i64 (Z.shiftl v 8)) (f b)) bs 0 = be_combine (map f bs).
Proof.
  intros Hf. induction bs as [|b bs IH] using rev_ind; [done|].
  intros [Hbs Hb']%Forall_app. inversion_clear Hb' as [|?? Hb0 _].
  rewrite fold_left_app, map_app, be_combine_app. simpl.
  change (be_combine [f b]) with (0 * 256 + f b). change (256 ^ Z.of_nat 1) with 256.
  assert (all_bytes (map f bs)) as Hm.
  { apply Forall_map. eapply Forall_impl; [exact Hbs|]. simpl. auto. }
  pose proof (be_combine_bound _ Hm). specialize (Hf b Hb0). unfold is_byte in Hf.
  intros Hlt. rewrite IH by (auto || lia). rewrite shiftl_8, i64_small by zlia.
  rewrite lor_byte by zlia. lia.
Qed.

Lemma be_combine_complement bs :
  be_combine (map (fun b => 255 - b) bs) = 256 ^ Z.of_nat (length bs) - 1 - be_combine bs.
Proof.
  induction bs as [|b bs IH]; [done|]. simpl map. rewrite !be_combine_cons, IH, length_map.
  simpl length. replace (Z.of_nat (S (length bs))) with (Z.of_nat (length bs) + 1) by lia.
  rewrite Z.pow_add_r, Z.pow_1_r by lia. lia.
Qed.

Lemma be_combine_head_lt b bs :
  all_bytes (b :: bs) -> b < 128 -> be_combine (b :: bs) < 128 * 256 ^ Z.of_nat (length bs).
Proof.
  intros Hall Hb. inversion_clear Hall as [|?? Hb0 Hbs].
  pose proof (be_combine_bound bs Hbs). rewrite be_combine_cons. unfold is_byte in *. nia.
Qed.

Lemma pow_256_le_7 n : (n <= 7)%nat -> 256 ^ Z.of_nat n <= 2 ^ 56.
Proof. intros. rewrite pow_256. apply Z.pow_le_mono_r; lia. Qed.

Lemma BytesToInt64_tc bs :
  all_bytes bs -> (length bs <= 8)%nat -> BytesToInt64 bs = tc_value bs.
Proof.
  intros Hall Hlen. destruct bs as [|b bs]; [done|].
  assert (is_byte b) as Hb by (by inversion Hall). simpl in Hlen.
  pose proof (pow_256_le_7 (length bs)) as Hp.
  pose proof (be_combine_bound _ Hall) as Hbd.
  unfold BytesToInt64, tc_value. rewrite byte_sign_bit by done.
  destruct (b <? 128) eqn:E; bool_to_Z; cbn [negb].
  - rewrite (proj2 (Z.leb_gt _ _)) by lia.
    pose proof (be_combine_head_lt _ _ Hall E) as Hlt.
    pose proof (i64_fold_bound (fun b => b) (b :: bs)) as F. rewrite map_id in F.
    rewrite F; [lia|done|done|lia].
  - rewrite (proj2 (Z.leb_le _ _)) by lia.
    pose proof (be_combine_head _ _ Hall E) as Hge.
    assert (all_bytes (map (fun b => 255 - b) (b :: bs))) as Hc.
    { apply Forall_map. eapply Forall_impl; [exact Hall|]. unfold is_byte. simpl. lia. }
    pose proof (be_combine_head_lt (255 - b) (map (fun b => 255 - b) bs) Hc) as Hlt.
    rewrite length_map in Hlt. change (255 - b :: map (fun b => 255 - b) bs)
      with (map (fun b => 255 - b) (b :: bs)) in Hlt.
    pose proof (be_combine_bound _ Hc) as Hcb.
    assert (fold_left (fun v b => Z.lor (i64 (Z.shiftl v 8)) (Z.lxor b 0xff)) (b :: bs) 0
            = be_combine (map (fun b => 255 - b) (b :: bs))) as ->.
    { rewrite <-(i64_fold_bound (fun b => 255 - b)); [|unfold is_byte; lia|done|lia].
      clear -Hall. generalize 0. induction Hall as [|x l Hx _ IH]; intros v; simpl; [done|].
      by rewrite IH, byte_complement. }
    rewrite (i64_small (- _)) by zlia. rewrite i64_small by zlia.
    rewrite be_combine_complement. lia.
Qed.

(** int64 encodings read back, both as an [int64] and as a [HexInt], and
    the encoding is the one the [big.Int] of the same value has. *)
Lemma Int64_roundtrip v : is_i64 v ->
  BytesToInt64 (Int64ToBytes v) = v /\ BigIntSetBytes (Int64ToBytes v) = v.
Proof.
  intros Hv. destruct (Int64ToBytes_spec v Hv) as (H1 & H2 & H3).
  by rewrite BytesToInt64_tc, BigIntSetBytes_tc.
Qed.

(** ** Hexadecimal text *)

Lemma hex_digit_from d : 0 <= d < 16 -> from_hex_char (hex_digit d) = Some d.
Proof.
  intros. unfold hex_digit, from_hex_char.
  destruct (Z.ltb_spec d 10); case_all; bool_to_Z; try lia; f_equal; lia.
Qed.

Lemma hex_roundtrip bs : all_bytes bs -> hex_DecodeString (hex_EncodeToString bs) = Some bs.
Proof.
  induction 1 as [|b bs Hb _ IH]; [done|]. unfold hex_EncodeToString in *. simpl.
  pose proof (Z.div_mod b 16). pose proof (Z.mod_pos_bound b 16). unfold is_byte in Hb.
  rewrite !hex_digit_from by lia. rewrite IH. do 2 f_equal. lia.
Qed.

Lemma length_hex bs : length (hex_EncodeToString bs) = (2 * length bs)%nat.
Proof. induction bs; [done|]. unfold hex_EncodeToString in *. simpl. lia. Qed.

Lemma hex_digit_range d : 0 <= d < 16 -> 48 <= hex_digit d < 58 \/ 97 <= hex_digit d < 103.
Proof. intros. unfold hex_digit. destruct (Z.ltb_spec d 10); lia. Qed.

(** The number after the sign and the 0x prefix. *)
Definition decode_digits (s : bytes) : option bytes :=
  hex_DecodeString (if Z.of_nat (length s) mod 2 =? 1 then 48 :: s else s).

Lemma decodeHexNumber_prefixed neg s : s <> [] ->
  decodeHexNumber ((if neg : bool then str "-0x" else str "0x") ++ s)
  = option_map (fun bs => (neg, bs)) (decode_digits s).
Proof.
  intros Hs. destruct s as [|c s]; [done|]. unfold decodeHexNumber, decode_digits, has_prefix2.
  destruct neg; simpl; rewrite (proj2 (Z.ltb_lt _ _)) by (simpl; lia); simpl;
    by destruct (hex_DecodeString _).
Qed.

(** Dropping the leading zero digit is undone by the padding to an even length. *)
Lemma decode_digits_encode b r : all_bytes (b :: r) ->
  let s := hex_EncodeToString (b :: r) in
  decode_digits (match s with c :: s' => if c =? 48 then s' else c :: s' | [] => [] end)
  = Some (b :: r).
Proof.
  intros Hall s. pose proof (length_hex (b :: r)) as Hl. pose proof (hex_roundtrip _ Hall) as Hd.
  fold s in Hl, Hd. unfold decode_digits. destruct s as [|c s']; [done|]. simpl length in *.
  destruct (c =? 48) eqn:Ec; bool_to_Z.
  - subst c. rewrite (proj2 (Z.eqb_eq _ _)); [done|].
    replace (Z.of_nat (length s')) with (1 + Z.of_nat (length r) * 2) by lia.
    by rewrite Z_mod_plus_full.
  - rewrite (proj2 (Z.eqb_neq _ _)); [done|]. simpl length. rewrite Hl, Nat2Z.inj_mul, Z.mul_comm.
    by rewrite Z_mod_mult.
Qed.

Lemma encode_decode_HexNumber neg bs : all_bytes bs -> head bs <> Some 0 ->
  exists n r, decodeHexNumber (encodeHexNumber neg bs) = Some (n, r) /\
    be_combine r = be_combine bs /\ (bs <> [] -> n = neg).
Proof.
  intros Hall Hhead. destruct bs as [|b r]; [by exists false, [0]|].
  assert (0 < b < 256) as Hb.
  { inversion_clear Hall as [|?? Hb _]. unfold is_byte in Hb. simpl in Hhead.
    assert (b <> 0) by congruence. lia. }
  exists neg, (b :: r). split_and!; [|done|done].
  pose proof (decode_digits_encode b r Hall) as Hd. cbv zeta in Hd.
  unfold encodeHexNumber. destruct (hex_EncodeToString (b :: r)) as [|c s'] eqn:Es.
  { pose proof (length_hex (b :: r)). by rewrite Es in *. }
  set (s := if c =? 48 then s' else c :: s') in *.
  assert (s <> []) as Hs.
  { pose proof (length_hex (b :: r)) as Hl. rewrite Es in Hl. unfold s.
    destruct (c =? 48); [destruct s'; simpl in *; [lia|done]|done]. }
  pose proof (decodeHexNumber_prefixed neg s Hs) as Hp. rewrite Hd in Hp.
  by destruct neg.
Qed.

(** The hexadecimal text of every integer is read back. *)
Lemma HexInt_text_roundtrip z : HexInt_UnmarshalText (HexInt_String z) = Some z.
Proof.
  unfold HexInt_UnmarshalText, HexInt_String.
  destruct (encode_decode_HexNumber (z <? 0) (big_Bytes z)) as (n & r & -> & Hr & Hn).
  - auto with rc.
  - destruct (decide (z = 0)) as [->|Hz]; [done|].
    destruct (big_Bytes_head z Hz) as (b & r & -> & _ & _ & _ & ?). simpl. intros [= ->]. lia.
  - unfold big_SetBytes. rewrite Hr. fold (big_SetBytes (big_Bytes z)).
    rewrite big_SetBytes_Bytes. f_equal.
    destruct (decide (z = 0)) as [->|Hz]; [by destruct n|].
    rewrite Hn by (destruct (big_Bytes_head z Hz) as (? & ? & -> & _); done).
    destruct (Z.ltb_spec z 0); lia.
Qed.
