(* ===== verification/HexText.v ===== *)
(** * Hexadecimal text of sized integers and of byte strings
    ([common/hexint.go], [common/hexbytes.go])

    [ParseInt] and [ParseUint] with the part of [strconv] they use (base 0,
    as in Go 1.12, the version of [go.mod]: decimal, a leading 0 for octal, 0x for hexadecimal),
    the types [HexInt16] to [HexUint64], [HexBytes] and [RawHexBytes] with
    their JSON forms.  Reading a JSON string is a parameter. *)

From Stdlib Require Strings.String.
From S2P Require Import Prelude Bytes HexInt.
Import String.StringSyntax.

(** ** [strconv] *)

Definition digit_val (c : byte) : option Z :=
  if (48 <=? c) && (c <=? 57) then Some (c - 48)
  else if (97 <=? c) && (c <=? 122) then Some (c - 87)
  else if (65 <=? c) && (c <=? 90) then Some (c - 55)
  else None.

Fixpoint parse_digits (base : Z) (s : bytes) (n : Z) : option Z :=
  match s with
  | [] => Some n
  | c :: s' =>
      match digit_val c with
      | Some d => if d <? base then parse_digits base s' (n * base + d) else None
      | None => None
      end
  end.

Definition parse_base (base : Z) (s : bytes) (bits : Z) : option Z :=
  match parse_digits base s 0 with Some n => if n <? 2 ^ bits then Some n else None | None => None end.

(** [strconv.ParseUint(s, 0, bits)]; its errors are not told apart by the callers. *)
Definition strconv_ParseUint (s : bytes) (bits : Z) : option Z :=
  match s with
  | [] => None
  | c :: s' =>
      if c =? 48 then
        match s' with
        | x :: s'' =>
            if (x =? 120) || (x =? 88) then match s'' with [] => None | _ => parse_base 16 s'' bits end else parse_base 8 s' bits
        | [] => parse_base 8 s' bits
        end
      else parse_base 10 s bits
  end.

(** [strconv.ParseInt(s, 0, bits)]. *)
Definition strconv_ParseInt (s : bytes) (bits : Z) : option Z :=
  let '(neg, s') :=
    match s with
    | c :: s' => if c =? 43 then (false, s') else if c =? 45 then (true, s') else (false, s)
    | [] => (false, s)
    end in
  match s, strconv_ParseUint s' bits with
  | [], _ | _, None => None
  | _, Some un =>
      let cutoff := 2 ^ (bits - 1) in
      if negb neg && (cutoff <=? un) then None
      else if neg && (cutoff <? un) then None
      else Some (if neg then i64 (- i64 un) else i64 un)
  end.

(** ** [ParseInt], [ParseUint] *)

Inductive parse_error : Type := OutOfRange | IllegalFormat | HexError.

Definition ParseInt (s : bytes) (bits : Z) : outcome parse_error Z :=
  match strconv_ParseInt s bits with
  | Some v64 => Ok v64
  | None =>
      match decodeHexNumber s with
      | Some (negative, bs) =>
          if bits <? Z.of_nat (length bs) * 8 then Err OutOfRange
          else
            let u64v := BytesToUint64 bs in
            let edge := u64 (Z.shiftl 1 (bits - 1)) in
            if negative then if edge <? u64v then Err OutOfRange else Ok (i64 (- i64 u64v))
            else if edge <=? u64v then Err OutOfRange else Ok (i64 u64v)
      | None => Err HexError
      end
  end.

Definition ParseUint (s : bytes) (bits : Z) : outcome parse_error Z :=
  match strconv_ParseUint s bits with
  | Some v64 => Ok v64
  | None =>
      match decodeHexNumber s with
      | Some (false, bs) => if bits <? Z.of_nat (length bs) * 8 then Err OutOfRange else Ok (BytesToUint64 bs)
      | _ => Err IllegalFormat
      end
  end.

(** ** The sized types *)

(** A conversion to a signed or an unsigned type of [w] bits. *)
Definition to_int (w z : Z) : Z := (z + 2 ^ (w - 1)) mod 2 ^ w - 2 ^ (w - 1).
Definition to_uint (w z : Z) : Z := z mod 2 ^ w.

Definition HexInt16_String (i : Z) : bytes := FormatInt i.
Definition HexUint16_String (i : Z) : bytes := FormatInt i.
Definition HexInt32_String (i : Z) : bytes := FormatInt i.
Definition HexUint32_String (i : Z) : bytes := FormatUint i.
Definition HexInt64_String (i : Z) : bytes := FormatInt i.
Definition HexUint64_String (i : Z) : bytes := FormatUint i.

Definition HexInt16_Bytes (i : Z) : bytes := Int64ToBytes i.
Definition HexUint16_Bytes (i : Z) : bytes := Uint64ToBytes i.
Definition HexUint64_Bytes (i : Z) : bytes := Uint64ToBytes i.

(** [json.Marshal] of a text that needs no escapes. *)
Definition json_quote (s : bytes) : bytes := 34 :: s ++ [34].

Section Json.
(** [json.Unmarshal] into a string. *)
Context (json_string : bytes -> option bytes).

Definition HexInt_MarshalJSON (i : Z) : bytes := json_quote (HexInt_String i).
Definition HexInt16_MarshalJSON (i : Z) : bytes := json_quote (HexInt16_String i).
Definition HexUint16_MarshalJSON (i : Z) : bytes := json_quote (HexUint16_String i).
Definition HexInt32_MarshalJSON (i : Z) : bytes := json_quote (HexInt32_String i).
Definition HexUint32_MarshalJSON (i : Z) : bytes := json_quote (HexUint32_String i).
Definition HexInt64_MarshalJSON (i : Z) : bytes := json_quote (HexInt64_String i).
Definition HexUint64_MarshalJSON (i : Z) : bytes := json_quote (HexUint64_String i).

(** What is not a JSON string is taken as the text itself. *)
Definition json_text (b : bytes) : bytes := match json_string b with Some s => s | None => b end.

Definition HexInt16_UnmarshalJSON (b : bytes) : outcome parse_error Z :=
  let! v64 := ParseInt (json_text b) 16 in Ok (to_int 16 v64).
Definition HexUint16_UnmarshalJSON (b : bytes) : outcome parse_error Z :=
  let! v64 := ParseUint (json_text b) 16 in Ok (to_uint 16 v64).
Definition HexInt32_UnmarshalJSON (b : bytes) : outcome parse_error Z :=
  let! v64 := ParseInt (json_text b) 32 in Ok (to_int 32 v64).
Definition HexUint32_UnmarshalJSON (b : bytes) : outcome parse_error Z :=
  let! v64 := ParseUint (json_text b) 32 in Ok (to_uint 32 v64).
Definition HexInt64_UnmarshalJSON (b : bytes) : outcome parse_error Z :=
  let! v64 := ParseInt (json_text b) 64 in Ok v64.
Definition HexUint64_UnmarshalJSON (b : bytes) : outcome parse_error Z :=
  let! v64 := ParseUint (json_text b) 64 in Ok v64.

(** ** [hexbytes.go]: nil is [None] *)

Definition RawHexBytes_String (rh : option bytes) : bytes :=
  match rh with None => [] | Some b => hex_EncodeToString b end.
Definition HexBytes_String (hs : option bytes) : bytes :=
  match hs with None => [] | Some b => str "0x" ++ hex_EncodeToString b end.

Definition RawHexBytes_MarshalJSON (rh : option bytes) : bytes :=
  match rh with None => str "nil" | Some b => json_quote (hex_EncodeToString b) end.
Definition HexBytes_MarshalJSON (hs : option bytes) : bytes :=
  match hs with None => str "nil" | Some b => json_quote (str "0x" ++ hex_EncodeToString b) end.

Definition RawHexBytes_UnmarshalJSON (b : bytes) : option bytes :=
  match json_string b with Some s => hex_DecodeString s | None => None end.
Definition HexBytes_UnmarshalJSON (b : bytes) : option bytes :=
  match json_string b with
  | Some s => hex_DecodeString (if (2 <=? Z.of_nat (length s)) && has_prefix2 (str "0x") s then drop 2 s else s)
  | None => None
  end.

End Json.

(** Reading is decimal first and hexadecimal only where that fails. *)
Example ParseInt_ex :
  map (fun s => ParseInt s 16)
    [str "10"; str "1a"; str "010"; str "0x7fff"; str "0x8000"; str "-0x8000"; str ""; str "-"; str "zz"]
  = [Ok 10; Ok 26; Ok 8; Ok 32767; Err OutOfRange; Ok (-32768); Ok 0; Ok 0; Err HexError].
Proof. by vm_compute. Qed.

(** ** Ranges *)

Lemma from_hex_range c x : from_hex_char c = Some x -> 0 <= x < 16.
Proof. unfold from_hex_char. intros E. repeat case_match; simplify_eq; bool_to_Z; lia. Qed.

Lemma hex_DecodeString_bytes s bs : hex_DecodeString s = Some bs -> all_bytes bs.
Proof.
  revert s bs. fix IH 1. intros [|a [|b s]] bs; cbn [hex_DecodeString]; [by intros [= <-]|done|].
  destruct (from_hex_char a) as [x|] eqn:Ex; [|done]. destruct (from_hex_char b) as [y|] eqn:Ey; [|done].
  specialize (IH s). destruct (hex_DecodeString s) as [r|]; [|done]. intros [= <-].
  apply from_hex_range in Ex, Ey. constructor; [zlia|by apply IH].
Qed.

Lemma decodeHexNumber_bytes s neg bs : decodeHexNumber s = Some (neg, bs) -> all_bytes bs.
Proof.
  unfold decodeHexNumber.
  match goal with |- context [let '(_, _) := ?m in _] => destruct m as [n s'] end.
  destruct (hex_DecodeString _) eqn:E; [|done]. intros [= _ <-]. by eapply hex_DecodeString_bytes.
Qed.

Lemma digit_val_range c d : digit_val c = Some d -> 0 <= d < 36.
Proof. unfold digit_val. intros E. repeat case_match; simplify_eq; bool_to_Z; lia. Qed.

Lemma parse_digits_pos base s n m : 0 <= base -> 0 <= n -> parse_digits base s n = Some m -> 0 <= m.
Proof.
  intros Hb. revert n. induction s as [|c s IH]; intros n Hn; cbn; [by intros [= <-]|].
  destruct (digit_val c) as [d|] eqn:E; [|done]. destruct (d <? base); [|done]. apply IH.
  apply digit_val_range in E. nia.
Qed.

Lemma parse_base_range base s bits n : 0 <= base -> parse_base base s bits = Some n -> 0 <= n < 2 ^ bits.
Proof.
  intros Hb. unfold parse_base. destruct (parse_digits base s 0) as [m|] eqn:E; [|done].
  apply parse_digits_pos in E; [|done..]. destruct (m <? 2 ^ bits) eqn:E2; [|done]. intros [= <-]. bool_to_Z. lia.
Qed.

Lemma strconv_ParseUint_range s bits n : strconv_ParseUint s bits = Some n -> 0 <= n < 2 ^ bits.
Proof.
  unfold strconv_ParseUint. intros Hs. repeat case_match; try done; by eapply parse_base_range in Hs.
Qed.

Lemma edge_power bits : 0 < bits <= 64 -> u64 (Z.shiftl 1 (bits - 1)) = 2 ^ (bits - 1) /\
  2 ^ (bits - 1) <= 2 ^ 63.
Proof.
  intros Hb. assert (2 ^ (bits - 1) <= 2 ^ 63) by (apply Z.pow_le_mono_r; lia).
  assert (0 < 2 ^ (bits - 1)) by (apply Z.pow_pos_nonneg; lia).
  rewrite Z.shiftl_mul_pow2, Z.mul_1_l by lia. split; [apply u64_small; zlia|done].
Qed.

(** The negation of a magnitude that may be the edge itself. *)
Lemma neg_i64 u : 0 <= u <= 2 ^ 63 -> i64 (- i64 u) = - u.
Proof.
  intros Hu. destruct (decide (u = 2 ^ 63)) as [->|]; [by vm_compute|].
  by rewrite (i64_small u), i64_small by zlia.
Qed.

Lemma strconv_ParseInt_range s bits n : 0 < bits <= 64 -> strconv_ParseInt s bits = Some n ->
  - 2 ^ (bits - 1) <= n < 2 ^ (bits - 1).
Proof.
  intros Hb Hs. unfold strconv_ParseInt in Hs. destruct (edge_power bits Hb) as [_ He].
  match type of Hs with context [let '(_, _) := ?m in _] => destruct m as [neg s'] end. destruct s as [|c s]; [done|].
  destruct (strconv_ParseUint s' bits) as [un|] eqn:E; [|done]. apply strconv_ParseUint_range in E.
  destruct neg; cbn [negb andb] in Hs.
  - destruct (2 ^ (bits - 1) <? un) eqn:E1; [done|]. injection Hs as <-. bool_to_Z. rewrite neg_i64 by lia. lia.
  - destruct (2 ^ (bits - 1) <=? un) eqn:E1; [done|]. injection Hs as <-. bool_to_Z. rewrite i64_small by zlia. lia.
Qed.

(** ParseInt and ParseUint give a number of the width asked for, whatever the
    text: decimal, octal, hexadecimal with and without its prefix, or none. *)
Lemma ParseInt_range s bits v : 0 < bits <= 64 -> ParseInt s bits = Ok v ->
  - 2 ^ (bits - 1) <= v < 2 ^ (bits - 1).
Proof.
  intros Hb Hp. unfold ParseInt in Hp. destruct (strconv_ParseInt s bits) as [n|] eqn:E.
  { injection Hp as <-. by eapply strconv_ParseInt_range. }
  destruct (edge_power bits Hb) as [Hedge He]. rewrite Hedge in Hp.
  destruct (decodeHexNumber s) as [[neg bs]|] eqn:Eh; [|done]. destruct (bits <? _) eqn:E1; [done|].
  assert (is_u64 (BytesToUint64 bs)) as Hu.
  { rewrite BytesToUint64_spec by (by eapply decodeHexNumber_bytes). apply u64_range. }
  destruct neg; [destruct (_ <? BytesToUint64 bs) eqn:E2|destruct (_ <=? BytesToUint64 bs) eqn:E2]; try done;
    injection Hp as <-; bool_to_Z.
  - rewrite neg_i64 by zlia. zlia.
  - rewrite i64_small by zlia. zlia.
Qed.


(** ** Texts read back *)

Lemma hex_digit_val d : 0 <= d < 16 -> digit_val (hex_digit d) = Some d.
Proof.
  intros. unfold hex_digit, digit_val. destruct (Z.ltb_spec d 10); case_all; bool_to_Z; try lia; f_equal; lia.
Qed.

Lemma parse_hex bs n : all_bytes bs ->
  parse_digits 16 (hex_EncodeToString bs) n = Some (n * 256 ^ Z.of_nat (length bs) + be_combine bs).
Proof.
  intros Hbs. revert n. induction Hbs as [|b bs Hb _ IH]; intros n.
  { cbn. f_equal. change (be_combine []) with 0. lia. }
  unfold hex_EncodeToString. cbn [map concat]. cbn [app parse_digits].
  assert (0 <= b / 16 < 16) as H1 by (unfold is_byte in Hb; pose proof (Z.div_mod b 16); pose proof (Z.mod_pos_bound b 16); lia).
  assert (0 <= b mod 16 < 16) as H2 by (apply Z.mod_pos_bound; lia).
  rewrite !hex_digit_val, !(proj2 (Z.ltb_lt _ 16)) by lia.
  change (concat (map _ bs)) with (hex_EncodeToString bs). rewrite IH. f_equal.
  rewrite be_combine_cons. cbn [length]. replace (Z.of_nat (S (length bs))) with (Z.of_nat (length bs) + 1) by lia.
  rewrite Z.pow_add_r, Z.pow_1_r by lia. pose proof (Z.div_mod b 16). nia.
Qed.

(** The text of a magnitude: a sign, the prefix and at least one digit. *)
Lemma encodeHexNumber_text neg bs : all_bytes bs -> exists s,
  encodeHexNumber neg bs = (if neg && negb (bool_decide (bs = [])) then [45] else []) ++ 48 :: 120 :: s /\
  s <> [] /\ parse_digits 16 s 0 = Some (be_combine bs).
Proof.
  intros Hbs. pose proof (parse_hex bs 0 Hbs) as Hp. rewrite Z.mul_0_l, Z.add_0_l in Hp.
  unfold encodeHexNumber. destruct bs as [|b bs].
  { exists [48]. by destruct neg. }
  rewrite bool_decide_false by done. rewrite andb_true_r.
  assert (exists d t, hex_EncodeToString (b :: bs) = hex_digit (b / 16) :: d :: t) as (d & t & E).
  { unfold hex_EncodeToString. cbn [map concat]. by eexists _, _. }
  rewrite E in Hp |- *. destruct (hex_digit (b / 16) =? 48) eqn:E0; bool_to_Z.
  - exists (d :: t). split_and!; [by destruct neg|done|]. rewrite E0 in Hp. cbn in Hp |- *. exact Hp.
  - eexists. split_and!; [by destruct neg|done|exact Hp].
Qed.

Lemma ParseUint_FormatUint v bits : 0 <= bits <= 64 -> 0 <= v < 2 ^ bits -> ParseUint (FormatUint v) bits = Ok v.
Proof.
  intros Hb Hv. assert (2 ^ bits <= 2 ^ 64) by (apply Z.pow_le_mono_r; lia).
  destruct (Uint64ToBytes_spec v) as (H1 & H2 & _); [zlia|].
  destruct (encodeHexNumber_text false (Uint64ToBytes v) H2) as (s & E & Hs & Hp). unfold FormatUint, ParseUint.
  rewrite E, H1 in *. cbn. unfold parse_base. rewrite Hp, (proj2 (Z.ltb_lt _ _)) by lia. by destruct s.
Qed.

Lemma ParseInt_text (neg : bool) s u bits : 0 < bits <= 64 -> s <> [] -> parse_digits 16 s 0 = Some u ->
  0 <= u -> (if neg then u <= 2 ^ (bits - 1) else u < 2 ^ (bits - 1)) ->
  ParseInt ((if neg then [45] else []) ++ 48 :: 120 :: s) bits = Ok (if neg then - u else u).
Proof.
  intros Hb Hs Hp H0 Hu. destruct (edge_power bits Hb) as [_ He].
  assert (2 ^ bits = 2 ^ (bits - 1) * 2) as Hpow by (apply pow2_half; lia).
  assert (0 < 2 ^ (bits - 1)) by (apply Z.pow_pos_nonneg; lia).
  assert (strconv_ParseUint (48 :: 120 :: s) bits = Some u) as Hparse.
  { cbn. unfold parse_base. rewrite Hp, (proj2 (Z.ltb_lt _ _)) by (destruct neg; lia). by destruct s. }
  unfold ParseInt, strconv_ParseInt. destruct neg; cbn [app].
  - change (45 =? 43) with false. change (45 =? 45) with true. cbn iota. rewrite Hparse. cbn [negb andb].
    rewrite (proj2 (Z.ltb_ge _ _)) by lia. rewrite neg_i64 by lia. done.
  - change (48 =? 43) with false. change (48 =? 45) with false. cbn iota. rewrite Hparse. cbn [negb andb].
    rewrite (proj2 (Z.leb_gt _ _)) by lia. by rewrite i64_small by zlia.
Qed.

Lemma ParseInt_FormatInt v bits : 0 < bits <= 64 -> - 2 ^ (bits - 1) <= v < 2 ^ (bits - 1) ->
  ParseInt (FormatInt v) bits = Ok v.
Proof.
  intros Hb Hv. destruct (edge_power bits Hb) as [_ He]. unfold FormatInt. destruct (v <? 0) eqn:E; bool_to_Z.
  - assert (u64 (i64 (- v)) = - v) as ->.
    { destruct (decide (v = - 2 ^ 63)) as [->|]; [by vm_compute|]. rewrite i64_small, u64_small by zlia. done. }
    destruct (Uint64ToBytes_spec (- v)) as (H1 & H2 & _); [zlia|].
    destruct (encodeHexNumber_text true (Uint64ToBytes (- v)) H2) as (s & -> & Hs & Hp). rewrite H1 in Hp.
    rewrite bool_decide_false by (intros Hn; rewrite Hn in H1; clear Hn; cbn in H1; lia).
    change (true && negb false) with true.
    rewrite (ParseInt_text true s (- v)) by (done || lia). f_equal. lia.
  - rewrite u64_small by zlia. destruct (Uint64ToBytes_spec v) as (H1 & H2 & _); [zlia|].
    destruct (encodeHexNumber_text false (Uint64ToBytes v) H2) as (s & -> & Hs & Hp). rewrite H1 in Hp.
    by rewrite (ParseInt_text false s v) by (done || lia).
Qed.

Section JsonLaws.
(** A JSON parser reads a quoted text without quotes, backslashes and control
    characters back. *)
Context (json_string : bytes -> option bytes).
Definition plain (s : bytes) : Prop := Forall (fun c => 32 <= c < 127 /\ c <> 34 /\ c <> 92) s.
Context (json_quoted : forall s, plain s -> json_string (json_quote s) = Some s).

Lemma hex_plain bs : all_bytes bs -> plain (hex_EncodeToString bs).
Proof.
  unfold plain. induction 1 as [|b bs Hb _ IH]; [constructor|]. unfold hex_EncodeToString. cbn [map concat app].
  assert (0 <= b / 16 < 16) as H1 by (unfold is_byte in Hb; pose proof (Z.div_mod b 16); pose proof (Z.mod_pos_bound b 16); lia).
  assert (0 <= b mod 16 < 16) as H2 by (apply Z.mod_pos_bound; lia).
  apply hex_digit_range in H1, H2. constructor; [lia|]. constructor; [lia|exact IH].
Qed.

Lemma encodeHexNumber_plain neg bs : all_bytes bs -> plain (encodeHexNumber neg bs).
Proof.
  intros Hbs. apply hex_plain in Hbs. unfold encodeHexNumber.
  assert (plain (str "0x0") /\ plain (str "0x") /\ plain (str "-0x")) as (H1 & H2 & H3).
  { split_and!; apply (bool_decide_unpack _); by vm_compute. }
  destruct (hex_EncodeToString bs) as [|c s]; [done|]. unfold plain in *.
  apply Forall_cons in Hbs as [Hc Hs]. destruct neg, (c =? 48); apply Forall_app; split; try done; by constructor.
Qed.

Lemma FormatInt_plain v : is_i64 v -> plain (FormatInt v).
Proof.
  intros Hv. unfold FormatInt. destruct (v <? 0); apply encodeHexNumber_plain; apply Uint64ToBytes_spec; apply u64_range.
Qed.

Lemma FormatUint_plain v : is_u64 v -> plain (FormatUint v).
Proof. intros Hv. apply encodeHexNumber_plain. by apply Uint64ToBytes_spec. Qed.

Lemma to_int_id w z : 0 < w -> - 2 ^ (w - 1) <= z < 2 ^ (w - 1) -> to_int w z = z.
Proof. intros Hw Hz. pose proof (pow2_half w Hw). unfold to_int. rewrite Z.mod_small; lia. Qed.

(** The JSON form of every sized integer reads back: the six types write a
    quoted hexadecimal text, and reading tries decimal first, which never
    takes such a text for another number; the smallest negative numbers included. *)
Lemma hex_json_roundtrip :
  (forall i, - 2 ^ 15 <= i < 2 ^ 15 -> HexInt16_UnmarshalJSON json_string (HexInt16_MarshalJSON i) = Ok i) /\
  (forall i, 0 <= i < 2 ^ 16 -> HexUint16_UnmarshalJSON json_string (HexUint16_MarshalJSON i) = Ok i) /\
  (forall i, - 2 ^ 31 <= i < 2 ^ 31 -> HexInt32_UnmarshalJSON json_string (HexInt32_MarshalJSON i) = Ok i) /\
  (forall i, 0 <= i < 2 ^ 32 -> HexUint32_UnmarshalJSON json_string (HexUint32_MarshalJSON i) = Ok i) /\
  (forall i, - 2 ^ 63 <= i < 2 ^ 63 -> HexInt64_UnmarshalJSON json_string (HexInt64_MarshalJSON i) = Ok i) /\
  (forall i, 0 <= i < 2 ^ 64 -> HexUint64_UnmarshalJSON json_string (HexUint64_MarshalJSON i) = Ok i).
Proof.
  assert (forall i, 0 <= i < 2 ^ 63 -> FormatInt i = FormatUint i) as Heq.
  { intros i Hi. unfold FormatInt, FormatUint. by rewrite (proj2 (Z.ltb_ge _ _)), u64_small by zlia. }
  split_and!; intros i Hi;
    unfold HexInt16_MarshalJSON, HexUint16_MarshalJSON, HexInt32_MarshalJSON, HexUint32_MarshalJSON,
      HexInt64_MarshalJSON, HexUint64_MarshalJSON, HexInt16_UnmarshalJSON, HexUint16_UnmarshalJSON,
      HexInt32_UnmarshalJSON, HexUint32_UnmarshalJSON, HexInt64_UnmarshalJSON, HexUint64_UnmarshalJSON,
      HexInt16_String, HexUint16_String, HexInt32_String, HexUint32_String, HexInt64_String, HexUint64_String, json_text.
  all: rewrite ?(Heq i) by lia.
  all: rewrite json_quoted by ((apply FormatInt_plain || apply FormatUint_plain); zlia).
  all: first [rewrite ParseInt_FormatInt by lia | rewrite ParseUint_FormatUint by lia]; cbn [obind]; f_equal.
  all: first [by apply to_int_id | by apply Z.mod_small].
Qed.

(** Byte strings read back; a nil one is written as [nil], which is no JSON. *)
Lemma HexBytes_roundtrip bs : all_bytes bs ->
  HexBytes_UnmarshalJSON json_string (HexBytes_MarshalJSON (Some bs)) = Some bs /\
  RawHexBytes_UnmarshalJSON json_string (RawHexBytes_MarshalJSON (Some bs)) = Some bs.
Proof.
  intros Hbs. pose proof (hex_plain bs Hbs) as Hp.
  unfold HexBytes_UnmarshalJSON, HexBytes_MarshalJSON, RawHexBytes_UnmarshalJSON, RawHexBytes_MarshalJSON.
  rewrite !json_quoted; [|done|].
  - rewrite hex_roundtrip by done. split; [|done].
    assert ((2 <=? Z.of_nat (length (str "0x" ++ hex_EncodeToString bs))) = true) as ->.
    { apply Z.leb_le. rewrite length_app. cbn. lia. }
    by apply hex_roundtrip.
  - apply Forall_app. split; [|done]. apply (bool_decide_unpack _). by vm_compute.
Qed.

End JsonLaws.
