(* ===== verification/Flags.v ===== *)
(** * Command lines: the package [flag] of Go

    What the programs under [cmd/] use of it.  A flag is a name with the
    assignment its text makes to the variables of the program ([Var] names of
    [flag.StringVar] and the like: two names may assign one variable), and tells
    whether it is boolean and needs no text.  [Parse] reads arguments up to the
    first that is no flag, as in Go 1.12.  All sets are made with [ExitOnError]: an
    error ends the process with status 2. *)

From Stdlib Require Strings.String.
From S2P Require Import Prelude Bytes HexInt HexText.
Import String.StringSyntax.

Inductive flag_error := BadFlagSyntax | FlagNotDefined | InvalidValue | NeedsArgument | FlagHelp.

(** How a program ends before it has done its work. *)
Inductive exit := Exit (status : Z).

Definition minus : byte := 45.
Definition equals : byte := 61.

Section Flags.
(** The variables. *)
Context {V : Type}.

Record CmdFlag := mkFlag { f_Name : bytes; f_IsBool : bool; f_Set : bytes -> V -> option V }.
Definition FlagSet : Type := list CmdFlag.

Definition StringVar (name : bytes) (assign : bytes -> V -> V) : CmdFlag :=
  mkFlag name false (fun s v => Some (assign s v)).

(** [strconv.ParseUint(s, 0, 64)] and [strconv.ParseInt(s, 0, 64)]. *)
Definition Uint64Var (name : bytes) (assign : Z -> V -> V) : CmdFlag :=
  mkFlag name false (fun s v => n ← strconv_ParseUint s 64; Some (assign n v)).
Definition IntVar (name : bytes) (assign : Z -> V -> V) : CmdFlag :=
  mkFlag name false (fun s v => n ← strconv_ParseInt s 64; Some (assign n v)).

(** [strconv.ParseBool]. *)
Definition true_texts : list bytes := [str "1"; str "t"; str "T"; str "true"; str "TRUE"; str "True"].
Definition false_texts : list bytes := [str "0"; str "f"; str "F"; str "false"; str "FALSE"; str "False"].
Definition ParseBool (s : bytes) : option bool :=
  if bool_decide (s ∈ true_texts) then Some true else if bool_decide (s ∈ false_texts) then Some false else None.
Definition BoolVar (name : bytes) (assign : bool -> V -> V) : CmdFlag :=
  mkFlag name true (fun s v => b ← ParseBool s; Some (assign b v)).

Fixpoint flag_lookup (name : bytes) (fs : FlagSet) : option CmdFlag :=
  match fs with
  | [] => None
  | f :: fs => if bool_decide (f_Name f = name) then Some f else flag_lookup name fs
  end.

(** ** One argument *)

Inductive arg_kind :=
  | NotAFlag
  | Terminator
  | BadSyntax
  | AFlag (name : bytes) (value : option bytes).

(** The name up to the first [=] that is not its first character, and what
    follows. *)
Fixpoint split_equals (s : bytes) : bytes * option bytes :=
  match s with
  | [] => ([], None)
  | c :: s => if c =? equals then ([], Some s) else let '(n, v) := split_equals s in (c :: n, v)
  end.

Definition flag_body (name : bytes) : arg_kind :=
  match name with
  | [] => BadSyntax
  | c :: name' =>
      if (c =? minus) || (c =? equals) then BadSyntax
      else let '(n, v) := split_equals name' in AFlag (c :: n) v
  end.

Definition read_arg (s : bytes) : arg_kind :=
  match s with
  | c :: d :: s' =>
      if negb (c =? minus) then NotAFlag
      else if d =? minus then match s' with [] => Terminator | _ => flag_body s' end
      else flag_body (d :: s')
  | _ => NotAFlag
  end.

(** ** All arguments

    The variables and the arguments that are left. *)

Definition is_help (name : bytes) : bool := bool_decide (name = str "help") || bool_decide (name = str "h").

Fixpoint Parse (fs : FlagSet) (args : list bytes) (v : V) : outcome flag_error (V * list bytes) :=
  match args with
  | [] => Ok (v, [])
  | a :: args =>
      match read_arg a with
      | NotAFlag => Ok (v, a :: args)
      | Terminator => Ok (v, args)
      | BadSyntax => Err BadFlagSyntax
      | AFlag name value =>
          match flag_lookup name fs with
          | None => Err (if is_help name then FlagHelp else FlagNotDefined)
          | Some f =>
              if f_IsBool f then
                match f_Set f (default (str "true") value) v with
                | Some v => Parse fs args v
                | None => Err InvalidValue
                end
              else
                match value, args with
                | Some value, _ =>
                    match f_Set f value v with Some v => Parse fs args v | None => Err InvalidValue end
                | None, value :: args =>
                    match f_Set f value v with Some v => Parse fs args v | None => Err InvalidValue end
                | None, [] => Err NeedsArgument
                end
          end
      end
  end.

(** With [ExitOnError]. *)
Definition ParseOrExit (fs : FlagSet) (args : list bytes) (v : V) : outcome exit V :=
  match Parse fs args v with
  | Ok (v, _) => Ok v
  | Err _ => Err (Exit 2)
  | Panic => Panic
  end.

(** ** Assignments

    What a command line is written for: a list of names with their texts. *)

Definition assignment : Type := bytes * bytes.

(** A name that can be written behind a minus. *)
Definition flag_name (name : bytes) : Prop :=
  match name with [] => False | c :: _ => c <> minus /\ equals ∉ name end.

(** The spellings of an assignment; a boolean flag can be set to true by its
    name alone and does not take the next argument. *)
Inductive spelled (f : CmdFlag) (value : bytes) : list bytes -> Prop :=
  | spelled_equals : spelled f value [minus :: f_Name f ++ equals :: value]
  | spelled_equals2 : spelled f value [minus :: minus :: f_Name f ++ equals :: value]
  | spelled_next : f_IsBool f = false -> spelled f value [minus :: f_Name f; value]
  | spelled_next2 : f_IsBool f = false -> spelled f value [minus :: minus :: f_Name f; value]
  | spelled_bool : f_IsBool f = true -> value = str "true" -> spelled f value [minus :: f_Name f]
  | spelled_bool2 : f_IsBool f = true -> value = str "true" -> spelled f value [minus :: minus :: f_Name f].

Fixpoint assign_all (fs : FlagSet) (l : list assignment) (v : V) : outcome flag_error V :=
  match l with
  | [] => Ok v
  | (name, value) :: l =>
      match flag_lookup name fs with
      | None => Err FlagNotDefined
      | Some f => match f_Set f value v with Some v => assign_all fs l v | None => Err InvalidValue end
      end
  end.

(** Arguments that spell assignments to flags of the set. *)
Inductive command_line (fs : FlagSet) : list assignment -> list bytes -> Prop :=
  | line_nil : command_line fs [] []
  | line_cons f value args l rest :
      flag_lookup (f_Name f) fs = Some f -> spelled f value args -> command_line fs l rest ->
      command_line fs ((f_Name f, value) :: l) (args ++ rest).

Lemma split_equals_name name s : equals ∉ name ->
  split_equals (name ++ s) = (name ++ (split_equals s).1, (split_equals s).2).
Proof.
  induction name as [|c name IH]; intros Hn; cbn [app split_equals]; [by destruct (split_equals s)|].
  apply not_elem_of_cons in Hn as [Hc Hn]. rewrite IH by done. by rewrite (proj2 (Z.eqb_neq _ _)) by congruence.
Qed.

Lemma flag_body_name name s : flag_name name ->
  flag_body (name ++ s) = AFlag (name ++ (split_equals s).1) (split_equals s).2.
Proof.
  destruct name as [|c name]; [done|]. intros [Hm Hn]. apply not_elem_of_cons in Hn as [Hc Hn]. cbn [app flag_body].
  rewrite (proj2 (Z.eqb_neq _ _) Hm), (proj2 (Z.eqb_neq c equals)) by congruence. cbn [orb].
  by rewrite split_equals_name.
Qed.

Lemma read_arg_name name s : flag_name name ->
  read_arg (minus :: name ++ s) = AFlag (name ++ (split_equals s).1) (split_equals s).2 /\
  read_arg (minus :: minus :: name ++ s) = AFlag (name ++ (split_equals s).1) (split_equals s).2.
Proof.
  intros Hn. pose proof (flag_body_name name s Hn) as Hb. destruct name as [|c name]; [done|].
  cbn [app read_arg] in *. rewrite Z.eqb_refl. cbn [negb]. split; [|done].
  destruct Hn as [Hm _]. by rewrite (proj2 (Z.eqb_neq _ _) Hm).
Qed.

Definition set_and_parse (fs : FlagSet) (f : CmdFlag) (value : bytes) (rest : list bytes) (v : V) :=
  match f_Set f value v with Some v => Parse fs rest v | None => Err InvalidValue end.

Lemma Parse_spelled fs f value args rest v :
  flag_name (f_Name f) -> flag_lookup (f_Name f) fs = Some f -> spelled f value args ->
  Parse fs (args ++ rest) v = set_and_parse fs f value rest v.
Proof.
  intros Hn Hf Hs.
  pose proof (read_arg_name (f_Name f) (equals :: value) Hn) as [He1 He2].
  pose proof (read_arg_name (f_Name f) [] Hn) as [Hp1 Hp2]. 
  change (split_equals (equals :: value)) with (@nil byte, Some value) in He1, He2. change (split_equals []) with (@nil byte, @None bytes) in Hp1, Hp2.
  cbn [fst snd] in He1, He2, Hp1, Hp2. rewrite !app_nil_r in *.
  destruct Hs as [| |Hb|Hb|Hb ->|Hb ->]; cbn [app Parse]; rewrite ?He1, ?He2, ?Hp1, ?Hp2, Hf, ?Hb;
    [by destruct (f_IsBool f)..|done|done|done|done].
Qed.

(** A command line means its assignments: however each is spelled, with one
    minus or two, with [=] or with its text as the next argument, the name of a
    boolean flag alone, [Parse] makes them one after the other, a later one
    over an earlier, stops at the first text a flag refuses, and leaves what
    comes after a [--] to the program. *)
Lemma Parse_command_line fs l args rest v :
  Forall (fun f => flag_name (f_Name f)) fs -> command_line fs l args ->
  Parse fs (args ++ str "--" :: rest) v = (let! v := assign_all fs l v in Ok (v, rest)) /\
  Parse fs args v = (let! v := assign_all fs l v in Ok (v, [])).
Proof.
  intros Hnames Hl. revert v. induction Hl as [|f value args l tail Hf Hs Hl IH]; intros v; [done|].
  assert (Hn : flag_name (f_Name f)).
  { clear -Hnames Hf. induction Hnames as [|g fs Hg Hnames IH]; [done|]. cbn in Hf. case_bool_decide; [|by apply IH].
    by injection Hf as <-. }
  rewrite <-app_assoc, !(Parse_spelled fs f value) by done. cbn [assign_all]. rewrite Hf. unfold set_and_parse.
  destruct (f_Set f value v) as [v'|]; [apply IH|done].
Qed.

Lemma ParseOrExit_line fs l args v v' :
  Forall (fun f => flag_name (f_Name f)) fs -> command_line fs l args -> assign_all fs l v = Ok v' ->
  ParseOrExit fs args v = Ok v'.
Proof.
  intros Hn Hl Ha. destruct (Parse_command_line fs l args [] v Hn Hl) as [_ E]. unfold ParseOrExit. by rewrite E, Ha.
Qed.
End Flags.

#[global] Instance flag_name_dec name : Decision (flag_name name).
Proof. destruct name; cbn; apply _. Defined.
Arguments CmdFlag : clear implicits.
Arguments FlagSet : clear implicits.

(** ** Variables named by their flags

    [flag.String(name, value, usage)] and the like make the variable, one for
    each name.  It has its default until it is set. *)

Inductive optval := OString (s : bytes) | OUint (n : Z) | OInt (n : Z) | OBool (b : bool).
Definition opts : Type := gmap bytes optval.

Definition String_flag (name : bytes) : CmdFlag opts := StringVar name (fun s => insert name (OString s)).
Definition Uint64_flag (name : bytes) : CmdFlag opts := Uint64Var name (fun n => insert name (OUint n)).
Definition Int_flag (name : bytes) : CmdFlag opts := IntVar name (fun n => insert name (OInt n)).
Definition Bool_flag (name : bytes) : CmdFlag opts := BoolVar name (fun b => insert name (OBool b)).

Definition get_string (name value : bytes) (o : opts) : bytes := match o !! name with Some (OString s) => s | _ => value end.
Definition get_uint (name : bytes) (value : Z) (o : opts) : Z := match o !! name with Some (OUint n) => n | _ => value end.
Definition get_int (name : bytes) (value : Z) (o : opts) : Z := match o !! name with Some (OInt n) => n | _ => value end.
Definition get_bool (name : bytes) (value : bool) (o : opts) : bool := match o !! name with Some (OBool b) => b | _ => value end.
