(* ===== verification/Rlp.v ===== *)
(** * RLP serialisation ([common/codec/rlp.go])

    The encoder writes values found by reflection as byte strings and nested
    containers, the decoder reads them back into a value of a given type.  A
    type and a value are trees ([gotype], [govalue]) of the kinds that
    [encodeValue] and [decodeValue] tell apart; a nil slice and an empty one
    are written alike and are one value here.  Types with methods of their own
    ([RLPSelfer], [BinaryMarshaler]) are not modelled.

    The encoder's writer is a [bytes.Buffer], the bytes written so far, which
    never fails.  The decoder's reader is the rest of the input under a stack
    of [io.LimitReader]s that share it. *)

From S2P Require Import Prelude Bytes HexInt.

#[local] Set Warnings "-register-all".

(** ** Numbers *)

Fixpoint uint64ToBytes_loop (idx : nat) (v : Z) (buf : bytes) : bytes :=
  match idx with
  | O => buf
  | S idx' =>
      let buf' := Z.land v 0xff :: buf in
      let v' := Z.shiftr v 8 in
      if v' =? 0 then buf' else uint64ToBytes_loop idx' v' buf'
  end.

Definition uint64ToBytes (v : Z) : bytes := uint64ToBytes_loop 8 v [].

(** [buf[i] |= 0x80] on the first byte kept. *)
Definition mark_negative (buf : bytes) : bytes :=
  match buf with b :: r => Z.lor b 0x80 :: r | [] => [] end.

(** The loop over the magnitude: the top byte must leave its sign bit free. *)
Fixpoint int64ToBytes_loop (idx : nat) (v : Z) (buf : bytes) : bytes :=
  match idx with
  | O => mark_negative buf
  | S idx' =>
      let buf' := Z.land v 0xff :: buf in
      if negb (Z.land v 0x80 =? 0) then int64ToBytes_loop idx' (Z.shiftr v 8) buf'
      else if Z.shiftr v 8 =? 0 then mark_negative buf'
      else int64ToBytes_loop idx' (Z.shiftr v 8) buf'
  end.

Definition int64ToBytes (v : Z) : bytes :=
  if 0 <=? v then uint64ToBytes (u64 v) else int64ToBytes_loop 8 (i64 (- v)) [].

Definition bytesToUint64 (bs : bytes) : Z :=
  fold_left (fun value b => u64 (u64 (Z.shiftl value 8) + b)) bs 0.

Definition bytesToInt64 (bs : bytes) : Z :=
  let add value b := i64 (i64 (Z.shiftl value 8) + b) in
  match bs with
  | [] => 0
  | b :: r =>
      if negb (Z.land b 0x80 =? 0) then i64 (- fold_left add (Z.land b 0x7f :: r) 0)
      else fold_left add bs 0
  end.

Definition sizeToBytes (s : Z) : bytes := uint64ToBytes (u64 s).
Definition bytesTosize (b : bytes) : Z := i64 (bytesToUint64 b).

(** ** Types and values *)

Inductive gotype : Type :=
  | TBool
  | TUint (w : Z)
  | TInt (w : Z)
  | TBytes
  | TByteArray (n : nat)
  | TSlice (t : gotype)
  | TArray (n : nat) (t : gotype)
  | TString
  | TPtr (t : gotype)
  | TStruct (fields : list (bool * gotype))
  | TMap (k v : gotype)
  | TOther.

(** A field of [TStruct] carries whether it can be set (is exported).  A map's
    entries are listed in the order [MapKeys] returns them. *)
Inductive govalue : Type :=
  | VBool (b : bool)
  | VUint (z : Z)
  | VInt (z : Z)
  | VBytes (bs : bytes)
  | VByteArray (bs : bytes)
  | VSlice (vs : list govalue)
  | VArray (vs : list govalue)
  | VString (s : bytes)
  | VNil
  | VPtr (v : govalue)
  | VStruct (vs : list govalue)
  | VMap (kvs : list (govalue * govalue))
  | VOther.

(** The zero value of a type. *)
Fixpoint zero_value (t : gotype) : govalue :=
  match t with
  | TBool => VBool false
  | TUint _ => VUint 0
  | TInt _ => VInt 0
  | TBytes => VBytes []
  | TByteArray n => VByteArray (make_bytes n)
  | TSlice _ => VSlice []
  | TArray n t => VArray (replicate n (zero_value t))
  | TString => VString []
  | TPtr _ => VNil
  | TStruct fs => VStruct (map (fun f => zero_value f.2) fs)
  | TMap _ _ => VMap []
  | TOther => VOther
  end.

(** ** Encoder *)

(** An encoder with what it has written and the container it has open, whose
    bytes are not written yet. *)
Inductive rlpEncoder : Type :=
  | Encoder (written : bytes) (container : option rlpEncoder).

Definition written (e : rlpEncoder) : bytes := let '(Encoder w _) := e in w.

Definition writeAll (b : bytes) (e : rlpEncoder) : rlpEncoder :=
  let '(Encoder w c) := e in Encoder (w ++ b) c.

Definition writeContainer (b : bytes) (e : rlpEncoder) : rlpEncoder :=
  let l := Z.of_nat (length b) in
  if l =? 0 then writeAll [0xc0] e
  else if l <=? 55 then writeAll b (writeAll [0xC0 + l] e)
  else
    let sz := sizeToBytes l in
    writeAll b (writeAll sz (writeAll [0xC0 + 55 + Z.of_nat (length sz)] e)).

Fixpoint flush (e : rlpEncoder) : rlpEncoder :=
  match e with
  | Encoder w (Some c) => writeContainer (written (flush c)) (Encoder w None)
  | Encoder w None => Encoder w None
  end.

Definition encodeBytes (b : bytes) (e : rlpEncoder) : rlpEncoder :=
  let e := flush e in
  let l := Z.of_nat (length b) in
  match b with
  | [] => writeAll [0x80] e
  | b0 :: _ =>
      if (l =? 1) && (b0 <? 0x80) then writeAll b e
      else if l <=? 55 then writeAll b (writeAll [0x80 + l] e)
      else
        let sz := sizeToBytes l in
        writeAll b (writeAll sz (writeAll [0x80 + 55 + Z.of_nat (length sz)] e))
  end.

Definition encodeContainer (b : bytes) (e : rlpEncoder) : rlpEncoder := writeContainer b (flush e).

(** The encoder after [newContainerEncoder], the new encoder being [c] by the
    time it is used no more. *)
Definition newContainerEncoder (e : rlpEncoder) (c : rlpEncoder) : rlpEncoder :=
  let '(Encoder w _) := flush e in Encoder w (Some c).

Definition new_buffer : rlpEncoder := Encoder [] None.

Inductive rlp_error : Type :=
  | EOF
  | ErrUnexpectedEOF
  | IllegalParameter
  | IllegalDataDecoding
  | ReadOnlyParameterUsedForDecode
  | UnknownType.

Definition enc_result : Type := outcome rlp_error rlpEncoder.

Section Elements.
Context (encode : govalue -> rlpEncoder -> enc_result).

(** The loops over the elements of a slice, an array or a struct, and of a map. *)
Definition encode_all : list govalue -> rlpEncoder -> enc_result :=
  fix encode_all vs e2 :=
    match vs with
    | [] => Ok e2
    | x :: vs' => let! e3 := encode x e2 in encode_all vs' e3
    end.

Definition encode_pairs : list (govalue * govalue) -> rlpEncoder -> enc_result :=
  fix encode_pairs kvs e2 :=
    match kvs with
    | [] => Ok e2
    | (k, x) :: kvs' =>
        let! e3 := encode k e2 in
        let! e4 := encode x e3 in encode_pairs kvs' e4
    end.

End Elements.

(** [v.Bytes()] on an array of bytes panics (reflection allows it on slices only). *)
Fixpoint encodeValue (v : govalue) (e : rlpEncoder) {struct v} : enc_result :=
  match v with
  | VBool b => Ok (encodeBytes [if b then 1 else 0] e)
  | VUint z => Ok (encodeBytes (uint64ToBytes z) e)
  | VInt z => Ok (encodeBytes (int64ToBytes z) e)
  | VBytes bs => Ok (encodeBytes bs e)
  | VByteArray _ => Panic
  | VSlice vs | VArray vs | VStruct vs =>
      let! e2 := encode_all encodeValue vs new_buffer in Ok (flush (newContainerEncoder e e2))
  | VString s => Ok (encodeBytes s e)
  | VNil => Ok (encodeContainer [] e)
  | VPtr x => let! e2 := encodeValue x new_buffer in Ok (flush (newContainerEncoder e e2))
  | VMap kvs => let! e2 := encode_pairs encodeValue kvs new_buffer in Ok (flush (newContainerEncoder e e2))
  | VOther => Err IllegalParameter
  end.

(** [Encode] of a value without methods; a [[]byte] is written as one byte string. *)
Definition Encode (v : govalue) (e : rlpEncoder) : enc_result :=
  match v with VBytes bs => Ok (encodeBytes bs e) | _ => encodeValue v e end.

Definition Marshal (v : govalue) : outcome rlp_error bytes :=
  let! e := Encode v new_buffer in Ok (written (flush e)).

(** ** Decoder *)

(** [bytes.Reader], and [io.LimitReader(r, n)] with [n] bytes left to read. *)
Inductive reader : Type :=
  | RBytes (rest : bytes)
  | RLimit (n : Z) (r : reader).

(** What a reader can still deliver, and the reader after [k] of these bytes. *)
Fixpoint avail (r : reader) : bytes :=
  match r with RBytes b => b | RLimit n r => take (Z.to_nat n) (avail r) end.

Fixpoint advance (k : nat) (r : reader) : reader :=
  match r with RBytes b => RBytes (drop k b) | RLimit n r => RLimit (n - Z.of_nat k) (advance k r) end.

(** The reader a container's reader was made from, as the container left it. *)
Definition parent (r : reader) : reader := match r with RLimit _ r => r | r => r end.

(** An error leaves the reader where it was reached. *)
Definition dec_result (A : Type) : Type := outcome (rlp_error * reader) (A * reader).

(** [io.ReadFull] into a buffer of [k] bytes. *)
Definition ReadFull (k : Z) (r : reader) : dec_result bytes :=
  let b := avail r in
  if k <=? Z.of_nat (length b) then Ok (take (Z.to_nat k) b, advance (Z.to_nat k) r)
  else Err (match b with [] => EOF | _ => ErrUnexpectedEOF end, advance (length b) r).

(** The decoder, with the container decoder that [flush] drains.  No
    statement of the source sets it, so that it is nil in every decoder. *)
Record rlpDecoder : Type := mkDecoder {
  Reader : reader;
  containerDecoder : option reader;
}.

Definition flush_decoder (d : rlpDecoder) : rlpDecoder :=
  match containerDecoder d with
  | Some c => mkDecoder (parent (advance (length (avail c)) c)) None
  | None => d
  end.

(** The constant the source writes [055]: Go reads it as octal. *)
Definition octal_055 : Z := 5 * 8 + 5.

Section Decoder.
(** The longest slice [make] allocates. *)
Context (maxAlloc : Z).

(** [0xAD..0xB7] leave a negative or zero [sz]: a negative one makes the slice
    expression [header[1:1+sz]] panic. *)
Definition decodeBytes (r : reader) : dec_result bytes :=
  let! (h, r1) := ReadFull 1 r in
  let header := hd 0 h in
  if header <? 0x80 then Ok (h, r1)
  else if 0xC0 <=? header then Err (IllegalDataDecoding, r1)
  else if header <? 0x80 + octal_055 then ReadFull (header - 0x80) r1
  else
    let sz := header - (0x80 + 55) in
    if sz <? 0 then Panic
    else
      let! (szb, r2) := ReadFull sz r1 in
      let blen := bytesTosize szb in
      if (blen <? 0) || (maxAlloc <? blen) then Panic else ReadFull blen r2.

(** The reader of the container's content. *)
Definition decodeContainer (r : reader) : outcome (rlp_error * reader) reader :=
  let! (h, r1) := ReadFull 1 r in
  let header := hd 0 h in
  if header <? 0xC0 then Err (IllegalDataDecoding, r1)
  else if header <? 0xC0 + octal_055 then Ok (RLimit (header - 0xC0) r1)
  else
    let sz := header - (0xC0 + 55) in
    if sz <? 0 then Panic
    else
      let! (szb, r2) := ReadFull sz r1 in
      Ok (RLimit (i64 (bytesToUint64 szb)) r2).

Definition newContainerDecoder (d : rlpDecoder) : outcome (rlp_error * reader) rlpDecoder :=
  let! r := decodeContainer (Reader (flush_decoder d)) in Ok (mkDecoder r None).

(** The elements of a slice, read until the container ends; [fuel] bounds the
    loop, which has no other end. *)
Fixpoint decode_slice (decode : rlpDecoder -> dec_result govalue) (fuel : nat) (d2 : rlpDecoder)
    (acc : list govalue) : dec_result (list govalue) :=
  match fuel with
  | O => Panic
  | S fuel' =>
      match decode d2 with
      | Ok (x, r) => decode_slice decode fuel' (mkDecoder r None) (acc ++ [x])
      | Err (EOF, r) => Ok (acc, r)
      | Err e => Err e
      | Panic => Panic
      end
  end.

(** The elements of an array, which keeps the elements it has where the container ends early. *)
Fixpoint decode_array (decode : govalue -> rlpDecoder -> dec_result govalue) (elems : list govalue)
    (d2 : rlpDecoder) : dec_result (list govalue) :=
  match elems with
  | [] => Ok ([], Reader d2)
  | x :: elems' =>
      match decode x d2 with
      | Ok (x', r) =>
          let! (xs, r') := decode_array decode elems' (mkDecoder r None) in Ok (x' :: xs, r')
      | Err (EOF, r) => Ok (x :: elems', r)
      | Err e => Err e
      | Panic => Panic
      end
  end.

(** Overwriting the first bytes of an array ([reflect.Copy]). *)
Definition copy_bytes (dst src : bytes) : bytes := take (length dst) src ++ drop (length src) dst.

Definition fuel_of (d : rlpDecoder) : nat := S (length (avail (Reader d))).

(** The fields of a struct; a field that cannot be set is passed over, and the
    fields that follow the end of the container keep their values. *)
Definition decode_fields (decode : gotype -> govalue -> rlpDecoder -> dec_result govalue) :
    list (bool * gotype) -> list govalue -> rlpDecoder -> dec_result (list govalue) :=
  fix decode_fields fs vs d2 :=
    match fs, vs with
    | (true, ft) :: fs', x :: vs' =>
        match decode ft x d2 with
        | Ok (x', r) =>
            let! (xs, r') := decode_fields fs' vs' (mkDecoder r None) in Ok (x' :: xs, r')
        | Err (EOF, r) => Ok (vs, r)
        | Err e => Err e
        | Panic => Panic
        end
    | (false, _) :: fs', x :: vs' =>
        let! (xs, r') := decode_fields fs' vs' d2 in Ok (x :: xs, r')
    | _, _ => Ok (vs, Reader d2)
    end.

(** [decodeValue] of a pointer to a variable of type [t] that holds [v].
    The error [EOF] is returned before the variable is changed.  The
    [d.flush()] that ends the cases of a pointer and of a struct finds no
    container decoder. *)
Fixpoint decodeValue (t : gotype) (v : govalue) (d : rlpDecoder) {struct t} : dec_result govalue :=
  match t, v with
  | TUint w, _ => let! (bs, r) := decodeBytes (Reader d) in Ok (VUint (bytesToUint64 bs mod 2 ^ w), r)
  | TInt w, _ =>
      let! (bs, r) := decodeBytes (Reader d) in
      Ok (VInt ((bytesToInt64 bs + 2 ^ (w - 1)) mod 2 ^ w - 2 ^ (w - 1)), r)
  | TByteArray _, VByteArray a =>
      let! (bs, r) := decodeBytes (Reader d) in Ok (VByteArray (copy_bytes a bs), r)
  | TArray _ et, VArray elems =>
      let! d2 := newContainerDecoder d in
      let! (xs, r) := decode_array (decodeValue et) elems d2 in Ok (VArray xs, parent r)
  | TBytes, _ => let! (bs, r) := decodeBytes (Reader d) in Ok (VBytes bs, r)
  | TSlice et, _ =>
      let! d2 := newContainerDecoder d in
      let! (xs, r) := decode_slice (decodeValue et (zero_value et)) (fuel_of d2) d2 [] in
      Ok (VSlice xs, parent r)
  | TPtr et, _ =>
      let! d2 := newContainerDecoder d in
      match decodeValue et (zero_value et) d2 with
      | Ok (x, r) => Ok (VPtr x, parent r)
      | Err (EOF, r) => Ok (VNil, parent r)
      | Err e => Err e
      | Panic => Panic
      end
  | TString, _ => let! (bs, r) := decodeBytes (Reader d) in Ok (VString bs, r)
  | TStruct fs, VStruct vs =>
      let! d2 := newContainerDecoder d in
      let! (xs, r) := decode_fields decodeValue fs vs d2 in Ok (VStruct xs, parent r)
  | _, _ => Err (UnknownType, Reader d)
  end.

(** [Decode] into a variable of a type without methods; what is not a pointer is refused. *)
Definition Decode (is_ptr : bool) (t : gotype) (v : govalue) (d : rlpDecoder) : dec_result govalue :=
  if is_ptr then
    match t with
    | TBytes => let! (bs, r) := decodeBytes (Reader d) in Ok (VBytes bs, r)
    | _ => decodeValue t v d
    end
  else Err (ReadOnlyParameterUsedForDecode, Reader d).

Definition Unmarshal (t : gotype) (v : govalue) (input : bytes) : dec_result govalue :=
  Decode true t v (mkDecoder (RBytes input) None).

End Decoder.

(** ** The reference encoding

    RLP as its specification defines it: a byte string or a list is its length
    and its content, a byte below 128 is itself. *)

Definition rlp_item (base : Z) (content : bytes) : bytes :=
  let l := Z.of_nat (length content) in
  if l <=? 55 then base + l :: content
  else base + 55 + Z.of_nat (length (uint64ToBytes (u64 l))) :: uint64ToBytes (u64 l) ++ content.

Definition rlp_string (bs : bytes) : bytes :=
  match bs with [b] => if b <? 0x80 then [b] else rlp_item 0x80 bs | _ => rlp_item 0x80 bs end.

Definition rlp_list (content : bytes) : bytes := rlp_item 0xC0 content.

Section RlpOf.
Context (rlp : govalue -> outcome rlp_error bytes).

Definition rlp_all : list govalue -> outcome rlp_error bytes :=
  fix rlp_all vs :=
    match vs with
    | [] => Ok []
    | x :: vs' => let! b := rlp x in let! bs := rlp_all vs' in Ok (b ++ bs)
    end.

Definition rlp_pairs : list (govalue * govalue) -> outcome rlp_error bytes :=
  fix rlp_pairs kvs :=
    match kvs with
    | [] => Ok []
    | (k, x) :: kvs' =>
        let! b := rlp k in let! c := rlp x in let! bs := rlp_pairs kvs' in Ok (b ++ c ++ bs)
    end.

End RlpOf.

Definition rlp_ok (m : outcome rlp_error bytes) : outcome rlp_error bytes := let! b := m in Ok (rlp_list b).

Fixpoint rlp (v : govalue) : outcome rlp_error bytes :=
  match v with
  | VBool b => Ok (rlp_string [if b then 1 else 0])
  | VUint z => Ok (rlp_string (uint64ToBytes z))
  | VInt z => Ok (rlp_string (int64ToBytes z))
  | VBytes bs | VString bs => Ok (rlp_string bs)
  | VByteArray _ => Panic
  | VSlice vs | VArray vs | VStruct vs => rlp_ok (rlp_all rlp vs)
  | VNil => Ok (rlp_list [])
  | VPtr x => rlp_ok (rlp x)
  | VMap kvs => rlp_ok (rlp_pairs rlp kvs)
  | VOther => Err IllegalParameter
  end.

(** ** The encoder writes the reference encoding *)

(** Induction on a value, with the hypothesis for every element. *)
Section ValueInd.
Context (P : govalue -> Prop)
  (Hleaf : forall v, match v with VSlice _ | VArray _ | VStruct _ | VPtr _ | VMap _ => True | _ => P v end)
  (Hslice : forall vs, Forall P vs -> P (VSlice vs))
  (Harray : forall vs, Forall P vs -> P (VArray vs))
  (Hstruct : forall vs, Forall P vs -> P (VStruct vs))
  (Hptr : forall v, P v -> P (VPtr v))
  (Hmap : forall kvs, Forall (fun kv => P kv.1 /\ P kv.2) kvs -> P (VMap kvs)).

Fixpoint govalue_elements (v : govalue) : P v :=
  let all := fix all vs : Forall P vs :=
    match vs with [] => List.Forall_nil _ | x :: vs' => List.Forall_cons _ _ _ (govalue_elements x) (all vs') end in
  match v with
  | VSlice vs => Hslice vs (all vs)
  | VArray vs => Harray vs (all vs)
  | VStruct vs => Hstruct vs (all vs)
  | VPtr x => Hptr x (govalue_elements x)
  | VMap kvs => Hmap kvs ((fix pairs kvs : Forall (fun kv => P kv.1 /\ P kv.2) kvs :=
      match kvs with
      | [] => List.Forall_nil _
      | kv :: kvs' => List.Forall_cons _ _ _ (conj (govalue_elements kv.1) (govalue_elements kv.2)) (pairs kvs')
      end) kvs)
  | v => Hleaf v
  end.

End ValueInd.

Lemma flush_closed e : exists w, flush e = Encoder w None.
Proof.
  destruct e as [w [c|]]; [|by eexists]. cbn [flush]. unfold writeContainer, writeAll.
  case_match; [by eexists|]. case_match; by eexists.
Qed.

Lemma writeAll_app a b w : writeAll a (writeAll b (Encoder w None)) = Encoder (w ++ b ++ a) None.
Proof. cbn [writeAll]. by rewrite <-app_assoc. Qed.

Lemma writeContainer_item b w : writeContainer b (Encoder w None) = Encoder (w ++ rlp_list b) None.
Proof.
  unfold writeContainer, rlp_list, rlp_item, sizeToBytes.
  destruct (Z.of_nat (length b) =? 0) eqn:E.
  { bool_to_Z. destruct b; [done|simpl in E; lia]. }
  case_match; cbn [writeAll app]; by rewrite <-?app_assoc.
Qed.

Lemma encodeBytes_item b e : encodeBytes b e = writeAll (rlp_string b) (flush e).
Proof.
  destruct (flush_closed e) as [w Hw]. unfold encodeBytes, rlp_string, rlp_item, sizeToBytes. rewrite Hw.
  destruct b as [|b0 b]; [done|]. destruct b as [|b1 b].
  - change (Z.of_nat (length [b0])) with 1. change (1 =? 1) with true. change (1 <=? 55) with true. cbn [andb].
    destruct (b0 <? 128); cbn [writeAll app]; by rewrite <-?app_assoc.
  - assert ((Z.of_nat (length (b0 :: b1 :: b)) =? 1) = false) as -> by (apply Z.eqb_neq; cbn [length]; lia).
    cbn [andb]. case_match; cbn [writeAll app]; by rewrite <-?app_assoc.
Qed.

Definition writes (m : outcome rlp_error bytes) (e : rlpEncoder) : enc_result :=
  let! b := m in Ok (writeAll b (flush e)).

Lemma writeAll_nil w : Encoder w None = writeAll [] (Encoder w None).
Proof. cbn. by rewrite app_nil_r. Qed.

Lemma encode_all_writes vs w : Forall (fun v => forall e, encodeValue v e = writes (rlp v) e) vs ->
  encode_all encodeValue vs (Encoder w None) = writes (rlp_all rlp vs) (Encoder w None).
Proof.
  intros Hvs. revert w. induction Hvs as [|v vs Hv _ IH]; intros w; cbn [encode_all rlp_all]; unfold writes.
  { cbn. by rewrite app_nil_r. }
  rewrite Hv. unfold writes. destruct (rlp v) as [b| |]; cbn [obind flush writeAll]; [|done..].
  rewrite IH. unfold writes. destruct (rlp_all rlp vs); cbn [obind flush writeAll]; [|done..].
  by rewrite app_assoc.
Qed.

Lemma encode_pairs_writes kvs w :
  Forall (fun kv => (forall e, encodeValue kv.1 e = writes (rlp kv.1) e) /\
    (forall e, encodeValue kv.2 e = writes (rlp kv.2) e)) kvs ->
  encode_pairs encodeValue kvs (Encoder w None) = writes (rlp_pairs rlp kvs) (Encoder w None).
Proof.
  intros Hvs. revert w. induction Hvs as [|[k v] kvs [Hk Hv] _ IH]; intros w; cbn [encode_pairs rlp_pairs]; unfold writes.
  { cbn. by rewrite app_nil_r. }
  cbn [fst snd] in *. rewrite Hk. unfold writes. destruct (rlp k) as [b| |]; cbn [obind flush writeAll]; [|done..].
  rewrite Hv. unfold writes. destruct (rlp v) as [c| |]; cbn [obind flush writeAll]; [|done..].
  rewrite IH. unfold writes. destruct (rlp_pairs rlp kvs); cbn [obind flush writeAll]; [|done..].
  by rewrite !app_assoc.
Qed.

Lemma container_writes (m : outcome rlp_error bytes) e :
  (let! e2 := writes m new_buffer in Ok (flush (newContainerEncoder e e2))) = writes (rlp_ok m) e.
Proof.
  unfold writes, rlp_ok, newContainerEncoder. destruct m as [b| |]; cbn [obind]; [|done..].
  destruct (flush_closed e) as [w ->]. cbn [flush writeAll new_buffer app written].
  by rewrite writeContainer_item.
Qed.

(** encodeValue writes a value as RLP defines it, whatever containers are
    open when it starts: what was open is closed first, then the bytes are
    those of the reference encoding, nested lists with the lengths of their
    contents, or the call fails where the value has a kind RLP does not know. *)
Lemma encodeValue_writes v e : encodeValue v e = let! b := rlp v in Ok (writeAll b (flush e)).
Proof.
  change (encodeValue v e = writes (rlp v) e). revert e.
  apply (govalue_elements (fun v => forall e, encodeValue v e = writes (rlp v) e)); clear v.
  - intros v. destruct v; try done; intros e; cbn [encodeValue rlp]; unfold writes; cbn [obind];
      rewrite ?encodeBytes_item; try done.
  - intros x IH e. cbn [encodeValue rlp]. unfold new_buffer. rewrite encode_all_writes by done. apply container_writes.
  - intros x IH e. cbn [encodeValue rlp]. unfold new_buffer. rewrite encode_all_writes by done. apply container_writes.
  - intros x IH e. cbn [encodeValue rlp]. unfold new_buffer. rewrite encode_all_writes by done. apply container_writes.
  - intros x IH e. cbn [encodeValue rlp]. rewrite IH. apply container_writes.
  - intros x IH e. cbn [encodeValue rlp]. unfold new_buffer. rewrite encode_pairs_writes by done. apply container_writes.
Qed.


Lemma encodeValue_bytes v e :
  encodeValue v e = match v with VBytes bs => Ok (encodeBytes bs e) | _ => encodeValue v e end.
Proof. by destruct v. Qed.
