(* ===== verification/RlpRead.v ===== *)
(** * Reading RLP back

    What the decoder of [common/codec/rlp.go] makes of what the encoder wrote:
    numbers, byte strings of every length, and values of every type it reads;
    and that the decoder always ends.  [readable] lists the values that come
    back, with their encodings; the lengths and integers left out are the
    ones that do not. *)

From S2P Require Import Prelude Bytes HexInt Rlp.

(** ** Numbers read back *)

Lemma bytesToUint64_spec bs : all_bytes bs -> bytesToUint64 bs = u64 (be_combine bs).
Proof.
  intros _. unfold bytesToUint64, be_combine.
  assert (forall v, fold_left (fun v b => u64 (u64 (Z.shiftl v 8) + b)) bs (u64 v)
    = u64 (fold_left (fun v b => v * 256 + b) bs v)) as H; [|by apply (H 0)].
  induction bs as [|b bs IH]; intros v; cbn [fold_left]; [done|]. rewrite <-IH. f_equal.
  rewrite shiftl_8, u64_add_u64. unfold u64. by rewrite <-Zplus_mod_idemp_l, Zmult_mod_idemp_l, Zplus_mod_idemp_l.
Qed.

Lemma uint64ToBytes_spec v : is_u64 v ->
  be_combine (uint64ToBytes v) = v /\ all_bytes (uint64ToBytes v) /\
  (0 < length (uint64ToBytes v) <= 8)%nat /\ (0 < v -> 0 < hd 0 (uint64ToBytes v)).
Proof.
  intros Hv.
  destruct (Uint64ToBytes_loop_spec 8 v []) as (H1 & H2 & H3 & H4);
    [unfold is_u64 in Hv; change (256 ^ Z.of_nat 8) with (2 ^ 64); lia|constructor|].
  change (Uint64ToBytes_loop 8 v []) with (uint64ToBytes v) in *.
  split_and!; [|done| |simpl in *; lia|].
  - rewrite H1. change (be_combine []) with 0. cbn [length]. lia.
  - destruct (decide (v = 0)) as [->|]; [vm_compute; lia|].
    destruct H4 as (b & r & -> & _); [zlia|]. cbn [length]. lia.
  - intros (b & r & -> & Hb)%H4. exact Hb.
Qed.

Lemma bytesToUint64_roundtrip v : is_u64 v -> bytesToUint64 (uint64ToBytes v) = v.
Proof.
  intros Hv. destruct (uint64ToBytes_spec v Hv) as (H1 & H2 & _).
  by rewrite bytesToUint64_spec, H1, u64_small.
Qed.

(** [i64] changes a number by a multiple of 2^64, and only that counts. *)
Lemma i64_shift a : exists k, i64 a = a + k * 2 ^ 64.
Proof. unfold i64. exists (- ((a + 2 ^ 63) / 2 ^ 64)). pose proof (Z.div_mod (a + 2 ^ 63) (2 ^ 64)). lia. Qed.

Lemma i64_plus a k : i64 (a + k * 2 ^ 64) = i64 a.
Proof. unfold i64. f_equal. rewrite <-(Z_mod_plus_full (a + 2 ^ 63) k). f_equal. lia. Qed.

Lemma i64_fold bs v :
  fold_left (fun v b => i64 (i64 (Z.shiftl v 8) + b)) bs (i64 v) = i64 (fold_left (fun v b => v * 256 + b) bs v).
Proof.
  revert v. induction bs as [|b bs IH]; intros v; cbn [fold_left]; [done|]. rewrite <-IH. f_equal.
  rewrite shiftl_8. destruct (i64_shift v) as [k Hk], (i64_shift (i64 v * 256)) as [j Hj].
  rewrite Hj, Hk, <-(i64_plus (v * 256 + b) (k * 256 + j)). f_equal. lia.
Qed.

Lemma byte_low_bits b : is_byte b -> Z.land b 0x7f = b mod 128.
Proof. intros _. change 0x7f with (Z.ones 7). by rewrite Z.land_ones by lia. Qed.

Lemma byte_set_sign b : 0 <= b < 128 -> Z.lor b 0x80 = b + 128.
Proof.
  intros Hb. assert (is_byte b) as H by zlia.
  pose proof (byte_forall (fun b => (128 <=? b) || (Z.lor b 0x80 =? b + 128)) ltac:(by vm_compute) b H) as E.
  apply orb_true_iff in E as [E|E]; bool_to_Z; lia.
Qed.

Lemma bytesToInt64_spec b r : all_bytes (b :: r) -> bytesToInt64 (b :: r) =
  if b <? 128 then i64 (be_combine (b :: r)) else i64 (- i64 (be_combine (b - 128 :: r))).
Proof.
  intros Hb. assert (is_byte b) as Hb0 by (by inversion Hb).
  unfold bytesToInt64. rewrite byte_sign_bit, byte_low_bits by done.
  destruct (b <? 128) eqn:E; bool_to_Z; cbn [negb].
  - apply (i64_fold (b :: r) 0).
  - replace (b mod 128) with (b - 128) by (pose proof (Z.div_mod b 128); pose proof (Z.mod_pos_bound b 128); unfold is_byte in Hb0; lia).
    do 2 f_equal. apply (i64_fold (b - 128 :: r) 0).
Qed.

Lemma int64ToBytes_step idx v buf : int64ToBytes_loop (S idx) v buf =
  if (v mod 256 <? 128) && (v / 256 =? 0) then mark_negative (v mod 256 :: buf)
  else int64ToBytes_loop idx (v / 256) (v mod 256 :: buf).
Proof.
  cbn [int64ToBytes_loop].
  assert (Z.land v 0x80 = Z.land (v mod 256) 0x80) as -> by (rewrite <-land_ff, <-Z.land_assoc; done).
  pose proof (Z.mod_pos_bound v 256). rewrite byte_sign_bit, land_ff, shiftr_8 by zlia.
  destruct (v mod 256 <? 128), (v / 256 =? 0); done.
Qed.

(** The loop of [int64ToBytes] on a magnitude that leaves room for the sign. *)
Lemma int64ToBytes_loop_spec idx v acc :
  0 <= v < 2 ^ (8 * Z.of_nat (S idx) - 1) -> all_bytes acc ->
  exists b r, int64ToBytes_loop (S idx) v acc = b + 128 :: r /\ 0 <= b < 128 /\ all_bytes r /\
    (length r <= idx + length acc)%nat /\
    be_combine (b :: r) = v * 256 ^ Z.of_nat (length acc) + be_combine acc.
Proof.
  revert v acc. induction idx as [|idx IH]; intros v acc Hv Hacc; rewrite int64ToBytes_step.
  all: pose proof (Z.mod_pos_bound v 256); pose proof (Z.div_mod v 256).
  all: assert (all_bytes (v mod 256 :: acc)) as Hacc' by (constructor; [zlia|done]).
  all: assert (v / 256 = 0 -> v mod 256 < 128 -> exists b r, mark_negative (v mod 256 :: acc) = b + 128 :: r /\
    0 <= b < 128 /\ all_bytes r /\ (length r <= length acc)%nat /\
    be_combine (b :: r) = v * 256 ^ Z.of_nat (length acc) + be_combine acc) as Hend.
  1, 3: intros Hq Hm; exists (v mod 256), acc; cbn [mark_negative]; rewrite byte_set_sign, be_combine_cons by zlia;
    split_and!; [done|zlia|zlia|done|done|]; f_equal; f_equal; lia.
  - change (2 ^ (8 * Z.of_nat 1 - 1)) with 128 in Hv.
    assert ((v mod 256 <? 128) = true) as -> by (apply Z.ltb_lt; lia).
    assert ((v / 256 =? 0) = true) as -> by (apply Z.eqb_eq; lia). apply Hend; lia.
  - replace (8 * Z.of_nat (S (S idx)) - 1) with (8 * Z.of_nat (S idx) - 1 + 8) in Hv by lia.
    rewrite Z.pow_add_r in Hv by lia. change (2 ^ 8) with 256 in Hv.
    destruct ((v mod 256 <? 128) && (v / 256 =? 0)) eqn:E.
    { bool_to_Z. destruct Hend as (b & r & Hb1 & Hb2 & Hb3 & Hb4 & Hb5); [lia..|]. exists b, r. split_and!; try done; lia. }
    destruct (IH (v / 256) (v mod 256 :: acc)) as (b & r & Hb1 & Hb2 & Hb3 & Hb4 & Hb5); [lia|done|].
      exists b, r. split_and!; [done|lia..|done|cbn [length] in Hb4; lia|].
      rewrite Hb5, be_combine_cons. cbn [length].
      replace (Z.of_nat (S (length acc))) with (Z.of_nat (length acc) + 1) by lia.
      rewrite Z.pow_add_r, Z.pow_1_r by lia. nia.
Qed.

(** An int64 reads back from its RLP bytes exactly when it is negative and not
    the smallest one, or its magnitude leaves the top bit of its first byte
    free: 128 is written as the byte 0x80 and reads back as 0. *)
Lemma int64_reads v : is_i64 v ->
  bytesToInt64 (int64ToBytes v) = v <-> (- 2 ^ 63 < v < 0 \/ 0 <= v /\ hd 0 (uint64ToBytes v) < 128).
Proof.
  intros Hv. destruct (decide (v = - 2 ^ 63)) as [->|Hmin].
  { split; [|lia]. by vm_compute. }
  unfold int64ToBytes. destruct (0 <=? v) eqn:E; bool_to_Z.
  - rewrite u64_small by zlia. destruct (uint64ToBytes_spec v) as (H1 & H2 & H3 & H4); [zlia|].
    destruct (uint64ToBytes v) as [|b r]; [cbn in H3; lia|]. cbn [hd] in *.
    assert (is_byte b) as Hb by (by inversion H2). rewrite bytesToInt64_spec by done.
    destruct (b <? 128) eqn:Eb; bool_to_Z.
    + rewrite H1, i64_small by zlia. split; [lia|done].
    + split; [|lia]. rewrite be_combine_cons in H1 |- *. inversion_clear H2 as [|?? _ Hr].
      pose proof (be_combine_bound r Hr).
      assert (0 < 256 ^ Z.of_nat (length r)) by (apply Z.pow_pos_nonneg; lia).
      rewrite (i64_small (_ + _)), i64_small by (unfold is_byte, is_i64 in *; nia). unfold is_byte in Hb. nia.
  - rewrite (i64_small (- v)) by zlia.
    destruct (int64ToBytes_loop_spec 7 (- v) []) as (b & r & -> & Hb & Hr & Hl & Hc); [change (8 * Z.of_nat 8 - 1) with 63; zlia|constructor|].
    rewrite bytesToInt64_spec by (constructor; [unfold is_byte; lia|done]).
    assert ((b + 128 <? 128) = false) as -> by (apply Z.ltb_ge; lia).
    replace (b + 128 - 128) with b by lia. rewrite Hc. change (be_combine []) with 0. cbn [length]. change (256 ^ Z.of_nat 0) with 1.
    rewrite (i64_small (_ + _)), i64_small by zlia. split; [intros _; left; zlia|lia].
Qed.

(** ** Readers *)

Lemma advance_0 r : advance 0 r = r.
Proof. induction r as [b|n r IH]; cbn [advance]; [done|]. rewrite IH. f_equal. lia. Qed.

Lemma advance_advance j k r : advance k (advance j r) = advance (j + k) r.
Proof. induction r as [b|n r IH]; cbn [advance]; [by rewrite drop_drop|]. rewrite IH. f_equal. lia. Qed.

Lemma avail_advance k r : avail (advance k r) = drop k (avail r).
Proof.
  induction r as [b|n r IH]; cbn [advance avail]; [done|].
  rewrite IH, skipn_firstn_comm. f_equal. lia.
Qed.

Lemma avail_advance_app b rest r : avail r = b ++ rest -> avail (advance (length b) r) = rest.
Proof. intros Hr. by rewrite avail_advance, Hr, drop_app_length. Qed.

Lemma ReadFull_app b rest r : avail r = b ++ rest ->
  ReadFull (Z.of_nat (length b)) r = Ok (b, advance (length b) r).
Proof.
  intros Hr. unfold ReadFull. rewrite Hr, length_app, (proj2 (Z.leb_le _ _)) by lia.
  by rewrite Nat2Z.id, take_app_length.
Qed.

Lemma ReadFull_1 h rest r : avail r = h :: rest -> ReadFull 1 r = Ok ([h], advance 1 r).
Proof. apply (ReadFull_app [h]). Qed.

Lemma ReadFull_EOF k r : avail r = [] -> 0 < k -> ReadFull k r = Err (EOF, r).
Proof.
  intros Hr Hk. unfold ReadFull. rewrite Hr, (proj2 (Z.leb_gt _ _)) by (cbn; lia). by rewrite advance_0.
Qed.

(** ** Strings and containers read back *)

Section RoundTrip.
Context (maxAlloc : Z).

(** The lengths whose headers the decoder understands, of a container and of
    a byte string, for which it makes a slice. *)
Definition body_ok (bs : bytes) : Prop :=
  Z.of_nat (length bs) < 45 \/ 55 < Z.of_nat (length bs) < 2 ^ 63.

Definition len_ok (bs : bytes) : Prop :=
  body_ok bs /\ (55 < Z.of_nat (length bs) -> Z.of_nat (length bs) <= maxAlloc).

(** The long header of a content of [l] bytes. *)
Lemma size_bytes (bs : bytes) : 55 < Z.of_nat (length bs) < 2 ^ 63 ->
  let sz := uint64ToBytes (u64 (Z.of_nat (length bs))) in
  1 <= Z.of_nat (length sz) <= 8 /\ bytesToUint64 sz = Z.of_nat (length bs).
Proof.
  intros Hl. rewrite u64_small by zlia. destruct (uint64ToBytes_spec (Z.of_nat (length bs))) as (_ & _ & H & _); [zlia|].
  split; [lia|]. apply bytesToUint64_roundtrip. zlia.
Qed.

Lemma rlp_string_item bs : Z.of_nat (length bs) <> 1 -> rlp_string bs = rlp_item 0x80 bs.
Proof. destruct bs as [|b [|b1 bs]]; cbn [length]; [done|lia|done]. Qed.

Lemma decodeBytes_short bs rest r : Z.of_nat (length bs) < 45 -> avail r = rlp_string bs ++ rest ->
  decodeBytes maxAlloc r = Ok (bs, advance (length (rlp_string bs)) r).
Proof.
  intros Hl Hr.
  assert (rlp_string bs = rlp_item 0x80 bs -> decodeBytes maxAlloc r = Ok (bs, advance (length (rlp_string bs)) r)) as Hitem.
  { intros Hi. rewrite Hi in Hr |- *. unfold decodeBytes, octal_055, rlp_item in *.
    rewrite (proj2 (Z.leb_le _ _)) in Hr |- * by lia.
    rewrite (ReadFull_1 _ _ _ Hr). cbn [obind hd].
    rewrite (proj2 (Z.ltb_ge _ _)), (proj2 (Z.leb_gt _ _)), (proj2 (Z.ltb_lt _ _)) by lia.
    replace (0x80 + Z.of_nat (length bs) - 0x80) with (Z.of_nat (length bs)) by lia.
    rewrite (ReadFull_app bs rest) by (by rewrite avail_advance, Hr). by rewrite advance_advance. }
  destruct bs as [|b [|b1 bs]]; [by apply Hitem| |by apply Hitem].
  cbn [rlp_string] in *. destruct (b <? 0x80) eqn:E; [|by apply Hitem].
  unfold decodeBytes. rewrite (ReadFull_1 _ _ _ Hr). cbn [obind hd]. by rewrite E.
Qed.

Lemma decodeBytes_long bs rest r : 55 < Z.of_nat (length bs) < 2 ^ 63 -> avail r = rlp_string bs ++ rest ->
  decodeBytes maxAlloc r =
    if maxAlloc <? Z.of_nat (length bs) then Panic else Ok (bs, advance (length (rlp_string bs)) r).
Proof.
  intros Hl Hr. rewrite rlp_string_item in Hr |- * by lia. unfold decodeBytes, octal_055, rlp_item in *.
  destruct (size_bytes bs Hl) as [Hsz Hval].
  rewrite (proj2 (Z.leb_gt _ _)) in Hr |- * by lia.
  remember (uint64ToBytes (u64 (Z.of_nat (length bs)))) as sz eqn:Esz. clear Esz.
  rewrite (ReadFull_1 _ _ _ Hr). cbn [obind hd].
  rewrite (proj2 (Z.ltb_ge _ _)), (proj2 (Z.leb_gt _ _)), (proj2 (Z.ltb_ge _ _)), (proj2 (Z.ltb_ge _ _)) by lia.
  replace (0x80 + 55 + Z.of_nat (length sz) - (0x80 + 55)) with (Z.of_nat (length sz)) by lia.
  assert (avail (advance 1 r) = sz ++ bs ++ rest) as Hr1 by (rewrite avail_advance, Hr; cbn; by rewrite <-app_assoc).
  rewrite (ReadFull_app _ _ _ Hr1). cbn [obind].
  unfold bytesTosize. rewrite Hval, i64_small by zlia.
  rewrite (proj2 (Z.ltb_ge (Z.of_nat (length bs)) 0)) by lia. cbn [orb].
  rewrite (ReadFull_app bs rest) by (by apply (avail_advance_app sz)).
  rewrite !advance_advance. cbn [length]. by rewrite length_app.
Qed.

(** What reading a byte string written by the encoder gives, for every length. *)
Lemma decodeBytes_cases bs rest r : 0 <= maxAlloc -> Z.of_nat (length bs) < 2 ^ 63 ->
  avail r = rlp_string bs ++ rest ->
  decodeBytes maxAlloc r =
    (let l := Z.of_nat (length bs) in
     if (45 <=? l) && (l <? 55) || ((55 <? l) && (maxAlloc <? l)) then Panic
     else if l =? 55 then Ok ([], advance 1 r)
     else Ok (bs, advance (length (rlp_string bs)) r)).
Proof.
  intros Hmax H63 Hr. cbn zeta.
  destruct (Z.lt_trichotomy (Z.of_nat (length bs)) 45) as [Hl|Hl]; [|destruct (decide (55 < Z.of_nat (length bs)))].
  - rewrite (decodeBytes_short bs rest) by done. case_all; bool_to_Z; done || lia.
  - rewrite (decodeBytes_long bs rest) by done. case_all; bool_to_Z; done || lia.
  - rewrite rlp_string_item in Hr by lia. unfold rlp_item in Hr. rewrite (proj2 (Z.leb_le _ _)) in Hr by lia.
    unfold decodeBytes, octal_055. rewrite (ReadFull_1 _ _ _ Hr). cbn [obind hd].
    rewrite (proj2 (Z.ltb_ge _ 0x80)), (proj2 (Z.leb_gt _ _)), (proj2 (Z.ltb_ge _ (_ + 45))) by lia.
    replace (0x80 + Z.of_nat (length bs) - (0x80 + 55)) with (Z.of_nat (length bs) - 55) by lia.
    rewrite (proj2 (Z.leb_le 45 _)), (proj2 (Z.ltb_ge 55 _)) by lia. cbn [andb orb].
    destruct (decide (Z.of_nat (length bs) = 55)) as [->|Hn].
    + assert (ReadFull 0 (advance 1 r) = Ok ([], advance 1 r)) as H0.
      { pose proof (ReadFull_app [] (avail (advance 1 r)) (advance 1 r) eq_refl) as H0.
        by rewrite advance_0 in H0. }
      change (55 - 55) with 0. change (0 <? 0) with false. cbn iota. rewrite H0. cbn [obind].
      change (bytesTosize []) with 0. rewrite (proj2 (Z.ltb_ge maxAlloc 0)) by done. cbn [orb Z.ltb Z.compare].
      by rewrite H0.
    + rewrite !(proj2 (Z.ltb_lt _ _)) by lia. done.
Qed.

Lemma decodeBytes_string bs rest r : len_ok bs -> avail r = rlp_string bs ++ rest ->
  decodeBytes maxAlloc r = Ok (bs, advance (length (rlp_string bs)) r).
Proof.
  intros [[Hl|Hl] Hmax] Hr; [by apply (decodeBytes_short bs rest)|].
  rewrite (decodeBytes_long bs rest) by done. by rewrite (proj2 (Z.ltb_ge _ _)) by lia.
Qed.

Lemma newContainerDecoder_list (body rest : bytes) r : body_ok body -> avail r = rlp_list body ++ rest ->
  exists r1, newContainerDecoder (mkDecoder r None) = Ok (mkDecoder (RLimit (Z.of_nat (length body)) r1) None) /\
    avail r1 = body ++ rest /\ advance (length body) r1 = advance (length (rlp_list body)) r.
Proof.
  intros Hl Hr. unfold body_ok in Hl. unfold newContainerDecoder, decodeContainer, octal_055. cbn [flush_decoder containerDecoder Reader].
  unfold rlp_list, rlp_item in *. destruct (Z.of_nat (length body) <=? 55) eqn:E; bool_to_Z.
  - rewrite (ReadFull_1 _ _ _ Hr). cbn [obind hd].
    rewrite (proj2 (Z.ltb_ge _ _)), (proj2 (Z.ltb_lt _ _)) by lia.
    replace (0xC0 + Z.of_nat (length body) - 0xC0) with (Z.of_nat (length body)) by lia.
    eexists. split; [done|]. rewrite avail_advance, advance_advance, Hr. done.
  - destruct (size_bytes body) as [Hsz Hval]; [lia|].
    remember (uint64ToBytes (u64 (Z.of_nat (length body)))) as sz eqn:Esz. clear Esz.
    rewrite (ReadFull_1 _ _ _ Hr). cbn [obind hd].
    rewrite (proj2 (Z.ltb_ge _ _)), (proj2 (Z.ltb_ge _ _)), (proj2 (Z.ltb_ge _ _)) by lia.
    replace (0xC0 + 55 + Z.of_nat (length sz) - (0xC0 + 55)) with (Z.of_nat (length sz)) by lia.
    assert (avail (advance 1 r) = sz ++ body ++ rest) as Hr1 by (rewrite avail_advance, Hr; cbn; by rewrite <-app_assoc).
    rewrite (ReadFull_app _ _ _ Hr1). cbn [obind].
    rewrite Hval, i64_small by zlia. eexists. split; [done|]. split.
    + by apply (avail_advance_app sz).
    + rewrite !advance_advance. cbn [length]. by rewrite length_app.
Qed.

(** The types [decodeValue] reads, and the values of a type that read back,
    with their encodings: every item has a length the decoder understands,
    integers fit their type and the sign convention, and every field of a
    struct can be set. *)
Definition decodable (t : gotype) : bool :=
  match t with TBool | TMap _ _ | TOther => false | _ => true end.

Inductive readable : gotype -> govalue -> bytes -> Prop :=
  | R_uint w z : 0 <= w <= 64 -> 0 <= z < 2 ^ w -> readable (TUint w) (VUint z) (rlp_string (uint64ToBytes z))
  | R_int w z : 0 < w <= 64 -> - 2 ^ (w - 1) <= z < 2 ^ (w - 1) ->
      - 2 ^ 63 < z < 0 \/ 0 <= z /\ hd 0 (uint64ToBytes z) < 128 ->
      readable (TInt w) (VInt z) (rlp_string (int64ToBytes z))
  | R_bytes bs : all_bytes bs -> len_ok bs -> readable TBytes (VBytes bs) (rlp_string bs)
  | R_string s : all_bytes s -> len_ok s -> readable TString (VString s) (rlp_string s)
  | R_slice t vs body : decodable t = true -> readable_all t vs body -> body_ok body ->
      readable (TSlice t) (VSlice vs) (rlp_list body)
  | R_array t vs body : readable_all t vs body -> body_ok body ->
      readable (TArray (length vs) t) (VArray vs) (rlp_list body)
  | R_nil t : decodable t = true -> readable (TPtr t) VNil (rlp_list [])
  | R_ptr t v body : readable t v body -> body_ok body -> readable (TPtr t) (VPtr v) (rlp_list body)
  | R_struct ts vs body : readable_fields ts vs body -> body_ok body ->
      readable (TStruct (map (pair true) ts)) (VStruct vs) (rlp_list body)
with readable_all : gotype -> list govalue -> bytes -> Prop :=
  | RA_nil t : readable_all t [] []
  | RA_cons t v vs b body : readable t v b -> readable_all t vs body -> readable_all t (v :: vs) (b ++ body)
with readable_fields : list gotype -> list govalue -> bytes -> Prop :=
  | RF_nil : readable_fields [] [] []
  | RF_cons t ts v vs b body : readable t v b -> readable_fields ts vs body ->
      readable_fields (t :: ts) (v :: vs) (b ++ body).

Scheme readable_mind := Minimality for readable Sort Prop
  with readable_all_mind := Minimality for readable_all Sort Prop
  with readable_fields_mind := Minimality for readable_fields Sort Prop.
Combined Scheme readable_mutind from readable_mind, readable_all_mind, readable_fields_mind.

(** Their encodings are the reference encodings. *)
Lemma readable_rlp :
  (forall t v b, readable t v b -> rlp v = Ok b) /\
  (forall t vs b, readable_all t vs b -> rlp_all rlp vs = Ok b) /\
  (forall ts vs b, readable_fields ts vs b -> rlp_all rlp vs = Ok b).
Proof.
  apply readable_mutind; intros; cbn [rlp rlp_all]; try done.
  all: repeat match goal with H : _ = Ok _ |- _ => rewrite H; clear H end; done.
Qed.

Lemma rlp_item_cons base bs : exists h t, rlp_item base bs = h :: t.
Proof. unfold rlp_item. case_match; eauto. Qed.

Lemma readable_nonempty t v b : readable t v b -> (0 < length b)%nat.
Proof.
  assert (forall s, (0 < length (rlp_string s))%nat) as Hs.
  { intros [|x [|y s]]; cbn [rlp_string]; try case_match; try (cbn; lia).
    all: match goal with |- context [rlp_item ?x ?y] => destruct (rlp_item_cons x y) as (?&?&->) end; cbn; lia. }
  assert (forall s, (0 < length (rlp_list s))%nat) as Hl.
  { intros s. unfold rlp_list. destruct (rlp_item_cons 0xC0 s) as (?&?&->). cbn. lia. }
  destruct 1; auto.
Qed.

Lemma decode_EOF t r : decodable t = true -> avail r = [] ->
  decodeValue maxAlloc t (zero_value t) (mkDecoder r None) = Err (EOF, r).
Proof.
  intros Ht Hr. destruct t; try done.
  all: cbn [decodeValue zero_value Reader]; unfold decodeBytes, newContainerDecoder, decodeContainer.
  all: cbn [flush_decoder containerDecoder Reader]; rewrite ReadFull_EOF by (done || lia); done.
Qed.

(** What reading back means for an item, for the items of a slice or an
    array and for the fields of a struct. *)
Definition reads_back (t : gotype) (v : govalue) (b : bytes) : Prop :=
  forall rest r, avail r = b ++ rest ->
    decodeValue maxAlloc t (zero_value t) (mkDecoder r None) = Ok (v, advance (length b) r).

Definition all_read_back (t : gotype) (vs : list govalue) (body : bytes) : Prop :=
  (length vs <= length body)%nat /\
  (forall r acc fuel, decodable t = true -> avail r = body -> (length vs < fuel)%nat ->
    decode_slice (decodeValue maxAlloc t (zero_value t)) fuel (mkDecoder r None) acc
    = Ok (acc ++ vs, advance (length body) r)) /\
  (forall rest r, avail r = body ++ rest ->
    decode_array (decodeValue maxAlloc t) (replicate (length vs) (zero_value t)) (mkDecoder r None)
    = Ok (vs, advance (length body) r)).

Definition fields_read_back (ts : list gotype) (vs : list govalue) (body : bytes) : Prop :=
  forall rest r, avail r = body ++ rest ->
    decode_fields (decodeValue maxAlloc) (map (pair true) ts) (map zero_value ts) (mkDecoder r None)
    = Ok (vs, advance (length body) r).

Lemma all_read_back_cons t v vs b body : (0 < length b)%nat ->
  reads_back t v b -> all_read_back t vs body -> all_read_back t (v :: vs) (b ++ body).
Proof.
  intros Hb Hv (Hlen & Hslice & Harray). split_and!; rewrite ?length_app; cbn [length]; [lia| |].
  - intros r acc fuel Ht Hr Hf. destruct fuel as [|fuel]; [lia|]. cbn [decode_slice].
    rewrite (Hv body) by done. rewrite Hslice; [|done|by apply avail_advance_app|lia].
    by rewrite <-app_assoc, advance_advance.
  - intros rest r Hr. cbn [replicate decode_array]. rewrite <-app_assoc in Hr.
    rewrite (Hv (body ++ rest)) by done. rewrite (Harray rest) by (by apply avail_advance_app).
    cbn [obind]. by rewrite advance_advance.
Qed.

Lemma fields_read_back_cons t ts v vs b body :
  reads_back t v b -> fields_read_back ts vs body -> fields_read_back (t :: ts) (v :: vs) (b ++ body).
Proof.
  intros Hv Hf rest r Hr. rewrite <-app_assoc in Hr. cbn [map decode_fields].
  rewrite (Hv (body ++ rest)) by done. rewrite (Hf rest) by (by apply avail_advance_app).
  cbn [obind]. by rewrite advance_advance, length_app.
Qed.

(** Reading the content of a container with [f] and going on after it. *)
Lemma container_reads {A} (f : rlpDecoder -> dec_result A) (x : A) body rest r : body_ok body ->
  (forall r2, avail r2 = body -> f (mkDecoder r2 None) = Ok (x, advance (length body) r2)) ->
  avail r = rlp_list body ++ rest ->
  exists d2 r2, newContainerDecoder (mkDecoder r None) = Ok d2 /\ Reader d2 = r2 /\ avail r2 = body /\
    f d2 = Ok (x, advance (length body) r2) /\
    parent (advance (length body) r2) = advance (length (rlp_list body)) r.
Proof.
  intros Hl Hf Hr. destruct (newContainerDecoder_list body rest r Hl Hr) as (r1 & Hd & Hr1 & Hadv).
  assert (avail (RLimit (Z.of_nat (length body)) r1) = body) as Ha.
  { cbn [avail]. by rewrite Nat2Z.id, Hr1, take_app_length. }
  eexists _, _. split_and!; [exact Hd|done|done|by apply Hf|]. cbn [advance parent]. done.
Qed.

Lemma number_reads bs : all_bytes bs -> (length bs <= 8)%nat -> all_bytes bs /\ len_ok bs.
Proof. intros. split; [done|]. unfold len_ok, body_ok. lia. Qed.

Lemma int64ToBytes_bytes z : is_i64 z -> z <> - 2 ^ 63 ->
  all_bytes (int64ToBytes z) /\ (length (int64ToBytes z) <= 8)%nat.
Proof.
  intros Hz Hmin. unfold int64ToBytes. destruct (0 <=? z) eqn:E; bool_to_Z.
  - destruct (uint64ToBytes_spec (u64 z)) as (_ & H & ? & _); [auto with rc|]. split; [done|lia].
  - rewrite (i64_small (- z)) by zlia.
    destruct (int64ToBytes_loop_spec 7 (- z) []) as (b & r & -> & Hb & Hr & Hl & _);
      [change (8 * Z.of_nat 8 - 1) with 63; zlia|constructor|].
    split; [constructor; [zlia|done]|cbn [length] in *; lia].
Qed.

Lemma uint_reads_back w z : 0 <= w <= 64 -> 0 <= z < 2 ^ w ->
  reads_back (TUint w) (VUint z) (rlp_string (uint64ToBytes z)).
Proof.
  intros Hw Hz rest r Hr. assert (2 ^ w <= 2 ^ 64) by (apply Z.pow_le_mono_r; lia).
  destruct (uint64ToBytes_spec z) as (_ & H1 & H2 & _); [zlia|].
  destruct (number_reads (uint64ToBytes z)) as [H3 H4]; [done|lia|].
  cbn [decodeValue Reader]. rewrite (decodeBytes_string _ rest) by done. cbn [obind].
  by rewrite bytesToUint64_roundtrip, Z.mod_small by zlia.
Qed.

Lemma int_reads_back w z : 0 < w <= 64 -> - 2 ^ (w - 1) <= z < 2 ^ (w - 1) ->
  - 2 ^ 63 < z < 0 \/ 0 <= z /\ hd 0 (uint64ToBytes z) < 128 ->
  reads_back (TInt w) (VInt z) (rlp_string (int64ToBytes z)).
Proof.
  intros Hw Hz Hs rest r Hr. assert (2 ^ (w - 1) <= 2 ^ 63) by (apply Z.pow_le_mono_r; lia).
  assert (2 ^ w = 2 ^ (w - 1) * 2) as Hp by (apply pow2_half; lia).
  assert (is_i64 z) as Hi by zlia. destruct (int64ToBytes_bytes z) as [H1 H2]; [done|lia|].
  destruct (number_reads (int64ToBytes z)) as [H3 H4]; [done..|].
  cbn [decodeValue Reader]. rewrite (decodeBytes_string _ rest) by done. cbn [obind].
  assert (bytesToInt64 (int64ToBytes z) = z) as -> by (by apply int64_reads).
  rewrite Z.mod_small by lia. do 3 f_equal. lia.
Qed.

Lemma container_reads_back :
  (forall t vs body, decodable t = true -> all_read_back t vs body -> body_ok body ->
     reads_back (TSlice t) (VSlice vs) (rlp_list body)) /\
  (forall t vs body, all_read_back t vs body -> body_ok body ->
     reads_back (TArray (length vs) t) (VArray vs) (rlp_list body)) /\
  (forall t v body, reads_back t v body -> body_ok body -> reads_back (TPtr t) (VPtr v) (rlp_list body)) /\
  (forall ts vs body, fields_read_back ts vs body -> body_ok body ->
     reads_back (TStruct (map (pair true) ts)) (VStruct vs) (rlp_list body)).
Proof.
  split_and!.
  - intros t vs body Ht (Hlen & Hs & _) Hl rest r Hr. cbn [decodeValue].
    destruct (container_reads (fun d => decode_slice (decodeValue maxAlloc t (zero_value t)) (fuel_of d) d [])
      vs body rest r Hl) as (d2 & r2 & -> & Hd & Ha & Hf & Hp); [|done|].
    { intros r2 Hr2. rewrite Hs; [done..|]. unfold fuel_of. cbn [Reader]. rewrite Hr2. lia. }
    cbn [obind]. rewrite Hf. cbn [obind]. by rewrite Hp.
  - intros t vs body (_ & _ & Harr) Hl rest r Hr. cbn [decodeValue zero_value].
    destruct (container_reads (decode_array (decodeValue maxAlloc t) (replicate (length vs) (zero_value t)))
      vs body rest r Hl) as (d2 & r2 & -> & Hd & Ha & Hf & Hp); [|done|].
    { intros r2 Hr2. apply (Harr []). by rewrite app_nil_r. }
    cbn [obind]. rewrite Hf. cbn [obind]. by rewrite Hp.
  - intros t v body Hv Hl rest r Hr. cbn [decodeValue].
    destruct (container_reads (decodeValue maxAlloc t (zero_value t)) v body rest r Hl)
      as (d2 & r2 & -> & Hd & Ha & Hf & Hp); [|done|].
    { intros r2 Hr2. apply (Hv []). by rewrite app_nil_r. }
    cbn [obind]. rewrite Hf. by rewrite Hp.
  - intros ts vs body Hv Hl rest r Hr. cbn [decodeValue zero_value].
    assert (map (fun f : bool * gotype => zero_value f.2) (map (pair true) ts) = map zero_value ts) as -> by (by rewrite map_map).
    destruct (container_reads (decode_fields (decodeValue maxAlloc) (map (pair true) ts) (map zero_value ts))
      vs body rest r Hl) as (d2 & r2 & -> & Hd & Ha & Hf & Hp); [|done|].
    { intros r2 Hr2. apply (Hv []). by rewrite app_nil_r. }
    cbn [obind]. rewrite Hf. cbn [obind]. by rewrite Hp.
Qed.

Lemma nil_reads_back t : decodable t = true -> reads_back (TPtr t) VNil (rlp_list []).
Proof.
  intros Ht rest r Hr. cbn [decodeValue].
  destruct (newContainerDecoder_list [] rest r) as (r1 & -> & Hr1 & Hp); [unfold body_ok; cbn; lia|done|].
  cbn [obind]. rewrite decode_EOF by done. cbn [parent]. by rewrite <-Hp, advance_0.
Qed.

Lemma readable_reads_back :
  (forall t v b, readable t v b -> reads_back t v b) /\
  (forall t vs b, readable_all t vs b -> all_read_back t vs b) /\
  (forall ts vs b, readable_fields ts vs b -> fields_read_back ts vs b).
Proof.
  destruct container_reads_back as (Hslice & Harray & Hptr & Hstruct).
  assert (H : (forall t v b, readable t v b -> readable t v b /\ reads_back t v b) /\
    (forall t vs b, readable_all t vs b -> all_read_back t vs b) /\
    (forall ts vs b, readable_fields ts vs b -> fields_read_back ts vs b));
    [|destruct H as (H1 & H2 & H3); split_and!; [intros t v b Hv; by apply H1|exact H2|exact H3]].
  apply readable_mutind.
  - intros w z Hw Hz. split; [by constructor|by apply uint_reads_back].
  - intros w z Hw Hz Hs. split; [by constructor|by apply int_reads_back].
  - intros bs Hb Hl. split; [by constructor|].
    intros rest r Hr. cbn [decodeValue Reader]. by rewrite (decodeBytes_string bs rest).
  - intros bs Hb Hl. split; [by constructor|].
    intros rest r Hr. cbn [decodeValue Reader]. by rewrite (decodeBytes_string bs rest).
  - intros t vs body Ht Ha IH Hl. split; [by constructor|by apply Hslice].
  - intros t vs body Ha IH Hl. split; [by constructor|by apply Harray].
  - intros t Ht. split; [by constructor|by apply nil_reads_back].
  - intros t v body Hv [_ IH] Hl. split; [by constructor|by apply Hptr].
  - intros ts vs body Ha IH Hl. split; [by constructor|by apply Hstruct].
  - intros t. split_and!; [done| |].
    + intros r acc fuel Ht Hr Hf. destruct fuel as [|fuel]; [cbn in Hf; lia|]. cbn [decode_slice].
      rewrite decode_EOF by done. by rewrite app_nil_r, advance_0.
    + intros rest r _. cbn. by rewrite advance_0.
  - intros t v vs b body Hv [_ IH] _ IHs. apply all_read_back_cons; [by eapply readable_nonempty|done|done].
  - intros rest r _. cbn. by rewrite advance_0.
  - intros t ts v vs b body _ [_ IH] _ IHs. by apply fields_read_back_cons.
Qed.

(** C35: the decoder on a byte string that the encoder wrote, for every length:
    it gives the string back, except that lengths 45 to 54 panic and length 55 gives
    an empty string and leaves the 55 bytes unread (the encoder uses the short
    header up to 55, the decoder's constant 055 is 45), and that a length
    make does not allocate panics. *)
Theorem decodeBytes_lengths bs rest r : 0 <= maxAlloc -> Z.of_nat (length bs) < 2 ^ 63 ->
  avail r = written (encodeBytes bs new_buffer) ++ rest ->
  decodeBytes maxAlloc r =
    (let l := Z.of_nat (length bs) in
     if (45 <=? l) && (l <? 55) || ((55 <? l) && (maxAlloc <? l)) then Panic
     else if l =? 55 then Ok ([], advance 1 r)
     else Ok (bs, advance (length (written (encodeBytes bs new_buffer))) r)).
Proof.
  intros Hmax H63 Hr. rewrite encodeBytes_item in Hr |- *. cbn [flush new_buffer writeAll written app] in *.
  by apply (decodeBytes_cases bs rest).
Qed.


(** ** The decoder always makes progress *)

(** A step that succeeds has read at least one byte, one that ends with the
    input has at most moved the reader. *)
Definition moves {A} (r : reader) (o : dec_result A) : Prop :=
  match o with
  | Ok (_, r') => avail r <> [] /\ exists k, (0 < k)%nat /\ r' = advance k r
  | Err (EOF, r') => exists k, r' = advance k r
  | _ => True
  end.

Definition may_move {A} (r : reader) (o : dec_result A) : Prop :=
  match o with Ok (_, r') | Err (EOF, r') => exists k, r' = advance k r | _ => True end.

(** The content of a container: its end is not an error. *)
Definition moves_inside {A} (r : reader) (o : dec_result A) : Prop :=
  match o with Ok (_, r') => exists k, r' = advance k r | Err (EOF, _) => False | _ => True end.

Lemma ReadFull_moves n r : may_move r (ReadFull n r).
Proof. unfold ReadFull. case_match; cbn; [eauto|]. destruct (avail r); eauto. Qed.

Lemma may_move_advance {A} k r (o : dec_result A) : may_move (advance k r) o -> may_move r o.
Proof. destruct o as [[x r']|[[] r']|]; cbn; try done; intros [j ->]; rewrite advance_advance; eauto. Qed.

Lemma moves_advance {A} k r (o : dec_result A) :
  (0 < k)%nat -> avail r <> [] -> may_move (advance k r) o -> moves r o.
Proof.
  intros Hk Hr. destruct o as [[x r']|[[] r']|]; cbn; try done; intros [j ->]; rewrite advance_advance; [|eauto].
  split; [done|]. eexists. split; [|done]. lia.
Qed.

Lemma may_move_here {A} r (x : A) : may_move r (Ok (x, r)).
Proof. exists 0%nat. by rewrite advance_0. Qed.

Lemma may_fail_here {A} r e : may_move (A := A) r (Err (e, r)).
Proof. destruct e; cbn; try done. exists 0%nat. by rewrite advance_0. Qed.

(** The header byte of an item. *)
Lemma header_cases r : ReadFull 1 r = Err (EOF, advance 0 r) \/
  exists h, avail r <> [] /\ ReadFull 1 r = Ok ([h], advance 1 r).
Proof.
  destruct (avail r) as [|h rest] eqn:Hr.
  - left. rewrite ReadFull_EOF by (done || lia). by rewrite advance_0.
  - right. exists h. split; [done|]. by eapply ReadFull_1.
Qed.

Lemma decodeBytes_moves r : moves r (decodeBytes maxAlloc r).
Proof.
  unfold decodeBytes. destruct (header_cases r) as [->|(h & Hr & ->)]; [cbn; eauto|]. cbn [obind hd].
  apply (moves_advance 1); [lia|done|].
  case_match; [apply may_move_here|]. case_match; [apply may_fail_here|].
  case_match; [apply ReadFull_moves|]. case_match; [done|].
  pose proof (ReadFull_moves (h - (128 + 55)) (advance 1 r)) as Hm.
  destruct (ReadFull (h - (128 + 55)) (advance 1 r)) as [[szb r2]|[e r2]|]; [|exact Hm|done].
  cbn in Hm |- *. destruct Hm as [k ->]. case_match; [done|]. eapply may_move_advance, ReadFull_moves.
Qed.

Lemma newContainerDecoder_moves r :
  match newContainerDecoder (mkDecoder r None) with
  | Ok d2 => exists n k, (0 < k)%nat /\ avail r <> [] /\ d2 = mkDecoder (RLimit n (advance k r)) None
  | Err (EOF, r') => exists k, r' = advance k r
  | _ => True
  end.
Proof.
  unfold newContainerDecoder, decodeContainer. cbn [flush_decoder containerDecoder Reader].
  destruct (header_cases r) as [->|(h & Hr & ->)]; [cbn; eauto|]. cbn [obind hd].
  destruct (h <? 192); [done|].
  destruct (h <? 192 + octal_055); [cbn; eexists _, 1%nat; split_and!; [lia|done|done]|].
  destruct (h - (192 + 55) <? 0); [done|].
  pose proof (ReadFull_moves (h - (192 + 55)) (advance 1 r)) as Hm.
  destruct (ReadFull (h - (192 + 55)) (advance 1 r)) as [[szb r2]|[e r2]|]; cbn in Hm |- *; [|..|done].
  - destruct Hm as [k ->]. rewrite advance_advance. eexists _, _. split_and!; [|done|done]. lia.
  - destruct e; try done. destruct Hm as [k ->]. rewrite advance_advance. eauto.
Qed.

(** The content of a container, read with [f] that moves the container's reader. *)
Lemma container_moves {A B} (f : rlpDecoder -> dec_result A) (g : A -> B) r :
  (forall r2, moves_inside r2 (f (mkDecoder r2 None))) ->
  moves r (let! d2 := newContainerDecoder (mkDecoder r None) in
           let! (x, r2) := f d2 in Ok (g x, parent r2)).
Proof.
  intros Hf. pose proof (newContainerDecoder_moves r) as H.
  destruct (newContainerDecoder (mkDecoder r None)) as [d2|[e r']|]; cbn [obind]; [|done..].
  destruct H as (n & k & Hk & Hr & ->). apply (moves_advance k); [done..|].
  specialize (Hf (RLimit n (advance k r))).
  destruct (f _) as [[x r2]|[e r2]|]; cbn in Hf |- *; [|destruct e; done|done].
  destruct Hf as [j ->]. cbn [advance parent]. eauto.
Qed.

Lemma decode_slice_inside dec : (forall r, moves r (dec (mkDecoder r None))) ->
  forall fuel r acc, moves_inside r (decode_slice dec fuel (mkDecoder r None) acc).
Proof.
  intros Hd. induction fuel as [|fuel IH]; intros r acc; cbn [decode_slice]; [done|].
  specialize (Hd r). destruct (dec (mkDecoder r None)) as [[x r']|[e r']|]; cbn in Hd; [| |done].
  - destruct Hd as (_ & k & _ & ->). specialize (IH (advance k r) (acc ++ [x])).
    destruct (decode_slice dec fuel _ _) as [[xs r']|[[] r']|]; cbn in *; try done.
    destruct IH as [j ->]. rewrite advance_advance. eauto.
  - by destruct e.
Qed.

Lemma decode_array_inside dec : (forall v r, moves r (dec v (mkDecoder r None))) ->
  forall vs r, moves_inside r (decode_array dec vs (mkDecoder r None)).
Proof.
  intros Hd. induction vs as [|v vs IH]; intros r; cbn [decode_array Reader]; [exists 0%nat; by rewrite advance_0|].
  specialize (Hd v r). destruct (dec v (mkDecoder r None)) as [[x r']|[e r']|]; cbn in Hd; [| |done].
  - destruct Hd as (_ & k & _ & ->). specialize (IH (advance k r)).
    destruct (decode_array dec vs _) as [[xs r']|[[] r']|]; cbn in *; try done.
    destruct IH as [j ->]. rewrite advance_advance. eauto.
  - by destruct e.
Qed.

Lemma decode_fields_inside dec fs : Forall (fun f => forall v r, moves r (dec f.2 v (mkDecoder r None))) fs ->
  forall vs r, moves_inside r (decode_fields dec fs vs (mkDecoder r None)).
Proof.
  assert (H0 : forall (vs : list govalue) r, moves_inside r (Ok (vs, r))) by (exists 0%nat; by rewrite advance_0).
  induction 1 as [|[[] ft] fs Hd _ IH]; intros [|v vs] r; cbn [decode_fields Reader]; auto.
  - specialize (Hd v r). cbn [snd] in Hd. destruct (dec ft v (mkDecoder r None)) as [[x r']|[e r']|]; cbn in Hd; [| |done].
    + destruct Hd as (_ & k & _ & ->). specialize (IH vs (advance k r)).
      destruct (decode_fields dec fs vs _) as [[xs r']|[[] r']|]; cbn in *; try done.
      destruct IH as [j ->]. rewrite advance_advance. eauto.
    + by destruct e.
  - specialize (IH vs r). destruct (decode_fields dec fs vs _) as [[xs r']|[[] r']|]; cbn in *; done.
Qed.

(** Induction on a type, with the hypothesis for the field types. *)
Fixpoint gotype_fields (P : gotype -> Prop)
    (Hleaf : forall t, match t with TSlice _ | TArray _ _ | TPtr _ | TStruct _ => True | _ => P t end)
    (Hslice : forall t, P t -> P (TSlice t)) (Harray : forall n t, P t -> P (TArray n t))
    (Hptr : forall t, P t -> P (TPtr t)) (Hstruct : forall fs, Forall (fun f => P f.2) fs -> P (TStruct fs))
    (t : gotype) : P t :=
  let rec := gotype_fields P Hleaf Hslice Harray Hptr Hstruct in
  match t with
  | TSlice t => Hslice t (rec t)
  | TArray n t => Harray n t (rec t)
  | TPtr t => Hptr t (rec t)
  | TStruct fs => Hstruct fs ((fix fields fs : Forall (fun f => P f.2) fs :=
      match fs with [] => List.Forall_nil _ | f :: fs' => List.Forall_cons _ _ _ (rec f.2) (fields fs') end) fs)
  | t => Hleaf t
  end.

Lemma map_result_moves {A B} (g : A -> B) r (o : dec_result A) :
  moves r o -> moves r (let! (x, r') := o in Ok (g x, r')).
Proof. by destruct o as [[x r']|[e r']|]. Qed.

Lemma moves_unknown {A} r : moves (A := A) r (Err (UnknownType, r)).
Proof. done. Qed.

Lemma decodeValue_moves t v r : moves r (decodeValue maxAlloc t v (mkDecoder r None)).
Proof.
  revert v r. apply (gotype_fields (fun t => forall v r, moves r (decodeValue maxAlloc t v (mkDecoder r None)))); clear t.
  - intros t. destruct t; try done; intros v r; cbn [decodeValue Reader]; try apply moves_unknown;
      try destruct v; try apply moves_unknown; apply map_result_moves, decodeBytes_moves.
  - intros t IH v r. cbn [decodeValue].
    apply (container_moves (fun d => decode_slice (decodeValue maxAlloc t (zero_value t)) (fuel_of d) d []) VSlice).
    intros r2. apply decode_slice_inside. intros r3. apply IH.
  - intros n t IH v r. cbn [decodeValue Reader]. destruct v; try apply moves_unknown.
    apply container_moves. intros r2. by apply decode_array_inside.
  - intros t IH v r. cbn [decodeValue].
    set (f d := match decodeValue maxAlloc t (zero_value t) d with
      | Ok (x, r') => Ok (VPtr x, r') | Err (EOF, r') => Ok (VNil, r') | Err e => Err e | Panic => Panic end).
    pose proof (container_moves f (fun x => x) r) as H.
    assert (forall d2, (let! (x, r2) := f d2 in Ok (x, parent r2)) = match decodeValue maxAlloc t (zero_value t) d2 with
      | Ok (x, r') => Ok (VPtr x, parent r') | Err (EOF, r') => Ok (VNil, parent r') | Err e => Err e | Panic => Panic end) as E.
    { intros d2. unfold f. by destruct (decodeValue _ _ _ d2) as [[]|[[] ?]|]. }
    destruct (newContainerDecoder _); cbn [obind] in H |- *; [rewrite <-E|..]; apply H; intros r2; unfold f.
    all: specialize (IH (zero_value t) r2); destruct (decodeValue _ _ _ _) as [[]|[[] ?]|]; cbn in *; try done.
    all: destruct IH as (_ & k & _ & ->); eauto.
  - intros fs IH v r. cbn [decodeValue Reader]. destruct v; try apply moves_unknown.
    apply container_moves. intros r2. by apply decode_fields_inside.
Qed.

(** The loop that reads the elements of a slice ends: whatever the
    input, as many rounds as the container has bytes, and one, are enough, so that the
    loop can only panic where the decoder of an element does. *)
Lemma decode_slice_terminates t r acc :
  (forall k, decodeValue maxAlloc t (zero_value t) (mkDecoder (advance k r) None) <> Panic) ->
  decode_slice (decodeValue maxAlloc t (zero_value t)) (fuel_of (mkDecoder r None)) (mkDecoder r None) acc <> Panic.
Proof.
  unfold fuel_of. cbn [Reader]. intros Hd. remember (S (length (avail r))) as fuel eqn:Ef.
  assert (length (avail r) < fuel)%nat as Hf by lia. clear Ef.
  revert r acc Hd Hf. induction fuel as [|fuel IH]; intros r acc Hd Hf; [lia|]. cbn [decode_slice].
  pose proof (decodeValue_moves t (zero_value t) r) as Hm. pose proof (Hd 0%nat) as H0. rewrite advance_0 in H0.
  destruct (decodeValue maxAlloc t (zero_value t) (mkDecoder r None)) as [[x r']|[e r']|]; [|by destruct e|done].
  destruct Hm as (Hr & k & Hk & ->). apply IH.
  - intros j. rewrite advance_advance. apply Hd.
  - rewrite avail_advance, length_drop. destruct (avail r); [done|]. cbn [length] in *. lia.
Qed.

End RoundTrip.
