(* ===== verification/Address.v ===== *)
(** * Addresses: [common/address.go]

    An [Address] is a 21-byte array: a type byte (0 for an account, 1 for a
    contract) and a 20-byte ID.  A nil-able [[]byte] argument is an option. *)

From Stdlib Require Strings.String.
From S2P Require Import Prelude Bytes HexInt.
Import String.StringSyntax.

Definition AddressIDBytes : nat := 20.
Definition AddressBytes : nat := AddressIDBytes + 1.

Abbreviation Address := bytes (only parsing).

(** [new(Address)]: the zero array. *)
Definition zero_Address : Address := make_bytes AddressBytes.

(** The errors the package returns here. *)
Inductive addr_error := ErrIllegalArgument | ErrHexDecode.

Definition Address_type (a : Address) : byte := default 0 (head a).
Definition IsContract (a : Address) : bool := Address_type a =? 1.
Definition Address_Bytes (a : Address) : bytes := a.
Definition Address_ID (a : Address) : bytes := drop 1 a.

Definition Address_String (a : Address) : bytes :=
  if Address_type a =? 1 then str "cx" ++ hex_EncodeToString (drop 1 a)
  else str "hx" ++ hex_EncodeToString (drop 1 a).

Definition SetTypeAndID (a : Address) (ic : bool) (id : option bytes) : outcome addr_error Address :=
  match id with
  | None => Err ErrIllegalArgument
  | Some id =>
      let a :=
        if (length id <? AddressIDBytes)%nat
        then copy_at (AddressIDBytes - length id + 1) id a
        else copy_at 1 id a in
      Ok (copy_at 0 [if ic then 1 else 0] a)
  end.

#[global] Arguments SetTypeAndID : simpl never.

(** The type byte selects the kind; indexing an empty slice panics. *)
Definition Address_SetBytes (a : Address) (b : option bytes) : outcome addr_error Address :=
  match b with
  | None => Err ErrIllegalArgument
  | Some [] => Panic
  | Some (t :: id) =>
      if t =? 0 then SetTypeAndID a false (Some id)
      else if t =? 1 then SetTypeAndID a true (Some id)
      else Err ErrIllegalArgument
  end.

Definition Address_SetString (a : Address) (s : bytes) : outcome addr_error Address :=
  let '(isContract, s) :=
    if (2 <=? length s)%nat then
      if has_prefix2 (str "cx") s then (true, drop 2 s)
      else if has_prefix2 (str "hx") s then (false, drop 2 s)
      else if has_prefix2 (str "0x") s then (false, drop 2 s)
      else (false, s)
    else (false, s) in
  let s := if Z.of_nat (length s) mod 2 =? 1 then 48 :: s else s in
  match hex_DecodeString s with
  | None => Err ErrHexDecode
  | Some bs => SetTypeAndID a isContract (Some bs)
  end.

(** The constructors ignore the error of the setter: the receiver is then
    unchanged. *)
Definition or_unchanged (a : Address) (r : outcome addr_error Address) : outcome addr_error Address :=
  match r with Err _ => Ok a | r => r end.

Definition NewAccountAddress (b : option bytes) : outcome addr_error Address :=
  or_unchanged zero_Address (SetTypeAndID zero_Address false b).
Definition NewContractAddress (b : option bytes) : outcome addr_error Address :=
  or_unchanged zero_Address (SetTypeAndID zero_Address true b).
Definition NewAddress (b : option bytes) : outcome addr_error Address :=
  or_unchanged zero_Address (Address_SetBytes zero_Address b).

(** [log.Panicln] on a malformed string. *)
Definition NewAddressFromString (s : bytes) : outcome addr_error Address :=
  match Address_SetString zero_Address s with Ok a => Ok a | _ => Panic end.

(** [Equal] on possibly-nil references. *)
Definition Address_Equal (a a2 : option Address) : bool :=
  match a, a2 with
  | None, None => true
  | Some a, Some a2 => bool_decide (a = a2)
  | _, _ => false
  end.

(** ** Well-formed addresses *)

Definition wf_Address (a : Address) : Prop :=
  length a = AddressBytes /\ all_bytes a /\ (Address_type a = 0 \/ Address_type a = 1).

#[global] Instance wf_Address_dec a : Decision (wf_Address a).
Proof. unfold wf_Address. apply _. Defined.

Lemma wf_Address_inv a : wf_Address a ->
  exists t id, a = t :: id /\ (t = 0 \/ t = 1) /\ length id = AddressIDBytes /\ all_bytes id.
Proof.
  intros (Hl & Hb & Ht). destruct a as [|t id]; [done|]. exists t, id.
  inversion_clear Hb. unfold AddressBytes in Hl. simpl in *. split_and!; auto.
Qed.

Lemma length_wf_Address a : wf_Address a -> length a = 21%nat.
Proof. by intros [? _]. Qed.

Lemma bytes_wf_Address a : wf_Address a -> all_bytes a.
Proof. by intros (_ & ? & _). Qed.

#[export] Hint Resolve length_wf_Address bytes_wf_Address : rc.

Lemma wf_Address_cons t id :
  (t = 0 \/ t = 1) -> length id = AddressIDBytes -> all_bytes id -> wf_Address (t :: id).
Proof.
  intros Ht Hl Hb. split_and!; [by rewrite length_cons, Hl| |done].
  constructor; [zlia|done].
Qed.

Lemma wf_zero_Address : wf_Address zero_Address.
Proof. by vm_compute; split_and!; auto; repeat constructor. Qed.

(** ** The setters *)

(** A full ID replaces the whole address, whatever it held. *)
Lemma SetTypeAndID_full a ic id :
  length a = AddressBytes -> length id = AddressIDBytes ->
  SetTypeAndID a ic (Some id) = Ok ((if ic then 1 else 0) :: id).
Proof.
  intros Ha Hid. unfold SetTypeAndID. rewrite Hid. simpl.
  destruct a as [|x a]; [done|]. f_equal.
  rewrite (copy_at_end [x] a) by (unfold AddressBytes in Ha; simpl in Ha; unfold AddressIDBytes in *; lia).
  by apply (copy_at_0 [x]).
Qed.

(** An ID shorter than 20 bytes is right-aligned over zeros in a new address;
    one that is longer keeps its first 20 bytes. *)
Lemma SetTypeAndID_new ic id :
  SetTypeAndID zero_Address ic (Some id)
  = Ok ((if ic then 1 else 0) :: make_bytes (AddressIDBytes - length id) ++ take AddressIDBytes id).
Proof.
  unfold SetTypeAndID. destruct (Nat.ltb_spec (length id) AddressIDBytes) as [Hl|Hl].
  - f_equal. set (k := (AddressIDBytes - length id)%nat).
    replace zero_Address with ((0 :: make_bytes k) ++ make_bytes (length id)).
    2:{ unfold zero_Address, make_bytes. change (0 :: replicate k 0) with (replicate (S k) 0).
        rewrite <-replicate_add. f_equal. unfold k, AddressBytes. lia. }
    replace (k + 1)%nat with (length (0 :: make_bytes k)) by (simpl; autorewrite with rc_rw; lia).
    rewrite copy_at_end by (by autorewrite with rc_rw).
    rewrite (take_ge id) by lia. by apply (copy_at_0 [0]).
  - f_equal. change zero_Address with ([0] ++ make_bytes AddressIDBytes).
    rewrite (copy_at_cut [0]) by (autorewrite with rc_rw; lia).
    replace (AddressIDBytes - length id)%nat with 0%nat by lia.
    by apply (copy_at_0 [0]).
Qed.

Lemma SetTypeAndID_wf ic id : all_bytes id ->
  exists a, SetTypeAndID zero_Address ic (Some id) = Ok a /\ wf_Address a.
Proof.
  intros Hb. rewrite SetTypeAndID_new. eexists; split; [done|].
  apply wf_Address_cons; [destruct ic; auto| |].
  - rewrite length_app, length_take. autorewrite with rc_rw. unfold AddressIDBytes. lia.
  - apply Forall_app; split; [apply Forall_replicate; zlia|by apply Forall_take].
Qed.

(** The stored bytes of an address are read back, into any address. *)
Lemma Address_SetBytes_Bytes a b : length b = AddressBytes -> wf_Address a ->
  Address_SetBytes b (Some (Address_Bytes a)) = Ok a.
Proof.
  intros Hl (t & id & -> & Ht & Hid & _)%wf_Address_inv.
  unfold Address_SetBytes, Address_Bytes.
  destruct Ht as [-> | ->]; simpl; by rewrite SetTypeAndID_full.
Qed.

Lemma NewAddress_Bytes a : wf_Address a -> NewAddress (Some (Address_Bytes a)) = Ok a.
Proof. intros. unfold NewAddress. by rewrite Address_SetBytes_Bytes. Qed.

Lemma Address_SetString_prefixed a (ic : bool) s :
  Address_SetString a ((if ic then str "cx" else str "hx") ++ s)
  = match hex_DecodeString (if Z.of_nat (length s) mod 2 =? 1 then 48 :: s else s) with
    | None => Err ErrHexDecode
    | Some bs => SetTypeAndID a ic (Some bs)
    end.
Proof. by destruct ic. Qed.

(** An address is read back from its bytes, from its type and id, and from
    its text. *)
Lemma Address_roundtrip a : wf_Address a ->
  NewAddress (Some (Address_Bytes a)) = Ok a /\ NewAddressFromString (Address_String a) = Ok a.
Proof.
  intros Hw. split; [by apply NewAddress_Bytes|].
  destruct (wf_Address_inv a Hw) as (t & id & -> & Ht & Hid & Hb).
  assert (Address_String (t :: id)
    = (if t =? 1 then str "cx" else str "hx") ++ hex_EncodeToString id) as ->
    by (by destruct Ht as [-> | ->]).
  unfold NewAddressFromString.
  rewrite Address_SetString_prefixed, length_hex, Hid.
  replace (Z.of_nat (2 * AddressIDBytes) mod 2 =? 1) with false by done.
  rewrite hex_roundtrip, SetTypeAndID_full by done. by destruct Ht as [-> | ->].
Qed.

(** Reading an address from bytes, on every input: [nil] is refused, an
    empty slice panics, a type byte above 1 is refused, and otherwise the result
    is an address of that type whose id is cut or padded to 20 bytes. *)
Lemma Address_SetBytes_cases b :
  Address_SetBytes zero_Address None = Err ErrIllegalArgument /\
  Address_SetBytes zero_Address (Some []) = Panic /\
  (forall t id, b = t :: id -> all_bytes b ->
     (1 < t -> Address_SetBytes zero_Address (Some b) = Err ErrIllegalArgument) /\
     (t <= 1 -> exists a, Address_SetBytes zero_Address (Some b) = Ok a /\ wf_Address a /\
        Address_type a = t /\
        Address_ID a = make_bytes (AddressIDBytes - length id) ++ take AddressIDBytes id)).
Proof.
  split_and!; [done|done|]. intros t id -> Hall. inversion_clear Hall as [|?? Ht Hid].
  unfold is_byte in Ht. split; intros Hlt.
  - simpl. by rewrite !(proj2 (Z.eqb_neq _ _)) by lia.
  - assert (t = 0 \/ t = 1) as [-> | ->] by lia; simpl.
    + destruct (SetTypeAndID_wf false id Hid) as (a & E & Hw). exists a.
      split_and!; [done..| |]; rewrite SetTypeAndID_new in E; by simplify_eq.
    + destruct (SetTypeAndID_wf true id Hid) as (a & E & Hw). exists a.
      split_and!; [done..| |]; rewrite SetTypeAndID_new in E; by simplify_eq.
Qed.
