(* ===== verification/Crypto.v ===== *)
(** * Signatures and keys ([common/crypto], [common/signature.go], and the
    address of a public key in [common/address.go])

    A wrapper of a library of secp256k1, which is a parameter, as is SHA3-256.
    A signature is [R|S|V], with a dummy [V] when it has none. *)

From Stdlib Require Strings.String.
From S2P Require Import Prelude Bytes HexInt HexText Address.
Import String.StringSyntax.

(** ** Base64 ([base64.StdEncoding])

    The standard alphabet with padding, as Go reads it: line ends anywhere are
    skipped, the unused bits of the last digit are not looked at, and nothing may
    follow the padding. *)

Definition base64_digit (v : Z) : byte :=
  if v <? 26 then 65 + v
  else if v <? 52 then 97 + (v - 26)
  else if v <? 62 then 48 + (v - 52)
  else if v =? 62 then 43 else 47.

Definition base64_value (c : byte) : option Z :=
  if (65 <=? c) && (c <=? 90) then Some (c - 65)
  else if (97 <=? c) && (c <=? 122) then Some (c - 97 + 26)
  else if (48 <=? c) && (c <=? 57) then Some (c - 48 + 52)
  else if c =? 43 then Some 62
  else if c =? 47 then Some 63
  else None.

Definition pad_char : byte := 61.

(** [EncodeToString]: three bytes are four digits. *)
Fixpoint base64_Encode (bs : bytes) : bytes :=
  match bs with
  | a :: b :: c :: bs =>
      let v := a * 65536 + b * 256 + c in
      base64_digit (v / 262144) :: base64_digit (v / 4096 mod 64) :: base64_digit (v / 64 mod 64) :: base64_digit (v mod 64) ::
      base64_Encode bs
  | [a; b] =>
      let v := a * 65536 + b * 256 in
      [base64_digit (v / 262144); base64_digit (v / 4096 mod 64); base64_digit (v / 64 mod 64); pad_char]
  | [a] =>
      let v := a * 65536 in [base64_digit (v / 262144); base64_digit (v / 4096 mod 64); pad_char; pad_char]
  | [] => []
  end.

(** [DecodeString] without the line ends. *)
Fixpoint base64_quanta (s : bytes) : option bytes :=
  match s with
  | [] => Some []
  | c0 :: c1 :: c2 :: c3 :: s =>
      v0 ← base64_value c0; v1 ← base64_value c1;
      if (c2 =? pad_char) && (c3 =? pad_char) then
        match s with [] => Some [(v0 * 64 + v1) / 16] | _ => None end
      else
        v2 ← base64_value c2;
        if c3 =? pad_char then
          match s with
          | [] => Some [(v0 * 64 + v1) / 16; (v0 * 4096 + v1 * 64 + v2) / 4 mod 256]
          | _ => None
          end
        else
          v3 ← base64_value c3;
          let v := v0 * 262144 + v1 * 4096 + v2 * 64 + v3 in
          bs ← base64_quanta s; Some (v / 65536 :: v / 256 mod 256 :: v mod 256 :: bs)
  | _ => None
  end.

Definition line_end (c : byte) : bool := (c =? 10) || (c =? 13).
Definition base64_Decode (s : bytes) : option bytes := base64_quanta (List.filter (fun c => negb (line_end c)) s).

(** ** Reading back *)

Ltac z64 := Z.to_euclidean_division_equations; lia.

Lemma base64_digit_value v : 0 <= v < 64 ->
  base64_value (base64_digit v) = Some v /\ line_end (base64_digit v) = false /\ (base64_digit v =? pad_char) = false.
Proof.
  intros Hv. assert (Forall (fun v => base64_value (base64_digit v) = Some v /\ line_end (base64_digit v) = false /\
    (base64_digit v =? pad_char) = false) (map Z.of_nat (seq 0 64))) as Hall by (apply (bool_decide_unpack _); by vm_compute).
  rewrite Forall_forall in Hall. apply Hall. apply list_elem_of_fmap. exists (Z.to_nat v). split; [lia|]. apply elem_of_seq. lia.
Qed.

(** The digits of a number of 24 bits, and its bytes. *)
Lemma digits_sum v :
  v / 262144 * 262144 + v / 4096 mod 64 * 4096 + v / 64 mod 64 * 64 + v mod 64 = v /\
  (v / 262144 * 64 + v / 4096 mod 64) = v / 4096 /\
  (v / 262144 * 4096 + v / 4096 mod 64 * 64 + v / 64 mod 64) = v / 64.
Proof. split_and!; z64. Qed.

Lemma three_bytes a b c : is_byte a -> is_byte b -> is_byte c ->
  let v := a * 65536 + b * 256 + c in 0 <= v / 262144 < 64 /\ v / 65536 = a /\ v / 256 mod 256 = b /\ v mod 256 = c.
Proof.
  unfold is_byte. intros Ha Hb Hc. cbv zeta. split; [z64|]. split; [z64|]. split; [|z64].
  replace (a * 65536 + b * 256 + c) with (c + (a * 256 + b) * 256) by lia.
  rewrite Z.div_add, (Z.div_small c) by lia. z64.
Qed.

Lemma digit_range v : 0 <= v mod 64 < 64.
Proof. apply Z.mod_pos_bound. lia. Qed.

Lemma base64_value_digit v : 0 <= v < 64 -> base64_value (base64_digit v) = Some v.
Proof. intros Hv. by destruct (base64_digit_value v Hv). Qed.
Lemma base64_digit_pad v : 0 <= v < 64 -> (base64_digit v =? pad_char) = false.
Proof. intros Hv. by destruct (base64_digit_value v Hv) as (_ & _ & ?). Qed.

Lemma base64_quanta_Encode bs : all_bytes bs -> base64_quanta (base64_Encode bs) = Some bs.
Proof.
  induction bs as [bs IH] using (induction_ltof1 _ length). intros Hb. unfold ltof in IH.
  destruct bs as [|a [|b [|c bs]]]; [done|..].
  - apply Forall_cons in Hb as [Ha _]. destruct (three_bytes a 0 0) as (H0 & Ea & _ & _); [done..|]. cbn [base64_Encode].
    replace (a * 65536 + 0 * 256 + 0) with (a * 65536) in * by lia. cbn [base64_quanta].
    rewrite !base64_value_digit by (done || apply digit_range). cbn [mbind option_bind]. rewrite !Z.eqb_refl. cbn [andb].
    rewrite (proj1 (proj2 (digits_sum _))). do 2 f_equal. rewrite <-Ea at 2. z64.
  - apply Forall_cons in Hb as [Ha [Hb _]%Forall_cons]. destruct (three_bytes a b 0) as (H0 & Ea & Eb & _); [done..|].
    cbn [base64_Encode]. replace (a * 65536 + b * 256 + 0) with (a * 65536 + b * 256) in * by lia. cbn [base64_quanta].
    rewrite !base64_value_digit by (done || apply digit_range). cbn [mbind option_bind].
    rewrite base64_digit_pad, Z.eqb_refl by apply digit_range. cbn [andb].
    destruct (digits_sum (a * 65536 + b * 256)) as (_ & -> & ->). do 2 f_equal; [rewrite <-Ea at 2; z64|].
    f_equal. rewrite <-Eb at 2. by rewrite Z.div_div.
  - apply Forall_cons in Hb as [Ha [Hb [Hc Hbs]%Forall_cons]%Forall_cons].
    destruct (three_bytes a b c) as (H0 & Ea & Eb & Ec); [done..|]. cbn [base64_Encode base64_quanta].
    rewrite !base64_value_digit by (done || apply digit_range). cbn [mbind option_bind].
    rewrite !base64_digit_pad by apply digit_range. cbn [andb].
    rewrite IH by (done || (cbn; lia)). cbn [mbind option_bind]. rewrite (proj1 (digits_sum _)), Ea, Eb, Ec. done.
Qed.

Lemma base64_digit_plain v : 0 <= v < 64 -> line_end (base64_digit v) = false.
Proof. intros Hv. by destruct (base64_digit_value v Hv) as (_ & ? & _). Qed.

Lemma base64_Encode_lines bs : all_bytes bs -> List.filter (fun c => negb (line_end c)) (base64_Encode bs) = base64_Encode bs.
Proof.
  induction bs as [bs IH] using (induction_ltof1 _ length). intros Hb. unfold ltof in IH.
  destruct bs as [|a [|b [|c bs]]]; [done|..].
  - apply Forall_cons in Hb as [Ha _]. destruct (three_bytes a 0 0) as (H0 & _); [done..|].
    replace (a * 65536 + 0 * 256 + 0) with (a * 65536) in * by lia. cbn [base64_Encode List.filter].
    by rewrite !base64_digit_plain by (done || apply digit_range).
  - apply Forall_cons in Hb as [Ha [Hb _]%Forall_cons]. destruct (three_bytes a b 0) as (H0 & _); [done..|].
    replace (a * 65536 + b * 256 + 0) with (a * 65536 + b * 256) in * by lia. cbn [base64_Encode List.filter].
    by rewrite !base64_digit_plain by (done || apply digit_range).
  - apply Forall_cons in Hb as [Ha [Hb [Hc Hbs]%Forall_cons]%Forall_cons].
    destruct (three_bytes a b c) as (H0 & _); [done..|]. cbn [base64_Encode List.filter].
    rewrite !base64_digit_plain by (done || apply digit_range). cbn [negb]. by rewrite IH by (done || (cbn; lia)).
Qed.

(** What is encoded is read back. *)
Lemma base64_roundtrip bs : all_bytes bs -> base64_Decode (base64_Encode bs) = Some bs.
Proof. intros Hb. unfold base64_Decode. rewrite base64_Encode_lines by done. by apply base64_quanta_Encode. Qed.

(** ** Keys and signatures *)

Definition SignatureLenRawWithV : nat := 65.
Definition SignatureLenRaw : nat := 64.
Definition HashLen : nat := 32.
Definition PrivateKeyLen : nat := 32.
Definition PublicKeyLenCompressed : nat := 33.
Definition PublicKeyLenUncompressed : nat := 65.
Definition publicKeyCompressed : byte := 2.

Inductive crypto_error :=
  | ErrInvalidArguments | ErrEmptySignature | ErrSignatureFormat | ErrNoV | ErrNotSignature | ErrHashIllegal
  | ErrEmptyKey | ErrKeyFormat | ErrInvalidKeyLength | ErrSignatureJSON | ErrBase64.

(** ** The library

    [None] is nil, or a panic of the library.  [Sign] draws a nonce. *)
Class Secp256k1 := {
  secp_Sign : bytes -> bytes -> bytes -> option bytes;
  secp_RecoverPubkey : bytes -> bytes -> option bytes;
  secp_VerifySignature : bytes -> bytes -> bytes -> Z;
  secp_PubkeyFromSeckey : bytes -> option bytes;
  secp_UncompressPubkey : bytes -> option bytes;
}.

(** What is documented of it, for the secret keys that have a public key: a signature
    is 65 bytes with a small [S] and a recovery id below 4; the public key is
    recovered from it; and a signature is valid when the key that is recovered is
    the one that is given. *)
Class Secp256k1Laws `{!Secp256k1} : Prop := {
  secp_sign : forall nonce hash seckey pubkey, secp_PubkeyFromSeckey seckey = Some pubkey ->
    (0 < length hash <= HashLen)%nat ->
    exists sig, secp_Sign nonce hash seckey = Some sig /\ length sig = SignatureLenRawWithV /\ all_bytes sig /\
      default 0 (sig !! 32%nat) < 128 /\ default 0 (sig !! 64%nat) < 4 /\ secp_RecoverPubkey hash sig = Some pubkey;
  secp_verify : forall hash sig pubkey, length sig = SignatureLenRawWithV -> length pubkey = PublicKeyLenCompressed ->
    default 0 (sig !! 32%nat) < 128 -> default 0 (sig !! 64%nat) < 4 -> secp_RecoverPubkey hash sig = Some pubkey ->
    secp_VerifySignature hash sig pubkey <> 0;
  secp_pubkey : forall seckey pubkey, secp_PubkeyFromSeckey seckey = Some pubkey -> length pubkey = PublicKeyLenCompressed;
}.

(** ** Keys ([common/crypto/key.go]) *)

(** A private key has 32 bytes, a public key is kept in its compressed form. *)
Definition PrivateKey : Type := bytes.
Definition PublicKey : Type := bytes.

Definition ParsePrivateKey (b : bytes) : outcome crypto_error PrivateKey :=
  if (length b =? PrivateKeyLen)%nat then Ok b else Err ErrInvalidKeyLength.
Definition PrivateKey_Bytes (key : PrivateKey) : bytes := copy_at 0 key (make_bytes PrivateKeyLen).
Definition PrivateKey_String (key : PrivateKey) : bytes := str "0x" ++ hex_EncodeToString key.

(** The last byte tells the sign of [y]. *)
Definition uncompToCompPublicKey (uncomp : bytes) : bytes :=
  let format := if Z.land (default 0 (uncomp !! 64%nat)) 1 =? 1 then Z.lor publicKeyCompressed 1 else publicKeyCompressed in
  let comp := copy_at 0 [format] (make_bytes PublicKeyLenCompressed) in
  copy_at 1 (take 32 (drop 1 uncomp)) comp.

Definition ParsePublicKey (pubKey : option bytes) : outcome crypto_error PublicKey :=
  match pubKey with
  | None | Some [] => Err ErrEmptyKey
  | Some pubKey =>
      if (length pubKey =? PublicKeyLenCompressed)%nat then Ok pubKey
      else if (length pubKey =? PublicKeyLenUncompressed)%nat then Ok (uncompToCompPublicKey pubKey)
      else Err ErrKeyFormat
  end.

Definition SerializeCompressed (key : PublicKey) : bytes := key.
Definition PublicKey_Equal (key key2 : PublicKey) : bool := bool_decide (key = key2).
Definition PublicKey_String (key : PublicKey) : bytes := str "0x" ++ hex_EncodeToString key.

(** ** Signatures ([common/crypto/signature.go]) *)

Record Signature := mkSignature { s_bytes : bytes; s_hasV : bool }.

Definition ParseSignature (sig : bytes) : outcome crypto_error Signature :=
  if (length sig =? 0)%nat then Err ErrEmptySignature
  else if (length sig =? SignatureLenRawWithV)%nat then Ok (mkSignature sig true)
  else if (length sig =? SignatureLenRaw)%nat then Ok (mkSignature (sig ++ [0]) false)
  else Err ErrSignatureFormat.

(** [R] and [S] are put together, and the byte for [V] is set behind them,
    where the slice ends. *)
Definition ParseSignatureVRS (sig : bytes) : outcome crypto_error Signature :=
  if negb (length sig =? 65)%nat then Err ErrSignatureFormat
  else
    let bs := take 32 (drop 1 sig) ++ drop 33 sig in
    if (64 <? length bs)%nat then Ok (mkSignature (<[64%nat := default 0 (head sig)]> bs) false) else Panic.

Definition HasV (sig : Signature) : bool := s_hasV sig.
Definition SerializeRS (sig : Signature) : outcome crypto_error bytes :=
  if (length (s_bytes sig) <? 64)%nat then Err ErrNotSignature else Ok (take 64 (s_bytes sig)).
Definition SerializeVRS (sig : Signature) : outcome crypto_error bytes :=
  if negb (HasV sig) then Err ErrNoV
  else
    let bs := s_bytes sig in
    let s := copy_at 0 [default 0 (bs !! 64%nat)] (make_bytes SignatureLenRawWithV) in
    let s := copy_at 1 (take 32 bs) s in
    Ok (copy_at 33 (take 32 (drop 32 bs)) s).
Definition SerializeRSV (sig : Signature) : outcome crypto_error bytes :=
  if negb (HasV sig) then Err ErrNoV else Ok (s_bytes sig).

(** [sig] may be nil. *)
Definition Signature_String (sig : option Signature) : bytes :=
  match sig with
  | Some (mkSignature (_ :: _ as bs) hasV) =>
      if hasV : bool then str "0x" ++ hex_EncodeToString bs
      else str "0x" ++ hex_EncodeToString (take SignatureLenRaw bs) ++ str "[no V]"
  | _ => str "[empty]"
  end.

Definition hash_ok (hash : bytes) : bool := negb (length hash =? 0)%nat && (length hash <=? HashLen)%nat.

Section Library.
Context `{!Secp256k1}.

Definition or_panic {E A} (o : option A) : outcome E A := match o with Some a => Ok a | None => Panic end.

Definition PrivateKey_PublicKey (key : PrivateKey) : outcome crypto_error PublicKey :=
  let! pkBytes := or_panic (secp_PubkeyFromSeckey key) in
  match ParsePublicKey (Some pkBytes) with Ok pk => Ok pk | _ => Panic end.
Definition SerializeUncompressed (key : PublicKey) : option bytes := secp_UncompressPubkey key.

Definition NewSignature (nonce hash : bytes) (privKey : option PrivateKey) : outcome crypto_error Signature :=
  match privKey with
  | Some key =>
      if negb (hash_ok hash) then Err ErrInvalidArguments
      else let! sig := or_panic (secp_Sign nonce hash key) in ParseSignature sig
  | None => Err ErrInvalidArguments
  end.

Definition RecoverPublicKey (sig : Signature) (hash : bytes) : outcome crypto_error PublicKey :=
  if negb (HasV sig) then Err ErrNoV
  else if negb (hash_ok hash) then Err ErrHashIllegal
  else let! s := SerializeRSV sig in ParsePublicKey (secp_RecoverPubkey hash s).

Definition Verify (sig : Signature) (msg : bytes) (pubKey : option PublicKey) : bool :=
  match pubKey with
  | Some key =>
      if negb (hash_ok msg) then false
      else
        match SerializeRSV sig with
        | Ok s => negb (secp_VerifySignature msg s key =? 0)
        | _ => false
        end
  | None => false
  end.

(** [NewAccountAddressFromPublicKey]: the last 20 bytes of the hash of the
    uncompressed key behind its first byte. *)
Definition NewAccountAddressFromPublicKey (SHA3Sum256 : bytes -> bytes) (pubKey : PublicKey) : outcome addr_error Address :=
  match SerializeUncompressed pubKey with
  | Some (_ :: pk) =>
      let digest := SHA3Sum256 pk in
      or_unchanged zero_Address (SetTypeAndID zero_Address false (Some (drop (length digest - 20) digest)))
  | _ => Panic
  end.
End Library.

(** ** The signature of a message ([common/signature.go])

    A pointer to a signature, which may be nil.  Reading a JSON string is a
    parameter, as in [HexText]. *)

Section JSON.
Context (json_string : bytes -> option bytes).

(** A nil signature is marshalled as nil, which is no JSON. *)
Definition Signature_MarshalJSON (sig : option Signature) : outcome crypto_error (option bytes) :=
  match sig with
  | None => Ok None
  | Some sig => let! bs := SerializeRSV sig in Ok (Some (json_quote (base64_Encode bs)))
  end.

(** An empty text leaves the signature as it was. *)
Definition Signature_UnmarshalJSON (s : bytes) (sig : option Signature) : outcome crypto_error (option Signature) :=
  match json_string s with
  | None => Err ErrSignatureJSON
  | Some [] => Ok sig
  | Some text =>
      match base64_Decode text with
      | None => Err ErrBase64
      | Some b => let! sig0 := ParseSignature b in Ok (Some sig0)
      end
  end.

Definition Signature_MarshalBinary (sig : Signature) : outcome crypto_error bytes := SerializeRSV sig.
Definition Signature_UnmarshalBinary (s : bytes) : outcome crypto_error (option Signature) :=
  let! sig0 := ParseSignature s in Ok (Some sig0).
End JSON.

(** ** What holds of them *)

Lemma hash_ok_length hash : hash_ok hash = true <-> (0 < length hash <= HashLen)%nat.
Proof. unfold hash_ok. rewrite andb_true_iff, negb_true_iff, Nat.eqb_neq, Nat.leb_le. lia. Qed.

Lemma ParseSignature_RSV sig : length sig = SignatureLenRawWithV -> ParseSignature sig = Ok (mkSignature sig true).
Proof. intros Hl. unfold ParseSignature. by rewrite Hl. Qed.

(** A text of 65 bytes, which is what [ParseSignatureVRS] is for, makes it
    index behind the end of the slice. *)
Lemma ParseSignatureVRS_never sig : forall s, ParseSignatureVRS sig <> Ok s.
Proof.
  intros s. unfold ParseSignatureVRS. destruct (length sig =? 65)%nat eqn:E; [|done]. apply Nat.eqb_eq in E. cbn [negb].
  by rewrite length_app, length_take, !length_drop, E.
Qed.

Lemma base64_plain bs : all_bytes bs -> plain (base64_Encode bs).
Proof.
  assert (Hd : forall v, 0 <= v < 64 -> 32 <= base64_digit v < 127 /\ base64_digit v <> 34 /\ base64_digit v <> 92).
  { intros v Hv. unfold base64_digit. repeat case_match; bool_to_Z; lia. }
  unfold plain. induction bs as [bs IH] using (induction_ltof1 _ length). intros Hb. unfold ltof in IH.
  assert (Hpad : 32 <= pad_char < 127 /\ pad_char <> 34 /\ pad_char <> 92) by (unfold pad_char; lia).
  destruct bs as [|a [|b [|c bs]]]; [constructor|..].
  - apply Forall_cons in Hb as [Ha _]. destruct (three_bytes a 0 0) as (H0 & _); [done..|].
    replace (a * 65536 + 0 * 256 + 0) with (a * 65536) in * by lia. cbn [base64_Encode].
    repeat constructor; (apply Hd || apply Hpad); (done || apply digit_range).
  - apply Forall_cons in Hb as [Ha [Hb _]%Forall_cons]. destruct (three_bytes a b 0) as (H0 & _); [done..|].
    replace (a * 65536 + b * 256 + 0) with (a * 65536 + b * 256) in * by lia. cbn [base64_Encode].
    repeat constructor; (apply Hd || apply Hpad); (done || apply digit_range).
  - apply Forall_cons in Hb as [Ha [Hb [Hc Hbs]%Forall_cons]%Forall_cons].
    destruct (three_bytes a b c) as (H0 & _); [done..|]. cbn [base64_Encode].
    do 4 (constructor; [apply Hd; done || apply digit_range|]). apply IH; [cbn; lia|done].
Qed.

(** A signature made with a private key is that of its public key: from it
    and the hash the public key is recovered, it is valid for that, and it can be
    written as text or as bytes and read back. *)
Lemma signature_roundtrip `{!Secp256k1, !Secp256k1Laws} json_string nonce hash key pubkey sig0 :
  (forall s, plain s -> json_string (json_quote s) = Some s) ->
  PrivateKey_PublicKey key = Ok pubkey -> hash_ok hash = true ->
  exists sig text bs, NewSignature nonce hash (Some key) = Ok sig /\
    RecoverPublicKey sig hash = Ok pubkey /\ Verify sig hash (Some pubkey) = true /\
    Signature_MarshalJSON (Some sig) = Ok (Some text) /\ Signature_UnmarshalJSON json_string text sig0 = Ok (Some sig) /\
    Signature_MarshalBinary sig = Ok bs /\ Signature_UnmarshalBinary bs = Ok (Some sig).
Proof.
  intros Hjson Hpk Hh. unfold PrivateKey_PublicKey in Hpk. destruct (secp_PubkeyFromSeckey key) as [pk|] eqn:Epk; [|done].
  pose proof (secp_pubkey _ _ Epk) as Hlen. cbn [obind or_panic] in Hpk.
  assert (pk = pubkey) as ->.
  { unfold ParsePublicKey in Hpk. destruct pk as [|b pk]; [done|]. rewrite Hlen in Hpk. by injection Hpk. }
  destruct (secp_sign nonce hash key pubkey Epk) as (s & Hs & Hl & Hb & HS & HV & Hr); [by apply hash_ok_length|].
  exists (mkSignature s true), (json_quote (base64_Encode s)), s.
  unfold NewSignature, RecoverPublicKey, Verify, SerializeRSV, Signature_MarshalJSON, Signature_UnmarshalJSON,
    Signature_MarshalBinary, Signature_UnmarshalBinary. cbn [HasV s_hasV negb SerializeRSV s_bytes obind].
  rewrite Hh, Hs. cbn [negb or_panic obind]. rewrite ParseSignature_RSV, Hr, Hjson by (done || by apply base64_plain).
  rewrite base64_roundtrip by done. rewrite ParseSignature_RSV by done.
  split_and!; [done| | |done| |done|done].
  - unfold ParsePublicKey. destruct pubkey; [done|]. by rewrite Hlen.
  - rewrite (proj2 (Z.eqb_neq _ _)); [done|]. by apply secp_verify.
  - cbn [obind]. destruct s as [|a [|b [|c s]]]; [done..|]. done.
Qed.

(** ** A library for examples

    A "signature" that holds the key and the hash. *)
Module Toy.
Definition seckey_ok (seckey : bytes) : bool := (length seckey =? 32)%nat && forallb (fun b => (0 <=? b) && (b <? 128)) seckey.

#[export] Instance toy_secp : Secp256k1 := {|
  secp_Sign _ hash seckey := if seckey_ok seckey then Some (seckey ++ make_bytes 32 ++ [0]) else None;
  secp_RecoverPubkey _ sig := Some (2 :: take 32 sig);
  secp_VerifySignature _ sig pubkey := if bool_decide (pubkey = 2 :: take 32 sig) then 1 else 0;
  secp_PubkeyFromSeckey seckey := if seckey_ok seckey then Some (2 :: seckey) else None;
  secp_UncompressPubkey pubkey := match pubkey with t :: x => Some (4 :: x ++ x) | [] => None end;
|}.

#[export] Instance toy_laws : Secp256k1Laws.
Proof.
  assert (Hok : forall k, seckey_ok k = true -> length k = 32%nat /\ all_bytes k).
  { intros k [Hl%Nat.eqb_eq Hb]%andb_true_iff. split; [done|]. rewrite forallb_forall in Hb. apply Forall_forall.
    intros b Hin. apply list_elem_of_In, Hb in Hin. unfold is_byte. bool_to_Z. lia. }
  split; cbn [toy_secp secp_PubkeyFromSeckey secp_Sign secp_RecoverPubkey secp_VerifySignature].
  - intros nonce hash k pk. destruct (seckey_ok k) eqn:E; [|done]. intros [= <-] _. apply Hok in E as [Hl Hb].
    eexists. split; [done|]. do 32 (destruct k as [|? k]; [done|]). destruct k; [|done].
    split; [done|]. split; [apply Forall_app; split; [done|]; by apply (bool_decide_unpack _)|]. done.
  - intros hash sig pk _ _ _ _ [= <-]. by rewrite bool_decide_eq_true_2.
  - intros k pk. destruct (seckey_ok k) eqn:E; [|done]. intros [= <-]. apply Hok in E as [Hl _]. by rewrite length_cons, Hl.
Qed.

(** A private key, the signature of a hash with it, and its text. *)
Example toy_signature :
  let key := replicate 32 7 in
  let hash := replicate 32 200 in
  match NewSignature [] hash (Some key) with
  | Ok sig => RecoverPublicKey sig hash = Ok (2 :: key) /\ Verify sig hash (Some (2 :: key)) = true /\
      Verify sig hash (Some (3 :: key)) = false /\ RecoverPublicKey sig [] = Err ErrHashIllegal
  | _ => False
  end.
Proof. vm_compute. done. Qed.
End Toy.
