(* ===== verification/Store.v ===== *)
(** * The key-value store: [common/db]

    [LevelDB] is the interface of the goleveldb store: a map from byte keys to
    byte values iterated in key order.  It is the only thing the rest of the
    development knows of the store; [gmap_LevelDB] is an instance.  On top of
    it, the code of [common/db]: bucket keys ([internalKey]), buckets,
    iterators and write batches ([go_level_db.go]). *)

From Stdlib Require Strings.String.
From S2P Require Import Prelude Bytes HexInt.
Import String.StringSyntax.

(** ** Lists of entries sorted by key *)

Lemma sorted_lt_NoDup (l : list bytes) : StronglySorted bytes_lt l -> NoDup l.
Proof.
  induction 1 as [|k l _ IH Hall]; constructor; [|done].
  intros Hin. rewrite Forall_forall in Hall. exact (bytes_lt_irrefl k (Hall k Hin)).
Qed.

Definition entry_lt (e1 e2 : bytes * bytes) : Prop := e1.1 <b e2.1.

Lemma sorted_entries (l : list (bytes * bytes)) :
  StronglySorted bytes_lt (l.*1) -> StronglySorted entry_lt l.
Proof.
  induction l as [|e l IH]; intros H; constructor; simpl in H;
    apply StronglySorted_cons in H as [F S]; [auto|].
  apply Forall_forall. intros e' He'. rewrite Forall_forall in F. apply F.
  apply list_elem_of_fmap. by exists e'.
Qed.

Lemma sorted_entries_unique (l1 l2 : list (bytes * bytes)) :
  StronglySorted bytes_lt (l1.*1) -> StronglySorted bytes_lt (l2.*1) ->
  (forall e, e ∈ l1 <-> e ∈ l2) -> l1 = l2.
Proof.
  intros H1 H2 Heq. apply (StronglySorted_unique_strong entry_lt); [|by apply sorted_entries..|].
  - intros e1 e2 _ _ Hlt Hgt. destruct (bytes_lt_irrefl e1.1). by transitivity e2.1.
  - apply NoDup_Permutation; [| |done]; eapply NoDup_fmap_1; by apply sorted_lt_NoDup.
Qed.

(** ** The interface *)

(** The keys of a [NewIterator] call: the whole store or a key range. *)
Definition key_range : Type := option (bytes * option bytes).

Definition in_key_range (r : key_range) (k : bytes) : Prop :=
  match r with None => True | Some (s, l) => in_range s l k end.

#[global] Instance in_key_range_dec r k : Decision (in_key_range r k).
Proof. destruct r as [[s l]|]; simpl; apply _. Defined.

Class LevelDB (D : Type) := {
  ldb_empty : D;
  ldb_get : D -> bytes -> option bytes;
  ldb_put : bytes -> bytes -> D -> D;
  ldb_delete : bytes -> D -> D;
  ldb_iter : key_range -> D -> list (bytes * bytes);
}.

(** What goleveldb documents: reads see the last write, and an iterator yields
    the entries of its range in strictly increasing key order. *)
Class LevelDBLaws (D : Type) `{!LevelDB D} : Prop := {
  ldb_get_empty k : ldb_get ldb_empty k = None;
  ldb_get_put d k v k' : ldb_get (ldb_put k v d) k' = if decide (k = k') then Some v else ldb_get d k';
  ldb_get_delete d k k' : ldb_get (ldb_delete k d) k' = if decide (k = k') then None else ldb_get d k';
  ldb_iter_elem r d k v : (k, v) ∈ ldb_iter r d <-> ldb_get d k = Some v /\ in_key_range r k;
  ldb_iter_sorted r d : StronglySorted bytes_lt ((ldb_iter r d).*1);
}.

(** ** [bucket.go] *)

Abbreviation BucketID := bytes (only parsing).

Definition PrefixIScore : BucketID := str "".
Definition PrefixCalcResult : BucketID := str "".
Definition PrefixClaim : BucketID := str "".
Definition PrefixManagement : BucketID := str "MI".
Definition PrefixGovernanceVariable : BucketID := str "GV".
Definition PrefixPRepCandidate : BucketID := str "PC".
Definition PrefixPRep : BucketID := str "PR".
Definition PrefixIISSHeader : BucketID := str "HD".
Definition PrefixIISSGV : BucketID := str "GV".
Definition PrefixIISSBPInfo : BucketID := str "BP".
Definition PrefixIISSPRep : BucketID := str "PR".
Definition PrefixIISSTX : BucketID := str "TX".

Definition internalKey (id : BucketID) (key : bytes) : bytes :=
  copy_at (length id) key (copy_at 0 id (make_bytes (length key + length id))).

(** [nil] becomes the empty slice. *)
Definition nonNilBytes (bz : option bytes) : bytes := default [] bz.

Lemma internalKey_app id key : internalKey id key = id ++ key.
Proof.
  unfold internalKey, make_bytes. rewrite Nat.add_comm, replicate_add.
  rewrite copy_at_0, copy_at_end; by rewrite ?length_replicate.
Qed.

(** ** [go_level_db.go]: buckets, iterators, batches *)

Section GoLevelDB.
Context {D : Type} `{!LevelDB D}.

(** [goLevelBucket]: [ErrNotFound] is reported as [nil, nil]. *)
Definition bucket_Get (id : BucketID) (d : D) (key : bytes) : option bytes :=
  ldb_get d (internalKey id key).
Definition bucket_Has (id : BucketID) (d : D) (key : bytes) : bool :=
  bool_decide (is_Some (ldb_get d (internalKey id key))).
Definition bucket_Set (id : BucketID) (key value : bytes) (d : D) : D :=
  ldb_put (internalKey id key) value d.
Definition bucket_Delete (id : BucketID) (key : bytes) (d : D) : D :=
  ldb_delete (internalKey id key) d.

(** [goLevelIterator.New]: a nil start iterates over everything; the list
    holds what [Next]/[Key]/[Value] then deliver. *)
Definition iter_New (start limit : option bytes) (d : D) : list (bytes * bytes) :=
  match start with
  | None => ldb_iter None d
  | Some s => ldb_iter (Some (s, limit)) d
  end.

(** An iteration over the keys with a prefix, as the callers set it up. *)
Definition iter_prefix (prefix : bytes) (d : D) : list (bytes * bytes) :=
  let r := BytesPrefix prefix in iter_New (Some r.1) r.2 d.

Inductive batch_op := BatchPut (key value : bytes) | BatchDelete (key : bytes).

Definition batch_New : list batch_op := [].
Definition batch_Len (b : list batch_op) : nat := length b.
Definition batch_Set (b : list batch_op) (key value : bytes) := b ++ [BatchPut key value].
Definition batch_Delete (b : list batch_op) (key : bytes) := b ++ [BatchDelete key].
Definition batch_apply (d : D) (o : batch_op) : D :=
  match o with BatchPut k v => ldb_put k v d | BatchDelete k => ldb_delete k d end.
Definition batch_Write (b : list batch_op) (d : D) : D := fold_left batch_apply b d.
Definition batch_Reset (b : list batch_op) : list batch_op := [].

(** ** Observational equality of stores *)

#[global] Instance ldb_equiv : Equiv D := fun d1 d2 => forall k, ldb_get d1 k = ldb_get d2 k.

#[global] Instance ldb_equivalence : Equivalence (≡@{D}).
Proof.
  split; [by intros d k|by intros d1 d2 H k|intros d1 d2 d3 H1 H2 k; by rewrite H1].
Qed.

#[global] Instance ldb_get_proper : Proper ((≡) ==> (=) ==> (=)) (ldb_get (D := D)).
Proof. intros d1 d2 H k ? <-. apply H. Qed.

#[global] Instance bucket_Get_proper id : Proper ((≡) ==> (=) ==> (=)) (bucket_Get id).
Proof. intros d1 d2 H k ? <-. apply H. Qed.

Context `{!LevelDBLaws D}.

#[global] Instance ldb_put_proper k v : Proper ((≡) ==> (≡)) (ldb_put (D := D) k v).
Proof. intros d1 d2 H k'. by rewrite !ldb_get_put, H. Qed.

#[global] Instance ldb_delete_proper k : Proper ((≡) ==> (≡)) (ldb_delete (D := D) k).
Proof. intros d1 d2 H k'. by rewrite !ldb_get_delete, H. Qed.

Lemma iter_keys_NoDup r (d : D) : NoDup ((ldb_iter r d).*1).
Proof. eapply sorted_lt_NoDup, ldb_iter_sorted. Qed.

(** An iteration is determined by the entries in its range. *)
Lemma ldb_iter_ext r (d1 d2 : D) :
  (forall k, in_key_range r k -> ldb_get d1 k = ldb_get d2 k) -> ldb_iter r d1 = ldb_iter r d2.
Proof.
  intros Hext. apply sorted_entries_unique; try apply ldb_iter_sorted.
  intros [k v]. rewrite !ldb_iter_elem. split; intros [Hk Hr]; (split; [|done]).
  - by rewrite <-Hext.
  - by rewrite Hext.
Qed.

#[global] Instance ldb_iter_proper r : Proper ((≡) ==> (=)) (ldb_iter (D := D) r).
Proof. intros d1 d2 H. apply ldb_iter_ext. intros k _. apply H. Qed.

Lemma ldb_iter_nil r (d : D) :
  (forall k v, ldb_get d k = Some v -> ~ in_key_range r k) -> ldb_iter r d = [].
Proof.
  intros H. destruct (ldb_iter r d) as [|[k v] l] eqn:E; [done|].
  assert ((k, v) ∈ ldb_iter r d) as Hin by (rewrite E; constructor).
  apply ldb_iter_elem in Hin as [Hk Hr]. by destruct (H _ _ Hk).
Qed.

Lemma iter_prefix_elem p (d : D) k v :
  all_bytes p -> all_bytes k ->
  (k, v) ∈ iter_prefix p d <-> ldb_get d k = Some v /\ p `prefix_of` k.
Proof.
  intros Hp Hk. unfold iter_prefix, iter_New. rewrite ldb_iter_elem.
  unfold in_key_range. by rewrite <-(BytesPrefix_spec p k) by done.
Qed.

Lemma iter_prefix_elem_1 p (d : D) k v : (k, v) ∈ iter_prefix p d -> ldb_get d k = Some v.
Proof. unfold iter_prefix, iter_New. rewrite ldb_iter_elem. by intros [? _]. Qed.

Lemma iter_prefix_NoDup p (d : D) : NoDup ((iter_prefix p d).*1).
Proof. apply iter_keys_NoDup. Qed.

#[global] Instance iter_prefix_proper p : Proper ((≡) ==> (=)) (iter_prefix p).
Proof. intros d1 d2 H. apply ldb_iter_proper, H. Qed.

#[global] Instance bucket_Set_proper id k v : Proper ((≡) ==> (≡)) (bucket_Set id k v).
Proof. intros d1 d2 H. unfold bucket_Set. by rewrite H. Qed.

#[global] Instance bucket_Delete_proper id k : Proper ((≡) ==> (≡)) (bucket_Delete id k).
Proof. intros d1 d2 H. unfold bucket_Delete. by rewrite H. Qed.

Lemma bucket_Get_ldb id (d : D) k : bucket_Get id d k = ldb_get d (id ++ k).
Proof. unfold bucket_Get. by rewrite internalKey_app. Qed.

Lemma bucket_get_set id k v (d : D) k' :
  ldb_get (bucket_Set id k v d) k' = if decide (id ++ k = k') then Some v else ldb_get d k'.
Proof. unfold bucket_Set. by rewrite internalKey_app, ldb_get_put. Qed.

Lemma bucket_get_delete id k (d : D) k' :
  ldb_get (bucket_Delete id k d) k' = if decide (id ++ k = k') then None else ldb_get d k'.
Proof. unfold bucket_Delete. by rewrite internalKey_app, ldb_get_delete. Qed.

Lemma bucket_Get_Set id (d : D) k v k' :
  bucket_Get id (bucket_Set id k v d) k' = if decide (k = k') then Some v else bucket_Get id d k'.
Proof.
  rewrite !bucket_Get_ldb, bucket_get_set.
  destruct (decide (k = k')) as [->|]; case_decide; simplify_list_eq; done.
Qed.

Lemma bucket_Get_Delete id (d : D) k k' :
  bucket_Get id (bucket_Delete id k d) k' = if decide (k = k') then None else bucket_Get id d k'.
Proof.
  rewrite !bucket_Get_ldb, bucket_get_delete.
  destruct (decide (k = k')) as [->|]; case_decide; simplify_list_eq; done.
Qed.

(** Deleting a list of keys. *)
Lemma fold_delete_get id keys (d : D) k :
  ldb_get (fold_left (fun d key => bucket_Delete id key d) keys d) (id ++ k)
  = if decide (k ∈ keys) then None else ldb_get d (id ++ k).
Proof.
  revert d. induction keys as [|key keys IH]; intros d; cbn [fold_left].
  - by rewrite decide_False by apply not_elem_of_nil.
  - rewrite IH, bucket_get_delete.
    destruct (decide (k ∈ keys)) as [H1|H1], (decide (k ∈ key :: keys)) as [H2|H2]; try done.
    + destruct H2. by right.
    + apply elem_of_cons in H2 as [-> |H2]; [by rewrite decide_True|done].
    + rewrite decide_False; [done|]. intros E. simplify_list_eq. destruct H2. by left.

Qed.
End GoLevelDB.

#[export] Hint Rewrite @bucket_Get_Set @bucket_Get_Delete @ldb_get_empty using (typeclasses eauto) : rc_rw.

(** ** An instance: a finite map, iterated in key order *)

Definition entry_le (e1 e2 : bytes * bytes) : Prop := e1.1 <=b e2.1.

#[global] Instance entry_le_dec : RelDecision entry_le.
Proof. intros e1 e2. unfold entry_le. apply _. Defined.
#[global] Instance entry_le_trans : Transitive entry_le.
Proof. intros [a ?] [b ?] [c ?]. unfold entry_le. simpl. by intros ->. Qed.
#[global] Instance entry_le_total : Total entry_le.
Proof. intros [a ?] [b ?]. unfold entry_le. apply bytes_le_total. Qed.

#[global] Instance gmap_LevelDB : LevelDB (gmap bytes bytes) := {|
  ldb_empty := ∅;
  ldb_get d k := d !! k;
  ldb_put k v d := <[k := v]> d;
  ldb_delete k d := delete k d;
  ldb_iter r d := merge_sort entry_le (filter (fun e => in_key_range r e.1) (map_to_list d));
|}.

Lemma sorted_le_lt (l : list (bytes * bytes)) :
  NoDup (l.*1) -> StronglySorted entry_le l -> StronglySorted bytes_lt (l.*1).
Proof.
  induction l as [|[k v] l IH]; intros Hnd Hs; [constructor|].
  simpl in *. apply NoDup_cons in Hnd as [Hn Hnd].
  apply StronglySorted_cons in Hs as [Hall Hs]. constructor; [auto|].
  apply Forall_forall. intros k' Hk'. apply list_elem_of_fmap in Hk' as ([k2 v2] & -> & Hin).
  rewrite Forall_forall in Hall. specialize (Hall _ Hin). unfold entry_le in Hall. simpl in *.
  apply bytes_le_lt_eq in Hall as [|<-]; [done|]. destruct Hn.
  apply list_elem_of_fmap. by exists (k, v2).
Qed.

#[global] Instance gmap_LevelDBLaws : LevelDBLaws (gmap bytes bytes).
Proof.
  split; simpl.
  - intros k. apply lookup_empty.
  - intros d k v k'. apply lookup_insert.
  - intros d k k'. apply lookup_delete.
  - intros r d k v. rewrite merge_sort_Permutation, list_elem_of_filter, elem_of_map_to_list.
    simpl. tauto.
  - intros r d. apply sorted_le_lt; [|by apply StronglySorted_merge_sort; apply _].
    rewrite merge_sort_Permutation. eapply sublist_NoDup; [apply (NoDup_fst_map_to_list d)|].
    apply fmap_sublist, sublist_filter.
Qed.
