(* ===== verification/Handles.v ===== *)
(** * Open databases, iterators and snapshots ([common/db/go_level_db.go])

    [Store.v] has the operations of an open store, with an iterator as the list
    it delivers.  Here are the handles: a database that may be closed, an
    iterator with its position, and a snapshot.  goleveldb answers every call on a closed
    database with [ErrClosed]. *)

From S2P Require Import Prelude Bytes HexInt Store.

Inductive leveldb_error := ErrClosed | ErrSnapshotReleased | ErrIterReleased.

Section Handles.
Context {D : Type} `{!LevelDB D}.

(** ** The database *)

Record GoLevelDB := mkGoLevelDB { gl_db : D; gl_closed : bool }.

Definition NewGoLevelDB (d : D) : GoLevelDB := mkGoLevelDB d false.
Definition gl_Close (db : GoLevelDB) : outcome leveldb_error GoLevelDB :=
  if gl_closed db then Err ErrClosed else Ok (mkGoLevelDB (gl_db db) true).

(** A bucket is a handle of its id: [GetBucket], [GetIterator], [GetBatch] and
    [GetSnapshot] do not look at the database. *)
Definition gl_Get (id : BucketID) (key : bytes) (db : GoLevelDB) : outcome leveldb_error (option bytes) :=
  if gl_closed db then Err ErrClosed else Ok (bucket_Get id (gl_db db) key).
Definition gl_Has (id : BucketID) (key : bytes) (db : GoLevelDB) : bool :=
  if gl_closed db then false else bucket_Has id (gl_db db) key.

(** The database after a call that changes it, and its error. *)
Definition gl_update (f : D -> D) (db : GoLevelDB) : GoLevelDB * option leveldb_error :=
  if gl_closed db then (db, Some ErrClosed) else (mkGoLevelDB (f (gl_db db)) false, None).
Definition gl_Set (id : BucketID) (key value : bytes) : GoLevelDB -> GoLevelDB * option leveldb_error :=
  gl_update (bucket_Set id key value).
Definition gl_Delete (id : BucketID) (key : bytes) : GoLevelDB -> GoLevelDB * option leveldb_error :=
  gl_update (bucket_Delete id key).
Definition gl_Write (b : list batch_op) : GoLevelDB -> GoLevelDB * option leveldb_error := gl_update (batch_Write b).

(** ** Iterators

    The entries that are left, the one the iterator is at, and its error. *)

Record goLevelIterator := mkIterator {
  it_left : list (bytes * bytes);
  it_at : option (bytes * bytes);
  it_error : option leveldb_error;
}.

Definition it_New (start limit : option bytes) (db : GoLevelDB) : goLevelIterator :=
  if gl_closed db then mkIterator [] None (Some ErrClosed) else mkIterator (iter_New start limit (gl_db db)) None None.
Definition it_Next (i : goLevelIterator) : bool * goLevelIterator :=
  match it_left i with
  | [] => (false, mkIterator [] None (it_error i))
  | e :: l => (true, mkIterator l (Some e) (it_error i))
  end.
Definition it_Key (i : goLevelIterator) : option bytes := fst <$> it_at i.
Definition it_Value (i : goLevelIterator) : option bytes := snd <$> it_at i.
Definition it_Release (i : goLevelIterator) : goLevelIterator :=
  mkIterator [] None (match it_error i with None => Some ErrIterReleased | e => e end).
Definition it_Error (i : goLevelIterator) : option leveldb_error := it_error i.

(** [for iter.Next() { ... iter.Key() ... iter.Value() ... }] *)
Fixpoint iterate (fuel : nat) (i : goLevelIterator) : list (bytes * bytes) * goLevelIterator :=
  match fuel with
  | O => ([], i)
  | S fuel =>
      match it_Next i with
      | (true, i) => let '(l, i') := iterate fuel i in ((default [] (it_Key i), default [] (it_Value i)) :: l, i')
      | (false, i) => ([], i)
      end
  end.

Lemma iterate_left fuel i : (length (it_left i) < fuel)%nat ->
  iterate fuel i = (it_left i, mkIterator [] None (it_error i)).
Proof.
  revert i. induction fuel as [|fuel IH]; intros [l a e] Hf; [lia|]. destruct l as [|[k v] l]; [done|].
  cbn in Hf. cbn [iterate it_Next it_left]. rewrite IH by (cbn; lia). done.
Qed.

(** The loop delivers what [iter_New] lists, and then there is no error; on a
    closed database it delivers nothing, and only [Error] tells. *)
Lemma iterate_all start limit db fuel : (length (iter_New start limit (gl_db db)) < fuel)%nat ->
  iterate fuel (it_New start limit db) =
  if gl_closed db then ([], mkIterator [] None (Some ErrClosed))
  else (iter_New start limit (gl_db db), mkIterator [] None None).
Proof. intros Hf. unfold it_New. destruct (gl_closed db); apply iterate_left; cbn; lia. Qed.

(** ** Snapshots *)

Record goLevelSnapshot := mkSnapshot { sn_snapshot : option D; sn_iter : option goLevelIterator }.
Definition sn_zero : goLevelSnapshot := mkSnapshot None None.

(** Before [New] the snapshot is nil, and a call on it panics. *)
Definition sn_New (db : GoLevelDB) (s : goLevelSnapshot) : outcome leveldb_error goLevelSnapshot :=
  if gl_closed db then Err ErrClosed else Ok (mkSnapshot (Some (gl_db db)) (sn_iter s)).
Definition sn_Get (key : bytes) (s : goLevelSnapshot) : outcome leveldb_error (option bytes) :=
  match sn_snapshot s with Some d => Ok (ldb_get d key) | None => Panic end.
Definition sn_NewIterator (start limit : option bytes) (s : goLevelSnapshot) : outcome leveldb_error goLevelSnapshot :=
  match sn_snapshot s with
  | Some d => Ok (mkSnapshot (Some d) (Some (mkIterator (iter_New start limit d) None None)))
  | None => Panic
  end.
Definition sn_IterNext (s : goLevelSnapshot) : outcome leveldb_error (bool * goLevelSnapshot) :=
  match sn_iter s with
  | Some i => let '(b, i) := it_Next i in Ok (b, mkSnapshot (sn_snapshot s) (Some i))
  | None => Panic
  end.
Definition sn_IterKey (s : goLevelSnapshot) : outcome leveldb_error (option bytes) :=
  match sn_iter s with Some i => Ok (it_Key i) | None => Panic end.
Definition sn_IterValue (s : goLevelSnapshot) : outcome leveldb_error (option bytes) :=
  match sn_iter s with Some i => Ok (it_Value i) | None => Panic end.
Definition sn_ReleaseIterator (s : goLevelSnapshot) : outcome leveldb_error goLevelSnapshot :=
  match sn_iter s with Some i => Ok (mkSnapshot (sn_snapshot s) (Some (it_Release i))) | None => Panic end.

(** A snapshot is of the moment of [New]: what is written to the database
    afterwards changes nothing of what it reads. *)
Lemma snapshot_frozen db s s0 f key start limit : sn_New db s0 = Ok s ->
  sn_Get key s = gl_Get PrefixIScore key db /\
  sn_Get key s = Ok (ldb_get (gl_db db) key) /\
  match sn_NewIterator start limit s with
  | Ok s' => sn_iter s' = Some (it_New start limit db)
  | _ => False
  end /\
  forall s', sn_New (gl_update f db).1 s0 = Ok s' -> sn_Get key s' = Ok (ldb_get (f (gl_db db)) key).
Proof.
  unfold sn_New, gl_update, gl_Get, it_New. destruct (gl_closed db) eqn:E; [done|]. intros [= <-].
  unfold bucket_Get. rewrite internalKey_app. cbn. split_and!; try done. by intros s' [= <-].
Qed.

(** What a client sees of a closed database whose errors it does not look at:
    no entries, and writes that are lost. *)
Lemma closed_db_silent db id key value b start limit fuel :
  gl_closed db = true ->
  gl_Has id key db = false /\ (gl_Set id key value db).1 = db /\ (gl_Delete id key db).1 = db /\ (gl_Write b db).1 = db /\
  (iterate (S fuel) (it_New start limit db)).1 = [].
Proof. intros H. unfold gl_Has, gl_Set, gl_Delete, gl_Write, gl_update, it_New. by rewrite H. Qed.
End Handles.
