(* ===== verification/Backends.v ===== *)
(** * The other store back ends ([common/db])

    [Backend] is the [Database]/[Bucket] interface of [database.go] and
    [bucket.go]: the state of a database with the operations of its buckets,
    named by their ids.  Implementations: the map back end ([map_db.go]), the
    null back end ([null_db.go]), buckets of a goleveldb store
    ([go_level_db.go], modelled in [Store.v]), a write layer over any back
    end ([layer_db.go]) and a proxy for a database that is set later
    ([proxy_db.go]).  Locks are left out: every operation holds one to its end.
    A value is an [option]: [None] is nil. *)

From S2P Require Import Prelude Bytes HexInt Store.
Import String.StringSyntax.

(** ** The interface *)

Inductive db_error : Type :=
  | IllegalKey (key : bytes)
  | IllegalArgument
  | ProxyIsNotRealized.

(** An operation that changes the database fails with the state it leaves. *)
Abbreviation update R := (outcome (db_error * R) R).

Class Backend (R : Type) := {
  be_GetBucket : bytes -> R -> update R;
  be_Get : bytes -> bytes -> R -> outcome db_error (option bytes);
  be_Has : bytes -> bytes -> R -> bool;
  be_Set : bytes -> bytes -> option bytes -> R -> update R;
  be_Delete : bytes -> bytes -> R -> update R;
}.

(** What the clients of a database rely on: reads see the last write, for the
    keys the database accepts. *)
Class BackendLaws (R : Type) `{!Backend R} := {
  be_view : R -> bytes -> bytes -> option bytes;
  be_accepts : bytes -> bool;
  be_Get_view id k r : be_Get id k r = Ok (be_view r id k);
  be_Has_view id k r : be_Has id k r = bool_decide (is_Some (be_view r id k));
  be_GetBucket_ok id r : exists r', be_GetBucket id r = Ok r' /\ forall id' k', be_view r' id' k' = be_view r id' k';
  be_Set_ok id k v r : be_accepts k = true -> exists r', be_Set id k (Some v) r = Ok r' /\
    forall id' k', be_view r' id' k' = if decide (id' = id /\ k' = k) then Some v else be_view r id' k';
  be_Delete_ok id k r : exists r', be_Delete id k r = Ok r' /\
    forall id' k', be_view r' id' k' = if decide (id' = id /\ k' = k) then None else be_view r id' k';
}.

(** ** Programs over a database

    A client's calls in order, with what they answer; the first error ends them. *)

Inductive db_op : Type :=
  | OpGetBucket (id : bytes)
  | OpGet (id key : bytes)
  | OpHas (id key : bytes)
  | OpSet (id key : bytes) (value : option bytes)
  | OpDelete (id key : bytes).

Inductive answer : Type := AValue (v : option bytes) | AHas (b : bool) | ADone.

Section Run.
Context {R : Type} `{!Backend R}.

Definition answered (u : update R) : outcome db_error (answer * R) :=
  match u with Ok r => Ok (ADone, r) | Err (e, _) => Err e | Panic => Panic end.

Definition db_step (o : db_op) (r : R) : outcome db_error (answer * R) :=
  match o with
  | OpGetBucket id => answered (be_GetBucket id r)
  | OpGet id k => let! v := be_Get id k r in Ok (AValue v, r)
  | OpHas id k => Ok (AHas (be_Has id k r), r)
  | OpSet id k v => answered (be_Set id k v r)
  | OpDelete id k => answered (be_Delete id k r)
  end.

Fixpoint db_run (ops : list db_op) (r : R) : outcome db_error (list answer * R) :=
  match ops with
  | [] => Ok ([], r)
  | o :: ops' => let! (a, r') := db_step o r in let! (l, r'') := db_run ops' r' in Ok (a :: l, r'')
  end.

(** The calls that set values, under keys the database accepts. *)
Definition op_accepted `{!BackendLaws R} (o : db_op) : bool :=
  match o with OpSet _ k v => bool_decide (is_Some v) && be_accepts k | _ => true end.

End Run.

(** Two databases with the same view answer the same calls alike and end with
    the same view. *)
Section Simulation.
Context {R1 R2 : Type} `{!Backend R1, !BackendLaws R1, !Backend R2, !BackendLaws R2}.
Context (Haccepts : forall k, be_accepts (R := R1) k = be_accepts (R := R2) k).

Definition same_view (r1 : R1) (r2 : R2) : Prop := forall id k, be_view r1 id k = be_view r2 id k.

Lemma db_step_sim o r1 r2 : op_accepted (R := R1) o = true -> same_view r1 r2 ->
  exists a r1' r2', db_step o r1 = Ok (a, r1') /\ db_step o r2 = Ok (a, r2') /\ same_view r1' r2'.
Proof.
  intros Ho Hv. destruct o as [id|id k|id k|id k v|id k]; cbn [db_step].
  - destruct (be_GetBucket_ok id r1) as (r1' & -> & H1), (be_GetBucket_ok id r2) as (r2' & -> & H2).
    eexists _, _, _. split_and!; [done..|]. intros id' k'. by rewrite H1, H2.
  - rewrite !be_Get_view, Hv. by eexists _, _, _.
  - rewrite !be_Has_view, Hv. by eexists _, _, _.
  - cbn in Ho. apply andb_true_iff in Ho as [[v' ->]%bool_decide_eq_true Hk].
    destruct (be_Set_ok id k v' r1) as (r1' & -> & H1); [done|].
    destruct (be_Set_ok id k v' r2) as (r2' & -> & H2); [by rewrite <-Haccepts|].
    eexists _, _, _. split_and!; [done..|]. intros id' k'. by rewrite H1, H2, Hv.
  - destruct (be_Delete_ok id k r1) as (r1' & -> & H1), (be_Delete_ok id k r2) as (r2' & -> & H2).
    eexists _, _, _. split_and!; [done..|]. intros id' k'. by rewrite H1, H2, Hv.
Qed.

Lemma db_run_sim ops r1 r2 : forallb (op_accepted (R := R1)) ops = true -> same_view r1 r2 ->
  exists l r1' r2', db_run ops r1 = Ok (l, r1') /\ db_run ops r2 = Ok (l, r2') /\ same_view r1' r2'.
Proof.
  revert r1 r2. induction ops as [|o ops IH]; intros r1 r2 Ho Hv; [by eexists _, _, _|].
  cbn in Ho. apply andb_true_iff in Ho as [Ho Hops].
  destruct (db_step_sim o r1 r2 Ho Hv) as (a & r1' & r2' & E1 & E2 & Hv').
  destruct (IH r1' r2' Hops Hv') as (l & r1'' & r2'' & F1 & F2 & Hv'').
  cbn [db_run]. rewrite E1, E2. cbn [obind]. rewrite F1, F2. by eexists _, _, _.
Qed.

End Simulation.

(** ** [map_db.go] *)

Module MapDB.

Definition mapBucket : Type := gmap bytes bytes.
Definition mapDatabase : Type := gmap bytes mapBucket.

Definition NewMapDB : mapDatabase := ∅.

Definition map_GetBucket (id : bytes) (t : mapDatabase) : mapDatabase :=
  match t !! id with Some _ => t | None => <[id := ∅]> t end.

Definition map_Get (t : mapBucket) (k : bytes) : option bytes := t !! k.
Definition map_Has (t : mapBucket) (k : bytes) : bool := bool_decide (is_Some (t !! k)).

(** [string(v)] of a nil value is the empty string. *)
Definition map_Set (k : bytes) (v : option bytes) (t : mapBucket) : outcome db_error mapBucket :=
  match k with [] => Err (IllegalKey k) | _ => Ok (<[k := nonNilBytes v]> t) end.

Definition map_Delete (k : bytes) (t : mapBucket) : mapBucket := delete k t.

(** The bucket of an id, which [map_GetBucket] has made. *)
Definition bucket (id : bytes) (t : mapDatabase) : mapBucket := default ∅ (t !! id).

#[global] Instance map_Backend : Backend mapDatabase := {|
  be_GetBucket id t := Ok (map_GetBucket id t);
  be_Get id k t := Ok (map_Get (bucket id t) k);
  be_Has id k t := map_Has (bucket id t) k;
  be_Set id k v t :=
    match map_Set k v (bucket id t) with Ok b => Ok (<[id := b]> t) | Err e => Err (e, t) | Panic => Panic end;
  be_Delete id k t := Ok (<[id := map_Delete k (bucket id t)]> t);
|}.

Lemma bucket_insert id b t id' : bucket id' (<[id := b]> t) = if decide (id' = id) then b else bucket id' t.
Proof. unfold bucket, mapDatabase in *. rewrite lookup_insert. repeat case_decide; naive_solver. Qed.

#[global] Instance map_BackendLaws : BackendLaws mapDatabase.
Proof.
  refine (Build_BackendLaws _ _ (fun t id k => bucket id t !! k) (fun k => negb (bool_decide (k = []))) _ _ _ _ _).
  - done.
  - done.
  - intros id r. eexists. split; [done|]. intros id' k'. unfold map_GetBucket. destruct (r !! id) eqn:E; [done|].
    rewrite bucket_insert. case_decide as Hd; [|done]. subst. unfold bucket. by rewrite E.
  - intros id k v r Hk. destruct k as [|b k]; [done|]. eexists. split; [done|]. intros id' k'.
    cbn [nonNilBytes]. rewrite bucket_insert. case_decide as Hd; [|by rewrite decide_False by naive_solver].
    subst. unfold mapBucket in *. rewrite lookup_insert. repeat case_decide; naive_solver.
  - intros id k r. eexists. split; [done|]. intros id' k'.
    rewrite bucket_insert. case_decide as Hd; [|by rewrite decide_False by naive_solver].
    subst. unfold map_Delete, mapBucket in *. rewrite lookup_delete. repeat case_decide; naive_solver.
Defined.

End MapDB.

(** ** [null_db.go] *)

Module NullDB.

Inductive nullDB : Set := NewNullDB.

Definition null_Get (key : bytes) : option bytes := None.
Definition null_Has (key : bytes) : bool := false.
Definition null_Set (key : bytes) (value : option bytes) (t : nullDB) : update nullDB := Panic.
Definition null_Delete (key : bytes) (t : nullDB) : update nullDB := Panic.

#[global] Instance null_Backend : Backend nullDB := {|
  be_GetBucket _ t := Ok t;
  be_Get _ k _ := Ok (null_Get k);
  be_Has _ k _ := null_Has k;
  be_Set _ := null_Set;
  be_Delete _ := null_Delete;
|}.

End NullDB.

(** ** [go_level_db.go] as a back end *)

Section GoLevel.
Context {D : Type} `{!LevelDB D} `{!LevelDBLaws D}.

#[global] Instance goleveldb_Backend : Backend D := {|
  be_GetBucket _ d := Ok d;
  be_Get id k d := Ok (bucket_Get id d k);
  be_Has id k d := bucket_Has id d k;
  be_Set id k v d := Ok (bucket_Set id k (nonNilBytes v) d);
  be_Delete id k d := Ok (bucket_Delete id k d);
|}.

End GoLevel.

(** ** [layer_db.go] *)

Module Layer.
Section Layer.
Context {R : Type} `{!Backend R}.

(** The pending writes of a bucket, a nil value being a deletion; nil once flushed. *)
Abbreviation pending := (gmap bytes (option bytes)).

Record layerDB : Type := mkLayerDB {
  flushed : bool;
  real : R;
  buckets : gmap bytes (option pending);
}.

Definition NewLayerDB (dbase : R) : layerDB := mkLayerDB false dbase ∅.

Definition with_real (l : layerDB) (r : R) : layerDB := mkLayerDB (flushed l) r (buckets l).

Definition lift_real (l : layerDB) (u : update R) : update layerDB :=
  match u with Ok r => Ok (with_real l r) | Err (e, r) => Err (e, with_real l r) | Panic => Panic end.

Definition set_data (id : bytes) (data : pending) (l : layerDB) : layerDB :=
  mkLayerDB (flushed l) (real l) (<[id := Some data]> (buckets l)).

(** After a flush a new bucket is the bucket of the real database. *)
Definition layer_GetBucket (id : bytes) (l : layerDB) : update layerDB :=
  match buckets l !! id with
  | Some _ => Ok l
  | None =>
      match be_GetBucket id (real l) with
      | Ok r => if flushed l then Ok (with_real l r) else Ok (set_data id ∅ (with_real l r))
      | Err (e, r) => Err (e, with_real l r)
      | Panic => Panic
      end
  end.

(** The data of the bucket that [layer_GetBucket] returns for an id. *)
Definition data (l : layerDB) (id : bytes) : option pending :=
  match buckets l !! id with Some d => d | None => if flushed l then None else Some ∅ end.

Definition layer_Get (id key : bytes) (l : layerDB) : outcome db_error (option bytes) :=
  match data l id with
  | Some d => match d !! key with Some value => Ok value | None => be_Get id key (real l) end
  | None => be_Get id key (real l)
  end.

Definition layer_Has (id key : bytes) (l : layerDB) : bool :=
  match data l id with
  | Some d => match d !! key with Some value => bool_decide (is_Some value) | None => be_Has id key (real l) end
  | None => be_Has id key (real l)
  end.

Definition layer_Set (id key : bytes) (value : option bytes) (l : layerDB) : update layerDB :=
  match value with
  | None => Err (IllegalArgument, l)
  | Some v =>
      match data l id with
      | Some d => Ok (set_data id (<[key := Some v]> d) l)
      | None => lift_real l (be_Set id key (Some v) (real l))
      end
  end.

Definition layer_Delete (id key : bytes) (l : layerDB) : update layerDB :=
  match data l id with
  | Some d => Ok (set_data id (<[key := None]> d) l)
  | None => lift_real l (be_Delete id key (real l))
  end.

(** The orders in which the [range] loops visit the pending writes of a bucket
    and the buckets: Go leaves them open. *)
Context (order : pending -> list (bytes * option bytes)).
Context (bucket_order : gmap bytes (option pending) -> list (bytes * option pending)).

Fixpoint write_all (id : bytes) (kvs : list (bytes * option bytes)) (r : R) : update R :=
  match kvs with
  | [] => Ok r
  | (k, v) :: kvs' =>
      match match v with None => be_Delete id k r | Some _ => be_Set id k v r end with
      | Ok r' => write_all id kvs' r'
      | e => e
      end
  end.

(** [layerBucket.Flush]: an error leaves the pending writes in place. *)
Definition layerBucket_Flush (write : bool) (id : bytes) (d : option pending) (l : layerDB) : update layerDB :=
  let clear r := mkLayerDB (flushed l) r (<[id := None]> (buckets l)) in
  match d with
  | Some kvs =>
      if write then
        match write_all id (order kvs) (real l) with
        | Ok r => Ok (clear r)
        | Err (e, r) => Err (e, with_real l r)
        | Panic => Panic
        end
      else Ok (clear (real l))
  | None => Ok (clear (real l))
  end.

Fixpoint flush_buckets (write : bool) (bks : list (bytes * option pending)) (l : layerDB) : update layerDB :=
  match bks with
  | [] => Ok (mkLayerDB true (real l) (buckets l))
  | (id, d) :: bks' => match layerBucket_Flush write id d l with Ok l' => flush_buckets write bks' l' | e => e end
  end.

Definition layer_Flush (write : bool) (l : layerDB) : update layerDB :=
  flush_buckets write (bucket_order (buckets l)) l.

#[global] Instance layer_Backend : Backend layerDB := {|
  be_GetBucket := layer_GetBucket; be_Get := layer_Get; be_Has := layer_Has; be_Set := layer_Set; be_Delete := layer_Delete;
|}.

(** ** A layer is a database *)

Section Laws.
Context `{!BackendLaws R}.

Definition view (l : layerDB) (id key : bytes) : option bytes :=
  match data l id with Some d => default (be_view (real l) id key) (d !! key) | None => be_view (real l) id key end.

Lemma data_set_data id d l id' : data (set_data id d l) id' = if decide (id' = id) then Some d else data l id'.
Proof. unfold data, set_data. cbn [buckets flushed]. rewrite lookup_insert. repeat case_decide; naive_solver. Qed.

Lemma view_set_data id k ov d l id' k' : data l id = Some d ->
  view (set_data id (<[k := ov]> d) l) id' k' = if decide (id' = id /\ k' = k) then ov else view l id' k'.
Proof.
  intros Hd. unfold view. rewrite data_set_data. cbn [real set_data]. case_decide as Hi.
  - subst. rewrite Hd. rewrite lookup_insert. repeat case_decide; naive_solver.
  - rewrite decide_False by naive_solver. done.
Qed.

#[global] Instance layer_BackendLaws : BackendLaws layerDB.
Proof.
  refine (Build_BackendLaws _ _ view be_accepts _ _ _ _ _).
  - intros id k l. cbn. unfold layer_Get, view. destruct (data l id) as [d|]; [destruct (d !! k)|]; cbn; rewrite ?be_Get_view; done.
  - intros id k l. cbn. unfold layer_Has, view. destruct (data l id) as [d|]; [destruct (d !! k)|]; cbn; rewrite ?be_Has_view; done.
  - intros id l. cbn. unfold layer_GetBucket. destruct (buckets l !! id) eqn:E; [by eexists|].
    destruct (be_GetBucket_ok id (real l)) as (r & -> & Hr).
    destruct (flushed l) eqn:F; eexists; (split; [done|]); intros id' k'; unfold view, data; cbn [buckets flushed real set_data with_real];
      rewrite ?lookup_insert, ?Hr; [done|].
    rewrite F. case_decide; [subst; rewrite E; by rewrite lookup_empty|done].
  - intros id k v l Hk. cbn. unfold layer_Set. destruct (data l id) as [d|] eqn:E.
    + eexists. split; [done|]. intros id' k'. by apply view_set_data.
    + destruct (be_Set_ok id k v (real l) Hk) as (r & -> & Hr). eexists. split; [done|]. intros id' k'.
      unfold view, data in *. cbn [lift_real with_real buckets flushed real]. rewrite Hr. case_decide as Hd; [|done].
      destruct Hd as [-> ->]. by rewrite E.
  - intros id k l. cbn. unfold layer_Delete. destruct (data l id) as [d|] eqn:E.
    + eexists. split; [done|]. intros id' k'. by apply view_set_data.
    + destruct (be_Delete_ok id k (real l)) as (r & -> & Hr). eexists. split; [done|]. intros id' k'.
      unfold view, data in *. cbn [lift_real with_real buckets flushed real]. rewrite Hr. case_decide as Hd; [|done].
      destruct Hd as [-> ->]. by rewrite E.
Defined.

(** ** A flush writes the layer's view to the real database *)

Context (order_ok : forall d, order d ≡ₚ map_to_list d).
Context (bucket_order_ok : forall b, bucket_order b ≡ₚ map_to_list b).

(** The pending values have keys that the real database accepts. *)
Definition accepted (d : pending) : Prop := forall k v, d !! k = Some (Some v) -> be_accepts k = true.

Definition drained (d : option pending) (r : R) (id k : bytes) : option bytes :=
  match d with Some d => default (be_view r id k) (d !! k) | None => be_view r id k end.

Lemma write_all_ok id kvs r : NoDup kvs.*1 -> accepted (list_to_map kvs) ->
  exists r', write_all id kvs r = Ok r' /\ forall id' k', be_view r' id' k' =
    if decide (id' = id) then drained (Some (list_to_map kvs)) r id k' else be_view r id' k'.
Proof.
  unfold accepted, drained in *. revert r. induction kvs as [|[k v] kvs IH]; intros r Hnd Ha.
  { eexists. split; [done|]. intros id' k'. cbn. rewrite lookup_empty. case_decide; by subst. }
  cbn [fmap list_fmap fst] in Hnd. apply NoDup_cons in Hnd as [Hk Hnd].
  assert (Hn : (list_to_map kvs : gmap bytes (option bytes)) !! k = None) by (by apply not_elem_of_list_to_map_1).
  rewrite list_to_map_cons in Ha |- *. cbn [write_all].
  assert (exists r1, match v with None => be_Delete id k r | Some _ => be_Set id k v r end = Ok r1 /\
    forall id' k', be_view r1 id' k' = if decide (id' = id /\ k' = k) then v else be_view r id' k') as (r1 & -> & H1).
  { destruct v as [v|]; [|apply be_Delete_ok]. apply be_Set_ok. apply (Ha k v). by rewrite lookup_insert_eq. }
  destruct (IH r1) as (r2 & -> & H2); [done| |].
  { intros k' v' Hk'. apply (Ha k' v'). rewrite lookup_insert_ne; [done|]. intros Heq. subst. congruence. }
  eexists. split; [done|]. intros id' k'. rewrite H2. case_decide as Hi.
  - rewrite H1. destruct (decide (k' = k)) as [->|Hkk].
    + by rewrite Hn, lookup_insert_eq, decide_True.
    + by rewrite lookup_insert_ne, decide_False by naive_solver.
  - rewrite H1, decide_False by naive_solver. done.
Qed.

Lemma order_map (d : gmap bytes (option bytes)) :
  NoDup (order d).*1 /\ (list_to_map (order d) : gmap bytes (option bytes)) = d.
Proof.
  assert (NoDup (order d).*1) as Hnd by (rewrite order_ok; apply NoDup_fst_map_to_list).
  split; [done|]. rewrite (list_to_map_proper _ (map_to_list d)) by done. apply list_to_map_to_list.
Qed.

Lemma layerBucket_Flush_ok write id d l : (write = true -> from_option accepted True d) ->
  exists r, layerBucket_Flush write id d l = Ok (mkLayerDB (flushed l) r (<[id := None]> (buckets l))) /\
    forall id' k', be_view r id' k' =
      if decide (write = true /\ id' = id) then drained d (real l) id k' else be_view (real l) id' k'.
Proof.
  intros Ha. unfold layerBucket_Flush. destruct d as [d|].
  - destruct write.
    + destruct (order_map d) as [Hnd Heq].
      destruct (write_all_ok id (order d) (real l)) as (r & -> & Hr); [done|rewrite Heq; by apply Ha|].
      rewrite Heq in Hr. eexists. split; [done|]. intros id' k'. rewrite Hr. repeat case_decide; naive_solver.
    + eexists. split; [done|]. intros id' k'. by rewrite decide_False by naive_solver.
  - eexists. split; [done|]. intros id' k'. cbn. case_decide; naive_solver.
Qed.

Lemma flush_buckets_ok write bks l : NoDup bks.*1 ->
  (write = true -> forall id d, (id, Some d) ∈ bks -> accepted d) ->
  exists r bs, flush_buckets write bks l = Ok (mkLayerDB true r bs) /\
    (forall id, bs !! id = if decide (id ∈ bks.*1) then Some None else buckets l !! id) /\
    (forall id k, be_view r id k =
      if write then from_option (fun d => drained d (real l) id k) (be_view (real l) id k)
        ((list_to_map bks : gmap bytes (option pending)) !! id) else be_view (real l) id k).
Proof.
  revert l. induction bks as [|[id d] bks IH]; intros l Hnd Ha.
  { eexists _, _. split; [done|]. cbn. split; [done|]. intros i k. rewrite lookup_empty. by destruct write. }
  cbn [fmap list_fmap fst] in Hnd. apply NoDup_cons in Hnd as [Hid Hnd]. cbn [flush_buckets].
  destruct (layerBucket_Flush_ok write id d l) as (r1 & -> & H1).
  { intros Hw. destruct d as [d|]; [|done]. apply (Ha Hw id). by left. }
  destruct (IH (mkLayerDB (flushed l) r1 (<[id := None]> (buckets l)))) as (r2 & bs & -> & Hb & H2); [done|..].
  { intros Hw i e Hin. apply (Ha Hw i). by right. }
  assert (Hn : (list_to_map bks : gmap bytes (option pending)) !! id = None) by (by apply not_elem_of_list_to_map_1).
  eexists _, _. split; [done|]. cbn [buckets real] in *. split.
  - intros i. rewrite Hb, lookup_insert. cbn [fmap list_fmap fst].
    repeat case_decide; set_solver.
  - intros i k. rewrite H2. destruct write; [|by rewrite H1, decide_False by naive_solver].
    rewrite list_to_map_cons. destruct (decide (i = id)) as [->|Hi].
    + rewrite Hn, lookup_insert_eq. cbn. by rewrite H1, decide_True.
    + rewrite lookup_insert_ne by done.
      destruct (_ !! i) as [[d'|]|]; cbn; by rewrite H1, decide_False by naive_solver.
Qed.

Lemma Flush_ok write l :
  (write = true -> forall id d, buckets l !! id = Some (Some d) -> accepted d) ->
  exists l', layer_Flush write l = Ok l' /\
    (forall id k, be_view (real l') id k = if write then view l id k else be_view (real l) id k) /\
    (forall id k, view l' id k = be_view (real l') id k).
Proof.
  intros Ha. unfold layer_Flush.
  assert (NoDup (bucket_order (buckets l)).*1) as Hnd by (rewrite bucket_order_ok; apply NoDup_fst_map_to_list).
  assert ((list_to_map (bucket_order (buckets l)) : gmap bytes (option pending)) = buckets l) as Hm.
  { rewrite (list_to_map_proper _ (map_to_list (buckets l))) by done. apply list_to_map_to_list. }
  destruct (flush_buckets_ok write (bucket_order (buckets l)) l) as (r & bs & -> & Hb & Hr); [done|..].
  { intros Hw id d. rewrite bucket_order_ok, elem_of_map_to_list. by apply Ha. }
  rewrite Hm in Hr. eexists. split; [done|]. cbn [real]. split.
  - intros id k. rewrite Hr. destruct write; [|done]. unfold view, data, drained in *.
    destruct (buckets l !! id) as [d|]; cbn; [done|]. destruct (flushed l); [done|]. by rewrite lookup_empty.
  - intros id k. unfold view, data. cbn [buckets real flushed]. rewrite Hb.
    case_decide as Hin; [done|]. rewrite bucket_order_ok in Hin.
    assert (buckets l !! id = None) as ->; [|done].
    apply eq_None_not_Some. intros [d Hd]. apply Hin, list_elem_of_fmap. exists (id, d).
    by rewrite elem_of_map_to_list.
Qed.

(** ** A layer is a transaction *)

(** Before a flush the layer has only read the real database, and its pending
    values come from the calls. *)
Definition layer_inv (r : R) (l : layerDB) : Prop :=
  flushed l = false /\ same_view (real l) r /\
  forall id, exists d, data l id = Some d /\ accepted d.

Lemma set_data_inv r id d l : layer_inv r l -> accepted d -> layer_inv r (set_data id d l).
Proof.
  intros (Hf & Hr & Hd) Ha. split_and!; [done|done|]. intros id'. rewrite data_set_data. case_decide; [by eexists|done].
Qed.

Lemma db_step_inv r o l a l' : op_accepted (R := R) o = true -> layer_inv r l ->
  db_step o l = Ok (a, l') -> layer_inv r l'.
Proof.
  intros Ho Hinv Hstep. pose proof Hinv as (Hf & Hr & Hd). destruct o as [id|id k|id k|id k v|id k]; cbn in Hstep.
  - unfold layer_GetBucket in Hstep. destruct (buckets l !! id) eqn:E; cbn in Hstep; [by injection Hstep as _ <-|].
    destruct (be_GetBucket_ok id (real l)) as (r1 & E1 & H1). rewrite E1, Hf in Hstep. injection Hstep as _ <-.
    apply set_data_inv; [|intros k v; by rewrite lookup_empty].
    split_and!; [done| |exact Hd]. intros id' k'. cbn. by rewrite H1.
  - apply obind_ok in Hstep as (v & _ & [= _ <-]). done.
  - by injection Hstep as _ <-.
  - cbn in Ho. apply andb_true_iff in Ho as [[v' ->]%bool_decide_eq_true Hk]. cbn in Hstep.
    destruct (Hd id) as (d & E & Ha). rewrite E in Hstep. injection Hstep as _ <-.
    apply set_data_inv; [done|]. intros k' v. rewrite lookup_insert. case_decide; [by subst|]. apply Ha.
  - unfold layer_Delete in Hstep. destruct (Hd id) as (d & E & Ha). rewrite E in Hstep. injection Hstep as _ <-.
    apply set_data_inv; [done|]. intros k' v. rewrite lookup_insert. case_decide; [done|]. apply Ha.
Qed.

Lemma db_run_inv r ops l answers l' : forallb (op_accepted (R := R)) ops = true -> layer_inv r l ->
  db_run ops l = Ok (answers, l') -> layer_inv r l'.
Proof.
  revert l answers. induction ops as [|o ops IH]; intros l answers Ho Hinv Hrun; cbn in Hrun; [by injection Hrun as _ <-|].
  cbn in Ho. apply andb_true_iff in Ho as [Ho Hops].
  apply obind_ok in Hrun as ([a l1] & Hs & Hrun). apply obind_ok in Hrun as ([as1 l2] & Hr & [= _ <-]).
  eapply IH; [done| |done]. by eapply db_step_inv.
Qed.

Lemma layer_inv_accepted r l id d : layer_inv r l -> buckets l !! id = Some (Some d) -> accepted d.
Proof. intros (_ & _ & Hd) E. destruct (Hd id) as (d' & E' & Ha). unfold data in E'. rewrite E in E'. by injection E' as ->. Qed.

(** C36: a layer is a transaction: any calls made through a new layer are answered
    as by the real database itself, which meanwhile does not change; a flush
    that writes then gives the real database the contents it would have had,
    in whatever order the loops over the maps go, and a flush that does not
    write leaves it with the contents it had. *)
Theorem layer_transaction ops r : forallb (op_accepted (R := R)) ops = true ->
  exists answers r1 l1, db_run ops r = Ok (answers, r1) /\
    db_run ops (NewLayerDB r) = Ok (answers, l1) /\ same_view (real l1) r /\
    (exists l2, layer_Flush true l1 = Ok l2 /\ same_view (real l2) r1 /\ same_view l2 r1) /\
    (exists l3, layer_Flush false l1 = Ok l3 /\ same_view (real l3) r /\ same_view l3 r).
Proof.
  intros Hops.
  assert (same_view r (NewLayerDB r)) as Hsame by (intros id k; cbn; unfold view, data; cbn; by rewrite !lookup_empty).
  assert (forall k, be_accepts (R := R) k = be_accepts (R := layerDB) k) as Hacc by done.
  destruct (db_run_sim Hacc ops r (NewLayerDB r) Hops Hsame) as (answers & r1 & l1 & E1 & E2 & Hv).
  assert (layer_inv r (NewLayerDB r)) as Hinv0.
  { split_and!; [done|done|]. intros id. exists ∅. unfold data. cbn. rewrite lookup_empty. split; [done|].
    intros k v. by rewrite lookup_empty. }
  pose proof (db_run_inv r ops _ _ _ Hops Hinv0 E2) as Hinv. pose proof Hinv as (_ & Hreal & _).
  exists answers, r1, l1. split_and!; [done..| |].
  - destruct (Flush_ok true l1) as (l2 & E & H1 & H2); [intros _ id d; by apply (layer_inv_accepted r)|].
    exists l2. split_and!; [done| |]; intros id k; [rewrite H1; symmetry; apply Hv|].
    change (view l2 id k = be_view r1 id k). rewrite H2, H1. symmetry. apply Hv.
  - destruct (Flush_ok false l1) as (l3 & E & H1 & H2); [done|].
    exists l3. split_and!; [done| |]; intros id k; [rewrite H1; apply Hreal|].
    change (view l3 id k = be_view r id k). rewrite H2, H1. apply Hreal.
Qed.

End Laws.
End Layer.
End Layer.

(** ** [proxy_db.go] *)

Module Proxy.
Section Proxy.
Context {R : Type} `{!Backend R}.

(** The buckets are those handed out before the real database was set; each
    knows whether it was given its real bucket. *)
Record proxyDB : Type := mkProxyDB {
  real : option R;
  buckets : gmap bytes bool;
}.

Definition NewProxyDB : proxyDB := mkProxyDB None ∅.

Definition with_real (p : proxyDB) (r : R) : proxyDB := mkProxyDB (Some r) (buckets p).

Definition lift_real (p : proxyDB) (u : update R) : update proxyDB :=
  match u with Ok r => Ok (with_real p r) | Err (e, r) => Err (e, with_real p r) | Panic => Panic end.

Definition proxy_GetBucket (id : bytes) (p : proxyDB) : update proxyDB :=
  match buckets p !! id, real p with
  | Some _, _ => Ok p
  | None, Some r => lift_real p (be_GetBucket id r)
  | None, None => Ok (mkProxyDB None (<[id := false]> (buckets p)))
  end.

(** The real database behind the bucket that [proxy_GetBucket] returned for an id. *)
Definition realized (p : proxyDB) (id : bytes) : option R :=
  match buckets p !! id with Some false => None | _ => real p end.

Definition proxy_Get (id key : bytes) (p : proxyDB) : outcome db_error (option bytes) :=
  match realized p id with Some r => be_Get id key r | None => Err ProxyIsNotRealized end.
Definition proxy_Has (id key : bytes) (p : proxyDB) : bool :=
  match realized p id with Some r => be_Has id key r | None => false end.
Definition proxy_Set (id key : bytes) (value : option bytes) (p : proxyDB) : update proxyDB :=
  match realized p id with
  | Some r => lift_real p (be_Set id key value r)
  | None => Err (ProxyIsNotRealized, p)
  end.
Definition proxy_Delete (id key : bytes) (p : proxyDB) : update proxyDB :=
  match realized p id with
  | Some r => lift_real p (be_Delete id key r)
  | None => Err (ProxyIsNotRealized, p)
  end.

Context (bucket_order : gmap bytes bool -> list (bytes * bool)).

Fixpoint realize_all (bks : list (bytes * bool)) (r : R) (p : proxyDB) : update proxyDB :=
  match bks with
  | [] => Ok (with_real p r)
  | (id, _) :: bks' =>
      match be_GetBucket id r with
      | Ok r' => realize_all bks' r' (mkProxyDB (Some r') (<[id := true]> (buckets p)))
      | Err (e, r') => Err (e, mkProxyDB (Some r') (<[id := false]> (buckets p)))
      | Panic => Panic
      end
  end.

(** The database is set once: buckets that it gave out itself are not called back. *)
Definition SetReal (database : R) (p : proxyDB) : update proxyDB :=
  realize_all (bucket_order (buckets p)) database (with_real p database).

#[global] Instance proxy_Backend : Backend proxyDB := {|
  be_GetBucket := proxy_GetBucket; be_Get := proxy_Get; be_Has := proxy_Has; be_Set := proxy_Set; be_Delete := proxy_Delete;
|}.

(** ** A realized proxy is the real database *)

Section Laws.
Context `{!BackendLaws R}.
Context (bucket_order_ok : forall b, bucket_order b ≡ₚ map_to_list b).

Definition stands_for (p : proxyDB) (r : R) : Prop :=
  exists r', real p = Some r' /\ same_view r' r /\ forall id b, buckets p !! id = Some b -> b = true.

Lemma stands_for_realized p r id : stands_for p r -> exists r', realized p id = Some r' /\ same_view r' r.
Proof.
  intros (r' & Hr & Hv & Hb). exists r'. split; [|done]. unfold realized. rewrite <-Hr.
  destruct (buckets p !! id) as [[]|] eqn:E; [done| |done]. by specialize (Hb id false E).
Qed.

Lemma with_real_stands p r r1 r2 : stands_for p r -> same_view r1 r2 -> stands_for (with_real p r1) r2.
Proof. intros (r' & _ & _ & Hb) Hv. by exists r1. Qed.

Lemma proxy_step o p r : op_accepted (R := R) o = true -> stands_for p r ->
  exists a r1 p1, db_step o r = Ok (a, r1) /\ db_step o p = Ok (a, p1) /\ stands_for p1 r1.
Proof.
  intros Ho Hp. pose proof Hp as (rp & Hreal & Hv & Hb).
  destruct o as [id|id k|id k|id k v|id k]; cbn [db_step be_GetBucket be_Get be_Has be_Set be_Delete proxy_Backend];
    try (destruct (stands_for_realized p r id Hp) as (r' & Hr' & Hv')).
  - destruct (be_GetBucket_ok id r) as (r1 & -> & H1). unfold proxy_GetBucket. rewrite Hreal.
    destruct (buckets p !! id) as [b|] eqn:E.
    + eexists _, _, _. split_and!; [done..|]. exists rp. split_and!; [done| |done]. intros i k. by rewrite H1, Hv.
    + destruct (be_GetBucket_ok id rp) as (r2 & -> & H2). eexists _, _, _. split_and!; [done..|].
      eapply with_real_stands; [done|]. intros i k. by rewrite H1, H2.
  - unfold proxy_Get. rewrite Hr', !be_Get_view, Hv'. by eexists _, _, _.
  - unfold proxy_Has. rewrite Hr', !be_Has_view, Hv'. by eexists _, _, _.
  - cbn in Ho. apply andb_true_iff in Ho as [[v' ->]%bool_decide_eq_true Hk]. unfold proxy_Set. rewrite Hr'.
    destruct (be_Set_ok id k v' r Hk) as (r1 & -> & H1), (be_Set_ok id k v' r' Hk) as (r2 & -> & H2).
    eexists _, _, _. split_and!; [done..|]. eapply with_real_stands; [done|]. intros i j. by rewrite H1, H2, Hv'.
  - unfold proxy_Delete. rewrite Hr'.
    destruct (be_Delete_ok id k r) as (r1 & -> & H1), (be_Delete_ok id k r') as (r2 & -> & H2).
    eexists _, _, _. split_and!; [done..|]. eapply with_real_stands; [done|]. intros i j. by rewrite H1, H2, Hv'.
Qed.

Lemma realize_all_ok bks r p : exists r' bs, realize_all bks r p = Ok (mkProxyDB (Some r') bs) /\
  same_view r' r /\ forall id, bs !! id = if decide (id ∈ bks.*1) then Some true else buckets p !! id.
Proof.
  revert r p. induction bks as [|[id b] bks IH]; intros r p; cbn [realize_all].
  { by eexists _, _. }
  destruct (be_GetBucket_ok id r) as (r1 & -> & H1).
  destruct (IH r1 (mkProxyDB (Some r1) (<[id := true]> (buckets p)))) as (r2 & bs & -> & Hv & Hbs).
  eexists _, _. split_and!; [done| |].
  - intros i k. by rewrite Hv, H1.
  - intros i. rewrite Hbs. cbn [buckets fmap list_fmap fst]. rewrite lookup_insert. repeat case_decide; set_solver.
Qed.

(** A proxy refuses every access until its database is set; from then on
    every call, through the buckets handed out before as well as through new
    ones, is answered as by that database and has the same effect on it. *)
Lemma proxy_transparent p db : real p = None ->
  (forall id k, proxy_Get id k p = Err ProxyIsNotRealized) /\
  exists p', SetReal db p = Ok p' /\
    forall ops, forallb (op_accepted (R := R)) ops = true ->
      exists answers r1 p1, db_run ops db = Ok (answers, r1) /\ db_run ops p' = Ok (answers, p1) /\ stands_for p1 r1.
Proof.
  intros Hp. split.
  { intros id k. unfold proxy_Get, realized. rewrite Hp. by destruct (buckets p !! id) as [[]|]. }
  unfold SetReal. destruct (realize_all_ok (bucket_order (buckets p)) db (with_real p db)) as (r' & bs & -> & Hv & Hbs).
  eexists. split; [done|].
  assert (stands_for (mkProxyDB (Some r') bs) db) as Hst.
  { exists r'. split_and!; [done|done|]. intros id b. cbn. rewrite Hbs. case_decide as Hin; [by intros [= <-]|].
    intros Hb. destruct Hin. apply list_elem_of_fmap. exists (id, b). split; [done|].
    by rewrite bucket_order_ok, elem_of_map_to_list. }
  intros ops. revert Hst. generalize (mkProxyDB (Some r') bs), db. clear.
  induction ops as [|o ops IH]; intros p db Hst Ho; [by eexists _, _, _|].
  cbn in Ho. apply andb_true_iff in Ho as [Ho Hops].
  destruct (proxy_step o p db Ho Hst) as (a & r1 & p1 & E1 & E2 & Hst1).
  destruct (IH p1 r1 Hst1 Hops) as (l & r2 & p2 & F1 & F2 & Hst2).
  cbn [db_run]. rewrite E1, E2. cbn [obind]. rewrite F1, F2. by eexists _, _, _.
Qed.

End Laws.
End Proxy.
End Proxy.

(** ** [database.go] *)

(** The registry of back ends: the creator of a registered name is kept unless forced. *)
Section Registry.
Context {Creator : Type}.

Definition registerDBCreator (backend : bytes) (creator : Creator) (force : bool)
    (backends : gmap bytes Creator) : gmap bytes Creator :=
  match backends !! backend with
  | Some _ => if force then <[backend := creator]> backends else backends
  | None => <[backend := creator]> backends
  end.

(** An unknown back end and a creator that fails end the process. *)
Definition openDatabase {R E} (create : Creator -> bytes -> bytes -> outcome E R)
    (backends : gmap bytes Creator) (backend name dir : bytes) : outcome E R :=
  match backends !! backend with
  | None => Panic
  | Some c => match create c name dir with Ok db => Ok db | _ => Panic end
  end.

End Registry.

Definition BadgerDBBackend : bytes := str "badgerdb".
Definition GoLevelDBBackend : bytes := str "goleveldb".
Definition BoltDBBackend : bytes := str "boltdb".
Definition MapDBBackend : bytes := str "mapdb".

Lemma openDatabase_registered {Creator R E : Type} (create : Creator -> bytes -> bytes -> outcome E R)
    backends backend c name dir db :
  backends !! backend = None -> create c name dir = Ok db ->
  openDatabase create (registerDBCreator backend c false backends) backend name dir = Ok db.
Proof.
  intros Hb Hc. unfold openDatabase, registerDBCreator. by rewrite Hb, lookup_insert_eq, Hc.
Qed.
