(* ===== verification/Codec.v ===== *)
(** * The record encoding: [common/codec]

    [Codec] is the interface of [codec.MarshalToBytes] and
    [codec.UnmarshalFromBytes] at one Go type; every record the databases hold
    is read and written through it.  Its law is what the code relies on of the
    ugorji msgpack handle: a well-formed record that was encoded is decoded
    with every field, whatever the receiver held.  The second part gives an
    instance, the msgpack format with structs as arrays
    ([MsgpackHandle.StructToArray], [codec/msgpack.go]), the third the wrapper that
    makes functions on byte slices from a codec on streams. *)

From S2P Require Import Prelude Bytes HexInt Address.

(** ** The interface *)

(** The values a Go program can hold at a type (ranges, array lengths). *)
Class WF (A : Type) := wf : A -> Prop.
#[global] Hint Mode WF ! : typeclass_instances.

(** [unmarshal bs r] decodes into the receiver [r]: the receiver afterwards,
    and whether the decoding succeeded.  A failed one may leave anything. *)
Class Codec (A : Type) := {
  marshal : A -> bytes;
  unmarshal : bytes -> A -> A * bool;
}.

(** Nothing is decoded from the empty slice (an EOF error). *)
Class CodecLaws (A : Type) `{!Codec A, !WF A} : Prop := {
  unmarshal_marshal (a r : A) : wf a -> unmarshal (marshal a) r = (a, true);
  unmarshal_empty (r : A) : unmarshal [] r = (r, false);
}.

#[export] Hint Rewrite @unmarshal_marshal using (first [typeclasses eauto | eauto with rc]) : rc_rw.

(** [new(T)] then [Unmarshal]: nil on an error. *)
Definition unmarshal_new {A} `{!Codec A} (zero : A) (bs : bytes) : option A :=
  let '(a, ok) := unmarshal bs zero in if ok : bool then Some a else None.

Lemma unmarshal_new_marshal `{CodecLaws A} (zero a : A) :
  wf a -> unmarshal_new zero (marshal a) = Some a.
Proof. intros Ha. unfold unmarshal_new. by rewrite unmarshal_marshal. Qed.

Lemma marshal_inj `{CodecLaws A} (a b : A) : wf a -> wf b -> marshal a = marshal b -> a = b.
Proof.
  intros Ha Hb E. pose proof (unmarshal_marshal a a Ha) as H1.
  rewrite E, unmarshal_marshal in H1 by done. by injection H1.
Qed.

(** ** Msgpack *)

Module Msgpack.

Record mpcodec (A : Type) := MP { enc : A -> bytes; dec : bytes -> option (A * bytes) }.
Arguments MP {A}. Arguments enc {A}. Arguments dec {A}.

(** Decoding takes back exactly the bytes that were encoded. *)
Definition mp_ok {A} (c : mpcodec A) (P : A -> Prop) : Prop :=
forall a rest, P a -> dec c (enc c a ++ rest) = Some (a, rest).

(** Reads [n] bytes as a big-endian number. *)
Definition take_be (n : nat) (bs : bytes) : option (Z * bytes) :=
if decide (length bs < n)%nat then None else Some (be_combine (take n bs), drop n bs).

Lemma take_be_split n z rest : 0 <= z < 256 ^ Z.of_nat n ->
take_be n (be_split n z ++ rest) = Some (z, rest).
Proof.
intros Hz. unfold take_be.
rewrite decide_False by (rewrite length_app, length_be_split; lia).
rewrite take_app_length', drop_app_length' by (by rewrite length_be_split).
by rewrite be_combine_split, Z.mod_small.
Qed.

Definition enc_uint (v : Z) : bytes :=
if v <=? 127 then [v]
else if v <=? 255 then 0xcc :: be_split 1 v
else if v <=? 65535 then 0xcd :: be_split 2 v
else if v <=? 4294967295 then 0xce :: be_split 4 v
else 0xcf :: be_split 8 v.

Definition dec_uint (bs : bytes) : option (Z * bytes) :=
match bs with
| [] => None
| b :: r =>
    if b <=? 127 then Some (b, r)
    else if b =? 0xcc then take_be 1 r
    else if b =? 0xcd then take_be 2 r
    else if b =? 0xce then take_be 4 r
    else if b =? 0xcf then take_be 8 r
    else None
end.

Definition mp_uint : mpcodec Z := MP enc_uint dec_uint.

Lemma mp_uint_ok : mp_ok mp_uint is_u64.
Proof.
intros v rest Hv. unfold is_u64 in Hv. simpl. unfold enc_uint.
destruct (Z.leb_spec v 127).
{ simpl. by rewrite (proj2 (Z.leb_le _ _)) by lia. }
destruct (Z.leb_spec v 255); [apply (take_be_split 1); lia|].
destruct (Z.leb_spec v 65535); [apply (take_be_split 2); lia|].
destruct (Z.leb_spec v 4294967295); [apply (take_be_split 4); lia|].
apply (take_be_split 8). change (256 ^ Z.of_nat 8) with (2 ^ 64). lia.
Qed.

Definition mp_bool : mpcodec bool :=
MP (fun b : bool => [if b then 0xc3 else 0xc2])
   (fun bs => match bs with
              | b :: r => if b =? 0xc3 then Some (true, r)
                          else if b =? 0xc2 then Some (false, r) else None
              | [] => None
              end).

Lemma mp_bool_ok : mp_ok mp_bool (fun _ => True).
Proof. by intros [] rest _. Qed.

(** A header with a length: fixed form, 16-bit and 32-bit forms.  The format
  has no length of 2^32 and more; an escape in unary makes the header total,
  so that the law needs no bound on sizes. *)
Definition enc_len (fix_ fixmax m16 m32 : Z) (n : nat) : bytes :=
let z := Z.of_nat n in
if z <? fixmax then [fix_ + z]
else if z <? 65536 then m16 :: be_split 2 z
else if z <? 2 ^ 32 then m32 :: be_split 4 z
else 0xc1 :: replicate n 1 ++ [0].

Fixpoint dec_unary (bs : bytes) : option (nat * bytes) :=
match bs with
| [] => None
| b :: r => if b =? 0 then Some (O, r)
            else match dec_unary r with Some (n, r') => Some (S n, r') | None => None end
end.

Definition to_nat1 (p : option (Z * bytes)) : option (nat * bytes) :=
match p with Some (z, r) => Some (Z.to_nat z, r) | None => None end.

Definition dec_len (fix_ fixmax m16 m32 : Z) (bs : bytes) : option (nat * bytes) :=
match bs with
| [] => None
| b :: r =>
    if (fix_ <=? b) && (b <? fix_ + fixmax) then Some (Z.to_nat (b - fix_), r)
    else if b =? m16 then to_nat1 (take_be 2 r)
    else if b =? m32 then to_nat1 (take_be 4 r)
    else if b =? 0xc1 then dec_unary r
    else None
end.

Lemma dec_unary_enc n rest : dec_unary (replicate n 1 ++ [0] ++ rest) = Some (n, rest).
Proof. induction n as [|n IH]; simpl; [done|]. simpl in IH. by rewrite IH. Qed.

Lemma dec_enc_len f fm m16 m32 n rest :
f + fm <= 0xc1 -> 0xc1 < m16 -> m16 < m32 ->
dec_len f fm m16 m32 (enc_len f fm m16 m32 n ++ rest) = Some (n, rest).
Proof.
intros H1 H2 H3. unfold enc_len.
destruct (Z.ltb_spec (Z.of_nat n) fm); [|destruct (Z.ltb_spec (Z.of_nat n) 65536);
  [|destruct (Z.ltb_spec (Z.of_nat n) (2 ^ 32))]]; cbn [app dec_len].
- rewrite (proj2 (Z.leb_le _ _)), (proj2 (Z.ltb_lt _ _)) by lia. simpl. do 2 f_equal. lia.
- rewrite (proj2 (Z.ltb_ge m16 _)), andb_false_r, Z.eqb_refl by lia.
  rewrite (take_be_split 2) by lia. simpl. by rewrite Nat2Z.id.
- rewrite (proj2 (Z.ltb_ge m32 _)), andb_false_r, Z.eqb_refl by lia.
  rewrite (proj2 (Z.eqb_neq m32 m16)) by lia. rewrite (take_be_split 4) by lia.
  simpl. by rewrite Nat2Z.id.
- rewrite (proj2 (Z.ltb_ge 0xc1 _)), andb_false_r by lia.
  rewrite (proj2 (Z.eqb_neq _ m16)), (proj2 (Z.eqb_neq _ m32)) by lia.
  rewrite Z.eqb_refl, <-app_assoc. apply dec_unary_enc.
Qed.

Definition enc_str_len := enc_len 0xa0 32 0xda 0xdb.
Definition dec_str_len := dec_len 0xa0 32 0xda 0xdb.
Definition enc_arr_len := enc_len 0x90 16 0xdc 0xdd.
Definition dec_arr_len := dec_len 0x90 16 0xdc 0xdd.

Definition mp_bytes : mpcodec bytes :=
MP (fun b => enc_str_len (length b) ++ b)
   (fun bs => match dec_str_len bs with
              | Some (n, r) => if decide (length r < n)%nat then None else Some (take n r, drop n r)
              | None => None
              end).

Lemma mp_bytes_ok : mp_ok mp_bytes (fun _ => True).
Proof.
intros b rest _. simpl. rewrite <-app_assoc.
unfold dec_str_len, enc_str_len. rewrite dec_enc_len by lia.
rewrite decide_False by (rewrite length_app; lia).
by rewrite take_app_length, drop_app_length.
Qed.

Definition mp_pair {A B} (ca : mpcodec A) (cb : mpcodec B) : mpcodec (A * B) :=
MP (fun p => enc ca p.1 ++ enc cb p.2)
   (fun bs => match dec ca bs with
              | Some (a, r) => match dec cb r with
                               | Some (b, r') => Some ((a, b), r') | None => None end
              | None => None
              end).

Lemma mp_pair_ok {A B} (ca : mpcodec A) (cb : mpcodec B) P Q :
mp_ok ca P -> mp_ok cb Q -> mp_ok (mp_pair ca cb) (fun p => P p.1 /\ Q p.2).
Proof. intros Ha Hb [a b] rest [Hp Hq]. simpl in *. by rewrite <-app_assoc, Ha, Hb. Qed.

(** A struct of [n] fields is an array of [n] elements. *)
Definition mp_struct {A} (n : nat) (c : mpcodec A) : mpcodec A :=
MP (fun a => enc_arr_len n ++ enc c a)
   (fun bs => match dec_arr_len bs with
              | Some (m, r) => if (m =? n)%nat then dec c r else None
              | None => None
              end).

Lemma mp_struct_ok {A} n (c : mpcodec A) P : mp_ok c P -> mp_ok (mp_struct n c) P.
Proof.
intros Hc a rest Ha. simpl. rewrite <-app_assoc. unfold dec_arr_len, enc_arr_len.
rewrite dec_enc_len, Nat.eqb_refl by lia. by apply Hc.
Qed.

Lemma mp_struct_head {A} n (c : mpcodec A) a : exists b r, enc (mp_struct n c) a = b :: r /\ b <> 0xc0.
Proof.
simpl. unfold enc_arr_len, enc_len. case_match; bool_to_Z; [eexists _, _; split; [done|lia]|].
repeat case_match; by eexists _, _.
Qed.

Fixpoint dec_list {A} (c : mpcodec A) (n : nat) (bs : bytes) : option (list A * bytes) :=
match n with
| O => Some ([], bs)
| S n => match dec c bs with
         | Some (a, r) => match dec_list c n r with
                          | Some (l, r') => Some (a :: l, r') | None => None end
         | None => None
         end
end.

Definition mp_list {A} (c : mpcodec A) : mpcodec (list A) :=
MP (fun l => enc_arr_len (length l) ++ concat (map (enc c) l))
   (fun bs => match dec_arr_len bs with Some (n, r) => dec_list c n r | None => None end).

Lemma mp_list_ok {A} (c : mpcodec A) P : mp_ok c P -> mp_ok (mp_list c) (Forall P).
Proof.
intros Hc l rest Hl. simpl. rewrite <-app_assoc.
unfold dec_arr_len, enc_arr_len. rewrite dec_enc_len by lia.
induction Hl as [|a l Ha _ IH]; simpl; [done|]. by rewrite <-app_assoc, Hc, IH.
Qed.

(** A pointer: nil, or the value. *)
Definition mp_ptr {A} (c : mpcodec A) : mpcodec (option A) :=
MP (fun o => match o with None => [0xc0] | Some a => enc c a end)
   (fun bs => match bs with
              | b :: r => if b =? 0xc0 then Some (None, r)
                          else match dec c (b :: r) with
                               | Some (a, r') => Some (Some a, r') | None => None end
              | [] => None
              end).

Definition opt_ok {A} (P : A -> Prop) (o : option A) : Prop :=
match o with Some a => P a | None => True end.

Lemma mp_ptr_ok {A} (c : mpcodec A) P :
mp_ok c P -> (forall a, exists b r, enc c a = b :: r /\ b <> 0xc0) ->
mp_ok (mp_ptr c) (opt_ok P).
Proof.
intros Hc Hnil [a|] rest Ha; simpl; [|done].
destruct (Hnil a) as (b & r & E & Hb). specialize (Hc a rest Ha). rewrite E in *. simpl in *.
rewrite (proj2 (Z.eqb_neq _ _)) by done. by rewrite Hc.
Qed.

(** A record seen through an isomorphic tuple of its fields. *)
Definition mp_iso {A B} (f : A -> B) (g : B -> A) (c : mpcodec B) : mpcodec A :=
MP (fun a => enc c (f a))
   (fun bs => match dec c bs with Some (b, r) => Some (g b, r) | None => None end).

Lemma mp_iso_ok {A B} (f : A -> B) (g : B -> A) c (P : B -> Prop) (Q : A -> Prop) :
mp_ok c P -> (forall a, Q a -> P (f a) /\ g (f a) = a) -> mp_ok (mp_iso f g c) Q.
Proof.
intros Hc Hq a rest Ha. destruct (Hq a Ha) as [Hp Hg]. simpl. by rewrite Hc, Hg.
Qed.

(** [HexInt] and [Address] encode themselves as byte strings
  ([CodecEncodeSelf], [CodecDecodeSelf]). *)
Definition mp_hexint : mpcodec Z := mp_iso HexInt_Bytes HexInt_SetBytes mp_bytes.

Lemma mp_hexint_ok : mp_ok mp_hexint (fun _ => True).
Proof. eapply mp_iso_ok; [apply mp_bytes_ok|]. intros z _. split; [done|]. apply BigInt_roundtrip. Qed.

Definition mp_address : mpcodec Address :=
mp_iso Address_Bytes
  (fun b => match Address_SetBytes zero_Address (Some b) with Ok a => a | _ => zero_Address end)
  mp_bytes.

Lemma mp_address_ok : mp_ok mp_address wf_Address.
Proof.
eapply mp_iso_ok; [apply mp_bytes_ok|]. intros a Ha. split; [done|].
rewrite Address_SetBytes_Bytes; [done|by apply wf_zero_Address|done].
Qed.

(** [Unmarshal] ignores what follows the value. *)
Definition mp_codec {A} (c : mpcodec A) : Codec A := {|
marshal := enc c;
unmarshal bs r := match dec c bs with Some (a, _) => (a, true) | None => (r, false) end;
|}.

Lemma mp_codec_laws {A} `{!WF A} (c : mpcodec A) :
mp_ok c wf -> dec c [] = None -> @CodecLaws A (mp_codec c) _.
Proof.
intros Hc He. split.
- intros a r Ha. simpl. rewrite <-(app_nil_r (enc c a)). by rewrite Hc.
- intros r. simpl. by rewrite He.
Qed.

End Msgpack.

(** ** The wrapper ([common/codec/codec.go])

    A codec writes a value to a stream and reads one from a stream; the two in
    the program, of msgpack and of JSON ([msgpack.go], [json.go]), are third-party code
    and parameters here.  [bytesWrapper] turns a codec into functions on byte
    slices, which are what the class [Codec] stands for. *)

(** What writing appends to the stream, if it succeeds; what reading makes of
    the receiver, what it leaves of the stream, and whether it succeeds. *)
Record StreamCodec (A : Type) := mkStreamCodec {
  sc_Marshal : A -> option bytes;
  sc_Unmarshal : bytes -> A -> A * bytes * bool;
}.
Arguments mkStreamCodec {A}. Arguments sc_Marshal {A}. Arguments sc_Unmarshal {A}.

Section Wrapper.
Context {A : Type}.

Definition MarshalToBytes (c : StreamCodec A) (v : A) : option bytes := sc_Marshal c v.

(** The receiver, the bytes returned, and whether there was no error, where
    all of [b] is returned with one. *)
Definition UnmarshalFromBytes (c : StreamCodec A) (b : bytes) (v : A) : A * bytes * bool :=
  let '(v, rest, ok) := sc_Unmarshal c b v in if ok : bool then (v, rest, true) else (v, b, false).

(** The two functions of a wrapper that panic on an error call the functions
    of the package, which are those of [MP], and not their receiver's. *)
Context (MP : StreamCodec A).

Definition package_MarshalToBytes (v : A) : option bytes := MarshalToBytes MP v.
Definition package_UnmarshalFromBytes (b : bytes) (v : A) : A * bytes * bool := UnmarshalFromBytes MP b v.
Definition MustMarshalToBytes (c : StreamCodec A) (v : A) : outcome Empty_set bytes :=
  match package_MarshalToBytes v with Some bs => Ok bs | None => Panic end.
Definition MustUnmarshalFromBytes (c : StreamCodec A) (b : bytes) (v : A) : outcome Empty_set (A * bytes) :=
  match package_UnmarshalFromBytes b v with (v, bs, true) => Ok (v, bs) | _ => Panic end.

(** The interface the records use: a value that cannot be written gives nil,
    which is ignored where it happens, and what is left of the bytes is not looked
    at. *)
Definition wrapped (c : StreamCodec A) : Codec A := {|
  marshal v := default [] (MarshalToBytes c v);
  unmarshal b v := let '(v, _, ok) := UnmarshalFromBytes c b v in (v, ok);
|}.

(** What is asked of a codec: a value is read back from where it was written,
    with the rest of the stream left, and an empty stream has none. *)
Definition stream_law `{!WF A} (c : StreamCodec A) : Prop :=
  (forall a r rest, wf a -> exists bs, sc_Marshal c a = Some bs /\ sc_Unmarshal c (bs ++ rest) r = (a, rest, true)) /\
  forall r, (sc_Unmarshal c [] r).1.1 = r /\ (sc_Unmarshal c [] r).2 = false.

(** A codec with it satisfies the laws the records rely on. *)
Lemma wrapped_laws `{!WF A} (c : StreamCodec A) : stream_law c -> @CodecLaws A (wrapped c) _.
Proof.
  intros [Hc He]. split; cbn [wrapped marshal unmarshal]; unfold MarshalToBytes, UnmarshalFromBytes.
  - intros a r Ha. destruct (Hc a r [] Ha) as (bs & -> & H1). rewrite app_nil_r in H1. change (default [] (Some bs)) with bs. by rewrite H1.
  - intros r. destruct (He r) as [H1 H2]. destruct (sc_Unmarshal c [] r) as [[v rest] ok]. cbn in H1, H2. by subst.
Qed.

(** [JSON.MustMarshalToBytes] writes msgpack: what it writes is the same for every
    receiver. *)
Lemma Must_ignores_codec (c c' : StreamCodec A) v : MustMarshalToBytes c v = MustMarshalToBytes c' v.
Proof. done. Qed.
End Wrapper.

(** Several values in one slice are read one after the other, the way the
    slice that is returned is used. *)
Lemma UnmarshalFromBytes_next {A} `{!WF A} (c : StreamCodec A) a r b rest :
  stream_law c -> wf a -> MarshalToBytes c a = Some b -> UnmarshalFromBytes c (b ++ rest) r = (a, rest, true).
Proof.
  intros [Hc _] Ha Hb. unfold UnmarshalFromBytes, MarshalToBytes in *. destruct (Hc a r rest Ha) as (bs & E & H1).
  rewrite Hb in E. injection E as <-. by rewrite H1.
Qed.
