(* ===== verification/Typed.v ===== *)
(** * Typed objects: [common/codec/typed.go], [common/codec.go]

    A [TypedObj] is a tagged dynamic value; [EncodeAny] and [DecodeAny]
    translate between Go's [interface{}] values and typed objects, with a
    [TypeCodec] for the custom tags.  [any] lists the dynamic types the type
    switches of the code distinguish.  A Go map is the list of its entries in
    the order of an iteration. *)

From Stdlib Require Strings.String.
From S2P Require Import Prelude Bytes HexInt Address.

Definition TypeNil : Z := 0.
Definition TypeDict : Z := 1.
Definition TypeList : Z := 2.
Definition TypeBytes : Z := 3.
Definition TypeString : Z := 4.
Definition TypeCustom : Z := 10.
Definition TypeAddress : Z := 0 + TypeCustom.
Definition TypeInt : Z := 1 + TypeCustom.

(** [typedObjBase]: the tag and the dynamic value under it; elements are
    pointers. *)
#[warnings="-register-all"]
Inductive TypedObj :=
  | mkTypedObj (Type_ : Z) (Object : typed_object)
with typed_object :=
  | ObjNil
  | ObjString (s : bytes)
  | ObjBytes (bs : bytes)
  | ObjList (l : list (option TypedObj))
  | ObjDict (m : list (bytes * option TypedObj)).

(** Go's integer types below 64 bits and the 64-bit signed one. *)
Inductive int_kind := KInt | KInt16 | KInt32 | KInt64 | KUint | KUint16 | KUint32.

#[warnings="-register-all"]
Inductive any :=
  | AnyNil
  | AnyString (s : bytes)
  | AnyBytes (bs : bytes)
  | AnyList (l : list any)
  | AnyDict (m : list (bytes * any))
  | AnyDictInt64 (m : list (bytes * Z))
  | AnyTyped (t : option TypedObj)
  | AnyAddress (a : Address)
  | AnyBigInt (i : Z)
  | AnyHexInt (i : Z)
  | AnyInt (k : int_kind) (i : Z)
  | AnyUint64 (i : Z)
  | AnyOther.

Inductive any_error := InvalidTypeTag (tag : Z) | UnknownType.

(** ** The [TypeCodec] interface and its implementation *)

Class TypeCodec := {
  tc_Decode : Z -> bytes -> outcome any_error any;
  tc_Encode : any -> outcome any_error (Z * bytes);
}.

(** [typeCodec.Decode]. *)
Definition typeCodec_Decode (tag : Z) (data : bytes) : outcome any_error any :=
  if tag =? TypeAddress then
    match NewAddress (Some data) with Ok a => Ok (AnyAddress a) | _ => Panic end
  else if tag =? TypeInt then Ok (AnyHexInt (HexInt_SetBytes data))
  else Err (InvalidTypeTag tag).

(** [typeCodec.Encode]: every integer but [uint64] goes through [int64]. *)
Definition typeCodec_Encode (o : any) : outcome any_error (Z * bytes) :=
  match o with
  | AnyAddress a => Ok (TypeAddress, Address_Bytes a)
  | AnyBigInt i => Ok (TypeInt, BigIntToBytes i)
  | AnyHexInt i => Ok (TypeInt, HexInt_Bytes i)
  | AnyInt _ i => Ok (TypeInt, Int64ToBytes (i64 i))
  | AnyUint64 i => Ok (TypeInt, BigIntToBytes i)
  | _ => Err UnknownType
  end.

#[global] Instance typeCodec : TypeCodec := {|
  tc_Decode := typeCodec_Decode;
  tc_Encode := typeCodec_Encode;
|}.

(** Runs [f] over a slice, stopping at the first error. *)
Definition traverse {E A B} (f : A -> outcome E B) : list A -> outcome E (list B) :=
  fix go l :=
    match l with
    | [] => Ok []
    | a :: l => let! b := f a in let! l := go l in Ok (b :: l)
    end.

Definition traverse_dict {E K A B} (f : A -> outcome E B) : list (K * A) -> outcome E (list (K * B)) :=
  fix go m :=
    match m with
    | [] => Ok []
    | (k, a) :: m => let! b := f a in let! m := go m in Ok ((k, b) :: m)
    end.

Definition newTypedObj (t : Z) (o : typed_object) : option TypedObj := Some (mkTypedObj t o).

Section Any.
Context `{TypeCodec}.

Definition encode_custom (o : any) : outcome any_error (option TypedObj) :=
  let! (tag, bs) := tc_Encode o in Ok (newTypedObj tag (ObjBytes bs)).

Fixpoint EncodeAny (o : any) : outcome any_error (option TypedObj) :=
  match o with
  | AnyNil => Ok (newTypedObj TypeNil ObjNil)
  | AnyString s => Ok (newTypedObj TypeString (ObjString s))
  | AnyBytes bs => Ok (newTypedObj TypeBytes (ObjBytes bs))
  | AnyList l =>
      let! l := traverse EncodeAny l in Ok (newTypedObj TypeList (ObjList l))
  | AnyDict m =>
      let! m := traverse_dict EncodeAny m in Ok (newTypedObj TypeDict (ObjDict m))
  | AnyDictInt64 m =>
      let! m := traverse_dict (fun i => encode_custom (AnyInt KInt64 i)) m in
      Ok (newTypedObj TypeDict (ObjDict m))
  | AnyTyped t => Ok t
  | o => encode_custom o
  end.

(** A type assertion on a value of another type panics. *)
Fixpoint DecodeAny_obj (to : TypedObj) : outcome any_error any :=
  let 'mkTypedObj t o := to in
  let dec (p : option TypedObj) := match p with Some to => DecodeAny_obj to | None => Ok AnyNil end in
  if t =? TypeNil then Ok AnyNil
  else if (t =? TypeString) || (t =? TypeBytes) then
    match o with
    | ObjString s => Ok (AnyString s)
    | ObjBytes bs => Ok (AnyBytes bs)
    | ObjNil => Ok AnyNil
    | ObjList _ | ObjDict _ => Ok AnyOther
    end
  else if t =? TypeDict then
    match o with
    | ObjDict m => let! m := traverse_dict dec m in Ok (AnyDict m)
    | _ => Panic
    end
  else if t =? TypeList then
    match o with
    | ObjList l => let! l := traverse dec l in Ok (AnyList l)
    | _ => Panic
    end
  else
    match o with
    | ObjBytes bs => tc_Decode t bs
    | _ => Panic
    end.

(** A nil pointer decodes to nil. *)
Definition DecodeAny (to : option TypedObj) : outcome any_error any :=
  match to with Some to => DecodeAny_obj to | None => Ok AnyNil end.

End Any.

(** ** Round trip *)

Section Traverse.
Context {E : Type}.

Lemma traverse_ok {A B} (f : A -> outcome E B) (g : A -> B) l :
  Forall (fun a => f a = Ok (g a)) l -> traverse f l = Ok (map g l).
Proof. induction 1 as [|a l Ha _ IH]; simpl; [done|]. by rewrite Ha; simpl; rewrite IH. Qed.

Lemma traverse_dict_ok {K A B} (f : A -> outcome E B) (g : A -> B) (m : list (K * A)) :
  Forall (fun e => f e.2 = Ok (g e.2)) m ->
  traverse_dict f m = Ok (map (fun e => (e.1, g e.2)) m).
Proof.
  induction 1 as [|[k a] m Ha _ IH]; simpl in *; [done|]. by rewrite Ha; simpl; rewrite IH.
Qed.

(** Encoding then decoding element by element. *)
Lemma traverse_compose {A B C} (f : A -> outcome E B) (h : B -> outcome E C) (g : A -> C) l :
  Forall (fun a => exists b, f a = Ok b /\ h b = Ok (g a)) l ->
  exists bs, traverse f l = Ok bs /\ traverse h bs = Ok (map g l).
Proof.
  induction 1 as [|a l (b & Ha & Hb) _ (bs & IH1 & IH2)]; simpl; [by exists []|].
  exists (b :: bs). rewrite Ha; simpl; rewrite IH1; simpl.
  by rewrite Hb; simpl; rewrite IH2.
Qed.

Lemma traverse_dict_compose {K A B C} (f : A -> outcome E B) (h : B -> outcome E C)
    (g : A -> C) (m : list (K * A)) :
  Forall (fun e => exists b, f e.2 = Ok b /\ h b = Ok (g e.2)) m ->
  exists bs, traverse_dict f m = Ok bs /\
    traverse_dict h bs = Ok (map (fun e => (e.1, g e.2)) m).
Proof.
  induction 1 as [|[k a] m (b & Ha & Hb) _ (bs & IH1 & IH2)]; simpl in *; [by exists []|].
  exists ((k, b) :: bs). rewrite Ha; simpl; rewrite IH1; simpl.
  by rewrite Hb; simpl; rewrite IH2.
Qed.
End Traverse.

(** What a value is decoded to: every integer comes back as a [*HexInt], and
    the ones that pass through [int64] are reduced to its range. *)
Fixpoint canon (o : any) : any :=
  match o with
  | AnyList l => AnyList (map canon l)
  | AnyDict m => AnyDict (map (fun e => (e.1, canon e.2)) m)
  | AnyDictInt64 m => AnyDict (map (fun e => (e.1, AnyHexInt (i64 e.2))) m)
  | AnyBigInt i | AnyUint64 i => AnyHexInt i
  | AnyInt _ i => AnyHexInt (i64 i)
  | o => o
  end.

(** The values [EncodeAny] has an encoding of its own for. *)
#[warnings="-register-all"]
Inductive encodable : any -> Prop :=
  | enc_nil : encodable AnyNil
  | enc_string s : encodable (AnyString s)
  | enc_bytes bs : encodable (AnyBytes bs)
  | enc_list l : Forall encodable l -> encodable (AnyList l)
  | enc_dict m : Forall (fun e => encodable e.2) m -> encodable (AnyDict m)
  | enc_dict_int64 m : encodable (AnyDictInt64 m)
  | enc_address a : wf_Address a -> encodable (AnyAddress a)
  | enc_big i : encodable (AnyBigInt i)
  | enc_hexint i : encodable (AnyHexInt i)
  | enc_int k i : encodable (AnyInt k i)
  | enc_uint64 i : encodable (AnyUint64 i).

Lemma i64_range z : is_i64 (i64 z).
Proof. unfold is_i64, i64. pose proof (Z.mod_pos_bound (z + 2 ^ 63) (2 ^ 64)). lia. Qed.

Lemma BigIntSetBytes_Int64 v : is_i64 v -> BigIntSetBytes (Int64ToBytes v) = v.
Proof. intros Hv. destruct (Int64ToBytes_spec v Hv) as (H1 & H2 & _). by rewrite BigIntSetBytes_tc. Qed.

(** One integer, through the custom tag [TypeInt]. *)
Lemma DecodeAny_int bs : DecodeAny (newTypedObj TypeInt (ObjBytes bs)) = Ok (AnyHexInt (BigIntSetBytes bs)).
Proof. done. Qed.

(** [DecodeAny] inverts [EncodeAny]: every value that has an encoding comes
    back, with its integers as [*HexInt]s; integers of a 64-bit or narrower
    kind keep their value exactly when they fit an [int64]. *)
Lemma EncodeAny_roundtrip o : encodable o ->
  exists to, EncodeAny o = Ok to /\ DecodeAny to = Ok (canon o).
Proof.
  revert o. fix IH 2. intros o0 [ | s | bs | l Hl | m Hm | m | a Ha | i | i | k i | i].
  - by eexists.
  - by eexists.
  - by eexists.
  - destruct (traverse_compose EncodeAny DecodeAny canon l) as (bs & H1 & H2).
    { induction Hl as [|o l Ho Hl IHl]; constructor; [by apply IH|done]. }
    eexists. simpl. rewrite H1. split; [done|]. simpl.
    change ((let! l0 := traverse DecodeAny bs in Ok (AnyList l0)) = Ok (AnyList (map canon l))).
    by rewrite H2.
  - destruct (traverse_dict_compose EncodeAny DecodeAny canon m) as (bs & H1 & H2).
    { induction Hm as [|o m Ho Hm IHm]; constructor; [by apply IH|done]. }
    eexists. simpl. rewrite H1. split; [done|].
    change ((let! m0 := traverse_dict DecodeAny bs in Ok (AnyDict m0))
            = Ok (AnyDict (map (fun e => (e.1, canon e.2)) m))).
    by rewrite H2.
  - destruct (traverse_dict_compose (fun i => encode_custom (AnyInt KInt64 i)) DecodeAny
                (fun i => AnyHexInt (i64 i)) m) as (bs & H1 & H2).
    { apply Forall_forall. intros [k i] _. eexists. split; [done|]. rewrite DecodeAny_int.
      by rewrite BigIntSetBytes_Int64 by apply i64_range. }
    eexists. simpl. rewrite H1. split; [done|].
    change ((let! m0 := traverse_dict DecodeAny bs in Ok (AnyDict m0))
            = Ok (AnyDict (map (fun e => (e.1, AnyHexInt (i64 e.2))) m))).
    by rewrite H2.
  - eexists. split; [done|].
    change (match NewAddress (Some (Address_Bytes a)) with Ok a => Ok (AnyAddress a) | _ => Panic end
            = Ok (E := any_error) (AnyAddress a)).
    by rewrite NewAddress_Bytes.
  - eexists. split; [done|]. rewrite DecodeAny_int, BigInt_roundtrip. done.
  - eexists. split; [done|]. rewrite DecodeAny_int, BigInt_roundtrip. done.
  - eexists. split; [done|]. rewrite DecodeAny_int, BigIntSetBytes_Int64 by apply i64_range. done.
  - eexists. split; [done|]. rewrite DecodeAny_int, BigInt_roundtrip. done.
Qed.

(** A Go [uint] of 2^63 and more is encoded as a negative number. *)
Lemma EncodeAny_uint_wraps :
  EncodeAny (AnyInt KUint (2 ^ 63)) = EncodeAny (AnyHexInt (- 2 ^ 63)).
Proof. reflexivity. Qed.
