(* ===== verification/TypedCodec.v ===== *)
(** * Typed objects as bytes ([common/codec/typed.go], [common/codec.go])

    How the record codec reads a [TypedObj], and the functions that go from a
    value to bytes and back.  What the library makes of the raw bytes under a tag is
    a parameter; it ignores errors, so that every tag gets an object of its type. *)

From Stdlib Require Strings.String.
From S2P Require Import Prelude Bytes HexInt Address Codec Typed.

(** [MP.UnmarshalFromBytes] into a nil map, slice, string or byte slice. *)
Class RawCodec := {
  raw_dict : bytes -> list (bytes * option TypedObj);
  raw_list : bytes -> list (option TypedObj);
  raw_string : bytes -> bytes;
  raw_bytes : bytes -> bytes;
}.

(** [CodecDecodeSelf] on what was read of the tag and the raw object. *)
Definition CodecDecodeSelf `{!RawCodec} (type : Z) (object : bytes) : TypedObj :=
  if type =? TypeNil then mkTypedObj type ObjNil
  else if type =? TypeDict then mkTypedObj type (ObjDict (raw_dict object))
  else if type =? TypeList then mkTypedObj type (ObjList (raw_list object))
  else if type =? TypeString then mkTypedObj type (ObjString (raw_string object))
  else mkTypedObj type (ObjBytes (raw_bytes object)).

Section MarshalAny.
Context `{!TypeCodec, !Codec (option TypedObj)}.

Definition MarshalAny (o : any) : outcome any_error bytes := let! ao := EncodeAny o in Ok (marshal ao).

(** [None] is the error of the codec. *)
Definition UnmarshalAny (bs : bytes) : outcome (option any_error) any :=
  match unmarshal bs (newTypedObj TypeNil ObjNil) with
  | (to, true) => match DecodeAny to with Ok a => Ok a | Err e => Err (Some e) | Panic => Panic end
  | (_, false) => Err None
  end.
End MarshalAny.

(** [common.MustEncodeAny] and [common.MustDecodeAny]. *)
Definition MustEncodeAny (o : any) : outcome Empty_set (option TypedObj) := match EncodeAny o with Ok t => Ok t | _ => Panic end.
Definition MustDecodeAny (t : option TypedObj) : outcome Empty_set any := match DecodeAny t with Ok a => Ok a | _ => Panic end.

(** ** What is read can be decoded

    An object whose tags are of the types of what is under them, with no address
    without bytes. *)

#[warnings="-register-all"]
Inductive tagged : TypedObj -> Prop :=
  | tagged_nil : tagged (mkTypedObj TypeNil ObjNil)
  | tagged_string s : tagged (mkTypedObj TypeString (ObjString s))
  | tagged_dict m : Forall (fun e => tagged_opt e.2) m -> tagged (mkTypedObj TypeDict (ObjDict m))
  | tagged_list l : Forall tagged_opt l -> tagged (mkTypedObj TypeList (ObjList l))
  | tagged_bytes t bs : t ∉ [TypeNil; TypeDict; TypeList; TypeString] -> (t = TypeAddress -> bs <> []) -> tagged (mkTypedObj t (ObjBytes bs))
with tagged_opt : option TypedObj -> Prop :=
  | tagged_None : tagged_opt None
  | tagged_Some t : tagged t -> tagged_opt (Some t).

(** The library calls [CodecDecodeSelf] for the elements too: what it reads is
    tagged when they are. *)
Lemma CodecDecodeSelf_tagged `{!RawCodec} type object :
  Forall (fun e => tagged_opt e.2) (raw_dict object) -> Forall tagged_opt (raw_list object) ->
  (type = TypeAddress -> raw_bytes object <> []) -> tagged (CodecDecodeSelf type object).
Proof.
  intros Hd Hl Hb. unfold CodecDecodeSelf. destruct (type =? TypeNil) eqn:E0; [apply Z.eqb_eq in E0 as ->; constructor|].
  destruct (type =? TypeDict) eqn:E1; [apply Z.eqb_eq in E1 as ->; by constructor|].
  destruct (type =? TypeList) eqn:E2; [apply Z.eqb_eq in E2 as ->; by constructor|].
  destruct (type =? TypeString) eqn:E3; [apply Z.eqb_eq in E3 as ->; constructor|].
  apply Z.eqb_neq in E0, E1, E2, E3. constructor; [|done]. rewrite !not_elem_of_cons. split_and!; try done. apply not_elem_of_nil.
Qed.

Lemma traverse_no_panic {E A B} (f : A -> outcome E B) l : Forall (fun a => f a <> Panic) l -> traverse f l <> Panic.
Proof.
  induction 1 as [|a l Ha _ IH]; [done|]. cbn. destruct (f a); [|done..]. cbn. by destruct (traverse f l).
Qed.
Lemma traverse_dict_no_panic {E K A B} (f : A -> outcome E B) (m : list (K * A)) :
  Forall (fun e => f e.2 <> Panic) m -> traverse_dict f m <> Panic.
Proof.
  induction 1 as [|[k a] m Ha _ IH]; [done|]. cbn in *. destruct (f a); [|done..]. cbn. by destruct (traverse_dict f m).
Qed.

Lemma typeCodec_no_panic t bs : (t = TypeAddress -> bs <> []) -> typeCodec_Decode t bs <> Panic.
Proof.
  intros Ha. unfold typeCodec_Decode. destruct (t =? TypeAddress) eqn:E; [|by destruct (t =? TypeInt)].
  apply Z.eqb_eq, Ha in E. unfold NewAddress, or_unchanged, Address_SetBytes, SetTypeAndID. destruct bs as [|b bs]; [done|].
  destruct (b =? 0); [done|]. by destruct (b =? 1).
Qed.

(** Decoding a tagged object does not panic. *)
Lemma DecodeAny_tagged to : tagged to -> DecodeAny_obj to <> Panic.
Proof.
  revert to. fix IH 2.
  assert (IHo : forall p, tagged_opt p -> match p with Some t => DecodeAny_obj t | None => Ok AnyNil end <> Panic).
  { intros p [|t Ht]; [done|by apply IH]. }
  intros to [|s|m Hm|l Hl|t bs Ht Ha]; [done|done|..].
  - change (DecodeAny_obj (mkTypedObj TypeDict (ObjDict m))) with (let! m0 := traverse_dict DecodeAny m in Ok (E := any_error) (AnyDict m0)).
    assert (traverse_dict DecodeAny m <> Panic); [|by destruct (traverse_dict DecodeAny m)].
    apply traverse_dict_no_panic. induction Hm as [|e m He Hm IHm]; constructor; [by apply IHo|done].
  - change (DecodeAny_obj (mkTypedObj TypeList (ObjList l))) with (let! l0 := traverse DecodeAny l in Ok (E := any_error) (AnyList l0)).
    assert (traverse DecodeAny l <> Panic); [|by destruct (traverse DecodeAny l)].
    apply traverse_no_panic. induction Hl as [|e l He Hl IHl]; constructor; [by apply IHo|done].
  - rewrite !not_elem_of_cons in Ht. destruct Ht as (H0 & H1 & H2 & H3 & _). cbn [DecodeAny_obj].
    rewrite (proj2 (Z.eqb_neq t TypeNil) H0), (proj2 (Z.eqb_neq t TypeDict) H1), (proj2 (Z.eqb_neq t TypeList) H2), (proj2 (Z.eqb_neq t TypeString) H3).
    cbn [orb].
    destruct (t =? TypeBytes); [done|]. by apply typeCodec_no_panic.
Qed.

(** What is encoded is tagged. *)
Lemma tagged_traverse {A} (f : A -> outcome any_error (option TypedObj)) l bs :
  Forall (fun a => forall t, f a = Ok t -> tagged_opt t) l -> traverse f l = Ok bs -> Forall tagged_opt bs.
Proof.
  intros Hl. revert bs. induction Hl as [|a l Ha _ IH]; intros bs; cbn; [by intros [= <-]|].
  intros (b & Hb & (bs' & Hbs & [= <-])%obind_ok)%obind_ok. constructor; [by apply Ha|by apply IH].
Qed.
Lemma tagged_traverse_dict {K A} (f : A -> outcome any_error (option TypedObj)) (m : list (K * A)) bs :
  Forall (fun e => forall t, f e.2 = Ok t -> tagged_opt t) m -> traverse_dict f m = Ok bs -> Forall (fun e => tagged_opt e.2) bs.
Proof.
  intros Hl. revert bs. induction Hl as [|[k a] m Ha _ IH]; intros bs; cbn; [by intros [= <-]|].
  intros (b & Hb & (bs' & Hbs & [= <-])%obind_ok)%obind_ok. constructor; [by apply Ha|by apply IH].
Qed.

Lemma tagged_int bs : tagged_opt (newTypedObj TypeInt (ObjBytes bs)).
Proof. constructor. constructor; [|done]. apply (bool_decide_unpack _). by vm_compute. Qed.

Lemma EncodeAny_tagged o to : encodable o -> EncodeAny o = Ok to -> tagged_opt to.
Proof.
  revert o to. fix IH 3. intros o to Ho. destruct Ho as [ | s | bs | l Hl | m Hm | m | a Ha | i | i | k i | i]; cbn [EncodeAny].
  - intros [= <-]. repeat constructor.
  - intros [= <-]. repeat constructor.
  - intros [= <-]. constructor. constructor; [|done]. apply (bool_decide_unpack _). by vm_compute.
  - intros (l' & H1 & [= <-])%obind_ok. constructor. constructor. eapply tagged_traverse; [|exact H1].
    induction Hl as [|o l Ho Hl IHl]; constructor; [intros t; by apply IH|]. clear H1 IHl. induction Hl; constructor; [intros t; by apply IH|done].
  - intros (m' & H1 & [= <-])%obind_ok. constructor. constructor. eapply tagged_traverse_dict; [|exact H1].
    clear H1. induction Hm as [|o m Ho Hm IHm]; constructor; [intros t; by apply IH|done].
  - intros (m' & H1 & [= <-])%obind_ok. constructor. constructor. eapply tagged_traverse_dict; [|exact H1].
    apply Forall_forall. intros e _ t [= <-]. apply tagged_int.
  - intros [= <-]. constructor. constructor; [apply (bool_decide_unpack _); by vm_compute|]. intros _.
    apply length_wf_Address in Ha. by destruct a.
  - intros [= <-]. apply tagged_int.
  - intros [= <-]. apply tagged_int.
  - intros [= <-]. apply tagged_int.
  - intros [= <-]. apply tagged_int.
Qed.

(** ** Reading back *)

