(* ===== verification/Account.v ===== *)
(** * I-Score accounts: [core/db_account.go]

    An account of the account DBs: the I-Score calculated up to a block height
    and the delegations in force since.  Slice elements are pointers, which
    may be nil: options. *)

From S2P Require Import Prelude Bytes HexInt Address Codec Typed.

Record DelegateData := mkDelegateData {
  dg_Address : Address;
  dg_Delegate : Z;
}.

Record IScoreData := mkIScoreData {
  IScore : Z;
  BlockHeight : Z;
  Delegations : list (option DelegateData);
}.

(** [IScoreAccount] embeds [IScoreData]. *)
Record IScoreAccount := mkIScoreAccount {
  ia_Address : Address;
  ia_Data : IScoreData;
}.

Definition ia_IScore (ia : IScoreAccount) : Z := IScore (ia_Data ia).
Definition ia_BlockHeight (ia : IScoreAccount) : Z := BlockHeight (ia_Data ia).
Definition ia_Delegations (ia : IScoreAccount) := Delegations (ia_Data ia).

Definition ia_set_IScore (v : Z) (ia : IScoreAccount) : IScoreAccount :=
  mkIScoreAccount (ia_Address ia) (mkIScoreData v (ia_BlockHeight ia) (ia_Delegations ia)).
Definition ia_set_BlockHeight (v : Z) (ia : IScoreAccount) : IScoreAccount :=
  mkIScoreAccount (ia_Address ia) (mkIScoreData (ia_IScore ia) v (ia_Delegations ia)).
Definition ia_set_Address (a : Address) (ia : IScoreAccount) : IScoreAccount :=
  mkIScoreAccount a (ia_Data ia).

(** [new(...)]. *)
Definition zero_DelegateData : DelegateData := mkDelegateData zero_Address 0.
Definition zero_IScoreData : IScoreData := mkIScoreData 0 0 [].
Definition zero_IScoreAccount : IScoreAccount := mkIScoreAccount zero_Address zero_IScoreData.

Definition ia_ID (ia : IScoreAccount) : bytes := Address_Bytes (ia_Address ia).

Section Account.
Context `{!Codec IScoreData}.

Definition ia_Bytes (ia : IScoreAccount) : bytes := marshal (ia_Data ia).

Definition ia_SetBytes (bs : bytes) (ia : IScoreAccount) : IScoreAccount * bool :=
  let '(d, ok) := unmarshal bs (ia_Data ia) in (mkIScoreAccount (ia_Address ia) d, ok).

(** A nil account stands for the error. *)
Definition NewIScoreAccountFromBytes (bs : bytes) : option IScoreAccount :=
  let '(ia, ok) := ia_SetBytes bs zero_IScoreAccount in if ok : bool then Some ia else None.
End Account.

(** Three [copy] calls into a buffer of the exact size. *)
Definition ia_BytesForHash (ia : IScoreAccount) : bytes :=
  let addr := ia_ID ia in
  let iScore := HexInt_Bytes (ia_IScore ia) in
  let blockHeight := Uint64ToBytes (ia_BlockHeight ia) in
  let buf := make_bytes (length addr + length iScore + length blockHeight) in
  let buf := copy_at 0 addr buf in
  let buf := copy_at (length addr) iScore buf in
  copy_at (length addr + length iScore) blockHeight buf.

Definition ia_Compare (ia b : IScoreAccount) : comparison := bytes_compare (ia_ID ia) (ia_ID b).

(** ** Accounts from a delegation transaction

    [IISSTX] is declared with the transactions ([IISSData.v]); only these
    fields of it matter here. *)

(** The type switch of the inner loop. *)
Definition set_delegate (dg : DelegateData) (v2 : any) : DelegateData :=
  match v2 with
  | AnyAddress a => mkDelegateData a (dg_Delegate dg)
  | AnyHexInt i => mkDelegateData (dg_Address dg) i
  | _ => dg
  end.

(** One element of the list: [None] when it is not a list (the function then
    returns nil), [Some None] when the element stays nil. *)
Definition decode_delegation (v : any) : option (option DelegateData) :=
  match v with
  | AnyList dList2 =>
      Some (if (length dList2 =? 2)%nat then Some (fold_left set_delegate dList2 zero_DelegateData)
            else None)
  | _ => None
  end.

(** Decoding errors are ignored; a list of length other than two leaves a nil
    delegation.  [None] is the nil account. *)
Definition NewIScoreAccountFromDelegation {E} (addr : Address) (blockHeight : Z)
    (Data : option TypedObj) : outcome E (option IScoreAccount) :=
  match DecodeAny Data with
  | Panic => Panic
  | Ok (AnyList dList1) =>
      Ok (match mapM decode_delegation dList1 with
          | Some dgs => Some (mkIScoreAccount addr (mkIScoreData 0 blockHeight dgs))
          | None => None
          end)
  | _ => Ok (Some (mkIScoreAccount addr (mkIScoreData 0 blockHeight [])))
  end.

(** ** Well-formed accounts *)

Definition wf_DelegateData (d : DelegateData) : Prop := wf_Address (dg_Address d).

#[global] Instance wf_IScoreData : WF IScoreData := fun d =>
  is_u64 (BlockHeight d) /\ Forall (Msgpack.opt_ok wf_DelegateData) (Delegations d).

Definition wf_IScoreAccount (ia : IScoreAccount) : Prop :=
  wf_Address (ia_Address ia) /\ wf (ia_Data ia).

Lemma copy_at_three (a b c : bytes) :
  copy_at (length a + length b) c (copy_at (length a) b (copy_at 0 a
    (make_bytes (length a + length b + length c)))) = a ++ b ++ c.
Proof.
  unfold make_bytes. rewrite !replicate_add, <-app_assoc.
  rewrite copy_at_0 by (by rewrite length_replicate).
  rewrite copy_at_app by (by rewrite ?length_replicate).
  rewrite app_assoc, <-length_app, copy_at_end by (by rewrite length_replicate).
  by rewrite app_assoc.
Qed.

Lemma ia_BytesForHash_app ia :
  ia_BytesForHash ia = ia_ID ia ++ HexInt_Bytes (ia_IScore ia) ++ Uint64ToBytes (ia_BlockHeight ia).
Proof. apply copy_at_three. Qed.

Section AccountLaws.
Context `{!Codec IScoreData, !CodecLaws IScoreData}.

Lemma NewIScoreAccountFromBytes_marshal d : wf d ->
  NewIScoreAccountFromBytes (marshal d) = Some (mkIScoreAccount zero_Address d).
Proof.
  intros Hd. unfold NewIScoreAccountFromBytes, ia_SetBytes. by rewrite unmarshal_marshal.
Qed.

(** An account written to an account DB is read back. *)
Lemma IScoreAccount_roundtrip ia : wf_IScoreAccount ia ->
  option_map (ia_set_Address (ia_Address ia)) (NewIScoreAccountFromBytes (ia_Bytes ia)) = Some ia.
Proof.
  intros [_ Hd]. unfold ia_Bytes. rewrite NewIScoreAccountFromBytes_marshal by done.
  by destruct ia.
Qed.
End AccountLaws.

(** ** The msgpack instance *)

Definition mp_DelegateData : Msgpack.mpcodec DelegateData :=
  Msgpack.mp_struct 2 (Msgpack.mp_iso (fun d => (dg_Address d, dg_Delegate d))
    (fun p => mkDelegateData p.1 p.2) (Msgpack.mp_pair Msgpack.mp_address Msgpack.mp_hexint)).

Lemma mp_DelegateData_ok : Msgpack.mp_ok mp_DelegateData wf_DelegateData.
Proof.
  apply Msgpack.mp_struct_ok. eapply Msgpack.mp_iso_ok.
  - apply Msgpack.mp_pair_ok; [apply Msgpack.mp_address_ok|apply Msgpack.mp_hexint_ok].
  - by intros [a d] Ha.
Qed.

Definition mp_IScoreData : Msgpack.mpcodec IScoreData :=
  Msgpack.mp_struct 3 (Msgpack.mp_iso (fun d => (IScore d, (BlockHeight d, Delegations d)))
    (fun p => mkIScoreData p.1 p.2.1 p.2.2)
    (Msgpack.mp_pair Msgpack.mp_hexint
      (Msgpack.mp_pair Msgpack.mp_uint (Msgpack.mp_list (Msgpack.mp_ptr mp_DelegateData))))).

Lemma mp_IScoreData_ok : Msgpack.mp_ok mp_IScoreData wf.
Proof.
  apply Msgpack.mp_struct_ok. eapply Msgpack.mp_iso_ok.
  - repeat apply Msgpack.mp_pair_ok; [apply Msgpack.mp_hexint_ok|apply Msgpack.mp_uint_ok|].
    apply Msgpack.mp_list_ok, Msgpack.mp_ptr_ok; [apply mp_DelegateData_ok|].
    intros a. apply Msgpack.mp_struct_head.
  - by intros [i b d] [Hb Hd].
Qed.

Definition msgpack_IScoreData : Codec IScoreData := Msgpack.mp_codec mp_IScoreData.
Definition msgpack_IScoreData_laws : @CodecLaws IScoreData msgpack_IScoreData _ :=
  Msgpack.mp_codec_laws _ mp_IScoreData_ok eq_refl.
