(* ===== verification/ClaimDB.v ===== *)
(** * The claim databases: [core/db_claim.go]

    Three stores: the pre-commit DB holds the claims of blocks that are not
    committed (keys block height, block hash, address), the claim DB the total
    claimed by each address, and the claim backup DB the values the claim DB
    had before each block (keys block height - 1, address), from which a
    rollback restores it. *)

From S2P Require Import Prelude Bytes HexInt Address Store Codec.

Definition BlockHeightSize : nat := 8.
Definition BlockHashSize : nat := 32.
Definition TXHashSize : nat := 32.
Definition PreCommitIDSize : nat := BlockHeightSize + BlockHashSize + AddressBytes.
Definition ClaimBackupIDSize : nat := BlockHeightSize + AddressBytes.
Definition ClaimBackupPeriod : Z := 43120 * 2 - 1.

Record ClaimData := mkClaimData { cd_BlockHeight : Z; cd_IScore : Z }.
Record Claim := mkClaim { c_Address : Address; c_Data : ClaimData }.
Record ClaimBackupInfo := mkClaimBackupInfo { FirstBlockHeight : Z; LastBlockHeight : Z }.

Record PreCommitData := mkPreCommitData {
  Confirmed : bool;
  TXIndex : Z;
  TXHash : bytes;
  pc_Claim : Claim;
}.

Record PreCommit := mkPreCommit {
  pc_BlockHeight : Z;
  pc_BlockHash : bytes;
  pc_Data : PreCommitData;
}.

Definition zero_ClaimData : ClaimData := mkClaimData 0 0.
Definition zero_Claim : Claim := mkClaim zero_Address zero_ClaimData.
Definition zero_ClaimBackupInfo : ClaimBackupInfo := mkClaimBackupInfo 0 0.
Definition zero_PreCommit : PreCommit :=
  mkPreCommit 0 [] (mkPreCommitData false 0 [] zero_Claim).

Definition pc_Address (pc : PreCommit) : Address := c_Address (pc_Claim (pc_Data pc)).
Definition pc_Claim_Data (pc : PreCommit) : ClaimData := c_Data (pc_Claim (pc_Data pc)).
Definition pc_TXIndex (pc : PreCommit) : Z := TXIndex (pc_Data pc).
Definition pc_Confirmed (pc : PreCommit) : bool := Confirmed (pc_Data pc).
Definition pc_set_Data (d : PreCommitData) (pc : PreCommit) : PreCommit :=
  mkPreCommit (pc_BlockHeight pc) (pc_BlockHash pc) d.
Definition pc_set_Confirmed (b : bool) (pc : PreCommit) : PreCommit :=
  let d := pc_Data pc in pc_set_Data (mkPreCommitData b (TXIndex d) (TXHash d) (pc_Claim d)) pc.
Definition pc_set_Claim_Data (cd : ClaimData) (pc : PreCommit) : PreCommit :=
  let d := pc_Data pc in
  pc_set_Data (mkPreCommitData (Confirmed d) (TXIndex d) (TXHash d)
                 (mkClaim (c_Address (pc_Claim d)) cd)) pc.

Definition cd_equal (cd cmpData : ClaimData) : bool :=
  (cd_IScore cd =? cd_IScore cmpData) && (cd_BlockHeight cd =? cd_BlockHeight cmpData).

Definition c_ID (c : Claim) : bytes := Address_Bytes (c_Address c).
Definition cb_ID : bytes := [].

(** The block height right-aligned in its eight bytes. *)
Definition copy_height (off : nat) (blockHeight : Z) (id : bytes) : bytes :=
  let bh := Uint64ToBytes blockHeight in copy_at (off + BlockHeightSize - length bh) bh id.

Definition c_BackupID (c : Claim) (blockHeight : Z) : bytes :=
  copy_at BlockHeightSize (c_ID c) (copy_height 0 blockHeight (make_bytes ClaimBackupIDSize)).

Definition ClaimBackupKey (blockHeight : Z) (address : Address) : bytes :=
  copy_at BlockHeightSize (Address_Bytes address)
    (copy_height 0 blockHeight (make_bytes ClaimBackupIDSize)).

Definition GenPreCommitKey (address : Address) (blockHeight : Z) (blockHash : bytes) : bytes :=
  copy_at (BlockHeightSize + BlockHashSize) (Address_Bytes address)
    (copy_at BlockHeightSize blockHash (copy_height 0 blockHeight (make_bytes PreCommitIDSize))).

Definition pc_ID (pc : PreCommit) : bytes :=
  GenPreCommitKey (pc_Address pc) (pc_BlockHeight pc) (pc_BlockHash pc).

(** The setter of the address ignores its errors; an empty ID panics. *)
Definition pc_SetID {E} (id : bytes) (pc : PreCommit) : outcome E PreCommit :=
  if decide (length id < BlockHeightSize + BlockHashSize)%nat then Panic
  else
    let h := BytesToUint64 (take BlockHeightSize id) in
    let hash := copy_at 0 (take BlockHashSize (drop BlockHeightSize id)) (make_bytes BlockHashSize) in
    let d := pc_Data pc in
    match or_unchanged (pc_Address pc)
            (Address_SetBytes (pc_Address pc) (Some (drop (BlockHeightSize + BlockHashSize) id))) with
    | Ok a => Ok (mkPreCommit h hash (mkPreCommitData (Confirmed d) (TXIndex d) (TXHash d)
                                        (mkClaim a (c_Data (pc_Claim d)))))
    | _ => Panic
    end.

Definition pc_IsEmpty (pc : PreCommit) : bool := pc_BlockHeight pc =? 0.

(** Slices copied into fresh buffers of fixed sizes. *)
Definition newPreCommit (blockHeight : Z) (blockHash : bytes) (txIndex : Z) (txHash : bytes)
    (address : Address) : PreCommit :=
  mkPreCommit blockHeight (copy_at 0 blockHash (make_bytes BlockHashSize))
    (mkPreCommitData false txIndex (copy_at 0 txHash (make_bytes TXHashSize))
       (mkClaim address zero_ClaimData)).

(** [MakeIteratorPrefix]: the range of the keys that start with a block
    height and, unless [data] is nil, [dataSize] bytes of data. *)
Definition MakeIteratorPrefix (prefix : BucketID) (blockHeight : Z) (data : option bytes)
    (dataSize : nat) : bytes * option bytes :=
  let bsSize := (length prefix + BlockHeightSize)%nat in
  let bsSize := match data with Some _ => (bsSize + dataSize)%nat | None => bsSize end in
  let bs := copy_at 0 prefix (make_bytes bsSize) in
  let bs := copy_height (length prefix) blockHeight bs in
  let bs := match data with Some d => copy_at (bsSize - dataSize) d bs | None => bs end in
  BytesPrefix bs.

Inductive claim_error :=
  | ErrNoDataToCommit
  | ErrNoDataToRevert
  | ErrUnmarshal
  | RollbackLowBlockHeightError (Comparison BlockHeight : Z).

(** A key read from an iterator, copied into a buffer of [n] bytes. *)
Definition copy_key (n : nat) (prefix : BucketID) (key : bytes) : bytes :=
  copy_at 0 (drop (length prefix) key) (make_bytes n).

(** ** Operations *)

Section ClaimDB.
Context {D : Type} `{!LevelDB D}.
Context `{!Codec ClaimData, !Codec ClaimBackupInfo, !Codec PreCommitData}.

Definition c_Bytes (c : Claim) : bytes := marshal (c_Data c).
Definition c_SetBytes (bs : bytes) (c : Claim) : Claim * bool :=
  let '(d, ok) := unmarshal bs (c_Data c) in (mkClaim (c_Address c) d, ok).
Definition NewClaimFromBytes (bs : bytes) : option Claim :=
  let '(c, ok) := c_SetBytes bs zero_Claim in if ok : bool then Some c else None.

Definition cb_Bytes (cb : ClaimBackupInfo) : bytes := marshal cb.
Definition cb_SetBytes (bs : bytes) (cb : ClaimBackupInfo) : ClaimBackupInfo * bool :=
  unmarshal bs cb.

Definition pc_Bytes (pc : PreCommit) : bytes := marshal (pc_Data pc).
Definition pc_SetBytes (bs : bytes) (pc : PreCommit) : PreCommit * bool :=
  let '(d, ok) := unmarshal bs (pc_Data pc) in (pc_set_Data d pc, ok).

(** [query] fills the receiver; a decoding error is ignored. *)
Definition pc_query (pc : PreCommit) (pcDB : D) : PreCommit * bool :=
  match bucket_Get PrefixClaim pcDB (pc_ID pc) with
  | Some bs => ((pc_SetBytes bs pc).1, true)
  | None => (pc, false)
  end.

Definition pc_write (pc : PreCommit) (iScore : option Z) (pcDB : D) : D :=
  let pc := match iScore with
            | Some s => pc_set_Claim_Data (mkClaimData (pc_BlockHeight pc) s) pc
            | None => pc
            end in
  bucket_Set PrefixClaim (pc_ID pc) (pc_Bytes pc) pcDB.

Definition pc_delete (pc : PreCommit) (pcDB : D) : D := bucket_Delete PrefixClaim (pc_ID pc) pcDB.

Definition pc_commit (pc : PreCommit) (pcDB : D) : outcome claim_error D :=
  let txIndex := pc_TXIndex pc in
  let '(pc, found) := pc_query pc pcDB in
  if negb found then Err ErrNoDataToCommit
  else if txIndex =? pc_TXIndex pc then
    if pc_Confirmed pc then Ok pcDB else Ok (pc_write (pc_set_Confirmed true pc) None pcDB)
  else Ok pcDB.

Definition pc_revert (pc : PreCommit) (pcDB : D) : outcome claim_error D :=
  let txIndex := pc_TXIndex pc in
  let '(pc, found) := pc_query pc pcDB in
  if negb found then Err ErrNoDataToRevert
  else if txIndex =? pc_TXIndex pc then
    if pc_Confirmed pc then Ok pcDB else Ok (pc_delete pc pcDB)
  else Ok pcDB.

(** Keys gathered first, then deleted. *)
Definition deletePreCommit (pcDB : D) (start limit : option bytes) : D :=
  let keys := map (fun e => copy_key PreCommitIDSize PrefixClaim e.1) (iter_New start limit pcDB) in
  fold_left (fun d key => bucket_Delete PrefixClaim key d) keys pcDB.

Definition flushPreCommit (pcDB : D) (blockHeight : Z) (blockHash : option bytes) : D :=
  let prefix := MakeIteratorPrefix PrefixClaim blockHeight blockHash BlockHashSize in
  deletePreCommit pcDB (Some prefix.1) prefix.2.

Definition initPreCommit (pcDB : D) (blockHeight : Z) : D :=
  let prefix := MakeIteratorPrefix PrefixClaim (blockHeight +u 1) None BlockHashSize in
  deletePreCommit pcDB (Some prefix.1) None.

(** A nil result for a missing entry; errors keep it nil. *)
Definition findPreCommit (pcDB : D) (address : Address) (blockHeight : Z) (blockHash : bytes)
    : outcome claim_error (option PreCommit) :=
  let key := GenPreCommitKey address blockHeight blockHash in
  match bucket_Get PrefixClaim pcDB key with
  | None => Ok None
  | Some value =>
      let '(pc, ok) := pc_SetBytes value zero_PreCommit in
      if negb ok then Err ErrUnmarshal
      else let! pc := pc_SetID key pc in Ok (Some pc)
  end.

(** Garbage collection of the backups at heights [from] to [to]; the keys of
    one height, then all of them. *)
Definition backup_keys (cbDB : D) (blockHeight : Z) : list bytes :=
  let prefix := MakeIteratorPrefix PrefixClaim blockHeight None 0 in
  map (fun e => copy_key ClaimBackupIDSize PrefixClaim e.1) (iter_New (Some prefix.1) prefix.2 cbDB).

Fixpoint gc_keys {E} (fuel : nat) (cbDB : D) (blockHeight to : Z) (keys : list bytes)
    : outcome E (list bytes) :=
  if blockHeight <=? to then
    match fuel with
    | O => Panic
    | S fuel => gc_keys fuel cbDB (blockHeight +u 1) to (keys ++ backup_keys cbDB blockHeight)
    end
  else Ok keys.

Definition garbageCollectClaimBackupDB {E} (cbDB : D) (from to : Z) : outcome E D :=
  let! keys := gc_keys (Z.to_nat (to + 1 - from)) cbDB from to [] in
  Ok (fold_left (fun d key => bucket_Delete PrefixClaim key d) keys cbDB).

Definition writeClaimBackupInfo (cbDB : D) (blockHeight : Z) : outcome (claim_error * D) D :=
  let! cbInfo :=
    match bucket_Get PrefixManagement cbDB cb_ID with
    | None => Ok zero_ClaimBackupInfo
    | Some bs =>
        let '(cbInfo, ok) := cb_SetBytes bs zero_ClaimBackupInfo in
        if ok : bool then Ok cbInfo else Err (ErrUnmarshal, cbDB)
    end in
  let first := if FirstBlockHeight cbInfo =? 0 then blockHeight else FirstBlockHeight cbInfo in
  let last := if LastBlockHeight cbInfo =? 0 then blockHeight else LastBlockHeight cbInfo in
  let! (cbDB, first) :=
    if ClaimBackupPeriod +u first <? blockHeight then
      let garbageBlock := blockHeight -u ClaimBackupPeriod -u 1 in
      let! cbDB := garbageCollectClaimBackupDB cbDB first garbageBlock in
      Ok (cbDB, if first <? garbageBlock +u 1 then garbageBlock +u 1 else first)
    else Ok (cbDB, first) in
  let last := if last <? blockHeight then blockHeight else last in
  Ok (bucket_Set PrefixManagement cb_ID (cb_Bytes (mkClaimBackupInfo first last)) cbDB).

(** One iteration of the loop of [writePreCommitToClaimDB], after the entry
    was decoded.  [oldClaim] is nil when the stored claim does not decode:
    the field access then panics. *)
Definition write_one (blockHeight : Z) (pc : PreCommit) (cDB cbDB : D)
    : outcome (claim_error * (D * D)) (D * D) :=
  let claim := pc_Claim (pc_Data pc) in
  if negb (pc_Confirmed pc) || (cd_IScore (c_Data claim) =? 0) then Ok (cDB, cbDB)
  else
    let write claim :=
      let cbDB :=
        match bucket_Get PrefixIScore cDB (c_ID claim) with
        | Some bs => bucket_Set PrefixIScore (c_BackupID claim (blockHeight -u 1)) bs cbDB
        | None => bucket_Set PrefixIScore (c_BackupID claim (blockHeight -u 1)) (c_Bytes zero_Claim) cbDB
        end in
      Ok (bucket_Set PrefixIScore (c_ID claim) (c_Bytes claim) cDB, cbDB) in
    match bucket_Get PrefixIScore cDB (c_ID claim) with
    | None => write claim
    | Some bs =>
        match NewClaimFromBytes bs with
        | None => Panic
        | Some oldClaim =>
            if cd_BlockHeight (c_Data claim) <=? cd_BlockHeight (c_Data oldClaim)
            then Ok (cDB, cbDB)
            else write (mkClaim (c_Address claim)
                   (mkClaimData (cd_BlockHeight (c_Data claim))
                      (cd_IScore (c_Data claim) + cd_IScore (c_Data oldClaim))))
        end
    end.

(** The loop over the iterator; [pc] is one variable that every iteration
    decodes into.  A decoding error ends it. *)
Fixpoint write_loop (blockHeight : Z) (pc : PreCommit) (l : list (bytes * bytes)) (cDB cbDB : D)
    : outcome (claim_error * (D * D)) (D * D) :=
  match l with
  | [] => Ok (cDB, cbDB)
  | (_, v) :: l =>
      let '(pc, ok) := pc_SetBytes v pc in
      if negb ok then Err (ErrUnmarshal, (cDB, cbDB))
      else
        let! (cDB, cbDB) := write_one blockHeight pc cDB cbDB in
        write_loop blockHeight pc l cDB cbDB
  end.

(** The stores after the call, in the order of the parameters. *)
Definition writePreCommitToClaimDB (preCommitDB claimDB claimBackupDB : D)
    (blockHeight : Z) (blockHash : option bytes) : outcome (claim_error * (D * D * D)) (D * D * D) :=
  let prefix := MakeIteratorPrefix PrefixClaim blockHeight blockHash BlockHashSize in
  match write_loop blockHeight zero_PreCommit (iter_New (Some prefix.1) prefix.2 preCommitDB)
          claimDB claimBackupDB with
  | Panic => Panic
  | Err (e, (cDB, cbDB)) => Err (e, (preCommitDB, cDB, cbDB))
  | Ok (cDB, cbDB) =>
      match writeClaimBackupInfo cbDB blockHeight with
      | Panic => Panic
      | Err (e, cbDB) => Err (e, (preCommitDB, cDB, cbDB))
      | Ok cbDB => Ok (flushPreCommit preCommitDB blockHeight None, cDB, cbDB)
      end
  end.

(** ** Rollback *)

Definition checkClaimDBRollback (cbInfo : ClaimBackupInfo) (rollback : Z) : outcome claim_error bool :=
  if rollback <? FirstBlockHeight cbInfo
  then Err (RollbackLowBlockHeightError (FirstBlockHeight cbInfo) rollback)
  else if LastBlockHeight cbInfo <=? rollback then Ok false
  else Ok true.

(** One backup entry applied to the claim DB; [claim] is one variable that
    every iteration decodes into, errors ignored. *)
Definition rollback_one (acc : Claim * D) (e : bytes * bytes) : Claim * D :=
  let '(claim, cDB) := acc in
  let claim := (c_SetBytes e.2 claim).1 in
  let key := drop (length PrefixClaim + BlockHeightSize) e.1 in
  (claim,
   if (cd_BlockHeight (c_Data claim) =? 0) && (cd_IScore (c_Data claim) =? 0)
   then bucket_Delete PrefixClaim key cDB
   else bucket_Set PrefixClaim key e.2 cDB).

(** [_rollbackClaimDB]: the backups of one height. *)
Definition rollbackClaimDB_height (cbDB cDB : D) (blockHeight : Z) : D * D :=
  let prefix := MakeIteratorPrefix PrefixClaim blockHeight None 0 in
  let cDB' := (fold_left rollback_one (iter_New (Some prefix.1) prefix.2 cbDB) (zero_Claim, cDB)).2 in
  (fold_left (fun d key => bucket_Delete PrefixClaim key d) (backup_keys cbDB blockHeight) cbDB, cDB').

(** [for i := from; to <= i; i--]: does not end when [to] is 0. *)
Fixpoint rollback_loop {E} (fuel : nat) (cbDB cDB : D) (i to : Z) : outcome E (D * D) :=
  if to <=? i then
    match fuel with
    | O => Panic
    | S fuel =>
        let '(cbDB, cDB) := rollbackClaimDB_height cbDB cDB i in
        rollback_loop fuel cbDB cDB (i -u 1) to
    end
  else Ok (cbDB, cDB).

(** [rollbackClaimDB] up to the update of the current block information,
    which its caller does when the flag is set ([Messages.v]). *)
Definition rollbackClaimDB_stores (cDB cbDB : D) (to : Z) : outcome claim_error (bool * (D * D)) :=
  let bs := bucket_Get PrefixManagement cbDB cb_ID in
  let cbInfo := (cb_SetBytes (nonNilBytes bs) zero_ClaimBackupInfo).1 in
  let! ok := checkClaimDBRollback cbInfo to in
  if negb ok then Ok (false, (cDB, cbDB))
  else
    let from := LastBlockHeight cbInfo in
    let! (cbDB, cDB) := rollback_loop (Z.to_nat (from + 1 - to)) cbDB cDB from to in
    let cbInfo := mkClaimBackupInfo (FirstBlockHeight cbInfo) to in
    Ok (true, (cDB, bucket_Set PrefixManagement cb_ID (cb_Bytes cbInfo) cbDB)).
End ClaimDB.

(** ** The keys *)

Lemma make_bytes_add a b : make_bytes (a + b) = make_bytes a ++ make_bytes b.
Proof. apply replicate_add. Qed.

Lemma copy_make_exact n b : length b = n -> copy_at 0 b (make_bytes n) = b.
Proof.
  intros H. rewrite <-(app_nil_r (make_bytes n)), copy_at_0, app_nil_r; [done|].
  by rewrite length_make_bytes.
Qed.

Lemma copy_height_0 h r : is_u64 h ->
  copy_height 0 h (make_bytes BlockHeightSize ++ r) = be64 h ++ r.
Proof. intros Hh. exact (copy_height_app [] r h 8 Hh eq_refl). Qed.

Lemma c_BackupID_app c h : is_u64 h -> wf_Address (c_Address c) ->
  c_BackupID c h = be64 h ++ c_Address c.
Proof.
  intros Hh Ha. unfold c_BackupID, ClaimBackupIDSize, c_ID, Address_Bytes.
  rewrite make_bytes_add, copy_height_0 by done.
  change BlockHeightSize with 8%nat. rewrite <-(length_be64 h) at 1. apply copy_at_end.
  rewrite length_make_bytes. by apply length_wf_Address.
Qed.

Lemma GenPreCommitKey_app a h hash : is_u64 h -> wf_Address a -> length hash = BlockHashSize ->
  GenPreCommitKey a h hash = be64 h ++ hash ++ a.
Proof.
  intros Hh Ha Hl. unfold GenPreCommitKey, PreCommitIDSize, Address_Bytes.
  rewrite !make_bytes_add, <-app_assoc, copy_height_0 by done.
  change BlockHeightSize with 8%nat. rewrite <-(length_be64 h) at 1 2.
  rewrite (copy_at_app (be64 h)) by (by rewrite length_make_bytes).
  rewrite <-Hl, <-length_app, !app_assoc. apply copy_at_end.
  rewrite length_make_bytes. by apply length_wf_Address.
Qed.

Lemma MakeIteratorPrefix_hash h hash : is_u64 h -> length hash = BlockHashSize ->
  MakeIteratorPrefix PrefixClaim h (Some hash) BlockHashSize = BytesPrefix (be64 h ++ hash).
Proof.
  intros Hh Hl. unfold MakeIteratorPrefix. f_equal.
  change (length PrefixClaim) with O.
  assert (copy_at 0 PrefixClaim (make_bytes (0 + BlockHeightSize + BlockHashSize))
    = make_bytes BlockHeightSize ++ make_bytes BlockHashSize) as -> by done.
  rewrite copy_height_0 by done.
  change (0 + BlockHeightSize + BlockHashSize - BlockHashSize)%nat with 8%nat.
  rewrite <-(length_be64 h) at 1. apply copy_at_end. by rewrite length_make_bytes.
Qed.

Lemma MakeIteratorPrefix_height h n : is_u64 h ->
  MakeIteratorPrefix PrefixClaim h None n = BytesPrefix (be64 h).
Proof.
  intros Hh. unfold MakeIteratorPrefix. f_equal. change (length PrefixClaim) with O.
  assert (copy_at 0 PrefixClaim (make_bytes (0 + BlockHeightSize))
    = make_bytes BlockHeightSize ++ []) as -> by done.
  rewrite copy_height_0 by done. apply app_nil_r.
Qed.

Lemma copy_key_exact n k : length k = n -> copy_key n PrefixClaim k = k.
Proof. intros. unfold copy_key. by rewrite drop_0, copy_make_exact. Qed.

(** ** Well-formed values *)

#[global] Instance wf_ClaimData : WF ClaimData := fun cd => is_u64 (cd_BlockHeight cd).
#[global] Instance wf_ClaimBackupInfo : WF ClaimBackupInfo := fun cb =>
  is_u64 (FirstBlockHeight cb) /\ is_u64 (LastBlockHeight cb).
#[global] Instance wf_PreCommitData : WF PreCommitData := fun d =>
  is_u64 (TXIndex d) /\ wf_Address (c_Address (pc_Claim d)) /\ wf (c_Data (pc_Claim d)).

Definition wf_PreCommit (pc : PreCommit) : Prop :=
  is_u64 (pc_BlockHeight pc) /\ length (pc_BlockHash pc) = BlockHashSize /\
  all_bytes (pc_BlockHash pc) /\ wf (pc_Data pc).

Lemma wf_zero_ClaimData : wf zero_ClaimData.
Proof. unfold wf, wf_ClaimData, is_u64. simpl. lia. Qed.

Lemma wf_PreCommit_address pc : wf_PreCommit pc -> wf_Address (pc_Address pc).
Proof. by intros (_ & _ & _ & _ & Ha & _). Qed.

Lemma pc_ID_app pc : wf_PreCommit pc ->
  pc_ID pc = be64 (pc_BlockHeight pc) ++ pc_BlockHash pc ++ pc_Address pc.
Proof.
  intros Hpc. pose proof (wf_PreCommit_address pc Hpc). destruct Hpc as (Hh & Hl & _ & _).
  by apply GenPreCommitKey_app.
Qed.

Lemma length_pc_ID pc : wf_PreCommit pc -> length (pc_ID pc) = PreCommitIDSize.
Proof.
  intros Hpc. rewrite pc_ID_app by done. pose proof (wf_PreCommit_address pc Hpc) as Ha.
  rewrite !length_app, length_be64, (length_wf_Address _ Ha).
  by destruct Hpc as (_ & -> & _).
Qed.

Lemma bytes_pc_ID pc : wf_PreCommit pc -> all_bytes (pc_ID pc).
Proof.
  intros Hpc. rewrite pc_ID_app by done. pose proof (wf_PreCommit_address pc Hpc) as Ha.
  rewrite !Forall_app. destruct Hpc as (_ & _ & ? & _). split_and!; auto with rc.
Qed.

Lemma newPreCommit_wf h hash i txh a :
  is_u64 h -> length hash = BlockHashSize -> all_bytes hash -> is_u64 i -> wf_Address a ->
  wf_PreCommit (newPreCommit h hash i txh a) /\ pc_BlockHash (newPreCommit h hash i txh a) = hash.
Proof.
  intros Hh Hl Hb Hi Ha. unfold newPreCommit, wf_PreCommit. simpl.
  rewrite copy_make_exact by done. split_and!; auto. by split_and!; [..|apply wf_zero_ClaimData].
Qed.

(** ** The pre-commit DB *)

(** Prefixes and the order of heights. *)
Lemma app_lt_length (x y r : bytes) : length x = length y -> x <b y -> x ++ r <b y.
Proof.
  revert y. induction x as [|a x IH]; intros [|b y] Hl Hlt; try done.
  simpl. rewrite bytes_lt_cons in *. destruct Hlt as [|[-> Hlt]]; [by left|right].
  split; [done|]. apply IH; [by injection Hl|done].
Qed.

Lemma be64_le_app a b r : is_u64 a -> is_u64 b -> be64 a <=b be64 b ++ r <-> a <= b.
Proof.
  intros Ha Hb. split.
  - intros Hle. destruct (Z.le_gt_cases a b) as [|Hgt]; [done|].
    exfalso. refine (bytes_lt_nge (be64 b ++ r) (be64 a) _ Hle). apply app_lt_length; [by rewrite !length_be64|].
    unfold bytes_lt. rewrite be64_compare by done. by apply Z.compare_lt_iff.
  - intros Hle. transitivity (be64 b); [|auto with rc].
    unfold bytes_le. rewrite be64_compare by done. by apply Z.compare_le_iff.
Qed.

Section PreCommitDB.
Context {D : Type} `{!LevelDB D, !LevelDBLaws D}.
Context `{!Codec PreCommitData, !CodecLaws PreCommitData}.

(** What the pre-commit DB holds: claims under their own key, with the claim
    at the height of the block. *)
Definition pc_entry (k v : bytes) (pc : PreCommit) : Prop :=
  wf_PreCommit pc /\ k = pc_ID pc /\ v = pc_Bytes pc /\
  cd_BlockHeight (pc_Claim_Data pc) = pc_BlockHeight pc.

Definition pc_inv (pcDB : D) : Prop :=
  forall k v, ldb_get pcDB k = Some v -> exists pc, pc_entry k v pc.

Lemma pc_inv_key pcDB k v : pc_inv pcDB -> ldb_get pcDB k = Some v ->
  length k = PreCommitIDSize /\ all_bytes k.
Proof.
  intros Hinv Hk. destruct (Hinv k v Hk) as (pc & Hpc & -> & _).
  by split; [apply length_pc_ID|apply bytes_pc_ID].
Qed.

Lemma deletePreCommit_get pcDB s l k : pc_inv pcDB ->
  ldb_get (deletePreCommit pcDB (Some s) l) k =
  if decide (in_range s l k) then None else ldb_get pcDB k.
Proof.
  intros Hinv. unfold deletePreCommit. change k with (PrefixClaim ++ k) at 1.
  rewrite fold_delete_get. change (PrefixClaim ++ k) with k. unfold iter_New.
  assert (Hmem : forall v, ldb_get pcDB k = Some v ->
    k ∈ map (fun e => copy_key PreCommitIDSize PrefixClaim e.1) (ldb_iter (Some (s, l)) pcDB)
    <-> in_range s l k).
  { intros v Hv. rewrite list_elem_of_fmap. split.
    - intros ([k' v'] & Heq & Hin). apply ldb_iter_elem in Hin as [Hg Hr].
      destruct (pc_inv_key _ _ _ Hinv Hg) as [Hl _]. simpl in Heq.
      rewrite copy_key_exact in Heq by done. by subst.
    - intros Hr. exists (k, v). destruct (pc_inv_key _ _ _ Hinv Hv) as [Hl _].
      rewrite copy_key_exact by done. split; [done|]. by apply ldb_iter_elem. }
  destruct (ldb_get pcDB k) as [v|] eqn:Hk; [|by repeat case_decide].
  specialize (Hmem v eq_refl). by repeat case_decide; tauto.
Qed.

(** The keys one [flushPreCommit] call is about. *)
Definition flush_prefix (h : Z) (hash : option bytes) : bytes := be64 h ++ nonNilBytes hash.

(** A block hash argument: nil, or 32 bytes. *)
Definition hash_ok (hash : option bytes) : Prop :=
  forall b, hash = Some b -> length b = BlockHashSize /\ all_bytes b.

Lemma MakeIteratorPrefix_flush h hash : is_u64 h -> hash_ok hash ->
  MakeIteratorPrefix PrefixClaim h hash BlockHashSize = BytesPrefix (flush_prefix h hash) /\
  all_bytes (flush_prefix h hash).
Proof.
  intros Hh Hhash. unfold flush_prefix. destruct hash as [b|]; cbn [nonNilBytes default from_option id].
  - destruct (Hhash b eq_refl). rewrite Forall_app. split; [by apply MakeIteratorPrefix_hash|].
    auto with rc.
  - rewrite app_nil_r. split; [by apply MakeIteratorPrefix_height|auto with rc].
Qed.

(** [flushPreCommit] removes the claims of a block (of a height, without a
    hash) and nothing else. *)
Lemma flushPreCommit_spec pcDB h hash k :
  pc_inv pcDB -> is_u64 h -> hash_ok hash ->
  ldb_get (flushPreCommit pcDB h hash) k =
  if decide (flush_prefix h hash `prefix_of` k) then None else ldb_get pcDB k.
Proof.
  intros Hinv Hh Hhash. unfold flushPreCommit.
  destruct (MakeIteratorPrefix_flush h hash Hh Hhash) as [-> Hb].
  rewrite deletePreCommit_get by done.
  destruct (ldb_get pcDB k) as [v|] eqn:Hk; [|by repeat case_decide].
  destruct (pc_inv_key _ _ _ Hinv Hk) as [_ Hkb].
  pose proof (BytesPrefix_spec _ k Hb Hkb). by repeat case_decide; tauto.
Qed.

(** [initPreCommit] keeps exactly the claims at the given height and
    below. *)
Lemma initPreCommit_spec pcDB h pc :
  pc_inv pcDB -> is_u64 h -> h < max_u64 -> wf_PreCommit pc ->
  ldb_get (initPreCommit pcDB h) (pc_ID pc) =
  if h <? pc_BlockHeight pc then None else ldb_get pcDB (pc_ID pc).
Proof.
  intros Hinv Hh Hmax Hpc. unfold initPreCommit.
  assert (Hh1 : is_u64 (h + 1)) by zlia.
  rewrite u64_small, MakeIteratorPrefix_height by done.
  rewrite deletePreCommit_get by done. unfold in_range. rewrite pc_ID_app by done.
  destruct Hpc as (Hb & _).
  pose proof (be64_le_app (h + 1) (pc_BlockHeight pc)
    (pc_BlockHash pc ++ pc_Address pc) Hh1 Hb).
  destruct (Z.ltb_spec h (pc_BlockHeight pc)); case_decide as Hd; try done; exfalso.
  - apply Hd. split; [|done]. apply H. lia.
  - destruct Hd as [Hd _]. apply H in Hd. lia.
Qed.

(** Reading back a stored pre-commit: the receiver takes its data. *)
Lemma pc_query_entry pcDB pc pc' :
  wf_PreCommit pc' -> ldb_get pcDB (pc_ID pc) = Some (pc_Bytes pc') ->
  pc_query pc pcDB = (pc_set_Data (pc_Data pc') pc, true).
Proof.
  intros (_ & _ & _ & Hd) Hk. unfold pc_query. rewrite bucket_Get_ldb.
  change (PrefixClaim ++ pc_ID pc) with (pc_ID pc). rewrite Hk.
  unfold pc_SetBytes, pc_Bytes. by rewrite unmarshal_marshal.
Qed.

Lemma pc_query_none pcDB pc : ldb_get pcDB (pc_ID pc) = None -> pc_query pc pcDB = (pc, false).
Proof.
  intros Hk. unfold pc_query. rewrite bucket_Get_ldb.
  change (PrefixClaim ++ pc_ID pc) with (pc_ID pc). by rewrite Hk.
Qed.

(** A key determines the block and the address. *)
Lemma pc_ID_inj pc pc' : wf_PreCommit pc -> wf_PreCommit pc' -> pc_ID pc = pc_ID pc' ->
  pc_BlockHeight pc = pc_BlockHeight pc' /\ pc_BlockHash pc = pc_BlockHash pc' /\
  pc_Address pc = pc_Address pc'.
Proof.
  intros Hpc Hpc' E. rewrite !pc_ID_app in E by done.
  destruct Hpc as (H1 & H2 & _), Hpc' as (H3 & H4 & _).
  apply app_inj_1 in E as [E1 E]; [|by rewrite !length_be64].
  apply app_inj_1 in E as [E2 E3]; [|congruence].
  by apply be64_inj in E1.
Qed.

(** Filling a receiver with the data stored under its own key. *)
Lemma pc_set_Data_stored pc pc' : wf_PreCommit pc -> wf_PreCommit pc' -> pc_ID pc = pc_ID pc' ->
  pc_set_Data (pc_Data pc') pc = pc'.
Proof.
  intros Hpc Hpc' E. destruct (pc_ID_inj pc pc' Hpc Hpc' E) as (E1 & E2 & _).
  destruct pc, pc'. unfold pc_set_Data. simpl in *. congruence.
Qed.

Definition pc_confirm : PreCommit -> PreCommit := pc_set_Confirmed true.

Lemma pc_entry_confirm k v pc : pc_entry k v pc -> pc_entry k (pc_Bytes (pc_confirm pc)) (pc_confirm pc).
Proof.
  intros ((H1 & H2 & H3 & H4) & -> & _ & H). by split_and!.
Qed.

Lemma pc_commit_entry pcDB pc pc' :
  wf_PreCommit pc -> pc_entry (pc_ID pc) (pc_Bytes pc') pc' ->
  ldb_get pcDB (pc_ID pc) = Some (pc_Bytes pc') ->
  pc_commit pc pcDB =
    Ok (if (pc_TXIndex pc =? pc_TXIndex pc') && negb (pc_Confirmed pc')
        then bucket_Set PrefixClaim (pc_ID pc) (pc_Bytes (pc_confirm pc')) pcDB else pcDB).
Proof.
  intros Hpc (Hpc' & E & _) Hk. unfold pc_commit.
  rewrite (pc_query_entry pcDB pc pc' Hpc' Hk), (pc_set_Data_stored pc pc') by done.
  cbn [negb]. destruct (pc_TXIndex pc =? _); simpl; [|done].
  destruct (pc_Confirmed pc'); simpl; [done|]. f_equal. unfold pc_write. by rewrite E.
Qed.

Lemma pc_revert_entry pcDB pc pc' :
  wf_PreCommit pc -> pc_entry (pc_ID pc) (pc_Bytes pc') pc' ->
  ldb_get pcDB (pc_ID pc) = Some (pc_Bytes pc') ->
  pc_revert pc pcDB =
    Ok (if (pc_TXIndex pc =? pc_TXIndex pc') && negb (pc_Confirmed pc')
        then bucket_Delete PrefixClaim (pc_ID pc) pcDB else pcDB).
Proof.
  intros Hpc (Hpc' & E & _) Hk. unfold pc_revert.
  rewrite (pc_query_entry pcDB pc pc' Hpc' Hk), (pc_set_Data_stored pc pc') by done.
  cbn [negb]. destruct (pc_TXIndex pc =? _); simpl; [|done].
  destruct (pc_Confirmed pc'); simpl; [done|]. f_equal. unfold pc_delete. by rewrite E.
Qed.

(** A claim that was committed stays: committing it again and reverting
    it, by a message of any transaction, change nothing more. *)
Lemma PreCommit_commit_final pcDB pc pcDB1 pc2 :
  pc_inv pcDB -> wf_PreCommit pc -> wf_PreCommit pc2 -> pc_ID pc2 = pc_ID pc ->
  pc_commit pc pcDB = Ok pcDB1 ->
  (forall pc', ldb_get pcDB (pc_ID pc) = Some (pc_Bytes pc') -> wf_PreCommit pc' ->
     pc_TXIndex pc' = pc_TXIndex pc) ->
  pc_commit pc2 pcDB1 = Ok pcDB1 /\ pc_revert pc2 pcDB1 = Ok pcDB1.
Proof.
  intros Hinv Hpc Hpc2 E2 H Htx. destruct (ldb_get pcDB (pc_ID pc)) as [v|] eqn:Hk;
    [|unfold pc_commit in H; by rewrite pc_query_none in H].
  destruct (Hinv _ _ Hk) as (pc' & He). pose proof He as (Hpc' & _ & -> & _).
  rewrite (pc_commit_entry pcDB pc pc'), (Htx pc'), Z.eqb_refl in H by done.
  assert (exists pc'', pc_entry (pc_ID pc) (pc_Bytes pc'') pc'' /\ pc_Confirmed pc'' = true
    /\ ldb_get pcDB1 (pc_ID pc2) = Some (pc_Bytes pc'')) as (pc'' & He'' & Hc & Hk'').
  { rewrite E2. destruct (pc_Confirmed pc') eqn:Hc; simpl in H; injection H as <-.
    - by exists pc'.
    - exists (pc_confirm pc'). split_and!; [by eapply pc_entry_confirm|done|].
      rewrite bucket_get_set. by rewrite decide_True. }
  rewrite <-E2 in He''.
  rewrite (pc_commit_entry pcDB1 pc2 pc''), (pc_revert_entry pcDB1 pc2 pc'') by done.
  by rewrite Hc, !andb_false_r.
Qed.

(** ** The invariant is preserved *)

Lemma pc_inv_set pcDB k v pc : pc_inv pcDB -> pc_entry k v pc -> pc_inv (bucket_Set PrefixClaim k v pcDB).
Proof.
  intros Hinv He k' v'. rewrite bucket_get_set. change (PrefixClaim ++ k) with k.
  case_decide; [|apply Hinv]. intros [= <-]. subst. by exists pc.
Qed.

Lemma pc_inv_subset (db1 db2 : D) : pc_inv db1 ->
  (forall k v, ldb_get db2 k = Some v -> ldb_get db1 k = Some v) -> pc_inv db2.
Proof. intros Hinv Hsub k v Hk. by apply Hinv, Hsub. Qed.

Lemma pc_inv_deletePreCommit pcDB s l : pc_inv pcDB -> pc_inv (deletePreCommit pcDB (Some s) l).
Proof.
  intros Hinv. apply (pc_inv_subset pcDB); [done|]. intros k v.
  rewrite deletePreCommit_get by done. by case_decide.
Qed.

Lemma pc_inv_commit pcDB pc pcDB' : pc_inv pcDB -> wf_PreCommit pc ->
  pc_commit pc pcDB = Ok pcDB' -> pc_inv pcDB'.
Proof.
  intros Hinv Hpc H. destruct (ldb_get pcDB (pc_ID pc)) as [v|] eqn:Hk.
  - destruct (Hinv _ _ Hk) as (pc' & He). pose proof He as (_ & _ & -> & _).
    rewrite (pc_commit_entry pcDB pc pc') in H by done. injection H as <-. case_match; [|done].
    eapply pc_inv_set; [done|]. by eapply pc_entry_confirm.
  - unfold pc_commit in H. by rewrite pc_query_none in H.
Qed.

Lemma pc_inv_revert pcDB pc pcDB' : pc_inv pcDB -> wf_PreCommit pc ->
  pc_revert pc pcDB = Ok pcDB' -> pc_inv pcDB'.
Proof.
  intros Hinv Hpc H. destruct (ldb_get pcDB (pc_ID pc)) as [v|] eqn:Hk.
  - destruct (Hinv _ _ Hk) as (pc' & He). pose proof He as (_ & _ & -> & _).
    rewrite (pc_revert_entry pcDB pc pc') in H by done. injection H as <-. case_match; [|done].
    eapply pc_inv_subset; [done|]. intros k w. rewrite bucket_get_delete. by case_decide.
  - unfold pc_revert in H. by rewrite pc_query_none in H.
Qed.

End PreCommitDB.

(** ** The msgpack instances *)

Definition mp_ClaimData : Msgpack.mpcodec ClaimData :=
  Msgpack.mp_struct 2 (Msgpack.mp_iso (fun d => (cd_BlockHeight d, cd_IScore d))
    (fun p => mkClaimData p.1 p.2) (Msgpack.mp_pair Msgpack.mp_uint Msgpack.mp_hexint)).

Lemma mp_ClaimData_ok : Msgpack.mp_ok mp_ClaimData wf.
Proof.
  apply Msgpack.mp_struct_ok. eapply Msgpack.mp_iso_ok.
  - apply Msgpack.mp_pair_ok; [apply Msgpack.mp_uint_ok|apply Msgpack.mp_hexint_ok].
  - by intros [b i] Hb.
Qed.

Definition mp_ClaimBackupInfo : Msgpack.mpcodec ClaimBackupInfo :=
  Msgpack.mp_struct 2 (Msgpack.mp_iso (fun d => (FirstBlockHeight d, LastBlockHeight d))
    (fun p => mkClaimBackupInfo p.1 p.2) (Msgpack.mp_pair Msgpack.mp_uint Msgpack.mp_uint)).

Lemma mp_ClaimBackupInfo_ok : Msgpack.mp_ok mp_ClaimBackupInfo wf.
Proof.
  apply Msgpack.mp_struct_ok. eapply Msgpack.mp_iso_ok.
  - apply Msgpack.mp_pair_ok; apply Msgpack.mp_uint_ok.
  - by intros [f l] [Hf Hl].
Qed.

(** The fields of the embedded [Claim] are elements of the same array. *)
Definition mp_PreCommitData : Msgpack.mpcodec PreCommitData :=
  Msgpack.mp_struct 5 (Msgpack.mp_iso
    (fun d => (Confirmed d, (TXIndex d, (TXHash d, (c_Address (pc_Claim d), c_Data (pc_Claim d))))))
    (fun p => mkPreCommitData p.1 p.2.1 p.2.2.1 (mkClaim p.2.2.2.1 p.2.2.2.2))
    (Msgpack.mp_pair Msgpack.mp_bool (Msgpack.mp_pair Msgpack.mp_uint
      (Msgpack.mp_pair Msgpack.mp_bytes (Msgpack.mp_pair Msgpack.mp_address mp_ClaimData))))).

Lemma mp_PreCommitData_ok : Msgpack.mp_ok mp_PreCommitData wf.
Proof.
  apply Msgpack.mp_struct_ok. eapply Msgpack.mp_iso_ok.
  - repeat apply Msgpack.mp_pair_ok;
      [apply Msgpack.mp_bool_ok|apply Msgpack.mp_uint_ok|apply Msgpack.mp_bytes_ok
      |apply Msgpack.mp_address_ok|apply mp_ClaimData_ok].
  - by intros [c i h [a d]] (? & ? & ?).
Qed.

Definition msgpack_ClaimData : Codec ClaimData := Msgpack.mp_codec mp_ClaimData.
Definition msgpack_ClaimBackupInfo : Codec ClaimBackupInfo := Msgpack.mp_codec mp_ClaimBackupInfo.
Definition msgpack_PreCommitData : Codec PreCommitData := Msgpack.mp_codec mp_PreCommitData.

Definition msgpack_ClaimData_laws : @CodecLaws ClaimData msgpack_ClaimData _ :=
  Msgpack.mp_codec_laws _ mp_ClaimData_ok eq_refl.
Definition msgpack_ClaimBackupInfo_laws : @CodecLaws ClaimBackupInfo msgpack_ClaimBackupInfo _ :=
  Msgpack.mp_codec_laws _ mp_ClaimBackupInfo_ok eq_refl.
Definition msgpack_PreCommitData_laws : @CodecLaws PreCommitData msgpack_PreCommitData _ :=
  Msgpack.mp_codec_laws _ mp_PreCommitData_ok eq_refl.
