(* ===== verification/ClaimJournal.v ===== *)
(** * The claim DB as a journalled store

    The promise of [core/db_claim.go] as an abstract history: [hist h] is the
    claim DB after the blocks up to height [h].  The claim backup DB implements
    it: committing a block extends the history, rolling back to [to] brings the
    claim DB back to [hist to], and garbage collection only forgets heights
    below the window of [ClaimBackupInfo]. *)

From Stdlib Require Strings.String.
From S2P Require Import Prelude Bytes HexInt Address Store Codec ClaimDB.
Import String.StringSyntax.

Section Journal.
Context {D : Type} `{!LevelDB D, !LevelDBLaws D}.
Context `{!Codec ClaimData, !CodecLaws ClaimData, !Codec ClaimBackupInfo,
  !CodecLaws ClaimBackupInfo, !Codec PreCommitData, !CodecLaws PreCommitData}.

(** ** Abstract view of the stores *)

Definition is_zero_claim (cd : ClaimData) : bool :=
  (cd_BlockHeight cd =? 0) && (cd_IScore cd =? 0).

(** The claim DB value a backup stands for: the empty claim for no value. *)
Definition undo (v : bytes) : option bytes :=
  if is_zero_claim (unmarshal v zero_ClaimData).1 then None else Some v.

(** Claims of the claim DB, by address. *)
Definition claim_of (cDB : D) (a : Address) : option ClaimData :=
  match ldb_get cDB a with Some v => unmarshal_new zero_ClaimData v | None => None end.

Definition info_of (cbDB : D) : ClaimBackupInfo :=
  match ldb_get cbDB PrefixManagement with
  | Some v => (unmarshal v zero_ClaimBackupInfo).1
  | None => zero_ClaimBackupInfo
  end.

Definition backup_of (cbDB : D) (h : Z) (a : Address) : option bytes := ldb_get cbDB (be64 h ++ a).

(** Keys of the claim DB are addresses, its values claims of blocks from 1 on. *)
Definition claim_value (v : bytes) : Prop :=
  exists cd, wf cd /\ v = marshal cd /\ 1 <= cd_BlockHeight cd.

Definition cdb_inv (cDB : D) : Prop :=
  forall a v, ldb_get cDB a = Some v -> wf_Address a /\ claim_value v.

Definition backup_value (v : bytes) : Prop := claim_value v \/ v = marshal zero_ClaimData.

(** The keys of the backup DB: the management entry, and backups of heights
    below [bound]. *)
Definition backup_key (bound : Z) (k : bytes) : Prop :=
  exists h a, is_u64 h /\ h < bound /\ wf_Address a /\ k = be64 h ++ a.

Definition cbdb_keys (bound : Z) (cbDB : D) : Prop :=
  forall k v, ldb_get cbDB k = Some v ->
    k = PrefixManagement \/ backup_key bound k /\ backup_value v.

Lemma undo_claim v : claim_value v -> undo v = Some v.
Proof.
  intros (cd & Hcd & -> & Hh). unfold undo, is_zero_claim.
  rewrite unmarshal_marshal by done. simpl. by rewrite (proj2 (Z.eqb_neq _ 0)) by lia.
Qed.

Lemma undo_zero : undo (marshal zero_ClaimData) = None.
Proof. unfold undo. by rewrite unmarshal_marshal by apply wf_zero_ClaimData. Qed.

Lemma claim_of_some cDB a cd : wf cd -> ldb_get cDB a = Some (marshal cd) -> claim_of cDB a = Some cd.
Proof. intros Hcd Ha. unfold claim_of. by rewrite Ha, unmarshal_new_marshal. Qed.

Lemma NewClaimFromBytes_marshal cd : wf cd ->
  NewClaimFromBytes (marshal cd) = Some (mkClaim zero_Address cd).
Proof. intros H. unfold NewClaimFromBytes, c_SetBytes. simpl. by rewrite unmarshal_marshal. Qed.

(** No backup key starts like the management key, and keys of different
    heights differ. *)
Lemma backup_key_inj h h' (a a' : bytes) : is_u64 h -> is_u64 h' ->
  be64 h ++ a = be64 h' ++ a' -> h = h' /\ a = a'.
Proof.
  intros Hh Hh' E. apply app_inj_1 in E as [E1 E2]; [|by rewrite !length_be64].
  by apply be64_inj in E1.
Qed.

Lemma backup_key_not_mngt h (a : bytes) : be64 h ++ a <> PrefixManagement.
Proof.
  intros E. apply (f_equal length) in E. rewrite length_app, length_be64 in E.
  change (length PrefixManagement) with 2%nat in E. lia.
Qed.

(** ** Undoing the backups of one height *)

Lemma rollback_fold h l claim cDB :
  is_u64 h -> NoDup (l.*1) ->
  (forall k v, (k, v) ∈ l -> (exists a, k = be64 h ++ a) /\ backup_value v) ->
  let cDB' := (fold_left rollback_one l (claim, cDB)).2 in
  (forall a v, (be64 h ++ a, v) ∈ l -> ldb_get cDB' a = undo v) /\
  (forall a, (forall v, (be64 h ++ a, v) ∉ l) -> ldb_get cDB' a = ldb_get cDB a).
Proof.
  intros Hh. revert claim cDB. induction l as [|[k w] l IH]; intros claim cDB Hnd Hl.
  { cbn. split; [intros a v H; by apply not_elem_of_nil in H|done]. }
  apply NoDup_cons in Hnd as [Hn Hnd].
  destruct (Hl k w) as [(a0 & Ek) Hw]; [by left|]. change (k = be64 h ++ a0) in Ek. subst k.
  cbn [fold_left].
  set (acc := rollback_one (claim, cDB) (be64 h ++ a0, w)).
  assert (Hacc : forall a, ldb_get acc.2 a = if decide (a0 = a) then undo w else ldb_get cDB a).
  { intros a. unfold acc, rollback_one, c_SetBytes. cbn [snd fst].
    assert (exists cd, unmarshal w (c_Data claim) = (cd, true)
      /\ unmarshal w zero_ClaimData = (cd, true)) as (cd & H1 & H2).
    { destruct Hw as [(cd & Hcd & -> & _)| ->].
      - exists cd. by rewrite !unmarshal_marshal.
      - exists zero_ClaimData. by rewrite !unmarshal_marshal by apply wf_zero_ClaimData. }
    unfold undo, is_zero_claim. rewrite H1, H2. cbn [fst c_Data].
    change (length PrefixClaim + BlockHeightSize)%nat with 8%nat.
    rewrite drop_app_length' by (by rewrite length_be64).
    destruct (_ && _); [rewrite bucket_get_delete|rewrite bucket_get_set];
      change (PrefixClaim ++ a0) with a0; by case_decide. }
  destruct acc as [claim' cDB1]. cbn [snd] in Hacc.
  destruct (IH claim' cDB1 Hnd) as [IH1 IH2]; [by intros; apply Hl; right|]. split.
  - intros a v Hin. apply elem_of_cons in Hin as [E|Hin]; [|by apply IH1].
    apply pair_equal_spec in E as [E ->]. apply app_inv_head in E as ->.
    rewrite IH2, Hacc; [by rewrite decide_True|].
    intros v' Hin. apply Hn. apply list_elem_of_fmap. by exists (be64 h ++ a0, v').
  - intros a Ha. rewrite IH2, Hacc.
    + rewrite decide_False; [done|]. intros ->. apply (Ha w). by left.
    + intros v Hin. apply (Ha v). by right.
Qed.

Lemma backup_iter bound cbDB h k v : cbdb_keys bound cbDB -> is_u64 h ->
  (k, v) ∈ iter_prefix (be64 h) cbDB <->
  exists a, wf_Address a /\ k = be64 h ++ a /\ backup_of cbDB h a = Some v.
Proof.
  intros Hk Hh. split.
  - intros Hin. pose proof (iter_prefix_elem_1 _ _ _ _ Hin) as Hg.
    assert (all_bytes k) as Hkb.
    { destruct (Hk _ _ Hg) as [-> |[(h' & a & _ & _ & Ha & ->) _]].
      - unfold PrefixManagement. vm_compute. repeat constructor; done.
      - apply Forall_app. auto with rc. }
    apply iter_prefix_elem in Hin as [_ [r Hr]]; [|auto with rc|done].
    destruct (Hk _ _ Hg) as [-> |[(h' & a & Hh' & _ & Ha & ->) _]].
    + by destruct (backup_key_not_mngt h r).
    + apply backup_key_inj in Hr as [-> _]; [|done..]. by exists a.
  - intros (a & Ha & -> & Hg). apply iter_prefix_elem; [auto with rc| |].
    + apply Forall_app. auto with rc.
    + split; [done|]. by exists a.
Qed.

Lemma iter_New_height (cbDB : D) h n : is_u64 h ->
  iter_New (Some (MakeIteratorPrefix PrefixClaim h None n).1)
    (MakeIteratorPrefix PrefixClaim h None n).2 cbDB = iter_prefix (be64 h) cbDB.
Proof. intros Hh. by rewrite MakeIteratorPrefix_height. Qed.

Lemma backup_keys_elem bound cbDB h k : cbdb_keys bound cbDB -> is_u64 h ->
  k ∈ backup_keys cbDB h <->
  exists a, wf_Address a /\ k = be64 h ++ a /\ is_Some (backup_of cbDB h a).
Proof.
  intros Hk Hh. unfold backup_keys. rewrite (iter_New_height cbDB h 0) by done.
  rewrite list_elem_of_fmap. split.
  - intros ([k' v] & -> & Hin). apply (backup_iter bound) in Hin as (a & Ha & -> & Hg); [|done..].
    exists a. simpl. rewrite copy_key_exact; [by eauto|].
    by rewrite length_app, length_be64, (length_wf_Address a).
  - intros (a & Ha & -> & [v Hg]). exists (be64 h ++ a, v). simpl. split.
    + rewrite copy_key_exact; [done|]. by rewrite length_app, length_be64, (length_wf_Address a).
    + apply (backup_iter bound); [done..|]. by exists a.
Qed.
(** One height: the claim DB takes the backups back, the backups go. *)
Lemma rollback_height bound cbDB cDB h : cbdb_keys bound cbDB -> is_u64 h ->
  let '(cbDB', cDB') := rollbackClaimDB_height cbDB cDB h in
  (forall a, wf_Address a -> ldb_get cDB' a =
     match backup_of cbDB h a with Some v => undo v | None => ldb_get cDB a end) /\
  (forall h' a, is_u64 h' -> wf_Address a ->
     backup_of cbDB' h' a = if decide (h' = h) then None else backup_of cbDB h' a) /\
  ldb_get cbDB' PrefixManagement = ldb_get cbDB PrefixManagement /\
  (forall k v, ldb_get cbDB' k = Some v -> ldb_get cbDB k = Some v) /\
  (cdb_inv cDB -> cdb_inv cDB').
Proof.
  intros Hk Hh. unfold rollbackClaimDB_height. rewrite (iter_New_height cbDB h 0) by done.
  destruct (rollback_fold h (iter_prefix (be64 h) cbDB) zero_Claim cDB Hh) as [H1 H2].
  { apply iter_prefix_NoDup. }
  { intros k v Hin. pose proof (iter_prefix_elem_1 _ _ _ _ Hin) as Hg.
    apply (backup_iter bound) in Hin as (a & Ha & -> & _); [|done..].
    split; [by exists a|].
    destruct (Hk _ _ Hg) as [E|[_ ?]]; [by destruct (backup_key_not_mngt h a)|done]. }
  assert (H1' : forall a v, wf_Address a -> backup_of cbDB h a = Some v ->
    (be64 h ++ a, v) ∈ iter_prefix (be64 h) cbDB).
  { intros a v Ha Hg. apply (backup_iter bound); [done..|]. by exists a. }
  assert (H2' : forall a, backup_of cbDB h a = None -> forall v, (be64 h ++ a, v) ∉ iter_prefix (be64 h) cbDB).
  { intros a Hg v Hin. apply iter_prefix_elem_1 in Hin. unfold backup_of in Hg. congruence. }
  assert (Hget : forall k, ldb_get (fold_left (fun d key => bucket_Delete PrefixClaim key d)
      (backup_keys cbDB h) cbDB) k = if decide (k ∈ backup_keys cbDB h) then None else ldb_get cbDB k).
  { intros k. exact (fold_delete_get PrefixClaim (backup_keys cbDB h) cbDB k). }
  split_and!.
  - intros a Ha. destruct (backup_of cbDB h a) as [v|] eqn:Hg; [by apply H1, H1'|by apply H2, H2'].
  - intros h' a Hh' Ha. unfold backup_of. rewrite Hget.
    destruct (decide (h' = h)) as [->|Hne]; case_decide as Hin; try done.
    + destruct (ldb_get cbDB (be64 h ++ a)) eqn:Hg; [|done]. exfalso. apply Hin.
      apply (backup_keys_elem bound); [done..|]. exists a. split_and!; [done..|]. by eexists.
    + apply (backup_keys_elem bound) in Hin as (a' & _ & E & _); [|done..].
      by apply backup_key_inj in E as [-> _].
  - rewrite Hget, decide_False; [done|]. intros Hin.
    apply (backup_keys_elem bound) in Hin as (a & _ & E & _); [|done..].
    by destruct (backup_key_not_mngt h a).
  - intros k v. rewrite Hget. by case_decide.
  - intros Hc a v Hv. set (l := iter_prefix _ _) in *.
    destruct (decide (Exists (fun e => e.1 = be64 h ++ a) l)) as [He|He].
    + apply Exists_exists in He as ([k w] & Hin & Ek). simpl in Ek. subst k.
      pose proof Hin as Hin'. apply (backup_iter bound) in Hin' as (a' & Ha' & E & Hg); [|done..].
      apply app_inv_head in E as <-. split; [done|]. rewrite (H1 a w Hin) in Hv.
      destruct (Hk _ _ Hg) as [E|[_ [Hw| ->]]]; [by destruct (backup_key_not_mngt h a)| |].
      * rewrite undo_claim in Hv by done. by injection Hv as <-.
      * by rewrite undo_zero in Hv.
    + apply Hc. rewrite <-(H2 a); [done|]. intros w Hin. apply He, Exists_exists.
      by exists (be64 h ++ a, w).
Qed.
(** ** The history *)

Abbreviation history := (Z -> bytes -> option bytes).

(** What one height of backups says of the history. *)
Definition undone (hist : history) (cbDB : D) (h : Z) : Prop :=
  forall a, wf_Address a ->
    hist h a = match backup_of cbDB h a with Some v => undo v | None => hist (h + 1) a end.

Record journal (cDB cbDB : D) (hist : history) (first last : Z) : Prop := {
  j_info : ldb_get cbDB PrefixManagement = Some (marshal (mkClaimBackupInfo first last));
  j_range : 1 <= first <= last /\ is_u64 last;
  j_keys : cbdb_keys last cbDB;
  j_cdb : cdb_inv cDB;
  j_now : forall a, wf_Address a -> hist last a = ldb_get cDB a;
  j_undo : forall h, first <= h < last -> undone hist cbDB h;
}.

Lemma rollback_loop_spec {E} n i cbDB cDB to hist :
  n = Z.to_nat (i + 1 - to) -> 1 <= to <= i + 1 -> is_u64 i ->
  cbdb_keys (i + 1) cbDB -> cdb_inv cDB ->
  (forall a, wf_Address a -> hist (i + 1) a = ldb_get cDB a) ->
  (forall h, to <= h <= i -> undone hist cbDB h) ->
  exists cbDB' cDB', rollback_loop (E := E) n cbDB cDB i to = Ok (cbDB', cDB') /\
    (forall a, wf_Address a -> ldb_get cDB' a = hist to a) /\ cdb_inv cDB' /\
    cbdb_keys to cbDB' /\
    ldb_get cbDB' PrefixManagement = ldb_get cbDB PrefixManagement /\
    (forall h a, is_u64 h -> h < to -> wf_Address a -> backup_of cbDB' h a = backup_of cbDB h a).
Proof.
  revert i cbDB cDB. induction n as [|n IH]; intros i cbDB cDB Hn Hto Hi Hk Hc Hnow Hundo.
  { assert (i + 1 = to) as E1 by lia. exists cbDB, cDB. cbn [rollback_loop].
    rewrite (proj2 (Z.leb_gt to i)) by lia. rewrite E1 in *. split_and!; auto.
    intros a Ha. by rewrite Hnow. }
  cbn [rollback_loop]. rewrite (proj2 (Z.leb_le to i)) by lia.
  pose proof (rollback_height _ cbDB cDB i Hk Hi) as Hone.
  destruct (rollbackClaimDB_height cbDB cDB i) as [cbDB1 cDB1].
  destruct Hone as (H1 & H2 & H3 & H4 & H5).
  rewrite u64_small by (unfold is_u64 in *; lia).
  destruct (IH (i - 1) cbDB1 cDB1) as (cbDB' & cDB' & Hr & Hd & Hc' & Hk' & Hm & Hb).
  - lia.
  - lia.
  - unfold is_u64 in *; lia.
  - intros k v Hv. destruct (Hk k v (H4 _ _ Hv)) as [?|[(h & a & Hh & Hlt & Ha & ->) ?]]; [by left|right].
    split; [|done]. exists h, a. split_and!; try done.
    pose proof (H2 h a Hh Ha) as Hg. unfold backup_of in Hg. rewrite Hv in Hg.
    case_decide; [done|lia].
  - auto.
  - intros a Ha. replace (i - 1 + 1) with i by lia. rewrite H1 by done.
    rewrite (Hundo i ltac:(lia) a Ha). by rewrite Hnow.
  - intros h Hh a Ha. rewrite H2; [|unfold is_u64 in *; lia|done].
    rewrite decide_False by lia. apply Hundo; [lia|done].
  - exists cbDB', cDB'. split_and!; try done; [by rewrite Hm|].
    intros h a Hh Hlt Ha. rewrite Hb, H2 by done. by rewrite decide_False by lia.
Qed.

Lemma journal_info cDB cbDB hist first last : journal cDB cbDB hist first last ->
  wf (mkClaimBackupInfo first last).
Proof. intros J. destruct (j_range _ _ _ _ _ J). split; simpl; unfold is_u64 in *; lia. Qed.

(** A rollback to a block of the window returns, and restores the claim DB
    of that block; the journal it leaves ends there. *)
Lemma rollbackClaimDB_restores cDB cbDB hist first last to :
  journal cDB cbDB hist first last -> first <= to < last ->
  exists cDB' cbDB', rollbackClaimDB_stores cDB cbDB to = Ok (true, (cDB', cbDB')) /\
    (forall a, wf_Address a -> ldb_get cDB' a = hist to a) /\
    journal cDB' cbDB' hist first to.
Proof.
  intros J Hto. pose proof (journal_info _ _ _ _ _ J) as Hwf.
  destruct J as [Hinfo [Hr1 Hr2] Hk Hc Hnow Hundo].
  unfold rollbackClaimDB_stores. rewrite bucket_Get_ldb. unfold cb_ID. rewrite app_nil_r, Hinfo.
  unfold cb_SetBytes. cbn [nonNilBytes default from_option id].
  rewrite unmarshal_marshal by done. cbn [fst]. unfold checkClaimDBRollback.
  cbn [FirstBlockHeight LastBlockHeight].
  rewrite (proj2 (Z.ltb_ge to first)), (proj2 (Z.leb_gt last to)) by lia. cbn [obind negb].
  destruct (rollback_loop_spec (E := claim_error) (Z.to_nat (last + 1 - to)) last cbDB cDB to
    (fun h a => if decide (h = last + 1) then ldb_get cDB a else hist h a))
    as (cbDB' & cDB' & Hl & Hd & Hc' & Hk' & Hm & Hb); [done|lia|done| |done| | |].
  - intros k v Hv. destruct (Hk k v Hv) as [?|[(h & a & ? & ? & ? & ->) ?]]; [by left|right].
    split; [|done]. exists h, a. split_and!; try done; lia.
  - intros a Ha. by rewrite decide_True.
  - intros h Hh a Ha. rewrite decide_False by lia.
    destruct (decide (h = last)) as [->|Hne].
    + rewrite decide_True by lia. destruct (backup_of cbDB last a) as [v|] eqn:Hg; [|by apply Hnow].
      destruct (Hk _ _ Hg) as [E|[(h' & a' & Hh' & Hlt & _ & E) _]];
        [by destruct (backup_key_not_mngt last a)|].
      apply backup_key_inj in E as [<- _]; [lia|done..].
    + rewrite (decide_False (P := h + 1 = last + 1)) by lia. apply Hundo; [lia|done].
  - rewrite Hl. cbn [obind]. eexists _, _. split; [done|].
    assert (Hd' : forall a, wf_Address a -> ldb_get cDB' a = hist to a).
    { intros a Ha. rewrite Hd by done. by rewrite decide_False by lia. }
    clear Hd.
    assert (Hset : forall k, ldb_get (bucket_Set PrefixManagement [] (cb_Bytes (mkClaimBackupInfo first to)) cbDB') k
      = if decide (PrefixManagement = k) then Some (marshal (mkClaimBackupInfo first to)) else ldb_get cbDB' k).
    { intros k. rewrite bucket_get_set, app_nil_r. done. }
    split; [done|]. split.
    + rewrite Hset. by rewrite decide_True.
    + split; [lia|unfold is_u64 in *; lia].
    + intros k v. rewrite Hset. case_decide as Ek; intros Hv; [by left|by apply Hk'].
    + done.
    + intros a Ha. by rewrite Hd'.
    + intros h Hh a Ha. rewrite (Hundo h ltac:(lia) a Ha).
      rewrite <-(Hb h a); [| |lia|done]; [|unfold is_u64 in *; lia].
      unfold backup_of. rewrite Hset.
      by rewrite decide_False by (intros E; by apply (backup_key_not_mngt h a)).
Qed.
(** ** Committing a block *)

(** What one pre-commit does to the claim of its address. *)
Definition apply_claim (pc : PreCommitData) (old : option ClaimData) : option ClaimData :=
  let cd := c_Data (pc_Claim pc) in
  if negb (Confirmed pc) || (cd_IScore cd =? 0) then old
  else match old with
       | None => Some cd
       | Some o => if cd_BlockHeight cd <=? cd_BlockHeight o then old
                   else Some (mkClaimData (cd_BlockHeight cd) (cd_IScore cd + cd_IScore o))
       end.

Definition apply_at (a : Address) (o : option ClaimData) (pc : PreCommitData) : option ClaimData :=
  if decide (c_Address (pc_Claim pc) = a) then apply_claim pc o else o.

(** The stores in the middle of block [h], against those before it. *)
Record block_journal (h : Z) (cDB0 cbDB0 cDB cbDB : D) : Prop := {
  bj_cdb : cdb_inv cDB;
  bj_one : forall a, wf_Address a ->
    match backup_of cbDB (h - 1) a with
    | Some v => backup_value v /\ undo v = ldb_get cDB0 a /\
                exists cd, wf cd /\ ldb_get cDB a = Some (marshal cd) /\ h <= cd_BlockHeight cd
    | None => ldb_get cDB a = ldb_get cDB0 a
    end;
  bj_other : forall k, (forall a, wf_Address a -> k <> be64 (h - 1) ++ a) ->
    ldb_get cbDB k = ldb_get cbDB0 k;
}.

(** The two writes of a claim: the backup of the old value, and the new one. *)
Lemma block_journal_write h cDB0 cbDB0 cDB cbDB a cd w :
  block_journal h cDB0 cbDB0 cDB cbDB -> cdb_inv cDB0 -> 1 <= h -> is_u64 h -> wf_Address a ->
  backup_of cbDB (h - 1) a = None ->
  w = match ldb_get cDB a with Some v => v | None => marshal zero_ClaimData end ->
  wf cd -> cd_BlockHeight cd = h ->
  block_journal h cDB0 cbDB0 (bucket_Set PrefixIScore a (marshal cd) cDB)
    (bucket_Set PrefixIScore (be64 (h - 1) ++ a) w cbDB).
Proof.
  intros [Hc Hone Hoth] Hc0 Hh Hu Ha Hno -> Hcd Hb.
  assert (Hu1 : is_u64 (h - 1)) by (unfold is_u64 in *; lia).
  pose proof (Hone a Ha) as Hnow. rewrite Hno in Hnow. split.
  - intros a' v. rewrite bucket_get_set. change (PrefixIScore ++ a) with a. case_decide; [|apply Hc].
    intros [= <-]. subst. split; [done|]. exists cd. split_and!; [done..|lia].
  - intros a' Ha'. unfold backup_of. rewrite !bucket_get_set.
    change (PrefixIScore ++ a) with a. change (PrefixIScore ++ be64 (h - 1) ++ a) with (be64 (h - 1) ++ a).
    destruct (decide (a = a')) as [<-|Hne].
    + rewrite !decide_True by done. rewrite Hnow. split_and!.
      * destruct (ldb_get cDB0 a) as [v|] eqn:E; [left|by right]. by apply (Hc0 a v).
      * destruct (ldb_get cDB0 a) as [v|] eqn:E; [|apply undo_zero]. by apply undo_claim, (Hc0 a v).
      * exists cd. split_and!; [done..|lia].
    + rewrite decide_False by (intros E; by apply app_inv_head in E). by apply Hone.
  - intros k Hk. rewrite bucket_get_set. change (PrefixIScore ++ be64 (h - 1) ++ a) with (be64 (h - 1) ++ a).
    rewrite decide_False; [by apply Hoth|]. intros <-. by apply (Hk a).
Qed.

Lemma write_one_spec h cDB0 cbDB0 cDB cbDB pc :
  block_journal h cDB0 cbDB0 cDB cbDB -> cdb_inv cDB0 -> 1 <= h -> is_u64 h ->
  wf (pc_Data pc) -> cd_BlockHeight (pc_Claim_Data pc) = h ->
  exists cDB' cbDB', write_one h pc cDB cbDB = Ok (cDB', cbDB') /\
    block_journal h cDB0 cbDB0 cDB' cbDB' /\
    forall a, claim_of cDB' a = apply_at a (claim_of cDB a) (pc_Data pc).
Proof.
  intros J Hc0 Hh Hu (_ & Ha & Hcd) Hb. unfold write_one.
  destruct pc as [? ? [conf ? ? [addr cd]]]. unfold pc_Claim_Data, pc_Confirmed in *.
  cbn [pc_Data pc_Claim c_Data c_Address] in *. subst h.
  unfold apply_at, apply_claim. cbn [pc_Confirmed Confirmed pc_Claim pc_Data c_Data c_Address].
  destruct (negb conf || (cd_IScore cd =? 0)).
  { exists cDB, cbDB. split_and!; [done..|]. intros a. by case_decide. }
  assert (Hbk : forall cd', c_BackupID (mkClaim addr cd') (cd_BlockHeight cd -u 1) = be64 (cd_BlockHeight cd - 1) ++ addr).
  { intros cd'. rewrite u64_small, c_BackupID_app; [done| |done|]; unfold is_u64 in *; lia. }
  rewrite !bucket_Get_ldb. change (PrefixIScore ++ c_ID (mkClaim addr cd)) with addr.
  assert (Hset : forall cd' v a, wf cd' -> v = marshal cd' ->
    claim_of (bucket_Set PrefixIScore addr v cDB) a = if decide (addr = a) then Some cd' else claim_of cDB a).
  { intros cd' v a Hcd' ->. unfold claim_of. rewrite bucket_get_set. change (PrefixIScore ++ addr) with addr.
    case_decide; [|done]. by rewrite unmarshal_new_marshal. }
  destruct (ldb_get cDB addr) as [bs|] eqn:Hg.
  - destruct (bj_cdb _ _ _ _ _ J _ _ Hg) as (_ & old & Hold & -> & Hold1).
    rewrite NewClaimFromBytes_marshal by done. cbn [c_Data].
    pose proof (claim_of_some _ _ _ Hold Hg) as Hco.
    destruct (Z.leb_spec (cd_BlockHeight cd) (cd_BlockHeight old)) as [Hle|Hlt].
    { exists cDB, cbDB. split_and!; [done..|]. intros a. case_decide as E; [|done].
      rewrite <-E, Hco. by rewrite (proj2 (Z.leb_le _ _)). }
    rewrite bucket_Get_ldb. change (PrefixIScore ++ c_ID (mkClaim addr _)) with addr. rewrite Hg.
    rewrite Hbk. eexists _, _. split_and!; [done| |].
    + eapply block_journal_write; try done; [|by rewrite Hg].
      pose proof (bj_one _ _ _ _ _ J addr Ha) as Hone. destruct (backup_of cbDB _ addr); [|done].
      destruct Hone as (_ & _ & cd1 & Hcd1 & E & Hle). rewrite Hg in E. injection E as E.
      apply marshal_inj in E as <-; [lia|done..].
    + intros a. rewrite (Hset (mkClaimData (cd_BlockHeight cd) (cd_IScore cd + cd_IScore old))) by done.
      case_decide as E; [|done]. rewrite <-E, (claim_of_some _ _ _ Hold Hg).
      by rewrite (proj2 (Z.leb_gt _ _)).
  - rewrite Hbk. eexists _, _. split_and!; [done| |].
    + eapply block_journal_write; try done; [|by rewrite Hg].
      pose proof (bj_one _ _ _ _ _ J addr Ha) as Hone. destruct (backup_of cbDB _ addr); [|done].
      destruct Hone as (_ & _ & cd1 & _ & E & _). congruence.
    + intros a. rewrite (Hset cd) by done. case_decide as E; [|done].
      unfold claim_of. by rewrite <-E, Hg.
Qed.

Lemma write_loop_spec h cDB0 cbDB0 pc0 l cDB cbDB :
  block_journal h cDB0 cbDB0 cDB cbDB -> cdb_inv cDB0 -> 1 <= h -> is_u64 h ->
  Forall (fun e => exists pc, pc_entry e.1 e.2 pc /\ pc_BlockHeight pc = h) l ->
  exists cDB' cbDB', write_loop h pc0 l cDB cbDB = Ok (cDB', cbDB') /\
    block_journal h cDB0 cbDB0 cDB' cbDB' /\
    forall a, claim_of cDB' a = fold_left (apply_at a)
      (map (fun e => (unmarshal e.2 (pc_Data zero_PreCommit)).1) l) (claim_of cDB a).
Proof.
  intros J Hc0 Hh Hu Hl. revert pc0 cDB cbDB J.
  induction Hl as [|[k v] l (pc & (Hpc & _ & Hv & Hb) & Hph) _ IH]; intros pc0 cDB cbDB J.
  { by exists cDB, cbDB. }
  cbn [fst snd] in *. subst v. cbn [write_loop map fold_left snd]. unfold pc_SetBytes, pc_Bytes.
  destruct Hpc as (_ & _ & _ & Hwf). rewrite !unmarshal_marshal by done. cbn [negb fst].
  destruct (write_one_spec h cDB0 cbDB0 cDB cbDB (pc_set_Data (pc_Data pc) pc0))
    as (cDB1 & cbDB1 & E & J1 & Hc1); [done..| |].
  { simpl. by rewrite <-Hph. }
  rewrite E. cbn [obind]. destruct (IH (pc_set_Data (pc_Data pc) pc0) cDB1 cbDB1 J1)
    as (cDB' & cbDB' & E' & J' & Hc').
  exists cDB', cbDB'. split_and!; [done..|]. intros a. by rewrite Hc', Hc1.
Qed.
(** ** Garbage collection *)

Lemma gc_keys_spec {E} n (cbDB : D) h to keys :
  n = Z.to_nat (to + 1 - h) -> is_u64 h -> to < max_u64 ->
  exists ks, gc_keys (E := E) n cbDB h to keys = Ok ks /\
    forall k, k ∈ ks <-> k ∈ keys \/ exists h', h <= h' <= to /\ k ∈ backup_keys cbDB h'.
Proof.
  revert h keys. induction n as [|n IH]; intros h keys Hn Hh Hmax; cbn [gc_keys].
  - rewrite (proj2 (Z.leb_gt h to)) by lia. exists keys. split; [done|]. intros k.
    split; [by left|]. intros [?|(h' & ? & _)]; [done|lia].
  - rewrite (proj2 (Z.leb_le h to)) by lia. rewrite u64_small by zlia.
    destruct (IH (h + 1) (keys ++ backup_keys cbDB h)) as (ks & E1 & Hks); [lia|zlia|done|].
    exists ks. split; [done|]. intros k. rewrite Hks, elem_of_app. split.
    + intros [[?|?]|(h' & ? & ?)]; [by left|right; exists h; split; [lia|done]|].
      right. exists h'. split; [lia|done].
    + intros [?|(h' & ? & ?)]; [by left; left|].
      destruct (decide (h' = h)) as [->|]; [by left; right|].
      right. exists h'. split; [lia|done].
Qed.

Lemma garbageCollect_spec {E} bound cbDB from to :
  cbdb_keys bound cbDB -> is_u64 from -> to < max_u64 ->
  exists cbDB', garbageCollectClaimBackupDB (E := E) cbDB from to = Ok cbDB' /\
    (forall k v, ldb_get cbDB' k = Some v -> ldb_get cbDB k = Some v) /\
    ldb_get cbDB' PrefixManagement = ldb_get cbDB PrefixManagement /\
    forall h a, is_u64 h -> wf_Address a ->
      backup_of cbDB' h a = if decide (from <= h <= to) then None else backup_of cbDB h a.
Proof.
  intros Hk Hf Hmax. unfold garbageCollectClaimBackupDB.
  destruct (gc_keys_spec (E := E) _ cbDB from to [] eq_refl Hf Hmax) as (ks & -> & Hks).
  cbn [obind]. eexists. split; [done|].
  assert (Hget : forall k, ldb_get (fold_left (fun d key => bucket_Delete PrefixClaim key d) ks cbDB) k
    = if decide (k ∈ ks) then None else ldb_get cbDB k).
  { intros k. exact (fold_delete_get PrefixClaim ks cbDB k). }
  assert (Hin : forall k, k ∈ ks -> exists h a, from <= h <= to /\ is_u64 h /\ wf_Address a /\ k = be64 h ++ a).
  { intros k [Hn|(h & Hh & Hkk)]%Hks; [by apply not_elem_of_nil in Hn|].
    assert (is_u64 h) by (unfold is_u64, max_u64 in *; lia).
    apply (backup_keys_elem bound) in Hkk as (a & Ha & -> & _); [|done..]. by exists h, a. }
  split_and!.
  - intros k v. rewrite Hget. by case_decide.
  - rewrite Hget, decide_False; [done|]. intros (h & a & _ & _ & _ & E1)%Hin.
    by destruct (backup_key_not_mngt h a).
  - intros h a Hh Ha. unfold backup_of. rewrite Hget.
    destruct (decide (from <= h <= to)) as [Hr|Hr]; case_decide as Hd; try done.
    + destruct (ldb_get cbDB (be64 h ++ a)) eqn:Hg; [|done]. destruct Hd. apply Hks. right.
      exists h. split; [done|]. apply (backup_keys_elem bound); [done..|].
      exists a. split_and!; [done..|]. by eexists.
    + apply Hin in Hd as (h' & a' & Hr' & Hh' & _ & E1).
      by apply backup_key_inj in E1 as [-> _].
Qed.

(** The window after block [h]. *)
Definition new_first (first h : Z) : Z := Z.max first (h - ClaimBackupPeriod).

(** The journal after garbage collection for block [h], with its new first height. *)
Lemma collect_spec cbDB f h : cbdb_keys h cbDB -> 1 <= f <= h -> is_u64 h ->
  exists cbDB1, (if ClaimBackupPeriod +u f <? h then
      let! cbDB1 := garbageCollectClaimBackupDB cbDB f (h -u ClaimBackupPeriod -u 1) in
      Ok (cbDB1, if f <? h -u ClaimBackupPeriod -u 1 +u 1 then h -u ClaimBackupPeriod -u 1 +u 1 else f)
    else Ok (cbDB, f)) = Ok (E := claim_error * D) (cbDB1, new_first f h) /\
    (forall k v, ldb_get cbDB1 k = Some v -> ldb_get cbDB k = Some v) /\
    (forall h' a, is_u64 h' -> wf_Address a -> new_first f h <= h' ->
       backup_of cbDB1 h' a = backup_of cbDB h' a).
Proof.
  intros Hk [Hf1 Hfh] Hh.
  unfold new_first. destruct (ClaimBackupPeriod +u f <? h) eqn:Hc; bool_to_Z.
  - assert (Hge : ClaimBackupPeriod < h).
    { unfold u64 in Hc. unfold ClaimBackupPeriod in *. unfold is_u64 in *.
      destruct (Z.lt_ge_cases (43120 * 2 - 1 + f) (2 ^ 64)); [rewrite Z.mod_small in Hc by lia|]; lia. }
    rewrite (u64_small (h - ClaimBackupPeriod)) by (unfold is_u64, ClaimBackupPeriod in *; lia).
    rewrite (u64_small (h - ClaimBackupPeriod - 1)) by (unfold is_u64, ClaimBackupPeriod in *; lia).
    rewrite (u64_small (h - ClaimBackupPeriod - 1 + 1)) by (unfold is_u64, ClaimBackupPeriod in *; lia).
    destruct (garbageCollect_spec (E := claim_error * D) h cbDB f (h - ClaimBackupPeriod - 1))
      as (cbDB1 & -> & Hs & _ & Hb); [done|unfold is_u64 in *; lia|unfold is_u64, max_u64, ClaimBackupPeriod in *; lia|].
    exists cbDB1. cbn [obind]. split_and!; [|done|].
    + do 2 f_equal. destruct (Z.ltb_spec f (h - ClaimBackupPeriod - 1 + 1)); lia.
    + intros h' a Hh' Ha Hle. rewrite Hb by done. rewrite decide_False by lia. done.
  - exists cbDB. split_and!; [|done..]. do 2 f_equal.
    assert (h <= ClaimBackupPeriod + f); [|lia].
    destruct (Z.lt_ge_cases (ClaimBackupPeriod + f) (2 ^ 64)); [|unfold is_u64 in *; lia].
    rewrite u64_small in Hc by (unfold is_u64, ClaimBackupPeriod in *; lia). done.
Qed.

Lemma writeClaimBackupInfo_spec cbDB h info :
  (ldb_get cbDB PrefixManagement = Some (marshal info) \/
   ldb_get cbDB PrefixManagement = None /\ info = mkClaimBackupInfo h h) ->
  wf info -> 1 <= FirstBlockHeight info -> 1 <= LastBlockHeight info <= h ->
  FirstBlockHeight info <= h -> is_u64 h -> cbdb_keys h cbDB ->
  exists cbDB', writeClaimBackupInfo cbDB h = Ok cbDB' /\
    ldb_get cbDB' PrefixManagement = Some (marshal (mkClaimBackupInfo (new_first (FirstBlockHeight info) h) h)) /\
    cbdb_keys h cbDB' /\
    forall h' a, is_u64 h' -> wf_Address a -> new_first (FirstBlockHeight info) h <= h' ->
      backup_of cbDB' h' a = backup_of cbDB h' a.
Proof.
  intros Hm Hwf Hf1 Hl1 Hfh Hh Hk. unfold writeClaimBackupInfo, cb_ID.
  rewrite bucket_Get_ldb, app_nil_r.
  assert (exists i0, match ldb_get cbDB PrefixManagement with
    | Some bs => let '(cbInfo, ok) := cb_SetBytes bs zero_ClaimBackupInfo in
                 if ok then Ok cbInfo else Err (ErrUnmarshal, cbDB)
    | None => Ok zero_ClaimBackupInfo end = Ok i0
    /\ (if FirstBlockHeight i0 =? 0 then h else FirstBlockHeight i0) = FirstBlockHeight info
    /\ (if LastBlockHeight i0 =? 0 then h else LastBlockHeight i0) = LastBlockHeight info)
    as (i0 & -> & Hf0 & Hl0).
  { destruct Hm as [-> |[-> ->]].
    - unfold cb_SetBytes. rewrite unmarshal_marshal by done. exists info.
      by rewrite !(proj2 (Z.eqb_neq _ 0)) by lia.
    - by exists zero_ClaimBackupInfo. }
  cbn [obind]. rewrite Hf0, Hl0. clear Hf0 Hl0 i0.
  set (f := FirstBlockHeight info) in *.
  destruct (collect_spec cbDB f h Hk (conj Hf1 Hfh) Hh) as (cbDB1 & -> & Hsub & Hb).
  cbn [obind]. eexists. split; [done|].
  assert (Hlast : (if LastBlockHeight info <? h then h else LastBlockHeight info) = h).
  { destruct (Z.ltb_spec (LastBlockHeight info) h); lia. }
  rewrite Hlast. unfold cb_Bytes.
  assert (Hset : forall v k, ldb_get (bucket_Set PrefixManagement [] v cbDB1) k
    = if decide (PrefixManagement = k) then Some v else ldb_get cbDB1 k).
  { intros v k. by rewrite bucket_get_set, app_nil_r. }
  split_and!.
  - rewrite Hset. by rewrite decide_True.
  - intros k v. rewrite Hset. case_decide; intros Hv; [by left|]. by apply Hk, Hsub.
  - intros h' a Hh' Ha Hle. unfold backup_of. rewrite Hset.
    rewrite decide_False by (intros E; by apply (backup_key_not_mngt h' a)).
    by apply Hb.
Qed.

(** ** A committed block *)

(** The pre-commits of a block, in key order. *)
Definition block_claims (pcDB : D) (h : Z) (hash : option bytes) : list PreCommitData :=
  map (fun e => (unmarshal e.2 (pc_Data zero_PreCommit)).1) (iter_prefix (flush_prefix h hash) pcDB).

Lemma block_entries pcDB h hash : pc_inv pcDB -> is_u64 h -> hash_ok hash ->
  Forall (fun e => exists pc, pc_entry e.1 e.2 pc /\ pc_BlockHeight pc = h)
    (iter_prefix (flush_prefix h hash) pcDB).
Proof.
  intros Hinv Hh Hhash. destruct (MakeIteratorPrefix_flush h hash Hh Hhash) as [_ Hb].
  apply Forall_forall. intros [k v] Hin. pose proof (iter_prefix_elem_1 _ _ _ _ Hin) as Hg.
  destruct (Hinv _ _ Hg) as (pc & He). exists pc. split; [done|].
  destruct (pc_inv_key _ _ _ Hinv Hg) as [_ Hkb].
  apply iter_prefix_elem in Hin as [_ [r Hr]]; [|done..].
  destruct He as (Hpc & -> & _). rewrite pc_ID_app in Hr by done.
  destruct Hpc as (Hbh & _). unfold flush_prefix in Hr. rewrite <-app_assoc in Hr.
  by apply backup_key_inj in Hr as [-> _].
Qed.

Lemma block_journal_start h cDB cbDB : cdb_inv cDB -> is_u64 h -> 1 <= h -> cbdb_keys (h - 1) cbDB ->
  block_journal h cDB cbDB cDB cbDB.
Proof.
  intros Hc Hh H1 Hk. split; [done| |done]. intros a Ha.
  destruct (backup_of cbDB (h - 1) a) as [v|] eqn:Hg; [|done].
  destruct (Hk _ _ Hg) as [E|[(h' & a' & Hh' & Hlt & _ & E) _]]; [by destruct (backup_key_not_mngt (h - 1) a)|].
  apply backup_key_inj in E as [<- _]; [lia| |done]. unfold is_u64 in *; lia.
Qed.

(** The backup keys after the loop. *)
Lemma block_journal_keys h cDB0 cbDB0 cDB cbDB : block_journal h cDB0 cbDB0 cDB cbDB ->
  1 <= h -> is_u64 h -> cbdb_keys (h - 1) cbDB0 -> cbdb_keys h cbDB.
Proof.
  intros [_ Hone Hoth] H1 Hh Hk k v Hv.
  destruct (decide (wf_Address (drop 8 k) /\ k = be64 (h - 1) ++ drop 8 k)) as [[Ha E]|Hne].
  - right. split; [exists (h - 1), (drop 8 k); split_and!; try done; unfold is_u64 in *; lia|].
    specialize (Hone _ Ha). unfold backup_of in Hone. rewrite <-E, Hv in Hone. by destruct Hone.
  - rewrite Hoth in Hv.
    + destruct (Hk _ _ Hv) as [?|[(h' & a & ? & ? & ? & ->) ?]]; [by left|right].
      split; [|done]. exists h', a. split_and!; try done. lia.
    + intros a Ha ->. apply Hne. by rewrite drop_app_length' by (by rewrite length_be64).
Qed.

Lemma commit_core pcDB cDB cbDB h hash info :
  pc_inv pcDB -> hash_ok hash -> is_u64 h -> cdb_inv cDB -> cbdb_keys (h - 1) cbDB ->
  (ldb_get cbDB PrefixManagement = Some (marshal info) \/
   ldb_get cbDB PrefixManagement = None /\ info = mkClaimBackupInfo h h) ->
  wf info -> 1 <= FirstBlockHeight info <= h -> 1 <= LastBlockHeight info <= h ->
  exists cDB' cbDB',
    writePreCommitToClaimDB pcDB cDB cbDB h hash = Ok (flushPreCommit pcDB h None, cDB', cbDB') /\
    cdb_inv cDB' /\ cbdb_keys h cbDB' /\
    ldb_get cbDB' PrefixManagement = Some (marshal (mkClaimBackupInfo (new_first (FirstBlockHeight info) h) h)) /\
    (forall h' a, is_u64 h' -> h' <> h - 1 -> wf_Address a ->
       new_first (FirstBlockHeight info) h <= h' -> backup_of cbDB' h' a = backup_of cbDB h' a) /\
    (forall a, wf_Address a -> new_first (FirstBlockHeight info) h <= h - 1 ->
       ldb_get cDB a = match backup_of cbDB' (h - 1) a with Some v => undo v | None => ldb_get cDB' a end) /\
    (forall a, claim_of cDB' a = fold_left (apply_at a) (block_claims pcDB h hash) (claim_of cDB a)).
Proof.
  intros Hpc Hhash Hh Hc Hk Hm Hwf Hf Hl. unfold writePreCommitToClaimDB.
  destruct (MakeIteratorPrefix_flush h hash Hh Hhash) as [-> _].
  change (iter_New (Some (BytesPrefix (flush_prefix h hash)).1) (BytesPrefix (flush_prefix h hash)).2 pcDB)
    with (iter_prefix (flush_prefix h hash) pcDB).
  destruct (write_loop_spec h cDB cbDB zero_PreCommit (iter_prefix (flush_prefix h hash) pcDB) cDB cbDB)
    as (cDB1 & cbDB1 & -> & J & Hcl); [apply block_journal_start; (done || lia)|done|lia|done|by apply block_entries|].
  pose proof (block_journal_keys _ _ _ _ _ J ltac:(lia) Hh Hk) as Hk1.
  assert (Hm1 : ldb_get cbDB1 PrefixManagement = ldb_get cbDB PrefixManagement).
  { apply (bj_other _ _ _ _ _ J). intros a _ E. by destruct (backup_key_not_mngt (h - 1) a). }
  destruct (writeClaimBackupInfo_spec cbDB1 h info) as (cbDB2 & -> & Hm2 & Hk2 & Hb2);
    [by rewrite Hm1|done|lia|lia|lia|done|done|].
  exists cDB1, cbDB2. split_and!; [done|by apply (bj_cdb _ _ _ _ _ J)|done|done| | |done].
  - intros h' a Hh' Hne Ha Hle. rewrite Hb2 by done. unfold backup_of.
    apply (bj_other _ _ _ _ _ J). intros a' _ E.
    apply backup_key_inj in E as [? _]; [done..|unfold is_u64 in *; lia].
  - intros a Ha Hle. rewrite Hb2; [|unfold is_u64 in *; lia|done..].
    pose proof (bj_one _ _ _ _ _ J a Ha) as Hone.
    destruct (backup_of cbDB1 (h - 1) a); [by destruct Hone as (_ & -> & _)|done].
Qed.

Lemma cbdb_keys_mono b b' cbDB : cbdb_keys b cbDB -> b <= b' -> cbdb_keys b' cbDB.
Proof.
  intros Hk Hle k v Hv. destruct (Hk k v Hv) as [?|[(h & a & ? & ? & ? & ->) ?]]; [by left|right].
  split; [|done]. exists h, a. split_and!; try done. lia.
Qed.

(** The history once a block at height [h] changed the claim DB. *)
Definition extend (hist : history) (last h : Z) (cDB cDB' : D) : history := fun h' a =>
  if h' <? h then if h' <=? last then hist h' a else ldb_get cDB a else ldb_get cDB' a.

(** Committing a block never fails on a well-formed store, adds each
    confirmed claim of the block to the total of its address, removes the
    pre-commits of the height, and extends the journal: every block of the
    (possibly shorter) window can still be restored. *)
Lemma writePreCommitToClaimDB_journal pcDB cDB cbDB hist first last h hash :
  journal cDB cbDB hist first last -> pc_inv pcDB -> hash_ok hash -> is_u64 h -> last < h ->
  exists cDB' cbDB',
    writePreCommitToClaimDB pcDB cDB cbDB h hash = Ok (flushPreCommit pcDB h None, cDB', cbDB') /\
    (forall a, claim_of cDB' a = fold_left (apply_at a) (block_claims pcDB h hash) (claim_of cDB a)) /\
    journal cDB' cbDB' (extend hist last h cDB cDB') (new_first first h) h.
Proof.
  intros J Hpc Hhash Hh Hlt. pose proof (journal_info _ _ _ _ _ J) as Hwf.
  destruct J as [Hinfo [Hr1 Hr2] Hk Hc Hnow Hundo].
  destruct (commit_core pcDB cDB cbDB h hash (mkClaimBackupInfo first last))
    as (cDB' & cbDB' & E & Hc' & Hk' & Hm' & Hb' & Hu' & Hcl); try done; simpl; try lia.
  { eapply cbdb_keys_mono; [done|lia]. }
  { by left. }
  exists cDB', cbDB'. split_and!; [done..|]. simpl in *.
  assert (Hnf : first <= new_first first h <= h) by (unfold new_first, ClaimBackupPeriod; lia).
  split; [done|split; [lia|done]|done|done| |].
  - intros a Ha. unfold extend. by rewrite Z.ltb_irrefl.
  - intros h' Hh' a Ha. unfold extend.
    rewrite (proj2 (Z.ltb_lt h' h)) by lia.
    destruct (decide (h' = h - 1)) as [-> |Hne].
    + replace (h - 1 + 1) with h by lia. rewrite Z.ltb_irrefl.
      rewrite <-Hu' by (done || lia). destruct (Z.leb_spec (h - 1) last); [|done].
      assert (h - 1 = last) as -> by lia. by apply Hnow.
    + rewrite Hb'; [|unfold is_u64 in *; lia|done|done|lia].
      rewrite (proj2 (Z.ltb_lt (h' + 1) h)) by lia.
      destruct (Z.leb_spec h' last) as [Hle|Hgt].
      * destruct (decide (h' = last)) as [->|Hne'].
        -- rewrite (proj2 (Z.leb_gt (last + 1) last)) by lia. rewrite Hnow by done.
           destruct (backup_of cbDB last a) as [v|] eqn:Hg; [|done].
           destruct (Hk _ _ Hg) as [E1|[(h2 & a2 & Hh2 & Hlt2 & _ & E1) _]];
             [by destruct (backup_key_not_mngt last a)|].
           apply backup_key_inj in E1 as [<- _]; [lia|done..].
        -- rewrite (proj2 (Z.leb_le (h' + 1) last)) by lia. apply Hundo; [lia|done].
      * rewrite (proj2 (Z.leb_gt (h' + 1) last)) by lia.
        destruct (backup_of cbDB h' a) as [v|] eqn:Hg; [|done].
        destruct (Hk _ _ Hg) as [E1|[(h2 & a2 & Hh2 & Hlt2 & _ & E1) _]];
          [by destruct (backup_key_not_mngt h' a)|].
        apply backup_key_inj in E1 as [<- _]; [lia|unfold is_u64 in *; lia|done].
Qed.
(** The first block ever committed opens the window. *)
Lemma writePreCommitToClaimDB_first pcDB cDB cbDB h hash :
  cdb_inv cDB -> cbdb_keys 0 cbDB -> ldb_get cbDB PrefixManagement = None ->
  pc_inv pcDB -> hash_ok hash -> is_u64 h -> 1 <= h ->
  exists cDB' cbDB',
    writePreCommitToClaimDB pcDB cDB cbDB h hash = Ok (flushPreCommit pcDB h None, cDB', cbDB') /\
    journal cDB' cbDB' (fun _ => ldb_get cDB') h h.
Proof.
  intros Hc Hk Hm Hpc Hhash Hh H1.
  destruct (commit_core pcDB cDB cbDB h hash (mkClaimBackupInfo h h))
    as (cDB' & cbDB' & E & Hc' & Hk' & Hm' & _); try done; simpl; try lia.
  { eapply cbdb_keys_mono; [done|lia]. }
  { by right. }
  exists cDB', cbDB'. split; [done|]. simpl in Hm'.
  unfold new_first in Hm'. rewrite Z.max_l in Hm' by (unfold ClaimBackupPeriod; lia).
  split; [done|split; [lia|done]|done..|lia].
Qed.
End Journal.
