(* ===== verification/History.v ===== *)
(** * Blocks committed and rolled back: the claim DB against its history

    The abstract state is a log: the claim DB after each block that was
    committed, newest first.  Committing a block appends to it, rolling back
    drops the later entries.  The claim DB and the claim backup DB implement
    it: whatever the sequence of commits and rollbacks, a rollback to a height
    of the window of [ClaimBackupInfo] ends with the claims of the log. *)

From S2P Require Import Prelude Bytes HexInt Address Store Codec ClaimDB ClaimJournal.

Section History.
Context {D : Type} `{!LevelDB D, !LevelDBLaws D}.
Context `{!Codec ClaimData, !CodecLaws ClaimData, !Codec ClaimBackupInfo,
  !CodecLaws ClaimBackupInfo, !Codec PreCommitData, !CodecLaws PreCommitData}.

Abbreviation log := (list (Z * D)).

(** The claim of an address in the block at a height. *)
Fixpoint log_at (l : log) (h : Z) (a : Address) : option bytes :=
  match l with
  | [] => None
  | (h0, d) :: l => if h0 <=? h then ldb_get d a else log_at l h a
  end.

Definition log_until (to : Z) (l : log) : log := filter (fun e => e.1 <= to) l.

(** The claim stores after a sequence of commits and rollbacks, with the
    height of the last block and the log. *)
Inductive committed : Z -> D -> D -> log -> Prop :=
  | committed_first pcDB cDB cbDB h hash pcDB' cDB' cbDB' :
      cdb_inv cDB -> cbdb_keys 0 cbDB -> ldb_get cbDB PrefixManagement = None ->
      pc_inv pcDB -> hash_ok hash -> is_u64 h -> 1 <= h ->
      writePreCommitToClaimDB pcDB cDB cbDB h hash = Ok (pcDB', cDB', cbDB') ->
      committed h cDB' cbDB' [(h, cDB')]
  | committed_block last cDB cbDB l pcDB h hash pcDB' cDB' cbDB' :
      committed last cDB cbDB l -> pc_inv pcDB -> hash_ok hash -> is_u64 h -> last < h ->
      writePreCommitToClaimDB pcDB cDB cbDB h hash = Ok (pcDB', cDB', cbDB') ->
      committed h cDB' cbDB' ((h, cDB') :: l)
  | committed_rollback last cDB cbDB l to cDB' cbDB' :
      committed last cDB cbDB l -> FirstBlockHeight (info_of cbDB) <= to < last ->
      rollbackClaimDB_stores cDB cbDB to = Ok (true, (cDB', cbDB')) ->
      committed to cDB' cbDB' (log_until to l).

Lemma journal_ext (cDB cbDB : D) (hist hist' : Z -> Address -> option bytes) first last :
  journal cDB cbDB hist first last ->
  (forall h a, wf_Address a -> first <= h <= last -> hist' h a = hist h a) ->
  journal cDB cbDB hist' first last.
Proof.
  intros [H1 [H2 H2'] H3 H4 H5 H6] E. split; [done..| |].
  - intros a Ha. rewrite E by (done || lia). by apply H5.
  - intros h Hh a Ha. rewrite !E by (done || lia). by apply H6.
Qed.

Lemma log_at_until to l h a : h <= to -> log_at (log_until to l) h a = log_at l h a.
Proof.
  intros Hh. unfold log_until. induction l as [|[h0 d] l IH]; [done|].
  rewrite filter_cons. cbn [fst]. case_decide as Hd; cbn [log_at].
  - by rewrite IH.
  - rewrite IH. by rewrite (proj2 (Z.leb_gt h0 h)) by lia.
Qed.

Lemma log_at_last h d l h' a : h <= h' -> log_at ((h, d) :: l) h' a = ldb_get d a.
Proof. intros. cbn. by rewrite (proj2 (Z.leb_le _ _)). Qed.

(** The log never looks above its head. *)
Lemma committed_log last cDB cbDB l : committed last cDB cbDB l ->
  forall h a, last <= h -> log_at l h a = log_at l last a.
Proof.
  induction 1 as [| |last cDB cbDB l to cDB' cbDB' _ IH Hto _]; intros h' a Hh'.
  - by rewrite !log_at_last by lia.
  - by rewrite !log_at_last by lia.
  - rewrite (log_at_until to l to) by done. clear -Hh'. unfold log_until.
    induction l as [|[h0 d] l IH]; [done|]. rewrite filter_cons. cbn [fst log_at].
    case_decide as Hd; cbn [log_at].
    + by rewrite !(proj2 (Z.leb_le _ _)) by lia.
    + by rewrite (proj2 (Z.leb_gt h0 to)) by lia.
Qed.

Lemma info_of_journal (cDB cbDB : D) hist first last : journal cDB cbDB hist first last ->
  info_of cbDB = mkClaimBackupInfo first last.
Proof.
  intros J. unfold info_of. rewrite (j_info _ _ _ _ _ J).
  by rewrite unmarshal_marshal by (by eapply journal_info).
Qed.

(** The stores implement the log. *)
Lemma committed_journal last cDB cbDB l : committed last cDB cbDB l ->
  exists first, journal cDB cbDB (log_at l) first last.
Proof.
  induction 1 as [pcDB cDB cbDB h hash pcDB' cDB' cbDB' Hc Hk Hm Hpc Hh Hu H1 E
    |last cDB cbDB l pcDB h hash pcDB' cDB' cbDB' Hl [first J] Hpc Hh Hu Hlt E
    |last cDB cbDB l to cDB' cbDB' Hl [first J] Hto E].
  - destruct (writePreCommitToClaimDB_first pcDB cDB cbDB h hash) as (c & cb & E' & J); [done..|].
    rewrite E in E'. simplify_eq. exists h. eapply journal_ext; [exact J|].
    intros h' a _ Hh'. by rewrite log_at_last by lia.
  - destruct (writePreCommitToClaimDB_journal pcDB cDB cbDB (log_at l) first last h hash)
      as (c & cb & E' & _ & J'); [done..|].
    rewrite E in E'. simplify_eq. exists (new_first first h). eapply journal_ext; [exact J'|].
    intros h' a Ha Hh'. unfold extend. cbn [log_at].
    destruct (Z.ltb_spec h' h) as [Hb|Hb].
    + rewrite (proj2 (Z.leb_gt h h')) by lia. destruct (Z.leb_spec h' last); [done|].
      rewrite (committed_log last cDB cbDB l Hl) by lia. by apply (j_now _ _ _ _ _ J).
    + by rewrite (proj2 (Z.leb_le h h')) by lia.
  - rewrite (info_of_journal _ _ _ _ _ J) in Hto. cbn in Hto.
    destruct (rollbackClaimDB_restores cDB cbDB (log_at l) first last to J Hto) as (c & cb & E' & _ & J').
    rewrite E in E'. simplify_eq. exists first. eapply journal_ext; [exact J'|].
    intros h' a _ Hh'. apply log_at_until. lia.
Qed.

(** C19: whatever blocks were committed and rolled back before, a rollback to a
    height of the window returns and leaves exactly the claims there were
    after the last block up to that height, and the stores can go on from
    there: committing a block never fails either. *)
Theorem claim_history last cDB cbDB l : committed last cDB cbDB l ->
  (forall to, FirstBlockHeight (info_of cbDB) <= to < last ->
     exists cDB' cbDB', rollbackClaimDB_stores cDB cbDB to = Ok (true, (cDB', cbDB')) /\
       (forall a, wf_Address a -> ldb_get cDB' a = log_at l to a) /\
       committed to cDB' cbDB' (log_until to l)) /\
  (forall pcDB h hash, pc_inv pcDB -> hash_ok hash -> is_u64 h -> last < h ->
     exists cDB' cbDB',
       writePreCommitToClaimDB pcDB cDB cbDB h hash = Ok (flushPreCommit pcDB h None, cDB', cbDB') /\
       (forall a, claim_of cDB' a = fold_left (apply_at a) (block_claims pcDB h hash) (claim_of cDB a)) /\
       committed h cDB' cbDB' ((h, cDB') :: l)).
Proof.
  intros Hc. destruct (committed_journal _ _ _ _ Hc) as [first J].
  pose proof (info_of_journal _ _ _ _ _ J) as Hi. split.
  - intros to Hto. pose proof Hto as Hto'. rewrite Hi in Hto'. cbn in Hto'.
    destruct (rollbackClaimDB_restores cDB cbDB (log_at l) first last to J Hto') as (c & cb & E & Hd & _).
    exists c, cb. split_and!; [done..|]. by eapply committed_rollback.
  - intros pcDB h hash Hpc Hh Hu Hlt.
    destruct (writePreCommitToClaimDB_journal pcDB cDB cbDB (log_at l) first last h hash)
      as (c & cb & E & Hcl & _); [done..|].
    exists c, cb. split_and!; [done..|]. by eapply committed_block.
Qed.
End History.
