(* ===== verification/Management.v ===== *)
(** * The management DB: [core/db_management.go]

    The records of the management DB: the DB information (block heights and the
    account DB toggle), governance variables, Main/Sub P-Rep lists and P-Rep
    candidates, and the functions that load them. *)

From Stdlib Require Strings.String.
From S2P Require Import Prelude Bytes HexInt Address Store Codec ClaimDB.
Import String.StringSyntax.

Definition MaxDBCount : Z := 256.
Definition NumMainPRep : Z := 22.
Definition NumSubPRep : Z := 78.

(** ** DB information *)

Record DBInfoDataV1 := mkDBInfoDataV1 {
  v1_DBCount : Z;
  v1_BlockHeight : Z;
  v1_QueryDBIsZero : bool;
}.

(** The hash is an array of [BlockHashSize] bytes. *)
Record BlockInfo := mkBlockInfo { bi_BlockHeight : Z; bi_BlockHash : bytes }.

(** A shorter hash leaves the tail of the array. *)
Definition BlockInfo_set (bi : BlockInfo) (blockHeight : Z) (blockHash : bytes) : BlockInfo :=
  mkBlockInfo blockHeight (copy_at 0 blockHash (bi_BlockHash bi)).

Definition BlockInfo_checkValue (bi : BlockInfo) (blockHeight : Z) (blockHash : bytes) : bool :=
  (bi_BlockHeight bi =? blockHeight) && bool_decide (bi_BlockHash bi = blockHash).

Definition BlockInfo_equal (bi dst : BlockInfo) : bool :=
  (bi_BlockHeight bi =? bi_BlockHeight dst) && bool_decide (bi_BlockHash bi = bi_BlockHash dst).

Record DBInfoData := mkDBInfoData {
  DBCount : Z;
  QueryDBIsZero : bool;
  Current : BlockInfo;
  CalcDone : Z;
  PrevCalcDone : Z;
  Calculating : Z;
  ToggleBH : Z;
}.

Definition set_Current (b : BlockInfo) (d : DBInfoData) : DBInfoData :=
  mkDBInfoData (DBCount d) (QueryDBIsZero d) b (CalcDone d) (PrevCalcDone d) (Calculating d) (ToggleBH d).
Definition set_CalcDone (h : Z) (d : DBInfoData) : DBInfoData :=
  mkDBInfoData (DBCount d) (QueryDBIsZero d) (Current d) h (PrevCalcDone d) (Calculating d) (ToggleBH d).
Definition set_PrevCalcDone (h : Z) (d : DBInfoData) : DBInfoData :=
  mkDBInfoData (DBCount d) (QueryDBIsZero d) (Current d) (CalcDone d) h (Calculating d) (ToggleBH d).
Definition set_Calculating (h : Z) (d : DBInfoData) : DBInfoData :=
  mkDBInfoData (DBCount d) (QueryDBIsZero d) (Current d) (CalcDone d) (PrevCalcDone d) h (ToggleBH d).
Definition set_Toggle (q : bool) (h : Z) (d : DBInfoData) : DBInfoData :=
  mkDBInfoData (DBCount d) q (Current d) (CalcDone d) (PrevCalcDone d) (Calculating d) h.
Definition set_DBCount (n : Z) (d : DBInfoData) : DBInfoData :=
  mkDBInfoData n (QueryDBIsZero d) (Current d) (CalcDone d) (PrevCalcDone d) (Calculating d) (ToggleBH d).

Definition zero_BlockInfo : BlockInfo := mkBlockInfo 0 (make_bytes BlockHashSize).
Definition zero_DBInfoData : DBInfoData := mkDBInfoData 0 false zero_BlockInfo 0 0 0 0.
Definition zero_DBInfoDataV1 : DBInfoDataV1 := mkDBInfoDataV1 0 0 false.

(** The data of [DBInfo]; its root path and type never change. *)
Definition dbi_ID : bytes := [].

Section DBInfo.
Context {D : Type} `{!LevelDB D, !Codec DBInfoData, !Codec DBInfoDataV1}.

Definition dbi_Bytes (d : DBInfoData) : bytes := marshal d.

(** [backwardCompatibility]: the fields of the old record over what the
    receiver holds. *)
Definition dbi_backwardCompatibility (bs : bytes) (d : DBInfoData) : DBInfoData * bool :=
  let '(v1, ok) := unmarshal bs zero_DBInfoDataV1 in
  if negb ok then (d, false)
  else
    let h := v1_BlockHeight v1 in
    (mkDBInfoData (v1_DBCount v1) (v1_QueryDBIsZero v1) (Current d) h h h (ToggleBH d), true).

Definition dbi_SetBytes (bs : bytes) (d : DBInfoData) : DBInfoData * bool :=
  let '(d, ok) := unmarshal bs d in
  if ok : bool then (d, true) else dbi_backwardCompatibility bs d.

(** The stored information, or a fresh one that is written. *)
Definition NewDBInfo {E} (mngDB : D) (dbCount : Z) : outcome E (DBInfoData * D) :=
  match bucket_Get PrefixManagement mngDB dbi_ID with
  | Some data =>
      let '(d, ok) := dbi_SetBytes data zero_DBInfoData in
      if ok : bool then Ok (d, mngDB) else Panic
  | None =>
      let d := set_DBCount dbCount zero_DBInfoData in
      Ok (d, bucket_Set PrefixManagement dbi_ID (dbi_Bytes d) mngDB)
  end.
End DBInfo.

(** ** Keys by block height *)

(** The [ID] methods of the records kept by height. *)
Definition height_ID (blockHeight : Z) : bytes :=
  let id := Uint64ToBytes blockHeight in
  let bs := make_bytes 8 in copy_at (length bs - length id) id bs.

Lemma height_ID_be64 h : is_u64 h -> height_ID h = be64 h.
Proof. apply copy_height_key. Qed.

(** ** Governance variables *)

Definition iScoreMultiplier : Z := 1000.
Definition BigIntTwo : Z := 2.
Definition BigInt100 : Z := 100.
Definition BigIntIScoreMultiplier : Z := iScoreMultiplier.

Record GVData := mkGVData {
  CalculatedIncentiveRep : Z;
  RewardRep : Z;
  MainPRepCount : Z;
  SubPRepCount : Z;
}.

Record GovernanceVariable := mkGV {
  gv_BlockHeight : Z;
  gv_Data : GVData;
  BlockProduceReward : Z;
  PRepReward : Z;
}.

Definition zero_GV : GovernanceVariable := mkGV 0 (mkGVData 0 0 0 0) 0 0.

Definition gv_ID (gv : GovernanceVariable) : bytes := height_ID (gv_BlockHeight gv).

Definition gv_setReward (gv : GovernanceVariable) : GovernanceVariable :=
  let d := gv_Data gv in
  let bp := CalculatedIncentiveRep d * MainPRepCount d in
  let bp := bp * BigIntIScoreMultiplier in
  let bp := big_Div bp BigIntTwo in
  let pr := CalculatedIncentiveRep d * BigInt100 in
  let pr := pr * BigIntIScoreMultiplier in
  mkGV (gv_BlockHeight gv) d bp pr.

Definition gv_set_BlockHeight (h : Z) (gv : GovernanceVariable) : GovernanceVariable :=
  mkGV h (gv_Data gv) (BlockProduceReward gv) (PRepReward gv).

(** ** P-Reps *)

Record PRepDelegationInfo := mkPRepDelegationInfo {
  di_Address : Address;
  DelegatedAmount : Z;
}.

Record PRepData := mkPRepData {
  TotalDelegation : Z;
  pd_List : list PRepDelegationInfo;
}.

Record PRep := mkPRep { pr_BlockHeight : Z; pr_Data : PRepData }.

Definition zero_PRep : PRep := mkPRep 0 (mkPRepData 0 []).
Definition pr_ID (bp : PRep) : bytes := height_ID (pr_BlockHeight bp).

(** [pc_End] is 0 until the candidate unregisters. *)
Record PRepCandidateData := mkPRepCandidateData { pc_Start : Z; pc_End : Z }.
Record PRepCandidate := mkPRepCandidate { pcd_Address : Address; pcd_Data : PRepCandidateData }.

Definition zero_PRepCandidate : PRepCandidate :=
  mkPRepCandidate zero_Address (mkPRepCandidateData 0 0).
Definition pcd_ID (p : PRepCandidate) : bytes := Address_Bytes (pcd_Address p).

(** [map[common.Address]*PRepCandidate]. *)
Abbreviation PRepCandidates := (gmap bytes PRepCandidate).

(** The order [sort.Slice] establishes on governance variables. *)
Definition gv_le (g1 g2 : GovernanceVariable) : Prop := gv_BlockHeight g1 <= gv_BlockHeight g2.
#[global] Instance gv_le_dec : RelDecision gv_le.
Proof. intros ??. unfold gv_le. apply _. Defined.
#[global] Instance gv_le_total : Total gv_le.
Proof. intros ??. unfold gv_le. lia. Qed.
#[global] Instance gv_le_trans : Transitive gv_le.
Proof. intros ???. unfold gv_le. lia. Qed.

Section Records.
Context {D : Type} `{!LevelDB D}.
Context `{!Codec GVData, !Codec PRepData, !Codec PRepCandidateData}.

Definition gv_Bytes (gv : GovernanceVariable) : bytes := marshal (gv_Data gv).
Definition gv_SetBytes (bs : bytes) (gv : GovernanceVariable) : GovernanceVariable * bool :=
  let '(d, ok) := unmarshal bs (gv_Data gv) in
  let gv := mkGV (gv_BlockHeight gv) d (BlockProduceReward gv) (PRepReward gv) in
  if ok : bool then (gv_setReward gv, true) else (gv, false).

Definition pr_Bytes (bp : PRep) : bytes := marshal (pr_Data bp).
Definition pr_SetBytes (bs : bytes) (bp : PRep) : PRep * bool :=
  let '(d, ok) := unmarshal bs (pr_Data bp) in (mkPRep (pr_BlockHeight bp) d, ok).

Definition pcd_Bytes (p : PRepCandidate) : bytes := marshal (pcd_Data p).
Definition pcd_SetBytes (bs : bytes) (p : PRepCandidate) : PRepCandidate * bool :=
  let '(d, ok) := unmarshal bs (pcd_Data p) in (mkPRepCandidate (pcd_Address p) d, ok).

(** The loaders ignore decoding errors. *)
Definition load_gv (e : bytes * bytes) : GovernanceVariable :=
  let gvBlockHeight := BytesToUint64 (drop (length PrefixGovernanceVariable) e.1) in
  gv_set_BlockHeight gvBlockHeight (gv_SetBytes e.2 zero_GV).1.

Definition LoadGovernanceVariable (dbi : D) : list GovernanceVariable :=
  merge_sort gv_le (map load_gv (iter_prefix PrefixGovernanceVariable dbi)).

Definition load_prep (e : bytes * bytes) : PRep :=
  mkPRep (BytesToUint64 (drop (length PrefixPRep) e.1)) (pr_Data (pr_SetBytes e.2 zero_PRep).1).

Definition LoadPRep (dbi : D) : list PRep := map load_prep (iter_prefix PrefixPRep dbi).

Fixpoint load_candidates {E : Type} (l : list (bytes * bytes)) (m : PRepCandidates)
    : outcome E PRepCandidates :=
  match l with
  | [] => Ok m
  | (k, v) :: l =>
      match NewAddress (Some (drop (length PrefixPRepCandidate) k)) with
      | Ok addr =>
          let p := (pcd_SetBytes v zero_PRepCandidate).1 in
          load_candidates l (<[addr := mkPRepCandidate addr (pcd_Data p)]> m)
      | _ => Panic
      end
  end.

Definition LoadPRepCandidate {E : Type} (dbi : D) : outcome E PRepCandidates :=
  load_candidates (iter_prefix PrefixPRepCandidate dbi) ∅.
End Records.

(** ** Well-formed records *)

#[global] Instance wf_GVData : WF GVData := fun _ => True.
#[global] Instance wf_PRepData : WF PRepData := fun d =>
  Forall (fun i => wf_Address (di_Address i)) (pd_List d).
#[global] Instance wf_PRepCandidateData : WF PRepCandidateData := fun d =>
  is_u64 (pc_Start d) /\ is_u64 (pc_End d).

(** An array of the type has its length, an [int] its range. *)
#[global] Instance wf_DBInfoData : WF DBInfoData := fun d =>
  is_i64 (DBCount d) /\ length (bi_BlockHash (Current d)) = BlockHashSize /\
  is_u64 (bi_BlockHeight (Current d)) /\ is_u64 (CalcDone d) /\ is_u64 (PrevCalcDone d) /\
  is_u64 (Calculating d) /\ is_u64 (ToggleBH d).
#[global] Instance wf_DBInfoDataV1 : WF DBInfoDataV1 := fun d =>
  is_i64 (v1_DBCount d) /\ is_u64 (v1_BlockHeight d).

Lemma BlockInfo_set_hash bi h hash : length (bi_BlockHash bi) = BlockHashSize ->
  length hash = BlockHashSize -> BlockInfo_set bi h hash = mkBlockInfo h hash.
Proof.
  intros H1 H2. unfold BlockInfo_set. f_equal. rewrite <-(app_nil_r (bi_BlockHash bi)).
  rewrite copy_at_0, app_nil_r; [done|congruence].
Qed.
