(* ===== verification/IISSData.v ===== *)
(** * IISS data: [core/db_iissdata.go]

    The input of a calculation: a store with a header, governance variables,
    P-Rep lists, block produce information and transactions, written by the
    ICON service and read here; and the clean-up of the directories that held
    such stores. *)

From Stdlib Require Strings.String.
From S2P Require Import Prelude Bytes HexInt Address Store Codec Typed Account ClaimDB Management.
Import String.StringSyntax.

Definition IISSDataVersion : Z := 2.
Definition IISSDataRevisionDefault : Z := 0.
Definition IISSDataDBPrefix : bytes := str "iiss_rc_db_".

Record IISSHeader := mkIISSHeader { ih_Version : Z; ih_BlockHeight : Z; ih_Revision : Z }.
Record IISSGVData := mkIISSGVData {
  IncentiveRep : Z;
  ig_RewardRep : Z;
  ig_MainPRepCount : Z;
  ig_SubPRepCount : Z;
}.
Record IISSGovernanceVariable := mkIISSGV { ig_BlockHeight : Z; ig_Data : IISSGVData }.
Record IISSBlockProduceInfoData := mkIISSBPData { Generator : Address; Validator : list Address }.
Record IISSBlockProduceInfo := mkIISSBP { bp_BlockHeight : Z; bp_Data : IISSBlockProduceInfoData }.

Definition TXDataTypeDelegate : Z := 0.
Definition TXDataTypePrepReg : Z := 1.
Definition TXDataTypePrepUnReg : Z := 2.

Record IISSTXData := mkIISSTXData {
  tx_Address : Address;
  tx_BlockHeight : Z;
  tx_DataType : Z;
  tx_Data : option TypedObj;
}.
Record IISSTX := mkIISSTX { tx_Index : Z; tx_TXData : IISSTXData }.

Definition zero_IISSHeader : IISSHeader := mkIISSHeader 0 0 0.
Definition zero_IISSGV : IISSGovernanceVariable := mkIISSGV 0 (mkIISSGVData 0 0 0 0).
Definition zero_IISSBP : IISSBlockProduceInfo := mkIISSBP 0 (mkIISSBPData zero_Address []).
Definition zero_IISSTX : IISSTX := mkIISSTX 0 (mkIISSTXData zero_Address 0 0 None).

Definition ih_ID : bytes := [].
Definition ig_ID (gv : IISSGovernanceVariable) : bytes := height_ID (ig_BlockHeight gv).
Definition bp_ID (bp : IISSBlockProduceInfo) : bytes := height_ID (bp_BlockHeight bp).
Definition tx_ID (tx : IISSTX) : bytes := height_ID (tx_Index tx).

Inductive iiss_error := ErrNoHeader | ErrDecode | ErrParameter | ErrEncodeStake.

Section IISSData.
Context {D : Type} `{!LevelDB D}.
Context `{!Codec IISSHeader, !Codec IISSGVData, !Codec IISSBlockProduceInfoData,
  !Codec IISSTXData, !Codec PRepData}.

(** A version 1 header has no revision. *)
Definition ih_SetBytes (bs : bytes) (ih : IISSHeader) : IISSHeader * bool :=
  let '(ih, ok) := unmarshal bs ih in
  if negb ok then (ih, false)
  else if ih_Version ih =? 1
  then (mkIISSHeader (ih_Version ih) (ih_BlockHeight ih) IISSDataRevisionDefault, true)
  else (ih, true).

Definition ig_SetBytes (bs : bytes) (version : Z) (gv : IISSGovernanceVariable)
    : IISSGovernanceVariable * bool :=
  let '(d, ok) := unmarshal bs (ig_Data gv) in
  if negb ok then (mkIISSGV (ig_BlockHeight gv) d, false)
  else if version =? 1
  then (mkIISSGV (ig_BlockHeight gv) (mkIISSGVData (IncentiveRep d) (ig_RewardRep d) 0 0), true)
  else (mkIISSGV (ig_BlockHeight gv) d, true).

Definition bp_SetBytes (bs : bytes) (bp : IISSBlockProduceInfo) : IISSBlockProduceInfo * bool :=
  let '(d, ok) := unmarshal bs (bp_Data bp) in (mkIISSBP (bp_BlockHeight bp) d, ok).

Definition tx_SetBytes (bs : bytes) (tx : IISSTX) : IISSTX * bool :=
  let '(d, ok) := unmarshal bs (tx_TXData tx) in (mkIISSTX (tx_Index tx) d, ok).

Definition loadIISSHeader (iissDB : D) : outcome iiss_error IISSHeader :=
  match bucket_Get PrefixIISSHeader iissDB [] with
  | None => Err ErrNoHeader
  | Some data =>
      let '(header, ok) := ih_SetBytes data zero_IISSHeader in
      if ok : bool then Ok header else Err ErrDecode
  end.

(** The first entry that does not decode fails the load. *)
Fixpoint load_iiss_gv (version : Z) (l : list (bytes * bytes))
    : outcome iiss_error (list IISSGovernanceVariable) :=
  match l with
  | [] => Ok []
  | (k, v) :: l =>
      let '(gv, ok) := ig_SetBytes v version zero_IISSGV in
      if negb ok then Err ErrDecode
      else
        let gv := mkIISSGV (BytesToUint64 (drop (length PrefixIISSGV) k)) (ig_Data gv) in
        let! gvList := load_iiss_gv version l in Ok (gv :: gvList)
  end.

Definition loadIISSGovernanceVariable (iissDB : D) (version : Z)
    : outcome iiss_error (list IISSGovernanceVariable) :=
  load_iiss_gv version (iter_prefix PrefixIISSGV iissDB).

(** [LoadIISSData]: nil results when anything fails. *)
Definition LoadIISSData (iissDB : D)
    : option (IISSHeader * list IISSGovernanceVariable * list PRep) :=
  match loadIISSHeader iissDB with
  | Ok header =>
      match loadIISSGovernanceVariable iissDB (ih_Version header) with
      | Ok gvList => Some (header, gvList, LoadPRep iissDB)
      | _ => None
      end
  | _ => None
  end.

(** ** Writers *)

Definition WriteIISSHeader (iiss : D) (version blockHeight revision : Z) : D :=
  bucket_Set PrefixIISSHeader [] (marshal (mkIISSHeader version blockHeight revision)) iiss.

Definition WriteIISSGV (iiss : D) (blockHeight incentive reward mainPRepCount subPRepCount : Z) : D :=
  let gv := mkIISSGV blockHeight (mkIISSGVData incentive reward mainPRepCount subPRepCount) in
  bucket_Set PrefixIISSGV (ig_ID gv) (marshal (ig_Data gv)) iiss.

(** [NewAddressFromString] panics on a malformed string. *)
Fixpoint addresses_of (l : list bytes) : outcome iiss_error (list Address) :=
  match l with
  | [] => Ok []
  | s :: l =>
      match NewAddressFromString s with
      | Ok a => let! r := addresses_of l in Ok (a :: r)
      | _ => Panic
      end
  end.

Definition WriteIISSBP (iiss : D) (blockHeight : Z) (generator : bytes) (validator : list bytes)
    : outcome iiss_error D :=
  if bool_decide (generator = []) || (length validator =? 0)%nat then Err ErrParameter
  else
    let! g := match NewAddressFromString generator with Ok a => Ok a | _ => Panic end in
    let! v := addresses_of validator in
    let bp := mkIISSBP blockHeight (mkIISSBPData g v) in
    Ok (bucket_Set PrefixIISSBPInfo (bp_ID bp) (marshal (bp_Data bp)) iiss).

Definition WriteIISSPRep (iiss : D) (blockHeight totalDelegation : Z)
    (preps : list PRepDelegationInfo) : outcome iiss_error D :=
  if (length preps =? 0)%nat then Err ErrParameter
  else
    let prep := mkPRep blockHeight (mkPRepData totalDelegation preps) in
    Ok (bucket_Set PrefixIISSPRep (pr_ID prep) (marshal (pr_Data prep)) iiss).

(** The slice of one delegation is not emptied between delegations: the
    second element holds four values, the third six. *)
Fixpoint delegation_data (dgData : list any) (delegations : list PRepDelegationInfo) : list any :=
  match delegations with
  | [] => []
  | dg :: l =>
      let dgData := dgData ++ [AnyAddress (di_Address dg); AnyUint64 (big_Uint64 (DelegatedAmount dg))] in
      AnyList dgData :: delegation_data dgData l
  end.

Definition WriteIISSTX (iiss : D) (index : Z) (address : bytes) (blockHeight dataType : Z)
    (delegations : list PRepDelegationInfo) : outcome iiss_error D :=
  let! a := match NewAddressFromString address with Ok a => Ok a | _ => Panic end in
  let! data :=
    if dataType =? TXDataTypeDelegate then
      match EncodeAny (AnyList (delegation_data [] delegations)) with
      | Ok to => Ok to
      | Err _ => Err ErrEncodeStake
      | Panic => Panic
      end
    else if (dataType =? TXDataTypePrepReg) || (dataType =? TXDataTypePrepUnReg)
    then Ok (Some (mkTypedObj TypeNil (ObjBytes [])))
    else Ok (Some (mkTypedObj 0 ObjNil)) in
  let tx := mkIISSTX index (mkIISSTXData a blockHeight dataType data) in
  Ok (bucket_Set PrefixIISSTX (tx_ID tx) (marshal (tx_TXData tx)) iiss).
End IISSData.

(** ** Well-formed records *)

#[global] Instance wf_IISSHeader : WF IISSHeader := fun h =>
  is_u64 (ih_Version h) /\ is_u64 (ih_BlockHeight h) /\ is_u64 (ih_Revision h).
#[global] Instance wf_IISSGVData : WF IISSGVData := fun d =>
  is_u64 (IncentiveRep d) /\ is_u64 (ig_RewardRep d) /\ is_u64 (ig_MainPRepCount d) /\ is_u64 (ig_SubPRepCount d).
#[global] Instance wf_IISSBPData : WF IISSBlockProduceInfoData := fun d =>
  wf_Address (Generator d) /\ Forall wf_Address (Validator d).
#[global] Instance wf_IISSTXData : WF IISSTXData := fun d =>
  wf_Address (tx_Address d) /\ is_u64 (tx_BlockHeight d) /\ is_u64 (tx_DataType d).

(** [NewGVFromIISS] of [core/db_management.go]. *)
Definition NewGVFromIISS (iiss : IISSGovernanceVariable) : GovernanceVariable :=
  let d := ig_Data iiss in
  gv_setReward (mkGV (ig_BlockHeight iiss)
    (mkGVData (IncentiveRep d) (ig_RewardRep d) (ig_MainPRepCount d) (ig_SubPRepCount d)) 0 0).

(** [NewIScoreAccountFromIISS] of [core/db_account.go]: nil unless the
    transaction is a delegation. *)
Definition NewIScoreAccountFromIISS {E} (tx : IISSTX) : outcome E (option IScoreAccount) :=
  let d := tx_TXData tx in
  if negb (tx_DataType d =? TXDataTypeDelegate) then Ok None
  else NewIScoreAccountFromDelegation (tx_Address d) (tx_BlockHeight d) (tx_Data d).

(** ** Cleaning up the IISS data directories *)

(** [fmt.Sscanf] of a literal followed by [%d] into an [int]: white space, a
    sign, digits; a value out of range or no digit is an error. *)
Definition is_digit (c : byte) : bool := (48 <=? c) && (c <=? 57).

Fixpoint scan_digits (acc : option Z) (s : bytes) : option Z :=
  match s with
  | c :: s => if is_digit c then scan_digits (Some (default 0 acc * 10 + (c - 48))) s else acc
  | [] => acc
  end.

Fixpoint skip_space (s : bytes) : bytes :=
  match s with
  | c :: r => if (c =? 32) || (c =? 9) || (c =? 11) || (c =? 12) || (c =? 13) then skip_space r else s
  | [] => []
  end.

Definition scan_int (s : bytes) : option Z :=
  let s := skip_space s in
  let v := match s with
           | 45 :: s => option_map Z.opp (scan_digits None s)
           | 43 :: s => scan_digits None s
           | s => scan_digits None s
           end in
  match v with
  | Some v => if (- 2 ^ 63 <=? v) && (v <? 2 ^ 63) then Some v else None
  | None => None
  end.

Fixpoint strip_prefix (p s : bytes) : option bytes :=
  match p, s with
  | [], s => Some s
  | a :: p, b :: s => if a =? b then strip_prefix p s else None
  | _ :: _, [] => None
  end.

(** The variable keeps its value when the scan fails. *)
Definition Sscanf_d (prefix name : bytes) (var : Z) : Z :=
  match strip_prefix prefix name with
  | Some r => default var (scan_int r)
  | None => var
  end.

(** [findIISSData] on the entries of a directory: names, and whether they are
    directories themselves. *)
Definition findIISSData (files : list (bytes * bool)) (prefix : bytes) : list bytes :=
  map fst (filter (fun f : bytes * bool => f.2 = true /\
    (prefix = [] \/ is_Some (strip_prefix prefix f.1))) files).

(** [cleanupIISSData]: the names that are removed, [name] being the last
    element of the path.  [backupBH] is one variable for the whole loop. *)
Fixpoint cleanup_loop (blockHeight backupBH : Z) (l : list bytes) : list bytes :=
  match l with
  | [] => []
  | n :: l =>
      let backupBH := Sscanf_d IISSDataDBPrefix n backupBH in
      if backupBH <? blockHeight then n :: cleanup_loop blockHeight backupBH l
      else cleanup_loop blockHeight backupBH l
  end.

Definition cleanupIISSData (files : list (bytes * bool)) (name : bytes) : list bytes :=
  let blockHeight := Sscanf_d IISSDataDBPrefix name 0 in
  cleanup_loop blockHeight 0 (findIISSData files IISSDataDBPrefix).
