(* ===== verification/IScoreDB.v ===== *)
(** * The I-Score databases: [IScoreDB] of [core/context.go]

    The stores of a running Reward Calculator and the directory that holds the
    account DBs.  There are two lists of account DBs: queries and claims read
    the query DBs, a calculation reads them and writes the calculate DBs, and
    the lists are exchanged by [toggleAccountDB].  [resetAccountDB] moves the
    old query DBs away as a backup, from which [rollbackAccountDB] takes them
    back.  [os.Rename] and [os.RemoveAll] act on the directory; a handle is
    the name of the directory entry it has open. *)

From Stdlib Require Strings.String.
From stdpp Require Import pretty.
From S2P Require Import Prelude Bytes HexInt Address Store Codec ClaimDB Management.
Import String.StringSyntax.

(** ** Directory entries *)

(** The two formats [calculate_%d_%d_%d] and [backup_%d_%d], by their
    parameters; printing is injective and [Sscanf] reads them back. *)
Inductive fname :=
  | AccountName (index count postfix : Z)
  | BackupName (calcBH index : Z).

#[global] Instance fname_eq_dec : EqDecision fname.
Proof. solve_decision. Defined.

#[global] Instance fname_countable : Countable fname.
Proof.
  refine (inj_countable'
    (fun f => match f with AccountName i n p => inl (i, n, p) | BackupName b i => inr (b, i) end)
    (fun s => match s with inl (i, n, p) => AccountName i n p | inr (b, i) => BackupName b i end) _).
  by intros [].
Defined.

Definition BackupDBNamePrefix : bytes := str "backup_".

Definition fname_string (f : fname) : bytes :=
  match f with
  | AccountName i n p =>
      str "calculate_" ++ str (pretty i) ++ str "_" ++ str (pretty n) ++ str "_" ++ str (pretty p)
  | BackupName b i => BackupDBNamePrefix ++ str (pretty b) ++ str "_" ++ str (pretty i)
  end.

Definition fname_le (f1 f2 : fname) : Prop := fname_string f1 <=b fname_string f2.
#[global] Instance fname_le_dec : RelDecision fname_le.
Proof. intros ??. unfold fname_le. apply _. Defined.

(** The patterns [backup_*] and [backup_<height>_*]. *)
Definition backup_match (blockHeight : option Z) (f : fname) : bool :=
  match f, blockHeight with
  | BackupName b _, Some h => b =? h
  | BackupName _ _, None => true
  | AccountName _ _ _, _ => false
  end.

Record IScoreDB (D : Type) := mkIScoreDB {
  info : DBInfoData;
  management : D;
  calcResult : D;
  preCommit : D;
  claim : D;
  claimBackup : D;
  Account0 : list fname;
  Account1 : list fname;
  files : gmap fname D;
}.
Arguments mkIScoreDB {D}. Arguments info {D}. Arguments management {D}. Arguments calcResult {D}.
Arguments preCommit {D}. Arguments claim {D}. Arguments claimBackup {D}.
Arguments Account0 {D}. Arguments Account1 {D}. Arguments files {D}.

Section Setters.
Context {D : Type}.
Implicit Type s : IScoreDB D.

Definition set_info v s := mkIScoreDB v (management s) (calcResult s) (preCommit s) (claim s)
  (claimBackup s) (Account0 s) (Account1 s) (files s).
Definition set_management v s := mkIScoreDB (info s) v (calcResult s) (preCommit s) (claim s)
  (claimBackup s) (Account0 s) (Account1 s) (files s).
Definition set_calcResult v s := mkIScoreDB (info s) (management s) v (preCommit s) (claim s)
  (claimBackup s) (Account0 s) (Account1 s) (files s).
Definition set_preCommit v s := mkIScoreDB (info s) (management s) (calcResult s) v (claim s)
  (claimBackup s) (Account0 s) (Account1 s) (files s).
Definition set_claims c cb s := mkIScoreDB (info s) (management s) (calcResult s) (preCommit s) c
  cb (Account0 s) (Account1 s) (files s).
Definition set_accounts a0 a1 s := mkIScoreDB (info s) (management s) (calcResult s) (preCommit s)
  (claim s) (claimBackup s) a0 a1 (files s).
Definition set_files f s := mkIScoreDB (info s) (management s) (calcResult s) (preCommit s)
  (claim s) (claimBackup s) (Account0 s) (Account1 s) f.
End Setters.

Section IScoreDB.
Context {D : Type} `{!LevelDB D, !Codec DBInfoData}.
Implicit Type s : IScoreDB D.

(** ** Account DBs *)

Definition getQueryDBList s : list fname := if QueryDBIsZero (info s) then Account0 s else Account1 s.
Definition getCalcDBList s : list fname := if QueryDBIsZero (info s) then Account1 s else Account0 s.

(** Through a handle: the content of the entry, and an update of it. *)
Definition db_at s (f : fname) : D := default ldb_empty (files s !! f).
Definition db_update (f : fname) (v : D) s : IScoreDB D := set_files (<[f := v]> (files s)) s.

(** [db.Open] creates what does not exist. *)
Definition db_Open (f : fname) (fs : gmap fname D) : gmap fname D :=
  match fs !! f with Some _ => fs | None => <[f := ldb_empty]> fs end.

(** A division by zero and an index out of range panic. *)
Definition getAccountDBIndex {E} s (address : Address) : outcome E nat :=
  match Address_ID address with
  | [] => Panic
  | prefix :: _ =>
      if DBCount (info s) =? 0 then Panic else Ok (Z.to_nat (Z.rem prefix (DBCount (info s))))
  end.

Definition nth_db {E} (l : list fname) (i : nat) : outcome E fname :=
  match l !! i with Some f => Ok f | None => Panic end.

Definition getCalculateDB {E} s (address : Address) : outcome E fname :=
  let! i := getAccountDBIndex s address in nth_db (getCalcDBList s) i.
Definition getQueryDB {E} s (address : Address) : outcome E fname :=
  let! i := getAccountDBIndex s address in nth_db (getQueryDBList s) i.

Definition account_names (count postfix : Z) : list fname :=
  map (fun i => AccountName i count postfix) (seqZ 1 count).

Definition OpenAccountDB s : IScoreDB D :=
  let l0 := account_names (DBCount (info s)) 0 in
  let l1 := account_names (DBCount (info s)) 1 in
  set_accounts l0 l1 (set_files (foldl (flip db_Open) (foldl (flip db_Open) (files s) l0) l1) s).

Definition CloseAccountDB s : IScoreDB D := set_accounts [] [] s.

(** ** Block heights *)

Definition writeToDB s : IScoreDB D :=
  set_management (bucket_Set PrefixManagement dbi_ID (dbi_Bytes (info s)) (management s)) s.

Definition toggleAccountDB (blockHeight : Z) s : IScoreDB D :=
  if ToggleBH (info s) =? blockHeight then s
  else writeToDB (set_info (set_Toggle (negb (QueryDBIsZero (info s))) blockHeight (info s)) s).

Definition getCalcDoneBH s := CalcDone (info s).
Definition getPrevCalcDoneBH s := PrevCalcDone (info s).
Definition getCalculatingBH s := Calculating (info s).
Definition getCurrentBlockInfo s := Current (info s).

Definition setCalculatingBH (blockHeight : Z) s : IScoreDB D :=
  writeToDB (set_info (set_Calculating blockHeight (info s)) s).
Definition resetCalculatingBH s : IScoreDB D :=
  writeToDB (set_info (set_Calculating (CalcDone (info s)) (info s)) s).
Definition isCalculating s : bool := getCalcDoneBH s <? getCalculatingBH s.
Definition setCurrentBlockInfo (blockHeight : Z) (blockHash : bytes) s : IScoreDB D :=
  writeToDB (set_info (set_Current (BlockInfo_set (Current (info s)) blockHeight blockHash) (info s)) s).
Definition setCalcDoneBH (blockHeight : Z) s : IScoreDB D :=
  let i := set_PrevCalcDone (CalcDone (info s)) (info s) in
  writeToDB (set_info (set_CalcDone blockHeight i) s).
Definition rollbackCurrentBlockInfo (blockHeight : Z) (blockHash : bytes) s : IScoreDB D :=
  writeToDB (setCurrentBlockInfo blockHeight blockHash s).
Definition rollbackAccountDBBlockInfo s : IScoreDB D :=
  let i := set_CalcDone (PrevCalcDone (info s)) (info s) in
  writeToDB (set_info (set_Calculating (PrevCalcDone i) i) s).

(** ** Backup of the account DBs *)

Definition RemoveAll (f : fname) (fs : gmap fname D) : gmap fname D := delete f fs.

(** [os.Rename] of a missing entry is an error. *)
Definition Rename (old new_ : fname) (fs : gmap fname D) : option (gmap fname D) :=
  match fs !! old with Some d => Some (<[new_ := d]> (delete old fs)) | None => None end.

(** [filepath.Glob] of the backups, all or of one height, in name order. *)
Definition Glob_backup (blockHeight : option Z) (fs : gmap fname D) : list fname :=
  merge_sort fname_le
    (filter (fun f => backup_match blockHeight f = true) ((map_to_list fs).*1)).

(** The loop over the old query DBs, [i] counting from 0; the flag tells
    whether it ended without error. *)
Fixpoint reset_loop (blockHeight count postfix i : Z) (oldQueryDBs : list fname)
    (fs : gmap fname D) : gmap fname D * bool :=
  match oldQueryDBs with
  | [] => (fs, true)
  | _ :: l =>
      let dbName := AccountName (i + 1) count postfix in
      let backup := BackupName blockHeight (i + 1) in
      match (match fs !! backup with Some _ => Some fs | None => Rename dbName backup fs end) with
      | None => (fs, false)
      | Some fs => reset_loop blockHeight count postfix (i + 1) l (db_Open dbName fs)
      end
  end.

(** The handles are replaced only when the loop ended; its error is not
    used by the caller. *)
Definition resetAccountDB (blockHeight oldCalcBH : Z) s : IScoreDB D :=
  let oldQueryDBs := getCalcDBList s in
  let postfix := if QueryDBIsZero (info s) then 1 else 0 in
  let fs := foldl (flip RemoveAll) (files s) (Glob_backup (Some oldCalcBH) (files s)) in
  let '(fs, ok) := reset_loop blockHeight (DBCount (info s)) postfix 0 oldQueryDBs fs in
  let s := set_files fs s in
  if negb ok then s
  else
    let newCalcDBs := map (fun i => AccountName i (DBCount (info s)) postfix)
                        (seqZ 1 (Z.of_nat (length oldQueryDBs))) in
    if QueryDBIsZero (info s) then set_accounts (Account0 s) newCalcDBs s
    else set_accounts newCalcDBs (Account1 s) s.

(** [CalculationResult.ID]; [DeleteCalculationResult] of
    [core/db_calculate.go]. *)
Definition cr_ID (blockHeight : Z) : bytes := Uint64ToBytes blockHeight.
Definition DeleteCalculationResult (blockHeight : Z) (crDB : D) : D :=
  bucket_Delete PrefixCalcResult (cr_ID blockHeight) crDB.

(** One backup: the calculate DB of its index is removed, and the backup
    renamed to it. *)
Fixpoint rollback_backups (count postfix : Z) (backups : list fname) (fs : gmap fname D)
    : gmap fname D * bool :=
  match backups with
  | [] => (fs, true)
  | BackupName b index :: l =>
      let calcDBName := AccountName index count postfix in
      match Rename (BackupName b index) calcDBName (RemoveAll calcDBName fs) with
      | Some fs => rollback_backups count postfix l fs
      | None => (RemoveAll calcDBName fs, false)
      end
  | AccountName _ _ _ :: l => rollback_backups count postfix l fs
  end.

(** Nothing after the loop runs when a rename fails: the DBs stay closed. *)
Definition rollbackAccountDB (blockHeight : Z) s : IScoreDB D * bool :=
  let postfix := if QueryDBIsZero (info s) then 1 else 0 in
  let backups := Glob_backup None (files s) in
  let s := CloseAccountDB s in
  let '(fs, ok) := rollback_backups (DBCount (info s)) postfix backups (files s) in
  let s := set_files fs s in
  if negb ok then (s, false)
  else
    let s := OpenAccountDB s in
    let s := toggleAccountDB blockHeight s in
    let s := set_calcResult (DeleteCalculationResult (getCalcDoneBH s) (calcResult s)) s in
    (rollbackAccountDBBlockInfo s, true).
End IScoreDB.

(** ** Backup and rollback of the account DBs *)

Section Backup.
Context {D : Type} `{!LevelDB D, !Codec DBInfoData}.
Implicit Type (s : IScoreDB D) (fs : gmap fname D).

(** The account DBs of both lists exist and are open under their names. *)
Record accounts_ok s : Prop := {
  ao_0 : Account0 s = account_names (DBCount (info s)) 0;
  ao_1 : Account1 s = account_names (DBCount (info s)) 1;
  ao_files : forall i p, 1 <= i <= DBCount (info s) -> (p = 0 \/ p = 1) ->
    is_Some (files s !! AccountName i (DBCount (info s)) p);
}.

Definition query_postfix s : Z := if QueryDBIsZero (info s) then 0 else 1.
Definition calc_postfix s : Z := if QueryDBIsZero (info s) then 1 else 0.
Definition query_name s (i : Z) : fname := AccountName i (DBCount (info s)) (query_postfix s).
Definition calc_name s (i : Z) : fname := AccountName i (DBCount (info s)) (calc_postfix s).

Lemma elem_of_account_names n p f : f ∈ account_names n p <-> exists i, 1 <= i <= n /\ f = AccountName i n p.
Proof.
  unfold account_names. rewrite list_elem_of_fmap. split.
  - intros (i & -> & Hi%elem_of_seqZ). exists i. split; [lia|done].
  - intros (i & Hi & ->). exists i. split; [done|]. apply elem_of_seqZ. lia.
Qed.

Lemma db_Open_id f fs : is_Some (fs !! f) -> db_Open f fs = fs.
Proof. intros [d Hd]. unfold db_Open. by rewrite Hd. Qed.

Lemma foldl_db_Open_id l fs : Forall (fun f => is_Some (fs !! f)) l -> foldl (flip db_Open) fs l = fs.
Proof.
  induction 1 as [|f l Hf _ IH]; [done|]. cbn [foldl].
  change (flip db_Open fs f) with (db_Open f fs). by rewrite db_Open_id.
Qed.

Lemma reset_loop_spec bh count p l i fs :
  (forall j, i < j <= i + Z.of_nat (length l) -> is_Some (fs !! AccountName j count p)) ->
  (forall j, i < j <= i + Z.of_nat (length l) -> fs !! BackupName bh j = None) ->
  exists fs', reset_loop bh count p i l fs = (fs', true) /\
    (forall j, i < j <= i + Z.of_nat (length l) ->
      fs' !! AccountName j count p = Some ldb_empty /\ fs' !! BackupName bh j = fs !! AccountName j count p) /\
    (forall f, (forall j, i < j <= i + Z.of_nat (length l) -> f <> AccountName j count p /\ f <> BackupName bh j) ->
      fs' !! f = fs !! f).
Proof.
  revert i fs. induction l as [|x l IH]; intros i fs Ha Hb.
  { exists fs. cbn [reset_loop length] in *. split_and!; [done|lia|done]. }
  cbn [reset_loop length] in *. rewrite Nat2Z.inj_succ in *.
  rewrite (Hb (i + 1)) by lia. destruct (Ha (i + 1)) as [d Hd]; [lia|].
  unfold Rename. rewrite Hd.
  set (fs1 := <[BackupName bh (i + 1) := d]> (delete (AccountName (i + 1) count p) fs)).
  assert (Hopen : db_Open (AccountName (i + 1) count p) fs1 = <[AccountName (i + 1) count p := ldb_empty]> fs1).
  { unfold db_Open, fs1. by rewrite lookup_insert_ne, lookup_delete_eq. }
  rewrite Hopen. set (fs2 := <[_ := _]> fs1).
  assert (Hfs2 : forall f, f <> AccountName (i + 1) count p -> f <> BackupName bh (i + 1) -> fs2 !! f = fs !! f).
  { intros f H1 H2. unfold fs2, fs1. by rewrite !lookup_insert_ne, lookup_delete_ne. }
  destruct (IH (i + 1) fs2) as (fs' & E & H1 & H2).
  - intros j Hj. rewrite Hfs2 by (congruence || intros [=]; lia). apply Ha. lia.
  - intros j Hj. rewrite Hfs2 by (congruence || intros [=]; lia). apply Hb. lia.
  - exists fs'. split; [done|]. split.
    + intros j Hj. destruct (decide (j = i + 1)) as [->|Hne].
      * rewrite !H2 by (intros j' Hj'; split; intros [=]; lia).
        unfold fs2, fs1. rewrite lookup_insert_eq, lookup_insert_ne, lookup_insert_eq by done. by rewrite Hd.
      * destruct (H1 j) as [-> ->]; [lia|]. split; [done|].
        apply Hfs2; [intros [=]; lia|done].
    + intros f Hf. rewrite H2, Hfs2; [done|apply Hf; lia|apply Hf; lia|].
      intros j Hj. apply Hf. lia.
Qed.

Lemma rollback_backups_spec bh count p l fs :
  NoDup l -> (forall f, f ∈ l -> exists i, f = BackupName bh i /\ is_Some (fs !! f)) ->
  exists fs', rollback_backups count p l fs = (fs', true) /\
    (forall i, BackupName bh i ∈ l ->
      fs' !! AccountName i count p = fs !! BackupName bh i /\ fs' !! BackupName bh i = None) /\
    (forall f, (forall i, BackupName bh i ∈ l -> f <> AccountName i count p /\ f <> BackupName bh i) ->
      fs' !! f = fs !! f).
Proof.
  revert fs. induction l as [|f l IH]; intros fs Hnd Hl.
  { exists fs. split; [done|]. split; [|done]. intros i Hi. by apply not_elem_of_nil in Hi. }
  apply NoDup_cons in Hnd as [Hn Hnd]. destruct (Hl f) as (i & -> & [d Hd]); [by left|].
  cbn [rollback_backups]. unfold Rename, RemoveAll. rewrite lookup_delete_ne, Hd by done.
  set (fs1 := <[AccountName i count p := d]> _).
  assert (Hfs1 : forall f, f <> AccountName i count p -> f <> BackupName bh i -> fs1 !! f = fs !! f).
  { intros f H1 H2. unfold fs1. by rewrite lookup_insert_ne, !lookup_delete_ne. }
  destruct (IH fs1 Hnd) as (fs' & E & H1 & H2).
  { intros f Hf. destruct (Hl f) as (j & -> & Hs); [by right|]. exists j. split; [done|].
    rewrite Hfs1; [done|done|]. intros [= ->]. done. }
  assert (Hnj : forall j, BackupName bh j ∈ l -> j <> i) by (intros j Hj ->; done).
  exists fs'. split; [done|]. split.
  - intros j [E'|Hj]%elem_of_cons.
    + injection E' as ->. rewrite !H2 by (intros j' Hj'%Hnj; split; congruence).
      unfold fs1. rewrite lookup_insert_eq, lookup_insert_ne, lookup_delete_eq by done. by rewrite Hd.
    + destruct (H1 j Hj) as [-> ->]. split; [|done]. apply Hfs1; [done|]. apply Hnj in Hj. congruence.
  - intros f Hf. rewrite H2, Hfs1; [done|apply Hf; by left|apply Hf; by left|].
    intros j Hj. apply Hf. by right.
Qed.

Lemma Glob_backup_elem h fs f : f ∈ Glob_backup h fs <-> backup_match h f = true /\ is_Some (fs !! f).
Proof.
  unfold Glob_backup. rewrite merge_sort_Permutation, list_elem_of_filter, list_elem_of_fmap.
  split.
  - intros [Hm ([f' d] & -> & Hd%elem_of_map_to_list)]. split; [done|]. by exists d.
  - intros [Hm [d Hd]]. split; [done|]. exists (f, d). by rewrite elem_of_map_to_list.
Qed.

Lemma Glob_backup_NoDup h fs : NoDup (Glob_backup h fs).
Proof.
  unfold Glob_backup. rewrite merge_sort_Permutation. apply NoDup_filter, NoDup_fst_map_to_list.
Qed.

Lemma foldl_RemoveAll_lookup l fs f :
  foldl (flip RemoveAll) fs l !! f = if decide (f ∈ l) then None else fs !! f.
Proof.
  revert fs. induction l as [|f' l IH]; intros fs; cbn [foldl].
  { by rewrite decide_False by apply not_elem_of_nil. }
  rewrite IH. unfold flip, RemoveAll.
  destruct (decide (f ∈ l)) as [H|H], (decide (f ∈ f' :: l)) as [H'|H']; try done.
  - destruct H'. by right.
  - apply elem_of_cons in H' as [->|?]; [by rewrite lookup_delete_eq|done].
  - rewrite lookup_delete_ne; [done|]. intros ->. destruct H'. by left.
Qed.
(** The list of calculate DBs, by name. *)
Lemma calc_list s : accounts_ok s -> getCalcDBList s = account_names (DBCount (info s)) (calc_postfix s).
Proof. intros [H0 H1 _]. unfold getCalcDBList, calc_postfix. by destruct (QueryDBIsZero _). Qed.

Lemma query_list s : accounts_ok s -> getQueryDBList s = account_names (DBCount (info s)) (query_postfix s).
Proof. intros [H0 H1 _]. unfold getQueryDBList, query_postfix. by destruct (QueryDBIsZero _). Qed.

Lemma length_account_names n p : 0 <= n -> Z.of_nat (length (account_names n p)) = n.
Proof. intros Hn. unfold account_names. rewrite length_fmap, length_seqZ. lia. Qed.

Lemma postfix_cases s : (calc_postfix s = 0 /\ query_postfix s = 1) \/ (calc_postfix s = 1 /\ query_postfix s = 0).
Proof. unfold calc_postfix, query_postfix. destruct (QueryDBIsZero _); auto. Qed.

(** Accounts of every address can be looked up, in a DB of the list. *)
Lemma nth_account_db {E : Type} s a (l : list fname) : 1 <= DBCount (info s) -> wf_Address a ->
  Z.of_nat (length l) = DBCount (info s) ->
  exists f, (let! i := getAccountDBIndex (E := E) s a in nth_db l i) = Ok f /\ f ∈ l.
Proof.
  intros Hn Ha Hl. unfold getAccountDBIndex, nth_db.
  destruct (wf_Address_inv a Ha) as (t & [|b id] & -> & _ & Hid & Hb); [done|].
  cbn [Address_ID drop]. inversion_clear Hb as [|? ? Hb0 _].
  rewrite (proj2 (Z.eqb_neq _ _)) by lia. cbn [obind].
  destruct (lookup_lt_is_Some_2 l (Z.to_nat (Z.rem b (DBCount (info s))))) as [f Hf].
  { apply Nat2Z.inj_lt. pose proof (Z.rem_bound_pos b (DBCount (info s))). zlia. }
  rewrite Hf. exists f. split; [done|]. by eapply list_elem_of_lookup_2.
Qed.

Lemma getQueryDB_ok {E : Type} s a : accounts_ok s -> 1 <= DBCount (info s) -> wf_Address a ->
  exists f, getQueryDB (E := E) s a = Ok f /\ f ∈ getQueryDBList s.
Proof.
  intros Hok Hn Ha. apply nth_account_db; [done..|].
  rewrite query_list, length_account_names; by try lia.
Qed.

(** The type of the errors, of which there are none, does not matter. *)
Lemma getQueryDB_any {E E' : Type} s a f :
  getQueryDB (E := E) s a = Ok f <-> getQueryDB (E := E') s a = Ok f.
Proof.
  unfold getQueryDB, getAccountDBIndex, nth_db. destruct (Address_ID a); [done|].
  destruct (_ =? 0); [done|]. cbn. destruct (_ !! _); [|done]. split; intros [= ->]; done.
Qed.

Lemma getCalculateDB_any {E E' : Type} s a f :
  getCalculateDB (E := E) s a = Ok f <-> getCalculateDB (E := E') s a = Ok f.
Proof.
  unfold getCalculateDB, getAccountDBIndex, nth_db. destruct (Address_ID a); [done|].
  destruct (_ =? 0); [done|]. cbn. destruct (_ !! _); [|done]. split; intros [= ->]; done.
Qed.

Definition only_backups (fs : gmap fname D) (h : Z) : Prop :=
  forall b i, is_Some (fs !! BackupName b i) -> b = h.

Lemma account_name_cases s i p : p = 0 \/ p = 1 ->
  AccountName i (DBCount (info s)) p = calc_name s i \/ AccountName i (DBCount (info s)) p = query_name s i.
Proof.
  unfold calc_name, query_name. intros [-> | ->]; destruct (postfix_cases s) as [[E1 E2]|[E1 E2]]; rewrite ?E1, ?E2; auto.
Qed.

Lemma account_files s i : accounts_ok s -> 1 <= i <= DBCount (info s) ->
  is_Some (files s !! calc_name s i) /\ is_Some (files s !! query_name s i).
Proof.
  intros Hok Hi. unfold calc_name, query_name.
  split; apply (ao_files s Hok); try done; destruct (postfix_cases s) as [[E1 E2]|[E1 E2]]; rewrite ?E1, ?E2; auto.
Qed.

(** What a reset does to the directory. *)
Lemma resetAccountDB_files s bh :
  accounts_ok s -> 0 <= DBCount (info s) -> only_backups (files s) (CalcDone (info s)) ->
  CalcDone (info s) <> bh ->
  let s1 := resetAccountDB bh (getCalcDoneBH s) s in
  info s1 = info s /\ Account0 s1 = Account0 s /\ Account1 s1 = Account1 s /\
  (forall i, 1 <= i <= DBCount (info s) -> files s1 !! calc_name s i = Some ldb_empty /\
     files s1 !! BackupName bh i = files s !! calc_name s i) /\
  (forall i, files s1 !! query_name s i = files s !! query_name s i) /\
  (forall b i, ~ (b = bh /\ 1 <= i <= DBCount (info s)) -> files s1 !! BackupName b i = None).
Proof.
  intros Hok Hn Hold Hne. unfold resetAccountDB, getCalcDoneBH.
  set (n := DBCount (info s)) in *. rewrite (calc_list s Hok). fold n. fold (calc_postfix s).
  set (fs0 := foldl _ _ _).
  assert (Hfs0 : forall f, fs0 !! f = if decide (backup_match (Some (CalcDone (info s))) f = true) then None else files s !! f).
  { intros f. unfold fs0. rewrite foldl_RemoveAll_lookup.
    pose proof (Glob_backup_elem (Some (CalcDone (info s))) (files s) f) as Hg.
    repeat case_decide; try tauto. destruct (files s !! f) eqn:E; [|done]. exfalso. naive_solver. }
  assert (Hnob : forall b i, fs0 !! BackupName b i = None).
  { intros b i. rewrite Hfs0. cbn [backup_match]. case_decide as Hd; [done|].
    destruct (files s !! BackupName b i) eqn:E; [|done]. destruct Hd. apply Z.eqb_eq.
    apply (Hold b i). by rewrite E. }
  assert (Hacc : forall i p, fs0 !! AccountName i n p = files s !! AccountName i n p) by (intros; by rewrite Hfs0).
  destruct (reset_loop_spec bh n (calc_postfix s) (account_names n (calc_postfix s)) 0 fs0) as (fs' & -> & H1 & H2).
  { intros j Hj. rewrite length_account_names in Hj by done. rewrite Hacc. apply account_files; [done|fold n; lia]. }
  { intros j _. apply Hnob. }
  rewrite length_account_names in * by done. cbn [negb].
  change (map (fun i => AccountName i (DBCount (info (set_files fs' s))) (calc_postfix s)) (seqZ 1 n))
    with (account_names n (calc_postfix s)).
  assert (Hlist : account_names n (calc_postfix s) = if QueryDBIsZero (info s) then Account1 s else Account0 s).
  { unfold calc_postfix. destruct Hok as [-> -> _]. fold n. by destruct (QueryDBIsZero _). }
  rewrite Hlist. cbn. destruct (QueryDBIsZero (info s)) eqn:Ez; cbn; (split_and!; [done..| | |]).
  all: try (intros i Hi; destruct (H1 i) as [E1 E2]; [lia|]; split; [exact E1|rewrite E2; apply Hacc]).
  all: try (intros i; unfold query_name; rewrite H2, Hacc; [done|];
    intros j _; destruct (postfix_cases s) as [[-> ->]|[-> ->]]; split; congruence).
  all: intros b i Hb; rewrite H2; [apply Hnob|]; intros j Hj; split; [done|]; intros [= -> ->]; apply Hb; split; [done|lia].
Qed.

Lemma resetAccountDB_spec s bh :
  accounts_ok s -> 0 <= DBCount (info s) -> only_backups (files s) (CalcDone (info s)) ->
  CalcDone (info s) <> bh ->
  let s1 := resetAccountDB bh (getCalcDoneBH s) s in
  accounts_ok s1 /\ info s1 = info s /\ only_backups (files s1) bh /\
  (forall i, is_Some (files s1 !! BackupName bh i) <-> 1 <= i <= DBCount (info s)) /\
  (forall i, 1 <= i <= DBCount (info s) ->
     files s1 !! calc_name s i = Some ldb_empty /\
     files s1 !! BackupName bh i = files s !! calc_name s i /\
     files s1 !! query_name s i = files s !! query_name s i).
Proof.
  intros Hok Hn Hold Hne s1.
  destruct (resetAccountDB_files s bh Hok Hn Hold Hne) as (Hi & H0 & H1 & Hc & Hq & Hb).
  fold s1 in Hi, H0, H1, Hc, Hq, Hb. split_and!; [|done| | |].
  - split; rewrite ?Hi, ?H0, ?H1; [apply Hok..|]. intros i p Hr Hp.
    destruct (account_name_cases s i p Hp) as [-> | ->].
    + rewrite (proj1 (Hc i Hr)). by eexists.
    + rewrite Hq. by apply account_files.
  - intros b i Hs. destruct (decide (b = bh)) as [|Hne']; [done|]. rewrite Hb in Hs by tauto. by destruct Hs.
  - intros i. split.
    + intros Hs. destruct (decide (1 <= i <= DBCount (info s))) as [|Hr]; [done|]. rewrite Hb in Hs by tauto. by destruct Hs.
    + intros Hr. rewrite (proj2 (Hc i Hr)). by apply account_files.
  - intros i Hr. destruct (Hc i Hr) as [E1 E2]. by rewrite E1, E2, Hq.
Qed.

Lemma toggle_other bh s : ToggleBH (info s) <> bh ->
  let s1 := toggleAccountDB bh s in
  QueryDBIsZero (info s1) = negb (QueryDBIsZero (info s)) /\ ToggleBH (info s1) = bh /\
  DBCount (info s1) = DBCount (info s) /\ CalcDone (info s1) = CalcDone (info s) /\
  PrevCalcDone (info s1) = PrevCalcDone (info s) /\
  Account0 s1 = Account0 s /\ Account1 s1 = Account1 s /\ files s1 = files s.
Proof. intros Hne. unfold toggleAccountDB. by rewrite (proj2 (Z.eqb_neq _ _)). Qed.

Lemma toggle_ok bh s : accounts_ok s -> accounts_ok (toggleAccountDB bh s).
Proof. intros [H0 H1 H2]. unfold toggleAccountDB. by destruct (_ =? _). Qed.

(** What a calculation starts with, and what a rollback does to it. *)
Definition begin_calculation (bh : Z) s : IScoreDB D :=
  let s := toggleAccountDB (bh +u 1) s in resetAccountDB bh (getCalcDoneBH s) s.

(** The stores a running calculation may have changed: everything but the
    query DBs and the backups. *)
Record calculated s1 s2 : Prop := {
  ca_ok : accounts_ok s2;
  ca_count : DBCount (info s2) = DBCount (info s1);
  ca_query : QueryDBIsZero (info s2) = QueryDBIsZero (info s1);
  ca_files : forall f, (forall i, f <> calc_name s1 i) -> files s2 !! f = files s1 !! f;
}.

Lemma OpenAccountDB_spec s :
  (forall i p, 1 <= i <= DBCount (info s) -> (p = 0 \/ p = 1) ->
    is_Some (files s !! AccountName i (DBCount (info s)) p)) ->
  accounts_ok (OpenAccountDB s) /\ files (OpenAccountDB s) = files s /\ info (OpenAccountDB s) = info s.
Proof.
  intros Hf. unfold OpenAccountDB.
  assert (Hp : forall p, p = 0 \/ p = 1 ->
    foldl (flip db_Open) (files s) (account_names (DBCount (info s)) p) = files s).
  { intros p Hp. apply foldl_db_Open_id, Forall_forall.
    intros f (i & Hi & ->)%elem_of_account_names. by apply Hf. }
  rewrite !Hp by auto. by split.
Qed.

(** A calculation that began at [s] with block height [bh] and has led to [s2]. *)
Section Restore.
Context (s : IScoreDB D) (bh : Z) (s2 : IScoreDB D).
Context (Hok : accounts_ok s) (Hn : 0 <= DBCount (info s)).
Context (Hold : only_backups (files s) (CalcDone (info s))) (Hne : CalcDone (info s) <> bh).
Context (Ht : ToggleBH (info s) <> bh +u 1).
Context (Hs2 : calculated (begin_calculation bh s) s2).

Lemma begin_facts : let sr := begin_calculation bh s in
  DBCount (info sr) = DBCount (info s) /\ QueryDBIsZero (info sr) = negb (QueryDBIsZero (info s)) /\
  (forall i, calc_name sr i = query_name s i) /\ only_backups (files sr) bh /\
  (forall i, is_Some (files sr !! BackupName bh i) <-> 1 <= i <= DBCount (info s)) /\
  (forall i, 1 <= i <= DBCount (info s) ->
     files sr !! BackupName bh i = files s !! query_name s i /\ files sr !! calc_name s i = files s !! calc_name s i).
Proof.
  unfold begin_calculation. destruct (toggle_other (bh +u 1) s Ht) as (T1 & _ & T3 & T4 & _ & _ & _ & T8).
  set (s1 := toggleAccountDB (bh +u 1) s) in *.
  assert (Hok1 : accounts_ok s1) by (by apply toggle_ok).
  destruct (resetAccountDB_spec s1 bh) as (_ & Hinfo & Honly & Hbk & Hc);
    [done|by rewrite T3|by rewrite T8, T4|by rewrite T4|].
  assert (Hswap : forall i, calc_name s1 i = query_name s i /\ query_name s1 i = calc_name s i).
  { intros i. unfold calc_name, query_name, calc_postfix, query_postfix. rewrite T1, T3.
    by destruct (QueryDBIsZero (info s)). }
  rewrite T3 in *. split_and!; [by rewrite Hinfo|by rewrite Hinfo| |done|done|].
  - intros i. rewrite <-(proj1 (Hswap i)). unfold calc_name, calc_postfix. by rewrite Hinfo.
  - intros i Hi. destruct (Hc i Hi) as (_ & E1 & E2). rewrite (proj1 (Hswap i)), T8 in E1.
    by rewrite (proj2 (Hswap i)), T8 in E2.
Qed.

(** The directory after the backups were renamed back. *)
Lemma restored_files : exists fs,
  rollback_backups (DBCount (info s)) (calc_postfix s2) (Glob_backup None (files s2)) (files s2) = (fs, true) /\
  (forall i, 1 <= i <= DBCount (info s) ->
     fs !! query_name s i = files s !! query_name s i /\ fs !! calc_name s i = files s !! calc_name s i) /\
  (forall b i, fs !! BackupName b i = None).
Proof.
  destruct begin_facts as (B1 & B2 & B3 & B4 & B5 & B6), Hs2 as [_ Hcount Hquery Hfiles].
  set (sr := begin_calculation bh s) in *.
  assert (Hc2 : forall i, AccountName i (DBCount (info s)) (calc_postfix s2) = query_name s i).
  { intros i. rewrite <-B3. unfold calc_name, calc_postfix. by rewrite Hquery, B1. }
  assert (Hnames : forall i j, calc_name s i <> query_name s j).
  { intros i j. unfold calc_name, query_name. destruct (postfix_cases s) as [[-> ->]|[-> ->]]; congruence. }
  destruct (rollback_backups_spec bh (DBCount (info s)) (calc_postfix s2) (Glob_backup None (files s2)) (files s2))
    as (fs & Hrb & R1 & R2).
  { apply Glob_backup_NoDup. }
  { intros f [Hm Hs]%Glob_backup_elem. destruct f as [|b i]; [done|]. exists i. split; [|done]. f_equal.
    rewrite Hfiles in Hs by done. by apply (B4 b i). }
  exists fs. split; [done|]. split.
  - intros i Hr. assert (BackupName bh i ∈ Glob_backup None (files s2)) as Hin.
    { rewrite Glob_backup_elem, Hfiles by done. split; [done|by apply B5]. }
    destruct (R1 i Hin) as [E _], (B6 i Hr) as [E1 E2]. rewrite Hc2 in E. split.
    + by rewrite E, Hfiles, E1.
    + rewrite R2, Hfiles; [done|intros j; rewrite B3; apply Hnames|].
      intros j _. rewrite Hc2. split; [apply Hnames|done].
  - intros b i. destruct (decide (BackupName b i ∈ Glob_backup None (files s2))) as [Hg|Hg].
    + assert (b = bh) as ->.
      { apply Glob_backup_elem in Hg as [_ Hs]. rewrite Hfiles in Hs by done. by apply (B4 b i). }
      by apply R1.
    + rewrite R2; [|intros j Hj; split; [done|intros [= -> ->]; done]].
      destruct (files s2 !! BackupName b i) eqn:E; [|done]. destruct Hg. apply Glob_backup_elem.
      split; [done|]. by rewrite E.
Qed.

End Restore.

(** C20: a rollback of a calculation, finished or not, gives both lists of
    account DBs back: the same handles, with the contents they had before
    the calculation, no backup left, and the previous calculation height. *)
Theorem rollbackAccountDB_restores s bh h s2 :
  accounts_ok s -> 0 <= DBCount (info s) ->
  only_backups (files s) (CalcDone (info s)) -> CalcDone (info s) <> bh ->
  ToggleBH (info s) <> bh +u 1 -> ToggleBH (info s2) <> h ->
  calculated (begin_calculation bh s) s2 ->
  exists s3, rollbackAccountDB h s2 = (s3, true) /\ accounts_ok s3 /\
    getQueryDBList s3 = getQueryDBList s /\ getCalcDBList s3 = getCalcDBList s /\
    (forall i, 1 <= i <= DBCount (info s) ->
       files s3 !! query_name s i = files s !! query_name s i /\
       files s3 !! calc_name s i = files s !! calc_name s i) /\
    (forall b i, files s3 !! BackupName b i = None) /\
    CalcDone (info s3) = PrevCalcDone (info s2) /\ Calculating (info s3) = PrevCalcDone (info s2).
Proof.
  intros Hok Hn Hold Hne Ht Hh Hs2. destruct (begin_facts s bh Hok Hn Hold Hne Ht) as (B1 & B2 & _).
  destruct (restored_files s bh s2 Hok Hn Hold Hne Ht Hs2) as (fs & Hrb & Hf & Hnob).
  destruct Hs2 as [_ Hcount Hquery _]. rewrite B1 in Hcount. rewrite B2 in Hquery.
  unfold rollbackAccountDB. fold (calc_postfix s2). cbn [CloseAccountDB files set_accounts info].
  rewrite Hcount, Hrb. cbn [negb].
  set (s4 := set_files fs (CloseAccountDB s2)).
  destruct (OpenAccountDB_spec s4) as (Ho & Hof & Hoi).
  { cbn. rewrite Hcount. intros i p Hr Hp. destruct (account_files s i Hok Hr) as [F1 F2], (Hf i Hr) as [E1 E2].
    destruct (account_name_cases s i p Hp) as [-> | ->]; by rewrite ?E1, ?E2. }
  set (s5 := OpenAccountDB s4) in *.
  destruct (toggle_other h s5) as (U1 & _ & U3 & _ & U5 & U6 & U7 & U8); [by rewrite Hoi|].
  eexists. split; [done|]. cbn.
  assert (Hq3 : QueryDBIsZero (info (toggleAccountDB h s5)) = QueryDBIsZero (info s)).
  { rewrite U1, Hoi. cbn. by rewrite Hquery, negb_involutive. }
  split_and!.
  - destruct Ho as [O1 O2 O3]. split; cbn; rewrite ?U3, ?U6, ?U7, ?U8; done.
  - rewrite (query_list s Hok). unfold getQueryDBList, query_postfix. cbn. rewrite Hq3, U6, U7.
    destruct Ho as [-> -> _]. rewrite Hoi. cbn. rewrite Hcount. by destruct (QueryDBIsZero (info s)).
  - rewrite (calc_list s Hok). unfold getCalcDBList, calc_postfix. cbn. rewrite Hq3, U6, U7.
    destruct Ho as [-> -> _]. rewrite Hoi. cbn. rewrite Hcount. by destruct (QueryDBIsZero (info s)).
  - intros i Hr. rewrite U8, Hof. by apply Hf.
  - intros b i. rewrite U8, Hof. apply Hnob.
  - by rewrite U5, Hoi.
  - by rewrite U5, Hoi.
Qed.
End Backup.
