(* ===== verification/Context.v ===== *)
(** * The context: [Context] of [core/context.go], [core/statistics.go]

    The state of the Reward Calculator: the databases, and in memory the
    revision, governance variables, P-Rep lists and P-Rep candidates, each of
    them mirrored in the management DB.  [NewContext] rebuilds the memory from
    the stores when the process starts. *)

From S2P Require Import Prelude Bytes HexInt Address Store Codec Typed Account ClaimDB Management IISSData IScoreDB.

Definition Revision8 : Z := 8.
Definition RevisionMin : Z := Revision8.
Definition RevisionMax : Z := Revision8.

(** ** Statistics

    [Set], [Increase] and [Decrease] select the field by name and check the
    type of the value by reflection. *)

Record Statistics := mkStatistics {
  Accounts : Z;
  TotalReward : Z;
  Beta1 : Z;
  Beta2 : Z;
  Beta3 : Z;
}.

Definition zero_Statistics : Statistics := mkStatistics 0 0 0 0 0.

Inductive stat_field := FAccounts | FTotalReward | FBeta1 | FBeta2 | FBeta3.
Inductive stat_value := VUint64 (v : Z) | VHexInt (v : Z).
Inductive stat_error := ErrFieldType.

Definition stat_get (f : stat_field) (s : Statistics) : stat_value :=
  match f with
  | FAccounts => VUint64 (Accounts s)
  | FTotalReward => VHexInt (TotalReward s)
  | FBeta1 => VHexInt (Beta1 s)
  | FBeta2 => VHexInt (Beta2 s)
  | FBeta3 => VHexInt (Beta3 s)
  end.

(** [reflections.SetField] refuses a value of another type. *)
Definition stat_Set (f : stat_field) (v : stat_value) (s : Statistics) : outcome stat_error Statistics :=
  match f, v with
  | FAccounts, VUint64 v => Ok (mkStatistics v (TotalReward s) (Beta1 s) (Beta2 s) (Beta3 s))
  | FTotalReward, VHexInt v => Ok (mkStatistics (Accounts s) v (Beta1 s) (Beta2 s) (Beta3 s))
  | FBeta1, VHexInt v => Ok (mkStatistics (Accounts s) (TotalReward s) v (Beta2 s) (Beta3 s))
  | FBeta2, VHexInt v => Ok (mkStatistics (Accounts s) (TotalReward s) (Beta1 s) v (Beta3 s))
  | FBeta3, VHexInt v => Ok (mkStatistics (Accounts s) (TotalReward s) (Beta1 s) (Beta2 s) v)
  | _, _ => Err ErrFieldType
  end.

Definition stat_Increase (f : stat_field) (v : stat_value) (s : Statistics) : outcome stat_error Statistics :=
  match stat_get f s, v with
  | VUint64 o, VUint64 v => stat_Set f (VUint64 (o +u v)) s
  | VHexInt o, VHexInt v => stat_Set f (VHexInt (o + v)) s
  | _, _ => Err ErrFieldType
  end.

(** [Decrease] has no type check before its type switch: a field of another
    type makes the assertion panic. *)
Definition stat_Decrease (f : stat_field) (v : stat_value) (s : Statistics) : outcome stat_error Statistics :=
  match stat_get f s, v with
  | VUint64 o, VUint64 v => stat_Set f (VUint64 (o -u v)) s
  | VHexInt o, VHexInt v => stat_Set f (VHexInt (o - v)) s
  | _, _ => Panic
  end.

(** A call whose error is not looked at. *)
Definition increase (f : stat_field) (v : stat_value) (s : Statistics) : Statistics :=
  match stat_Increase f v s with Ok s => s | _ => s end.

(** ** The context *)

(** A channel is identified by a number; closing it makes a new one, so that a
    listener is notified exactly when its channel is no longer the current
    one. *)
Record CancelCalculation := mkCancel { channel : nat; cancelCode : Z }.

Definition CancelNone : Z := 0.
Definition CancelExit : Z := 1.
Definition CancelRollback : Z := 2.

Definition NewCancel : CancelCalculation := mkCancel 0 CancelNone.
Definition notifyCancelCalculation (cancelPurpose : Z) (c : CancelCalculation) : CancelCalculation :=
  mkCancel (S (channel c)) cancelPurpose.
Definition notifyRollback : CancelCalculation -> CancelCalculation := notifyCancelCalculation CancelRollback.
Definition notifyExit : CancelCalculation -> CancelCalculation := notifyCancelCalculation CancelExit.

Record Context (D : Type) := mkContext {
  DB : IScoreDB D;
  Revision : Z;
  ctx_PRep : list PRep;
  ctx_PRepCandidates : PRepCandidates;
  GV : list GovernanceVariable;
  ctx_stats : option Statistics;
  ctx_Cancel : CancelCalculation;
}.
Arguments mkContext {D}. Arguments DB {D}. Arguments Revision {D}. Arguments ctx_PRep {D}.
Arguments ctx_PRepCandidates {D}. Arguments GV {D}. Arguments ctx_stats {D}. Arguments ctx_Cancel {D}.

Section ContextSetters.
Context {D : Type}.

Definition set_DB v (ctx : Context D) : Context D := mkContext v (Revision ctx) (ctx_PRep ctx) (ctx_PRepCandidates ctx) (GV ctx)
  (ctx_stats ctx) (ctx_Cancel ctx).
Definition set_Revision v (ctx : Context D) : Context D := mkContext (DB ctx) v (ctx_PRep ctx) (ctx_PRepCandidates ctx) (GV ctx)
  (ctx_stats ctx) (ctx_Cancel ctx).
Definition set_PRep v (ctx : Context D) : Context D := mkContext (DB ctx) (Revision ctx) v (ctx_PRepCandidates ctx) (GV ctx)
  (ctx_stats ctx) (ctx_Cancel ctx).
Definition set_PRepCandidates v (ctx : Context D) : Context D := mkContext (DB ctx) (Revision ctx) (ctx_PRep ctx) v (GV ctx)
  (ctx_stats ctx) (ctx_Cancel ctx).
Definition set_GV v (ctx : Context D) : Context D := mkContext (DB ctx) (Revision ctx) (ctx_PRep ctx) (ctx_PRepCandidates ctx) v
  (ctx_stats ctx) (ctx_Cancel ctx).
Definition set_stats v (ctx : Context D) : Context D := mkContext (DB ctx) (Revision ctx) (ctx_PRep ctx) (ctx_PRepCandidates ctx)
  (GV ctx) v (ctx_Cancel ctx).
Definition set_Cancel v (ctx : Context D) : Context D := mkContext (DB ctx) (Revision ctx) (ctx_PRep ctx) (ctx_PRepCandidates ctx)
  (GV ctx) (ctx_stats ctx) v.
Definition update_DB (f : IScoreDB D -> IScoreDB D) (ctx : Context D) : Context D := set_DB (f (DB ctx)) ctx.
Definition ctx_management (ctx : Context D) : D := management (DB ctx).
Definition set_ctx_management v (ctx : Context D) : Context D := update_DB (set_management v) ctx.
End ContextSetters.

(** The loops that drop old records, shared by governance variables and P-Rep
    lists: from the last record down, the first one at or below the height is
    kept, the ones before it are deleted. *)
Section DeleteOld.
Context {D A : Type} `{!LevelDB D}.
Context (prefix : BucketID) (ID : A -> bytes) (height : A -> Z).

Fixpoint delete_old (prev : Z) (l : list (nat * A)) (deleteIndex : option nat) (d : D) : D * option nat :=
  match l with
  | [] => (d, deleteIndex)
  | (i, a) :: l =>
      if height a <=? prev then
        match deleteIndex with
        | Some _ => delete_old prev l deleteIndex (bucket_Delete prefix (ID a) d)
        | None => delete_old prev l (Some i) d
        end
      else delete_old prev l deleteIndex d
  end.

Definition drop_old (prev : Z) (l : list A) (d : D) : D * list A :=
  let '(d, deleteIndex) := delete_old prev (reverse (imap pair l)) None d in
  (d, match deleteIndex with Some i => drop i l | None => l end).

(** The loops of [RollbackManagementDB], [n] records left to look at: a
    record above the height is deleted, with everything after it. *)
Fixpoint rollback_records (n : nat) (blockHeight : Z) (l : list A) (d : D) : D * list A :=
  match n with
  | O => (d, l)
  | S i =>
      match l !! i with
      | Some a =>
          if blockHeight <? height a
          then rollback_records i blockHeight (take i l) (bucket_Delete prefix (ID a) d)
          else rollback_records i blockHeight l d
      | None => (d, l)
      end
  end.
End DeleteOld.

Section ContextOps.
Context {D : Type} `{!LevelDB D}.
Context `{!Codec DBInfoData, !Codec DBInfoDataV1, !Codec GVData, !Codec PRepData,
  !Codec PRepCandidateData, !Codec IISSTXData}.

(** The last governance variable below a height. *)
Definition getGVByBlockHeight (ctx : Context D) (blockHeight : Z) : option GovernanceVariable :=
  head (filter (fun gv => gv_BlockHeight gv < blockHeight) (reverse (GV ctx))).

(** A governance variable is added only above the last one. *)
Fixpoint add_gv (gvList : list IISSGovernanceVariable) (l : list GovernanceVariable) (d : D)
    : D * list GovernanceVariable :=
  match gvList with
  | [] => (d, l)
  | gvIISS :: gvList =>
      if match last l with None => true | Some g => gv_BlockHeight g <? ig_BlockHeight gvIISS end then
        let gv := NewGVFromIISS gvIISS in
        add_gv gvList (l ++ [gv]) (bucket_Set PrefixGovernanceVariable (gv_ID gv) (gv_Bytes gv) d)
      else add_gv gvList l d
  end.

Definition UpdateGovernanceVariable (gvList : list IISSGovernanceVariable) (ctx : Context D) : Context D :=
  let '(d, l) := add_gv gvList (GV ctx) (ctx_management ctx) in
  let '(d, l) := drop_old PrefixGovernanceVariable gv_ID gv_BlockHeight
                   (getPrevCalcDoneBH (DB ctx)) l d in
  set_GV l (set_ctx_management d ctx).

Fixpoint add_prep (prepList l : list PRep) (d : D) : D * list PRep :=
  match prepList with
  | [] => (d, l)
  | prep :: prepList =>
      add_prep prepList (l ++ [prep]) (bucket_Set PrefixPRep (pr_ID prep) (pr_Bytes prep) d)
  end.

Definition UpdatePRep (prepList : list PRep) (ctx : Context D) : Context D :=
  let '(d, l) := add_prep prepList (ctx_PRep ctx) (ctx_management ctx) in
  let '(d, l) := drop_old PrefixPRep pr_ID pr_BlockHeight (getPrevCalcDoneBH (DB ctx)) l d in
  set_PRep l (set_ctx_management d ctx).

(** One transaction: registration and unregistration of P-Reps. *)
Definition candidate_tx (tx : IISSTXData) (m : PRepCandidates) (d : D) : PRepCandidates * D :=
  if tx_DataType tx =? TXDataTypePrepReg then
    match m !! tx_Address tx with
    | Some _ => (m, d)
    | None =>
        let p := mkPRepCandidate (tx_Address tx) (mkPRepCandidateData (tx_BlockHeight tx) 0) in
        (<[tx_Address tx := p]> m, bucket_Set PrefixPRepCandidate (pcd_ID p) (pcd_Bytes p) d)
    end
  else if tx_DataType tx =? TXDataTypePrepUnReg then
    match m !! tx_Address tx with
    | Some pRep =>
        if negb (pc_End (pcd_Data pRep) =? 0) then (m, d)
        else
          let p := mkPRepCandidate (pcd_Address pRep)
                     (mkPRepCandidateData (pc_Start (pcd_Data pRep)) (tx_BlockHeight tx)) in
          (<[tx_Address tx := p]> m, bucket_Set PrefixPRepCandidate (pcd_ID p) (pcd_Bytes p) d)
    | None => (m, d)
    end
  else (m, d).

(** [tx] is one variable that every iteration decodes into; an entry that
    does not decode is skipped. *)
Fixpoint candidate_loop (tx : IISSTX) (l : list (bytes * bytes)) (m : PRepCandidates) (d : D)
    : PRepCandidates * D :=
  match l with
  | [] => (m, d)
  | (k, v) :: l =>
      let '(tx, ok) := tx_SetBytes v tx in
      if negb ok then candidate_loop tx l m d
      else
        let tx := mkIISSTX (BytesToUint64 (drop (length PrefixIISSTX) k)) (tx_TXData tx) in
        let '(m, d) := candidate_tx (tx_TXData tx) m d in
        candidate_loop tx l m d
  end.

Definition UpdatePRepCandidate (iissDB : D) (ctx : Context D) : Context D :=
  let '(m, d) := candidate_loop zero_IISSTX (iter_prefix PrefixIISSTX iissDB)
                   (ctx_PRepCandidates ctx) (ctx_management ctx) in
  set_PRepCandidates m (set_ctx_management d ctx).

Definition RollbackManagementDB (blockHeight : Z) (ctx : Context D) : Context D :=
  let '(d, gvs) := rollback_records PrefixGovernanceVariable gv_ID gv_BlockHeight
                     (length (GV ctx)) blockHeight (GV ctx) (ctx_management ctx) in
  let '(d, preps) := rollback_records PrefixPRep pr_ID pr_BlockHeight
                       (length (ctx_PRep ctx)) blockHeight (ctx_PRep ctx) d in
  set_PRep preps (set_GV gvs (set_ctx_management d ctx)).

(** [NewContext] on the stores found at start. *)
Definition NewContext {E : Type} (mngDB calcResult preCommit claim claimBackup : D)
    (fs : gmap fname D) (dbCount : Z) : outcome E (Context D) :=
  let! (info, mngDB) := NewDBInfo mngDB dbCount in
  let gvs := LoadGovernanceVariable mngDB in
  let preps := LoadPRep mngDB in
  let! candidates := LoadPRepCandidate mngDB in
  let idb := mkIScoreDB info mngDB calcResult preCommit claim claimBackup [] [] fs in
  Ok (mkContext (OpenAccountDB idb) 0 preps candidates gvs None NewCancel).
End ContextOps.
