(* ===== verification/Mirror.v ===== *)
(** * The management DB mirrors the context

    Governance variables, P-Rep lists and P-Rep candidates are kept in memory
    and, under keys with a prefix of their own, in the management DB.  [mirror]
    is the invariant that ties the two for the records kept by block height,
    [candidate_mirror] for the candidates: the updates and the rollback of
    [core/context.go] preserve them, and a restart reads the memory back. *)

From Stdlib Require Strings.String.
From S2P Require Import Prelude Bytes HexInt Address Store Codec Typed Account ClaimDB Management IISSData IScoreDB Context.
Import String.StringSyntax.

(** ** Records kept by height *)

Section Mirror.
Context {D A : Type} `{!LevelDB D, !LevelDBLaws D}.
Context (prefix : BucketID) (ID : A -> bytes) (height : A -> Z) (value : A -> bytes).
Hypothesis Hprefix : all_bytes prefix.
Hypothesis HID : forall a, is_u64 (height a) -> ID a = be64 (height a).

Definition heights_sorted (l : list A) : Prop := StronglySorted (fun a b => height a < height b) l.

(** The keys a Go store holds are byte strings. *)
Definition store_bytes (d : D) : Prop := forall k v, ldb_get d k = Some v -> all_bytes k.

Record mirror (d : D) (l : list A) : Prop := {
  m_sorted : heights_sorted l;
  m_u64 : Forall (fun a => is_u64 (height a)) l;
  m_keys : forall k v, prefix `prefix_of` k ->
    ldb_get d k = Some v <-> exists a, a ∈ l /\ k = prefix ++ be64 (height a) /\ v = value a;
}.

Lemma prefix_app_inj h h' : is_u64 h -> is_u64 h' -> prefix ++ be64 h = prefix ++ be64 h' -> h = h'.
Proof. intros Hh Hh' E. apply app_inv_head in E. by apply be64_inj. Qed.

Lemma sorted_height_inj l a b : heights_sorted l -> a ∈ l -> b ∈ l -> height a = height b -> a = b.
Proof.
  intros Hs. induction Hs as [|c l _ IH Hc]; intros Ha Hb E; [by apply not_elem_of_nil in Ha|].
  rewrite Forall_forall in Hc. apply elem_of_cons in Ha as [->|Ha], Hb as [->|Hb]; auto.
  - specialize (Hc _ Hb). lia.
  - specialize (Hc _ Ha). lia.
Qed.

(** What an iteration reads. *)
Lemma mirror_iter d l : store_bytes d -> mirror d l ->
  iter_prefix prefix d = map (fun a => (prefix ++ be64 (height a), value a)) l.
Proof.
  intros Hb [Hs Hu Hk]. apply sorted_entries_unique.
  - apply ldb_iter_sorted.
  - clear Hk. induction Hs as [|a l Hs IH Hlt]; cbn; constructor.
    + apply IH. by inversion Hu.
    + apply Forall_forall. intros k Hin. apply list_elem_of_fmap in Hin as ([k' v'] & -> & Hin).
      apply list_elem_of_fmap in Hin as (b & E & Hin). injection E as -> ->. cbn.
      apply app_lt_same. unfold bytes_lt. apply Forall_cons in Hu as [Hua Hul].
      rewrite Forall_forall in Hlt, Hul. rewrite be64_compare; [|done|by apply Hul].
      apply Z.compare_lt_iff. by apply Hlt.
  - intros [k v]. rewrite list_elem_of_fmap. split.
    + intros Hin. pose proof (iter_prefix_elem_1 _ _ _ _ Hin) as Hg.
      apply iter_prefix_elem in Hin as [_ Hp]; [|done|by eapply Hb].
      apply Hk in Hg as (a & Ha & -> & ->); [|done]. by exists a.
    + intros (a & E & Ha). injection E as -> ->. rewrite Forall_forall in Hu.
      apply iter_prefix_elem; [done| |].
      * apply Forall_app. split; [done|auto with rc].
      * split; [|by exists (be64 (height a))]. apply Hk; [by exists (be64 (height a))|]. by exists a.
Qed.

(** Appending a record above the last one. *)
Lemma mirror_add d l a : mirror d l -> is_u64 (height a) ->
  Forall (fun b => height b < height a) l ->
  mirror (bucket_Set prefix (ID a) (value a) d) (l ++ [a]).
Proof.
  intros [Hs Hu Hk] Ha Hlt. split.
  - clear Hk Hu. unfold heights_sorted in *. induction Hs as [|b l Hs IH Hb]; cbn.
    + repeat constructor.
    + apply Forall_cons in Hlt as [Hba Hlt]. constructor; [by apply IH|].
      apply Forall_app. split; [done|by repeat constructor].
  - apply Forall_app. split; [done|by constructor].
  - intros k v Hp. rewrite bucket_get_set, HID by done. case_decide as E.
    + subst k. split.
      * intros [= <-]. exists a. split_and!; [apply elem_of_app; right; by left|done..].
      * intros (b & Hb & E & ->). apply prefix_app_inj in E; [|done|].
        -- apply elem_of_app in Hb as [Hb|Hb%list_elem_of_singleton]; [|by subst].
           rewrite Forall_forall in Hlt. specialize (Hlt _ Hb). lia.
        -- apply elem_of_app in Hb as [Hb|Hb%list_elem_of_singleton]; [|by subst].
           rewrite Forall_forall in Hu. by apply Hu.
    + rewrite Hk by done. split; intros (b & Hb & -> & ->).
      * exists b. split_and!; [apply elem_of_app; by left|done..].
      * exists b. split_and!; [|done..].
        apply elem_of_app in Hb as [Hb|Hb%list_elem_of_singleton]; [done|by subst].
Qed.

(** Deleting the records of a prefix or suffix of the list. *)
Lemma mirror_delete d (l1 l2 dead keep : list A) :
  mirror d (l1 ++ l2) -> (dead = l1 /\ keep = l2 \/ dead = l2 /\ keep = l1) ->
  forall order, (forall a, a ∈ order <-> a ∈ dead) ->
  mirror (fold_left (fun d a => bucket_Delete prefix (ID a) d) order d) keep.
Proof.
  intros [Hs Hu Hk] Hdk order Hord.
  assert (Hsplit : forall a, a ∈ l1 ++ l2 <-> a ∈ dead \/ a ∈ keep).
  { intros a. rewrite elem_of_app. destruct Hdk as [[-> ->]|[-> ->]]; tauto. }
  assert (Hdisj : forall a b, a ∈ dead -> b ∈ keep -> height a <> height b).
  { intros a b Ha Hb. assert (exists x y, x ∈ l1 /\ y ∈ l2 /\ ((a = x /\ b = y) \/ (a = y /\ b = x))) as (x & y & Hx & Hy & Hxy).
    { destruct Hdk as [[-> ->]|[-> ->]]; [exists a, b|exists b, a]; auto. }
    assert (height x < height y).
    { clear -Hs Hx Hy. unfold heights_sorted in Hs. induction l1 as [|c l1 IH]; [by apply not_elem_of_nil in Hx|].
      cbn in Hs. apply StronglySorted_cons in Hs as [Hc Hs]. apply elem_of_cons in Hx as [->|Hx]; [|by apply IH].
      rewrite Forall_forall in Hc. apply Hc, elem_of_app. by right. }
    destruct Hxy as [[-> ->]|[-> ->]]; lia. }
  assert (Hget : forall k, ldb_get (fold_left (fun d a => bucket_Delete prefix (ID a) d) order d) (prefix ++ k)
    = if decide (k ∈ map ID order) then None else ldb_get d (prefix ++ k)).
  { intros k. rewrite <-fold_delete_get. f_equal. clear. revert d.
    induction order as [|a order IH]; intros d; cbn; [done|]. apply IH. }
  rewrite Forall_forall in Hu. split.
  - clear -Hs Hdk. unfold heights_sorted in *.
    assert (StronglySorted (fun a b => height a < height b) l1 /\ StronglySorted (fun a b => height a < height b) l2) as [? ?].
    { clear Hdk. induction l1 as [|c l1 IH]; cbn in Hs; [by split; [constructor|]|].
      apply StronglySorted_cons in Hs as [Hc Hs]. destruct (IH Hs). split; [|done].
      constructor; [done|]. by apply Forall_app in Hc as [? _]. }
    by destruct Hdk as [[_ ->]|[_ ->]].
  - apply Forall_forall. intros a Ha. apply Hu, Hsplit. by right.
  - intros k v [r ->]. rewrite Hget.
    destruct (decide (r ∈ map ID order)) as [Hin|Hin].
    + apply list_elem_of_fmap in Hin as (a & -> & Ha). apply Hord in Ha.
      split; [done|]. intros (b & Hb & E & _). apply app_inv_head in E.
      assert (is_u64 (height a)) by (apply Hu, Hsplit; by left).
      assert (is_u64 (height b)) by (apply Hu, Hsplit; by right).
      rewrite HID in E by done. apply be64_inj in E; [|done..].
      by destruct (Hdisj a b).
    + rewrite Hk by (by exists r). split; intros (b & Hb & E & ->).
      * exists b. split_and!; [|done..]. apply Hsplit in Hb as [Hb|Hb]; [|done].
        destruct Hin. apply list_elem_of_fmap. exists b. apply app_inv_head in E.
        split; [|by apply Hord]. rewrite HID; [done|]. apply Hu, Hsplit. by left.
      * exists b. split_and!; [apply Hsplit; by right|done..].
Qed.
(** ** Dropping old records *)

Abbreviation delete_all := (fold_left (fun d a => bucket_Delete prefix (ID a) d)).

Lemma imap_snoc (l : list A) a : reverse (imap pair (l ++ [a])) = (length l, a) :: reverse (imap pair l).
Proof. rewrite imap_app, reverse_app. cbn. by rewrite Nat.add_0_r. Qed.

(** Once one was kept, every older record is deleted. *)
Lemma delete_old_rest prev l i d : Forall (fun a => height a <= prev) l ->
  delete_old prefix ID height prev (reverse (imap pair l)) (Some i) d = (delete_all (reverse l) d, Some i).
Proof.
  revert d. induction l as [|a l IH] using rev_ind; intros d Hl; [done|].
  apply Forall_app in Hl as [Hl Ha]. apply Forall_cons in Ha as [Ha _].
  rewrite imap_snoc. cbn [delete_old]. rewrite (proj2 (Z.leb_le (height a) prev)) by lia.
  rewrite IH by done. by rewrite reverse_app.
Qed.

Lemma drop_old_spec prev l d : heights_sorted l ->
  drop_old prefix ID height prev l d = (d, l) /\ Forall (fun a => prev < height a) l \/
  exists l1 a l2, l = l1 ++ a :: l2 /\ height a <= prev /\ Forall (fun b => prev < height b) l2 /\
    drop_old prefix ID height prev l d = (delete_all (reverse l1) d, a :: l2).
Proof.
  intros Hs.
  assert (Forall (fun a => prev < height a) l /\
      delete_old prefix ID height prev (reverse (imap pair l)) None d = (d, None) \/
    exists l1 a l2, l = l1 ++ a :: l2 /\ height a <= prev /\ Forall (fun b => prev < height b) l2 /\
      delete_old prefix ID height prev (reverse (imap pair l)) None d = (delete_all (reverse l1) d, Some (length l1)))
    as [[Hall E]|(l1 & a & l2 & -> & Ha & Hl2 & E)].
  { revert d. induction l as [|a l IH] using rev_ind; intros d; [left; by split; [constructor|]|].
    apply StronglySorted_app in Hs as (Hlt & Hs & _).
    rewrite imap_snoc. cbn [delete_old].
    destruct (Z.leb_spec (height a) prev) as [Hle|Hgt].
    - right. exists l, a, []. split_and!; [done|done|constructor|]. apply delete_old_rest.
      apply Forall_forall. intros b Hb. specialize (Hlt b a Hb). cbn in Hlt.
      assert (height b < height a) by (apply Hlt; by left). lia.
    - destruct (IH Hs d) as [[Hall E]|(l1 & b & l2 & -> & Hb & Hl2 & E)].
      + left. split; [|done]. apply Forall_app. split; [done|by constructor].
      + right. exists l1, b, (l2 ++ [a]). split_and!; [by rewrite <-app_assoc|done| |done].
        apply Forall_app. split; [done|by constructor]. }
  - left. unfold drop_old. by rewrite E.
  - right. exists l1, a, l2. split_and!; [done..|]. unfold drop_old. rewrite E.
    by rewrite drop_app_length.
Qed.

Lemma mirror_drop_old prev l d : mirror d l ->
  let '(d', l') := drop_old prefix ID height prev l d in
  mirror d' l' /\ l' `suffix_of` l /\
  forall h, prev < h -> head (filter (fun a => height a < h) (reverse l'))
                       = head (filter (fun a => height a < h) (reverse l)).
Proof.
  intros Hm. destruct (drop_old_spec prev l d (m_sorted _ _ Hm)) as [[-> _]|(l1 & a & l2 & -> & Ha & Hl2 & ->)].
  { split_and!; [done|done|done]. }
  split_and!.
  - eapply (mirror_delete d l1 (a :: l2) l1 (a :: l2)); [done|by left|].
    intros b. by rewrite elem_of_reverse.
  - by exists l1.
  - intros h Hh. rewrite reverse_app, filter_app.
    assert (exists b r, filter (fun a => height a < h) (reverse (a :: l2)) = b :: r) as (b & r & ->); [|done].
    destruct (filter _ (reverse (a :: l2))) as [|b r] eqn:E; [|by exists b, r].
    assert (a ∈ filter (fun a => height a < h) (reverse (a :: l2))) as Hin.
    { apply list_elem_of_filter. split; [lia|]. apply elem_of_reverse. by left. }
    rewrite E in Hin. by apply not_elem_of_nil in Hin.
Qed.

(** ** Rolling back *)

Lemma rollback_records_noop n bh l d : Forall (fun a => height a <= bh) l ->
  rollback_records prefix ID height n bh l d = (d, l).
Proof.
  intros Hl. induction n as [|n IH]; [done|]. cbn [rollback_records].
  destruct (l !! n) as [b|] eqn:Hb; [|done].
  rewrite Forall_forall in Hl. rewrite (proj2 (Z.ltb_ge bh (height b))); [done|].
  apply Hl. by eapply list_elem_of_lookup_2.
Qed.

Lemma rollback_records_spec n bh l d : heights_sorted l -> n = length l ->
  exists l1 l2, l = l1 ++ l2 /\ Forall (fun a => height a <= bh) l1 /\ Forall (fun a => bh < height a) l2 /\
    rollback_records prefix ID height n bh l d = (delete_all (reverse l2) d, l1).
Proof.
  revert n d. induction l as [|a l IH] using rev_ind; intros n d Hs ->.
  { exists [], []. split_and!; [done|constructor|constructor|done]. }
  rewrite length_app, Nat.add_1_r. cbn [rollback_records].
  rewrite lookup_app_r, Nat.sub_diag by done. cbn [lookup list_lookup].
  apply StronglySorted_app in Hs as (Hlt & Hs & _).
  destruct (Z.ltb_spec bh (height a)) as [Hgt|Hle].
  - rewrite take_app_length. destruct (IH _ (bucket_Delete prefix (ID a) d) Hs eq_refl) as (l1 & l2 & -> & H1 & H2 & E).
    exists l1, (l2 ++ [a]). split_and!; [by rewrite app_assoc|done| |].
    + apply Forall_app. split; [done|by constructor].
    + rewrite E. by rewrite reverse_app.
  - assert (Hall : Forall (fun a => height a <= bh) (l ++ [a])).
    { apply Forall_app. split; [|by constructor]. apply Forall_forall. intros b Hb.
      assert (height b < height a) by (apply Hlt; [done|by left]). lia. }
    exists (l ++ [a]), []. rewrite app_nil_r. split_and!; [done|done|constructor|].
    by rewrite rollback_records_noop.
Qed.

Lemma mirror_rollback bh l d : mirror d l ->
  let '(d', l') := rollback_records prefix ID height (length l) bh l d in
  mirror d' l' /\ l' = filter (fun a => height a <= bh) l.
Proof.
  intros Hm. destruct (rollback_records_spec (length l) bh l d (m_sorted _ _ Hm) eq_refl)
    as (l1 & l2 & E & H1 & H2 & ->). split.
  - eapply (mirror_delete d l1 l2 l2 l1); [by rewrite <-E|by right|].
    intros b. by rewrite elem_of_reverse.
  - rewrite E, filter_app. clear -H1 H2.
    assert (filter (fun a => height a <= bh) l2 = []) as ->.
    { induction H2 as [|a l Ha _ IH]; [done|]. rewrite filter_cons, decide_False by lia. done. }
    rewrite app_nil_r. induction H1 as [|a l Ha _ IH]; [done|].
    rewrite filter_cons, decide_True by done. by rewrite <-IH.
Qed.
End Mirror.

(** ** The context *)

Section ContextMirror.
Context {D : Type} `{!LevelDB D, !LevelDBLaws D}.
Context `{!Codec DBInfoData, !Codec DBInfoDataV1, !Codec GVData, !Codec PRepData,
  !Codec PRepCandidateData, !Codec IISSTXData}.
Context `{!CodecLaws DBInfoData, !CodecLaws GVData, !CodecLaws PRepData,
  !CodecLaws PRepCandidateData, !CodecLaws IISSTXData}.

(** The rewards of a governance variable are those of its data. *)
Definition gv_ok (gv : GovernanceVariable) : Prop := gv_setReward gv = gv.

Definition gv_mirror (d : D) (l : list GovernanceVariable) : Prop :=
  mirror PrefixGovernanceVariable gv_BlockHeight gv_Bytes d l /\ Forall gv_ok l.

Definition prep_mirror (d : D) (l : list PRep) : Prop :=
  mirror PrefixPRep pr_BlockHeight pr_Bytes d l /\ Forall (fun p => wf (pr_Data p)) l.

Record candidate_mirror (d : D) (m : PRepCandidates) : Prop := {
  cm_wf : forall a p, m !! a = Some p -> wf_Address a /\ pcd_Address p = a /\ wf (pcd_Data p);
  cm_keys : forall k v, PrefixPRepCandidate `prefix_of` k ->
    ldb_get d k = Some v <-> exists a p, m !! a = Some p /\ k = PrefixPRepCandidate ++ a /\ v = pcd_Bytes p;
}.

(** The memory and the management DB agree. *)
Record ctx_mirror (ctx : Context D) : Prop := {
  ctx_bytes : store_bytes (ctx_management ctx);
  ctx_gv : gv_mirror (ctx_management ctx) (GV ctx);
  ctx_prep : prep_mirror (ctx_management ctx) (ctx_PRep ctx);
  ctx_candidates : candidate_mirror (ctx_management ctx) (ctx_PRepCandidates ctx);
  ctx_info : ldb_get (ctx_management ctx) PrefixManagement = Some (marshal (info (DB ctx)));
  ctx_info_wf : wf (info (DB ctx));
}.

Lemma prefix_bytes : all_bytes PrefixGovernanceVariable /\ all_bytes PrefixPRep /\
  all_bytes PrefixPRepCandidate /\ all_bytes PrefixManagement.
Proof. split_and!; apply (bool_decide_unpack _); vm_compute; exact I. Qed.

Lemma gv_ID_be64 gv : is_u64 (gv_BlockHeight gv) -> gv_ID gv = be64 (gv_BlockHeight gv).
Proof. apply height_ID_be64. Qed.
Lemma pr_ID_be64 p : is_u64 (pr_BlockHeight p) -> pr_ID p = be64 (pr_BlockHeight p).
Proof. apply height_ID_be64. Qed.

(** ** Loading *)

Lemma merge_sort_id (l : list GovernanceVariable) : heights_sorted gv_BlockHeight l -> merge_sort gv_le l = l.
Proof.
  intros Hs. apply (StronglySorted_unique_strong gv_le).
  - intros a b Ha Hb H1 H2. rewrite merge_sort_Permutation in Ha. unfold gv_le in *.
    apply (sorted_height_inj gv_BlockHeight l); [done..|lia].
  - apply StronglySorted_merge_sort; apply _.
  - induction Hs as [|a l Hs IH Hc]; constructor; [done|]. eapply Forall_impl; [done|].
    intros b. unfold gv_le. lia.
  - apply merge_sort_Permutation.
Qed.

Lemma LoadGovernanceVariable_mirror d l : store_bytes d -> gv_mirror d l -> LoadGovernanceVariable d = l.
Proof.
  intros Hb [Hm Hok]. unfold LoadGovernanceVariable.
  rewrite (mirror_iter PrefixGovernanceVariable gv_BlockHeight gv_Bytes) with (l := l); [|apply prefix_bytes|done..].
  rewrite map_map. rewrite (map_ext_in _ id), map_id; [apply merge_sort_id, Hm|].
  intros gv Hin. apply list_elem_of_In in Hin. pose proof (m_u64 _ _ _ _ _ Hm) as Hu.
  rewrite Forall_forall in Hok, Hu. specialize (Hok _ Hin). specialize (Hu _ Hin).
  unfold load_gv, gv_SetBytes, gv_Bytes. cbn [fst snd gv_Data zero_GV].
  rewrite unmarshal_marshal by done.
  rewrite drop_app_length, BytesToUint64_be64 by done. unfold gv_ok in Hok. rewrite <-Hok at 3.
  by destruct gv.
Qed.

Lemma LoadPRep_mirror d l : store_bytes d -> prep_mirror d l -> LoadPRep d = l.
Proof.
  intros Hb [Hm Hok]. unfold LoadPRep.
  rewrite (mirror_iter PrefixPRep pr_BlockHeight pr_Bytes) with (l := l); [|apply prefix_bytes|done..].
  rewrite map_map. rewrite (map_ext_in _ id), map_id; [done|].
  intros p Hin. apply list_elem_of_In in Hin. pose proof (m_u64 _ _ _ _ _ Hm) as Hu.
  rewrite Forall_forall in Hok, Hu. specialize (Hok _ Hin). specialize (Hu _ Hin).
  unfold load_prep, pr_SetBytes, pr_Bytes. cbn [fst snd].
  rewrite unmarshal_marshal by done. cbn [fst pr_Data].
  rewrite drop_app_length, BytesToUint64_be64 by done. by destruct p.
Qed.

Lemma load_candidates_spec {E} l m :
  Forall (fun e => exists a p, e = (PrefixPRepCandidate ++ a, pcd_Bytes p) /\ wf_Address a /\
                               pcd_Address p = a /\ wf (pcd_Data p)) l ->
  NoDup (l.*1) ->
  exists m', load_candidates (E := E) l m = Ok m' /\
    forall a p, (m' !! a = Some p) <->
      (wf_Address a /\ pcd_Address p = a /\ wf (pcd_Data p) /\ (PrefixPRepCandidate ++ a, pcd_Bytes p) ∈ l) \/
      (~ (PrefixPRepCandidate ++ a ∈ l.*1) /\ m !! a = Some p).
Proof.
  intros Hl. revert m. induction Hl as [|e l (a & p & -> & Ha & Hp & Hw) _ IH]; intros m Hnd.
  { exists m. split; [done|]. intros a p. split.
    - intros H. right. split; [apply not_elem_of_nil|done].
    - intros [(_ & _ & _ & H)|[_ H]]; [by apply not_elem_of_nil in H|done]. }
  apply NoDup_cons in Hnd as [Hn Hnd]. cbn [load_candidates fst].
  rewrite drop_app_length. change (NewAddress (Some a)) with (NewAddress (Some (Address_Bytes a))).
  rewrite NewAddress_Bytes by done.
  unfold pcd_SetBytes, pcd_Bytes. rewrite unmarshal_marshal by done. cbn [fst pcd_Data].
  destruct (IH (<[a := mkPRepCandidate a (pcd_Data p)]> m) Hnd) as (m' & E1 & Hm'). exists m'. split; [done|].
  assert (Hpeq : mkPRepCandidate a (pcd_Data p) = p) by (destruct p; cbn in *; by subst).
  rewrite Hpeq in Hm'. intros b q. rewrite Hm'. clear Hm' IH.
  assert (Hinj : forall b, PrefixPRepCandidate ++ b = PrefixPRepCandidate ++ a -> b = a)
    by (intros b' E'; by apply app_inv_head in E').
  split.
  - intros [(H1 & H2 & H3 & H4)|[H1 H2]].
    + left. split_and!; try done. by right.
    + destruct (decide (b = a)) as [->|Hne].
      * rewrite lookup_insert_eq in H2. injection H2 as <-. left. split_and!; try done. by left.
      * rewrite lookup_insert_ne in H2 by done. right. split; [|done].
        cbn. apply not_elem_of_cons. split; [|done]. intros E'. by apply Hinj in E'.
  - intros [(H1 & H2 & H3 & H4)|[H1 H2]].
    + apply elem_of_cons in H4 as [E'|H4]; [|left; split_and!; done].
      apply pair_equal_spec in E' as [E1' E2']. apply Hinj in E1' as ->.
      right. split; [done|]. rewrite lookup_insert_eq. f_equal.
      apply marshal_inj in E2'; [|done..]. destruct p, q; cbn in *; by subst.
    + cbn in H1. apply not_elem_of_cons in H1 as [Hne H1]. right. split; [done|].
      rewrite lookup_insert_ne; [done|]. by intros ->.
Qed.

Lemma LoadPRepCandidate_mirror {E} d m : store_bytes d -> candidate_mirror d m ->
  LoadPRepCandidate (E := E) d = Ok m.
Proof.
  intros Hb [Hw Hk]. unfold LoadPRepCandidate.
  assert (Hiter : forall k v, (k, v) ∈ iter_prefix PrefixPRepCandidate d <->
    exists a p, m !! a = Some p /\ k = PrefixPRepCandidate ++ a /\ v = pcd_Bytes p).
  { intros k v. split.
    - intros Hin. pose proof (iter_prefix_elem_1 _ _ _ _ Hin) as Hg.
      apply iter_prefix_elem in Hin as [_ Hp]; [by apply Hk|apply prefix_bytes|by eapply Hb].
    - intros (a & p & Hm & -> & ->). destruct (Hw a p Hm) as (Ha & _).
      apply iter_prefix_elem; [apply prefix_bytes|apply Forall_app; split; [apply prefix_bytes|auto with rc]|].
      split; [|by exists a]. apply Hk; [by exists a|]. by exists a, p. }
  destruct (load_candidates_spec (E := E) (iter_prefix PrefixPRepCandidate d) ∅) as (m' & -> & Hm').
  { apply Forall_forall. intros [k v] (a & p & Hm & -> & ->)%Hiter. exists a, p.
    destruct (Hw a p Hm) as (? & ? & ?). done. }
  { apply iter_prefix_NoDup. }
  f_equal. apply map_eq. intros a. apply option_eq. intros p. rewrite Hm'. split.
  - intros [(Ha & Hp & Hwp & Hin)|[_ H]]; [|by rewrite lookup_empty in H].
    apply Hiter in Hin as (b & q & Hq & E1 & E2). apply app_inv_head in E1 as ->.
    destruct (Hw b q Hq) as (_ & Hqa & Hwq). apply marshal_inj in E2; [|done..].
    rewrite Hq. f_equal. destruct p, q; cbn in *; by subst.
  - intros Hm. destruct (Hw a p Hm) as (? & ? & ?). left. split_and!; try done.
    apply Hiter. by exists a, p.
Qed.

(** What a restart builds from the stores. *)
Lemma NewContext_mirror {E : Type} (ctx : Context D) dbCount : ctx_mirror ctx ->
  NewContext (E := E) (management (DB ctx)) (calcResult (DB ctx)) (preCommit (DB ctx))
      (claim (DB ctx)) (claimBackup (DB ctx)) (files (DB ctx)) dbCount =
  Ok (mkContext (OpenAccountDB (set_accounts [] [] (DB ctx))) 0 (ctx_PRep ctx) (ctx_PRepCandidates ctx) (GV ctx)
        None NewCancel).
Proof.
  intros [Hb Hgv Hpr Hc Hi Hiw]. unfold ctx_management in *. unfold NewContext, NewDBInfo.
  rewrite bucket_Get_ldb. change (PrefixManagement ++ dbi_ID) with PrefixManagement. rewrite Hi.
  unfold dbi_SetBytes. rewrite unmarshal_marshal by done. cbn [obind].
  rewrite (LoadPRepCandidate_mirror _ _ Hb Hc). cbn [obind].
  by rewrite (LoadGovernanceVariable_mirror _ _ Hb Hgv), (LoadPRep_mirror _ _ Hb Hpr).
Qed.

(** C25: a restart reads the same state back: the block heights, the
    governance variables, the P-Rep lists and the candidates. *)
Theorem NewContext_reload {E : Type} (ctx : Context D) dbCount : ctx_mirror ctx ->
  exists ctx', NewContext (E := E) (management (DB ctx)) (calcResult (DB ctx)) (preCommit (DB ctx))
      (claim (DB ctx)) (claimBackup (DB ctx)) (files (DB ctx)) dbCount = Ok ctx' /\
    info (DB ctx') = info (DB ctx) /\ GV ctx' = GV ctx /\ ctx_PRep ctx' = ctx_PRep ctx /\
    ctx_PRepCandidates ctx' = ctx_PRepCandidates ctx /\ ctx_mirror ctx'.
Proof.
  intros Hm. rewrite NewContext_mirror by done. eexists. split; [done|]. cbn. split_and!; [done..|].
  by destruct Hm.
Qed.

(** ** Keys of the other record kinds *)

Lemma mirror_other {A} prefix (height : A -> Z) value (d d' : D) l :
  mirror prefix height value d l ->
  (forall k, prefix `prefix_of` k -> ldb_get d' k = ldb_get d k) -> mirror prefix height value d' l.
Proof. intros [H1 H2 H3] Hd. split; [done..|]. intros k v Hp. by rewrite Hd, H3. Qed.

Lemma candidate_mirror_other (d d' : D) m : candidate_mirror d m ->
  (forall k, PrefixPRepCandidate `prefix_of` k -> ldb_get d' k = ldb_get d k) -> candidate_mirror d' m.
Proof. intros [H1 H2] Hd. split; [done|]. intros k v Hp. by rewrite Hd, H2. Qed.

(** A change of the stores under one prefix. *)
Definition changes_only (prefix : BucketID) (d d' : D) : Prop :=
  (forall k, ~ prefix `prefix_of` k -> ldb_get d' k = ldb_get d k) /\
  (store_bytes d -> store_bytes d').

Lemma changes_refl p d : changes_only p d d.
Proof. done. Qed.

Lemma changes_trans p d1 d2 d3 : changes_only p d1 d2 -> changes_only p d2 d3 -> changes_only p d1 d3.
Proof. intros [H1 H2] [H3 H4]. split; [|by auto]. intros k Hk. by rewrite H3, H1. Qed.

Lemma changes_set p k v d : all_bytes p -> all_bytes k -> changes_only p d (bucket_Set p k v d).
Proof.
  intros Hp Hk. split.
  - intros k' Hn. rewrite bucket_get_set. case_decide as E; [|done]. destruct Hn. by exists k.
  - intros Hb k' v'. rewrite bucket_get_set. case_decide as E; [|apply Hb]. intros _. subst.
    by apply Forall_app.
Qed.

Lemma changes_delete p k d : changes_only p d (bucket_Delete p k d).
Proof.
  split.
  - intros k' Hn. rewrite bucket_get_delete. case_decide as E; [|done]. destruct Hn. by exists k.
  - intros Hb k' v'. rewrite bucket_get_delete. case_decide; [done|apply Hb].
Qed.

Lemma changes_delete_all {A} p (ID : A -> bytes) l d :
  changes_only p d (fold_left (fun d a => bucket_Delete p (ID a) d) l d).
Proof.
  revert d. induction l as [|a l IH]; intros d; [apply changes_refl|].
  eapply changes_trans; [apply changes_delete|apply IH].
Qed.

Lemma changes_drop_old {A} p (ID : A -> bytes) height prev l d : heights_sorted height l ->
  changes_only p d (drop_old p ID height prev l d).1.
Proof.
  intros Hs. destruct (drop_old_spec p ID height prev l d Hs) as [[-> _]|(l1 & a & l2 & _ & _ & _ & ->)];
    [apply changes_refl|apply changes_delete_all].
Qed.

Lemma changes_rollback {A} p (ID : A -> bytes) height bh l d : heights_sorted height l ->
  changes_only p d (rollback_records p ID height (length l) bh l d).1.
Proof.
  intros Hs. destruct (rollback_records_spec p ID height (length l) bh l d Hs eq_refl) as (l1 & l2 & _ & _ & _ & ->).
  apply changes_delete_all.
Qed.

Lemma prefix_conflict (p q k : bytes) : length p = length q -> p <> q ->
  q `prefix_of` k -> ~ p `prefix_of` k.
Proof. intros Hl Hne [r1 E1] [r2 E2]. rewrite E1 in E2. by apply app_inj_1 in E2 as [? _]. Qed.

Local Ltac other_prefix H :=
  apply (fun Hl Hne => prefix_conflict _ _ _ Hl Hne H); [reflexivity|];
  let E := fresh in intros E; vm_compute in E; discriminate E.

(** The context with a new management DB and the memory that goes with it. *)
Lemma ctx_mirror_gv ctx d l : ctx_mirror ctx -> changes_only PrefixGovernanceVariable (ctx_management ctx) d ->
  gv_mirror d l -> ctx_mirror (set_GV l (set_ctx_management d ctx)).
Proof.
  intros [Hb Hgv [Hpr Hpw] Hc Hi Hiw] [Hd Hdb] Hl. split; cbn; try done.
  - by apply Hdb.
  - split; [|done]. eapply mirror_other; [done|]. intros k Hk. apply Hd. other_prefix Hk.
  - eapply candidate_mirror_other; [done|]. intros k Hk. apply Hd. other_prefix Hk.
  - rewrite Hd; [done|]. other_prefix (reflexivity PrefixManagement : PrefixManagement `prefix_of` PrefixManagement).
Qed.

Lemma ctx_mirror_prep ctx d l : ctx_mirror ctx -> changes_only PrefixPRep (ctx_management ctx) d ->
  prep_mirror d l -> ctx_mirror (set_PRep l (set_ctx_management d ctx)).
Proof.
  intros [Hb [Hgv Hgo] Hpr Hc Hi Hiw] [Hd Hdb] Hl. split; cbn; try done.
  - by apply Hdb.
  - split; [|done]. eapply mirror_other; [done|]. intros k Hk. apply Hd. other_prefix Hk.
  - eapply candidate_mirror_other; [done|]. intros k Hk. apply Hd. other_prefix Hk.
  - rewrite Hd; [done|]. other_prefix (reflexivity PrefixManagement : PrefixManagement `prefix_of` PrefixManagement).
Qed.

Lemma ctx_mirror_candidates ctx d m : ctx_mirror ctx -> changes_only PrefixPRepCandidate (ctx_management ctx) d ->
  candidate_mirror d m -> ctx_mirror (set_PRepCandidates m (set_ctx_management d ctx)).
Proof.
  intros [Hb [Hgv Hgo] [Hpr Hpw] Hc Hi Hiw] [Hd Hdb] Hl. split; cbn; try done.
  - by apply Hdb.
  - split; [|done]. eapply mirror_other; [done|]. intros k Hk. apply Hd. other_prefix Hk.
  - split; [|done]. eapply mirror_other; [done|]. intros k Hk. apply Hd. other_prefix Hk.
  - rewrite Hd; [done|]. other_prefix (reflexivity PrefixManagement : PrefixManagement `prefix_of` PrefixManagement).
Qed.

(** ** Governance variables *)

Lemma heights_below_last {A} (height : A -> Z) l h : heights_sorted height l ->
  match last l with None => True | Some g => height g < h end -> Forall (fun g => height g < h) l.
Proof.
  intros Hs. destruct l as [|a l _] using rev_ind; [constructor|].
  rewrite last_snoc. intros Hh. apply StronglySorted_app in Hs as (Hlt & _ & _).
  apply Forall_app. split; [|by constructor]. apply Forall_forall. intros b Hb.
  assert (height b < height a) by (apply Hlt; [done|by left]). lia.
Qed.

Lemma add_gv_mirror gvList l d : Forall (fun g => is_u64 (ig_BlockHeight g)) gvList -> gv_mirror d l ->
  let '(d', l') := add_gv gvList l d in gv_mirror d' l' /\ changes_only PrefixGovernanceVariable d d' /\
    l `prefix_of` l'.
Proof.
  intros Hg. revert l d. induction Hg as [|g gvList Hu _ IH]; intros l d [Hm Hok]; cbn [add_gv].
  { split_and!; [done|apply changes_refl|done]. }
  destruct (match last l with None => true | Some g0 => _ end) eqn:Hlast.
  - set (gv := NewGVFromIISS g). specialize (IH (l ++ [gv]) (bucket_Set PrefixGovernanceVariable (gv_ID gv) (gv_Bytes gv) d)).
    destruct (add_gv gvList _ _) as [d' l']. destruct IH as (H1 & H2 & H3).
    + split; [|apply Forall_app; split; [done|constructor; [done|constructor]]].
      eapply (mirror_add _ gv_ID); [apply gv_ID_be64|done|done|].
      apply (heights_below_last gv_BlockHeight); [apply Hm|]. destruct (last l); [|done].
      apply Z.ltb_lt in Hlast. exact Hlast.
    + split_and!; [done| |by eapply prefix_app_l].
      eapply changes_trans; [|done]. apply changes_set; [apply prefix_bytes|].
      rewrite gv_ID_be64 by exact Hu. auto with rc.
  - by apply IH.
Qed.

(** The memory and the store of the governance variables after the loop that
    adds and the one that drops. *)
Lemma UpdateGovernanceVariable_steps ctx gvList :
  ctx_mirror ctx -> Forall (fun g => is_u64 (ig_BlockHeight g)) gvList ->
  let l := (add_gv gvList (GV ctx) (ctx_management ctx)).2 in
  ctx_mirror (UpdateGovernanceVariable gvList ctx) /\
  GV (UpdateGovernanceVariable gvList ctx) `suffix_of` l /\
  forall h, getPrevCalcDoneBH (DB ctx) < h ->
    head (filter (fun gv => gv_BlockHeight gv < h) (reverse (GV (UpdateGovernanceVariable gvList ctx)))) =
    head (filter (fun gv => gv_BlockHeight gv < h) (reverse l)).
Proof.
  intros Hm Hg. unfold UpdateGovernanceVariable.
  pose proof (add_gv_mirror gvList (GV ctx) (ctx_management ctx) Hg (ctx_gv _ Hm)) as Ha.
  destruct (add_gv gvList _ _) as [d l]. destruct Ha as ([Hl Hlo] & Hc & _). cbn [snd].
  pose proof (changes_drop_old PrefixGovernanceVariable gv_ID gv_BlockHeight (getPrevCalcDoneBH (DB ctx)) l d (m_sorted _ _ _ _ _ Hl)) as Hc2.
  pose proof (mirror_drop_old PrefixGovernanceVariable gv_ID gv_BlockHeight gv_Bytes gv_ID_be64
    (getPrevCalcDoneBH (DB ctx)) l d Hl) as Hdrop.
  destruct (drop_old _ _ _ _ _ _) as [d' l']. destruct Hdrop as (Hl' & Hsuf & Hget).
  split; [|split; [done|intros h Hh; by apply Hget]].
  apply ctx_mirror_gv; [done|by eapply changes_trans|]. split; [done|].
  destruct Hsuf as [l0 ->]. by apply Forall_app in Hlo as [_ ?].
Qed.

(** A new governance variable enters memory and store together, old ones
    leave both, and what a height above the previous calculation looks up
    does not change by dropping them. *)
Lemma UpdateGovernanceVariable_mirror ctx gvList :
  ctx_mirror ctx -> Forall (fun g => is_u64 (ig_BlockHeight g)) gvList ->
  ctx_mirror (UpdateGovernanceVariable gvList ctx) /\
  forall h, getPrevCalcDoneBH (DB ctx) < h ->
    getGVByBlockHeight (UpdateGovernanceVariable gvList ctx) h =
    getGVByBlockHeight (set_GV (add_gv gvList (GV ctx) (ctx_management ctx)).2 ctx) h.
Proof. intros Hm Hg. by destruct (UpdateGovernanceVariable_steps ctx gvList Hm Hg) as (H1 & _ & H2). Qed.

(** ** P-Rep lists *)

Lemma add_prep_mirror preps l d : prep_mirror d l ->
  heights_sorted pr_BlockHeight (l ++ preps) ->
  Forall (fun p => is_u64 (pr_BlockHeight p) /\ wf (pr_Data p)) preps ->
  let '(d', l') := add_prep preps l d in
  prep_mirror d' l' /\ changes_only PrefixPRep d d' /\ l' = l ++ preps.
Proof.
  intros Hm Hs Hw. revert l d Hm Hs. induction Hw as [|p preps [Hu Hp] _ IH]; intros l d [Hm Hok] Hs; cbn [add_prep].
  { split_and!; [done|apply changes_refl|by rewrite app_nil_r]. }
  specialize (IH (l ++ [p]) (bucket_Set PrefixPRep (pr_ID p) (pr_Bytes p) d)).
  destruct (add_prep preps _ _) as [d' l']. destruct IH as (H1 & H2 & ->).
  - split; [|apply Forall_app; split; [done|constructor; [done|constructor]]].
    eapply (mirror_add _ pr_ID); [apply pr_ID_be64|done|done|].
    apply StronglySorted_app in Hs as (Hlt & _ & _). apply Forall_forall. intros b Hb.
    apply Hlt; [done|by left].
  - by rewrite <-app_assoc.
  - split_and!; [done| |by rewrite <-app_assoc].
    eapply changes_trans; [|done]. apply changes_set; [apply prefix_bytes|].
    rewrite pr_ID_be64 by done. auto with rc.
Qed.

(** What [UpdatePRep] keeps of the lists, and the mirror of them. *)
Lemma UpdatePRep_steps ctx preps :
  ctx_mirror ctx -> heights_sorted pr_BlockHeight (ctx_PRep ctx ++ preps) ->
  Forall (fun p => is_u64 (pr_BlockHeight p) /\ wf (pr_Data p)) preps ->
  ctx_mirror (UpdatePRep preps ctx) /\
  ctx_PRep (UpdatePRep preps ctx) `suffix_of` ctx_PRep ctx ++ preps /\
  forall p, p ∈ ctx_PRep ctx ++ preps -> getPrevCalcDoneBH (DB ctx) < pr_BlockHeight p ->
    p ∈ ctx_PRep (UpdatePRep preps ctx).
Proof.
  intros Hm Hs Hw. unfold UpdatePRep.
  pose proof (add_prep_mirror preps (ctx_PRep ctx) (ctx_management ctx) (ctx_prep _ Hm) Hs Hw) as Ha.
  destruct (add_prep preps _ _) as [d l]. destruct Ha as ([Hl Hlo] & Hc & ->).
  set (l := ctx_PRep ctx ++ preps) in *. set (prev := getPrevCalcDoneBH (DB ctx)).
  pose proof (changes_drop_old PrefixPRep pr_ID pr_BlockHeight prev l d (m_sorted _ _ _ _ _ Hl)) as Hc2.
  pose proof (mirror_drop_old PrefixPRep pr_ID pr_BlockHeight pr_Bytes pr_ID_be64 prev l d Hl) as Hdrop.
  destruct (drop_old_spec PrefixPRep pr_ID pr_BlockHeight prev l d (m_sorted _ _ _ _ _ Hl)) as [[E _]|(l1 & a & l2 & E1 & Hle & _ & E)];
    rewrite E in *; destruct Hdrop as (Hl' & Hsuf & _); cbn [fst] in Hc2.
  - split_and!; [|done|done]. apply ctx_mirror_prep; [done|by eapply changes_trans|done].
  - split_and!; [|done|].
    + apply ctx_mirror_prep; [done|by eapply changes_trans|]. split; [done|].
      rewrite E1 in Hlo. by apply Forall_app in Hlo as [_ ?].
    + intros p Hp Hgt. cbn. rewrite E1 in Hp. apply elem_of_app in Hp as [Hp|Hp]; [|done].
      pose proof (m_sorted _ _ _ _ _ Hl) as Hsl. rewrite E1 in Hsl.
      apply StronglySorted_app in Hsl as (Hlt & _ & _).
      assert (pr_BlockHeight p < pr_BlockHeight a) by (apply Hlt; [done|by left]). lia.
Qed.

(** P-Rep lists above the last one are added to memory and store
    together, old lists leave both, and every list above the height of the
    previous calculation stays. *)
Lemma UpdatePRep_mirror ctx preps :
  ctx_mirror ctx -> heights_sorted pr_BlockHeight (ctx_PRep ctx ++ preps) ->
  Forall (fun p => is_u64 (pr_BlockHeight p) /\ wf (pr_Data p)) preps ->
  ctx_mirror (UpdatePRep preps ctx) /\
  (forall p, p ∈ ctx_PRep (UpdatePRep preps ctx) -> p ∈ ctx_PRep ctx \/ p ∈ preps) /\
  filter (fun p => getPrevCalcDoneBH (DB ctx) < pr_BlockHeight p) (ctx_PRep (UpdatePRep preps ctx)) =
  filter (fun p => getPrevCalcDoneBH (DB ctx) < pr_BlockHeight p) (ctx_PRep ctx ++ preps).
Proof.
  intros Hm Hs Hw. destruct (UpdatePRep_steps ctx preps Hm Hs Hw) as (H1 & [l0 E] & H3).
  split; [done|]. split.
  - intros p Hp. apply elem_of_app. rewrite E. apply elem_of_app. by right.
  - assert (Hold : Forall (fun p => ~ getPrevCalcDoneBH (DB ctx) < pr_BlockHeight p) l0).
    { apply Forall_forall. intros p Hp Hlt. rewrite E in Hs.
      apply StronglySorted_app in Hs as (Hlts & _ & _).
      assert (pr_BlockHeight p < pr_BlockHeight p); [|lia]. apply Hlts; [done|].
      apply H3; [|done]. rewrite E. apply elem_of_app. by left. }
    rewrite E, filter_app. clear E.
    induction Hold as [|p l0 Hp _ IH]; [done|]. by rewrite filter_cons_False.
Qed.

(** ** Candidates *)

Lemma candidate_mirror_insert m d a p : candidate_mirror d m ->
  wf_Address a -> pcd_Address p = a -> wf (pcd_Data p) ->
  candidate_mirror (bucket_Set PrefixPRepCandidate (pcd_ID p) (pcd_Bytes p) d) (<[a := p]> m).
Proof.
  intros [Hw Hk] Ha Hp Hwp. split.
  - intros b q. rewrite lookup_insert. case_decide as E; [|apply Hw]. intros [= <-]. by subst.
  - intros k v Hpre. rewrite bucket_get_set. unfold pcd_ID, Address_Bytes. rewrite Hp. case_decide as E.
    + subst k. split.
      * intros [= <-]. exists a, p. by rewrite lookup_insert_eq.
      * intros (b & q & Hq & E & ->). apply app_inv_head in E as <-.
        rewrite lookup_insert_eq in Hq. by injection Hq as ->.
    + rewrite Hk by done. split; intros (b & q & Hq & -> & ->); exists b, q; (split_and!; [|done..]).
      * rewrite lookup_insert_ne; [done|]. by intros ->.
      * rewrite lookup_insert_ne in Hq; [done|]. by intros ->.
Qed.

(** What one transaction does to the candidates. *)
Definition candidate_step (tx : IISSTXData) (m : PRepCandidates) : PRepCandidates :=
  if tx_DataType tx =? TXDataTypePrepReg then
    match m !! tx_Address tx with
    | Some _ => m
    | None => <[tx_Address tx := mkPRepCandidate (tx_Address tx) (mkPRepCandidateData (tx_BlockHeight tx) 0)]> m
    end
  else if tx_DataType tx =? TXDataTypePrepUnReg then
    match m !! tx_Address tx with
    | Some p => if pc_End (pcd_Data p) =? 0
                then <[tx_Address tx := mkPRepCandidate (pcd_Address p)
                        (mkPRepCandidateData (pc_Start (pcd_Data p)) (tx_BlockHeight tx))]> m
                else m
    | None => m
    end
  else m.

Lemma candidate_tx_mirror tx m d : candidate_mirror d m -> wf tx ->
  let '(m', d') := candidate_tx tx m d in
  candidate_mirror d' m' /\ changes_only PrefixPRepCandidate d d' /\ m' = candidate_step tx m.
Proof.
  intros Hm (Ha & Hb & _). unfold candidate_tx, candidate_step.
  destruct (tx_DataType tx =? TXDataTypePrepReg).
  { destruct (m !! tx_Address tx) as [p|] eqn:E; (split_and!; [try done|try apply changes_refl|done]).
    - apply candidate_mirror_insert; try done.
    - apply changes_set; [apply prefix_bytes|by apply bytes_wf_Address]. }
  destruct (tx_DataType tx =? TXDataTypePrepUnReg); [|split_and!; [done|apply changes_refl|done]].
  destruct (m !! tx_Address tx) as [p|] eqn:E; [|split_and!; [done|apply changes_refl|done]].
  destruct (cm_wf _ _ Hm _ _ E) as (_ & Hp & [Hs _]).
  destruct (Z.eqb_spec (pc_End (pcd_Data p)) 0); cbn [negb]; (split_and!; [try done|try apply changes_refl|done]).
  - by apply candidate_mirror_insert.
  - apply changes_set; [apply prefix_bytes|]. unfold pcd_ID, Address_Bytes. cbn. rewrite Hp. by apply bytes_wf_Address.
Qed.

(** Transactions as the ICON service wrote them. *)
Definition iiss_txs_ok (iissDB : D) : Prop :=
  Forall (fun e => exists tx : IISSTXData, wf tx /\ e.2 = marshal tx) (iter_prefix PrefixIISSTX iissDB).

Definition iiss_txs (iissDB : D) : list IISSTXData :=
  map (fun e => (unmarshal e.2 (tx_TXData zero_IISSTX)).1) (iter_prefix PrefixIISSTX iissDB).

Lemma candidate_loop_mirror tx0 l m d : candidate_mirror d m ->
  Forall (fun e => exists tx : IISSTXData, wf tx /\ e.2 = marshal tx) l ->
  let '(m', d') := candidate_loop tx0 l m d in
  candidate_mirror d' m' /\ changes_only PrefixPRepCandidate d d' /\
  m' = foldl (flip candidate_step) m (map (fun e => (unmarshal e.2 (tx_TXData zero_IISSTX)).1) l).
Proof.
  intros Hm Hl. revert tx0 m d Hm.
  induction Hl as [|[k v] l (tx & Hw & Hv) _ IH]; intros tx0 m d Hm; cbn [candidate_loop].
  { split_and!; [done|apply changes_refl|done]. }
  cbn [snd] in Hv. subst v. unfold tx_SetBytes. rewrite !unmarshal_marshal by done. cbn [negb tx_TXData tx_Index].
  pose proof (candidate_tx_mirror tx m d Hm Hw) as H1. destruct (candidate_tx tx m d) as [m1 d1].
  destruct H1 as (Hm1 & Hc1 & ->).
  specialize (IH (mkIISSTX (BytesToUint64 (drop (length PrefixIISSTX) k)) tx) _ d1 Hm1).
  destruct (candidate_loop _ _ _ _) as [m' d']. destruct IH as (H1 & H2 & H3).
  split_and!; [done|by eapply changes_trans|]. rewrite H3. cbn [map foldl snd]. by rewrite unmarshal_marshal.
Qed.

Lemma UpdatePRepCandidate_keeps ctx iissDB : ctx_mirror ctx -> iiss_txs_ok iissDB ->
  ctx_mirror (UpdatePRepCandidate iissDB ctx).
Proof.
  intros Hm Htx. unfold UpdatePRepCandidate.
  pose proof (candidate_loop_mirror zero_IISSTX _ (ctx_PRepCandidates ctx) (ctx_management ctx) (ctx_candidates _ Hm) Htx) as H1.
  destruct (candidate_loop _ _ _ _) as [m d]. destruct H1 as (H1 & H2 & H3).
  by apply ctx_mirror_candidates.
Qed.

(** The candidates after a block of transactions are those of running the
    registration rules in order, in memory and store alike: a registration
    of a known address and an unregistration of an unknown or unregistered
    one have no effect. *)
Lemma UpdatePRepCandidate_mirror ctx iissDB : ctx_mirror ctx -> iiss_txs_ok iissDB ->
  ctx_mirror (UpdatePRepCandidate iissDB ctx) /\
  ctx_PRepCandidates (UpdatePRepCandidate iissDB ctx)
    = foldl (flip candidate_step) (ctx_PRepCandidates ctx) (iiss_txs iissDB).
Proof.
  intros Hm Htx. split; [by apply UpdatePRepCandidate_keeps|]. unfold UpdatePRepCandidate.
  pose proof (candidate_loop_mirror zero_IISSTX _ (ctx_PRepCandidates ctx) (ctx_management ctx) (ctx_candidates _ Hm) Htx) as H1.
  destruct (candidate_loop _ _ _ _) as [m d]. by destruct H1 as (_ & _ & H3).
Qed.

(** ** Rollback *)

(** A rollback removes the governance variables and P-Rep lists above the
    height from memory and store, and only those. *)
Lemma RollbackManagementDB_mirror ctx bh : ctx_mirror ctx ->
  ctx_mirror (RollbackManagementDB bh ctx) /\
  GV (RollbackManagementDB bh ctx) = filter (fun g => gv_BlockHeight g <= bh) (GV ctx) /\
  ctx_PRep (RollbackManagementDB bh ctx) = filter (fun p => pr_BlockHeight p <= bh) (ctx_PRep ctx) /\
  ctx_PRepCandidates (RollbackManagementDB bh ctx) = ctx_PRepCandidates ctx.
Proof.
  intros Hm. unfold RollbackManagementDB. destruct (ctx_gv _ Hm) as [Hgv Hgo].
  pose proof (changes_rollback PrefixGovernanceVariable gv_ID gv_BlockHeight bh (GV ctx) (ctx_management ctx)
    (m_sorted _ _ _ _ _ Hgv)) as Hc1.
  pose proof (mirror_rollback PrefixGovernanceVariable gv_ID gv_BlockHeight gv_Bytes gv_ID_be64 bh (GV ctx)
    (ctx_management ctx) Hgv) as Hr1.
  destruct (rollback_records PrefixGovernanceVariable _ _ _ _ _ _) as [d1 gvs]. destruct Hr1 as [Hm1 ->].
  assert (Hctx1 : ctx_mirror (set_GV (filter (fun g => gv_BlockHeight g <= bh) (GV ctx)) (set_ctx_management d1 ctx))).
  { apply ctx_mirror_gv; [done|done|]. split; [done|]. apply Forall_forall. intros g [_ Hg]%list_elem_of_filter.
    rewrite Forall_forall in Hgo. by apply Hgo. }
  destruct (ctx_prep _ Hctx1) as [Hpr Hpw]. cbn in Hpr, Hpw.
  pose proof (changes_rollback PrefixPRep pr_ID pr_BlockHeight bh (ctx_PRep ctx) d1 (m_sorted _ _ _ _ _ Hpr)) as Hc2.
  pose proof (mirror_rollback PrefixPRep pr_ID pr_BlockHeight pr_Bytes pr_ID_be64 bh (ctx_PRep ctx) d1 Hpr) as Hr2.
  destruct (rollback_records PrefixPRep _ _ _ _ _ _) as [d2 preps]. destruct Hr2 as [Hm2 ->].
  split_and!; [|done..].
  apply (ctx_mirror_prep _ d2 (filter (fun p => pr_BlockHeight p <= bh) (ctx_PRep ctx)) Hctx1 Hc2).
  split; [done|]. apply Forall_forall. intros p [_ Hp]%list_elem_of_filter.
  rewrite Forall_forall in Hpw. by apply Hpw.
Qed.

(** ** The record of the block heights *)

(** [s'] differs from [s] in the management DB only by that record, which is
    up to date. *)
Record info_saved (s s' : IScoreDB D) : Prop := {
  is_changes : changes_only PrefixManagement (management s) (management s');
  is_stored : ldb_get (management s') PrefixManagement = Some (marshal (info s'));
  is_wf : wf (info s');
}.

Lemma ctx_mirror_saved ctx : ctx_mirror ctx -> info_saved (DB ctx) (DB ctx).
Proof. intros Hm. split; [apply changes_refl|by apply ctx_info|by apply ctx_info_wf]. Qed.

Lemma ctx_mirror_info ctx s' : ctx_mirror ctx -> info_saved (DB ctx) s' -> ctx_mirror (set_DB s' ctx).
Proof.
  intros [Hb [Hgv Hgo] [Hpr Hpw] Hc Hi Hiw] [[Hd Hdb] Hi' Hw']. split; cbn; try done.
  - by apply Hdb.
  - split; [|done]. eapply mirror_other; [done|]. intros k Hk. apply Hd. other_prefix Hk.
  - split; [|done]. eapply mirror_other; [done|]. intros k Hk. apply Hd. other_prefix Hk.
  - eapply candidate_mirror_other; [done|]. intros k Hk. apply Hd. other_prefix Hk.
Qed.

Lemma info_saved_write s s' i : info_saved s s' -> wf i -> info_saved s (writeToDB (set_info i s')).
Proof.
  intros [Hc _ _] Hi. split; [|cbn; rewrite bucket_get_set; by rewrite decide_True|done].
  eapply changes_trans; [exact Hc|]. apply changes_set; [apply prefix_bytes|constructor].
Qed.

Lemma info_saved_writeToDB s s' : info_saved s s' -> info_saved s (writeToDB s').
Proof.
  intros Hs. assert (set_info (info s') s' = s') as <- by (by destruct s').
  apply info_saved_write; [done|]. by apply (is_wf _ _ Hs).
Qed.

Lemma info_saved_same s s1 s2 : info_saved s s1 -> info s2 = info s1 -> management s2 = management s1 ->
  info_saved s s2.
Proof. intros [Hc Hi Hw] E1 E2. split; by rewrite ?E1, ?E2. Qed.

Lemma info_saved_toggle s s' h : info_saved s s' -> is_u64 h -> info_saved s (toggleAccountDB h s').
Proof.
  intros Hs Hh. unfold toggleAccountDB. destruct (_ =? _); [done|]. apply info_saved_write; [done|].
  destruct (is_wf _ _ Hs) as (? & ? & ? & ? & ? & ? & ?). by split_and!.
Qed.

Lemma info_saved_current s s' h hash : info_saved s s' -> is_u64 h -> info_saved s (setCurrentBlockInfo h hash s').
Proof.
  intros Hs Hh. apply info_saved_write; [done|].
  destruct (is_wf _ _ Hs) as (? & Hl & ? & ? & ? & ? & ?). split_and!; try done.
  cbn [Current set_Current BlockInfo_set bi_BlockHash]. rewrite length_copy_at; [done|lia].
Qed.
End ContextMirror.
