(* ===== verification/Reward.v ===== *)
(** * Rewards: [core/msg_calculate.go], per account and per account DB

    The delegation reward of an account ([calculateDelegationReward],
    [calculateIScore]) and the pass over one account DB that moves every
    account to the new block height ([calculateDB]).  [shake256] is the
    64-byte SHAKE-256 digest of what was written to the hash. *)

From S2P Require Import Prelude Bytes HexInt Address Store Codec Typed Account ClaimDB Management IISSData IScoreDB Context.

Definition writeBatchCount : Z := 10.
Definition minRewardRep : Z := 200.
Definition blocksPerYear : Z := 15552000.
Definition gvDivider : Z := 10000.
Definition rewardDivider : Z := blocksPerYear * gvDivider / iScoreMultiplier.
Definition MinDelegation : Z := blocksPerYear / iScoreMultiplier * (gvDivider / minRewardRep).
Definition BigIntRewardDivider : Z := rewardDivider.

(** ** Delegation reward *)

(** The part of [start, end) in which a governance variable is in force:
    from its height to the height of the next one. *)
Definition gv_period (start end_ : Z) (gv : GovernanceVariable) (next : option GovernanceVariable)
    : Z * Z :=
  let s := if start <? gv_BlockHeight gv then gv_BlockHeight gv else start in
  let e := match next with
           | Some n => if gv_BlockHeight n <? end_ then gv_BlockHeight n else end_
           | None => end_
           end in
  (s, e).

Fixpoint delegation_reward_loop (delegate start end_ : Z) (gvs : list GovernanceVariable) (total : Z) : Z :=
  match gvs with
  | [] => total
  | gv :: gvs =>
      let '(s, e) := gv_period start end_ gv (head gvs) in
      if e <=? s then delegation_reward_loop delegate start end_ gvs total
      else
        let period := NewHexIntFromUint64 (e -u s) in
        let reward := delegate * period in
        let reward := reward * RewardRep (gv_Data gv) in
        let reward := big_Div reward BigIntRewardDivider in
        delegation_reward_loop delegate start end_ gvs (total + reward)
  end.

Definition calculateDelegationReward (gvs : list GovernanceVariable) (delegationInfo : DelegateData)
    (start end_ : Z) (pRep : PRepCandidate) : Z :=
  let start := if start <? pc_Start (pcd_Data pRep) then pc_Start (pcd_Data pRep) else start in
  let end_ := if negb (pc_End (pcd_Data pRep) =? 0) && (pc_End (pcd_Data pRep) <? end_)
              then pc_End (pcd_Data pRep) else end_ in
  delegation_reward_loop (dg_Delegate delegationInfo) start end_ gvs 0.

(** A nil delegation panics; one below the minimum (of its low 64 bits), or
    to an address that is no P-Rep candidate, earns nothing. *)
Fixpoint delegations_reward {E : Type} (gvs : list GovernanceVariable) (candidates : PRepCandidates)
    (start end_ : Z) (dgs : list (option DelegateData)) (totalReward : Z) : outcome E Z :=
  match dgs with
  | [] => Ok totalReward
  | None :: _ => Panic
  | Some dg :: dgs =>
      if big_Uint64 (dg_Delegate dg) <? MinDelegation
      then delegations_reward gvs candidates start end_ dgs totalReward
      else
        match candidates !! dg_Address dg with
        | None => delegations_reward gvs candidates start end_ dgs totalReward
        | Some pRep =>
            let reward := calculateDelegationReward gvs dg start end_ pRep in
            delegations_reward gvs candidates start end_ dgs (totalReward + reward)
        end
  end.

(** The account after the call, and the reward: nil when the account is not
    below the block height. *)
Definition calculateIScore {E : Type} (gvs : list GovernanceVariable) (candidates : PRepCandidates)
    (ia : IScoreAccount) (blockHeight : Z) : outcome E (IScoreAccount * option Z) :=
  let blockHeight := if blockHeight =? 0 then ia_BlockHeight ia +u 1 else blockHeight in
  if blockHeight <=? ia_BlockHeight ia then Ok (ia, None)
  else
    let! totalReward :=
      delegations_reward gvs candidates (ia_BlockHeight ia) blockHeight (ia_Delegations ia) 0 in
    let ia := if totalReward =? 0 then ia else ia_set_IScore (ia_IScore ia + totalReward) ia in
    Ok (ia_set_BlockHeight blockHeight ia, Some totalReward).

(** ** One account DB *)

(** The variables of the loop of [calculateDB]; [calc_hash] is what was
    written to the hash. *)
Record calc_state (D : Type) := mkCalcState {
  calc_db : D;
  calc_batch : list batch_op;
  calc_entries : Z;
  calc_count : Z;
  calc_hash : bytes;
  calc_stats : Statistics;
}.
Arguments mkCalcState {D}. Arguments calc_db {D}. Arguments calc_batch {D}.
Arguments calc_entries {D}. Arguments calc_count {D}. Arguments calc_hash {D}. Arguments calc_stats {D}.

(** How the loop ended: at the end of the iterator, by an interrupt, or by the
    return on an account that does not decode. *)
Inductive calc_end := Finished | Interrupted | BadAccount.

Section CalculateDB.
Context {D : Type} `{!LevelDB D, !Codec IScoreData}.
Context (shake256 : bytes -> bytes).
Context (gvs : list GovernanceVariable) (candidates : PRepCandidates).

Definition next_entry (s : calc_state D) : calc_state D :=
  mkCalcState (calc_db s) (calc_batch s) (calc_entries s +u 1) (calc_count s) (calc_hash s) (calc_stats s).
Definition stat_account (s : calc_state D) : calc_state D :=
  mkCalcState (calc_db s) (calc_batch s) (calc_entries s) (calc_count s) (calc_hash s)
    (increase FAccounts (VUint64 1) (calc_stats s)).

(** A calculated account goes to the batch, which is written when the
    counter reaches its size, or directly to the DB. *)
Definition store_account (batchCount : Z) (k key : bytes) (ia : IScoreAccount) (reward : Z)
    (s : calc_state D) : calc_state D :=
  let '(db, batch, entries) :=
    if 0 <? batchCount then
      let batch := batch_Set (calc_batch s) k (ia_Bytes ia) in
      if calc_entries s =? batchCount
      then (batch_Write batch (calc_db s), batch_Reset batch, 0)
      else (calc_db s, batch, calc_entries s)
    else (bucket_Set PrefixIScore key (ia_Bytes ia) (calc_db s), calc_batch s, calc_entries s) in
  mkCalcState db batch entries (calc_count s +u 1) (calc_hash s ++ ia_BytesForHash ia)
    (increase FBeta3 (VHexInt reward) (calc_stats s)).

(** [interrupted n] tells whether the quit channel is closed when the loop
    looks at it for the n-th time. *)
Fixpoint calc_loop {E : Type} (interrupted : nat -> bool) (n : nat) (blockHeight batchCount : Z)
    (l : list (bytes * bytes)) (s : calc_state D) : outcome E (calc_state D * calc_end) :=
  match l with
  | [] => Ok (s, Finished)
  | (k, v) :: l =>
      if interrupted n then Ok (s, Interrupted)
      else
        let key := drop (length PrefixIScore) k in
        match NewIScoreAccountFromBytes v with
        | None => Ok (s, BadAccount)
        | Some ia =>
            match NewAddress (Some key) with
            | Ok addr =>
                let s := stat_account s in
                let! (ia, reward) := calculateIScore gvs candidates (ia_set_Address addr ia) blockHeight in
                let s := match reward with
                         | Some r => store_account batchCount k key ia r s
                         | None => s
                         end in
                calc_loop interrupted (S n) blockHeight batchCount l (next_entry s)
            | _ => Panic
            end
        end
  end.

(** The written DB, the count, the statistics and the hash (nil when the
    pass did not end). *)
Definition calculateDB {E : Type} (interrupted : nat -> bool) (readDB writeDB : D)
    (blockHeight batchCount : Z) : outcome E (D * (Z * Statistics * option bytes)) :=
  let s0 := mkCalcState writeDB batch_New 0 0 [] zero_Statistics in
  let! (s, e) := calc_loop interrupted 0 blockHeight batchCount (iter_New None None readDB) s0 in
  match e with
  | Finished =>
      let db := if 0 <? batchCount then batch_Write (calc_batch s) (calc_db s) else calc_db s in
      let stateHash := if 0 <? calc_count s then shake256 (calc_hash s) else make_bytes 64 in
      Ok (db, (calc_count s, calc_stats s, Some stateHash))
  | _ => Ok (calc_db s, (0, calc_stats s, None))
  end.
End CalculateDB.

(** ** The delegation reward as a sum over the governance variables *)

(** The number of blocks of [start, end) in which [gv] is in force. *)
Definition overlap (start end_ : Z) (gv : GovernanceVariable) (next : option GovernanceVariable) : Z :=
  Z.max 0 (match next with Some n => Z.min end_ (gv_BlockHeight n) | None => end_ end
           - Z.max start (gv_BlockHeight gv)).

Definition gv_reward (delegate blocks : Z) (gv : GovernanceVariable) : Z :=
  delegate * blocks * RewardRep (gv_Data gv) / rewardDivider.

Fixpoint reward_sum (delegate start end_ : Z) (gvs : list GovernanceVariable) : Z :=
  match gvs with
  | [] => 0
  | gv :: gvs => gv_reward delegate (overlap start end_ gv (head gvs)) gv + reward_sum delegate start end_ gvs
  end.

Definition gv_heights_ok (gvs : list GovernanceVariable) : Prop :=
  Forall (fun gv => is_u64 (gv_BlockHeight gv)) gvs.
Definition gv_rates_ok (R : Z) (gvs : list GovernanceVariable) : Prop :=
  Forall (fun gv => 0 <= RewardRep (gv_Data gv) <= R) gvs.
Definition gv_sorted (gvs : list GovernanceVariable) : Prop := StronglySorted gv_le gvs.

Lemma big_Div_pos x y : 0 < y -> big_Div x y = x / y.
Proof. intros H. unfold big_Div. by rewrite (proj2 (Z.ltb_ge _ _)) by lia. Qed.

Lemma rewardDivider_pos : 0 < rewardDivider.
Proof. done. Qed.

Lemma gv_period_overlap start end_ gv next :
  let '(s, e) := gv_period start end_ gv next in
  s = Z.max start (gv_BlockHeight gv) /\
  e = match next with Some n => Z.min end_ (gv_BlockHeight n) | None => end_ end.
Proof.
  unfold gv_period. split.
  - destruct (Z.ltb_spec start (gv_BlockHeight gv)); lia.
  - destruct next as [n|]; [|done]. destruct (Z.ltb_spec (gv_BlockHeight n) end_); lia.
Qed.

Lemma delegation_reward_loop_sum delegate start end_ gvs total :
  is_u64 start -> is_u64 end_ -> gv_heights_ok gvs ->
  delegation_reward_loop delegate start end_ gvs total = total + reward_sum delegate start end_ gvs.
Proof.
  intros Hs He Hgv. revert total. induction Hgv as [|gv gvs Hh Hgv IH]; intros total; cbn [delegation_reward_loop reward_sum]; [lia|].
  pose proof (gv_period_overlap start end_ gv (head gvs)) as Hp.
  destruct (gv_period start end_ gv (head gvs)) as [s e]. destruct Hp as [-> ->].
  unfold overlap. set (s := Z.max start _). set (e := match head gvs with Some n => _ | None => _ end).
  destruct (Z.leb_spec e s) as [Hle|Hlt]; rewrite IH.
  - rewrite Z.max_l by lia. unfold gv_reward. rewrite Z.mul_0_r, Z.mul_0_l, Z.div_0_l by done. lia.
  - rewrite Z.max_r by lia. unfold gv_reward, NewHexIntFromUint64, BigIntRewardDivider.
    assert (is_u64 (e - s)).
    { subst s e. unfold is_u64 in *. destruct (head gvs); lia. }
    rewrite u64_small, big_Div_pos by (done || apply rewardDivider_pos). lia.
Qed.

(** What a P-Rep candidate clips the period to. *)
Definition candidate_period (start end_ : Z) (pRep : PRepCandidate) : Z * Z :=
  (Z.max start (pc_Start (pcd_Data pRep)),
   if pc_End (pcd_Data pRep) =? 0 then end_ else Z.min end_ (pc_End (pcd_Data pRep))).

Definition wf_candidate (p : PRepCandidate) : Prop :=
  is_u64 (pc_Start (pcd_Data p)) /\ is_u64 (pc_End (pcd_Data p)).

Lemma calculateDelegationReward_sum gvs dg start end_ p :
  is_u64 start -> is_u64 end_ -> gv_heights_ok gvs -> wf_candidate p ->
  calculateDelegationReward gvs dg start end_ p =
  let '(s, e) := candidate_period start end_ p in reward_sum (dg_Delegate dg) s e gvs.
Proof.
  intros Hs He Hgv [H1 H2]. unfold calculateDelegationReward, candidate_period.
  assert ((if start <? pc_Start (pcd_Data p) then pc_Start (pcd_Data p) else start)
          = Z.max start (pc_Start (pcd_Data p))) as ->.
  { destruct (Z.ltb_spec start (pc_Start (pcd_Data p))); lia. }
  assert ((if negb (pc_End (pcd_Data p) =? 0) && (pc_End (pcd_Data p) <? end_)
           then pc_End (pcd_Data p) else end_)
          = if pc_End (pcd_Data p) =? 0 then end_ else Z.min end_ (pc_End (pcd_Data p))) as ->.
  { destruct (Z.eqb_spec (pc_End (pcd_Data p)) 0); simpl; [done|].
    destruct (Z.ltb_spec (pc_End (pcd_Data p)) end_); lia. }
  rewrite delegation_reward_loop_sum; [lia| | |done].
  - unfold is_u64 in *. lia.
  - case_match; [done|]. unfold is_u64 in *. lia.
Qed.

(** ** Bounds *)

Lemma gv_reward_mono d b1 b2 gv : 0 <= d -> 0 <= RewardRep (gv_Data gv) -> b1 <= b2 ->
  gv_reward d b1 gv <= gv_reward d b2 gv.
Proof.
  intros. apply Z.div_le_mono; [apply rewardDivider_pos|].
  apply Z.mul_le_mono_nonneg_r; [done|]. by apply Z.mul_le_mono_nonneg_l.
Qed.

Lemma overlap_nonneg start end_ gv next : 0 <= overlap start end_ gv next.
Proof. unfold overlap. lia. Qed.

Lemma gv_reward_nonneg d b gv : 0 <= d -> 0 <= b -> 0 <= RewardRep (gv_Data gv) -> 0 <= gv_reward d b gv.
Proof. intros. apply Z.div_pos; [nia|apply rewardDivider_pos]. Qed.

Lemma reward_sum_mono d s1 s2 e1 e2 R gvs : 0 <= d -> gv_rates_ok R gvs -> s1 <= s2 -> e2 <= e1 ->
  reward_sum d s2 e2 gvs <= reward_sum d s1 e1 gvs.
Proof.
  intros Hd Hr Hs He. induction Hr as [|gv gvs [H0 _] Hr IH]; cbn [reward_sum]; [lia|].
  apply Z.add_le_mono; [|done]. apply gv_reward_mono; [done..|]. unfold overlap.
  destruct (head gvs); lia.
Qed.

Lemma reward_sum_nonneg d s e R gvs : 0 <= d -> gv_rates_ok R gvs -> 0 <= reward_sum d s e gvs.
Proof.
  intros Hd Hr. induction Hr as [|gv gvs [H0 _] Hr IH]; cbn [reward_sum]; [lia|].
  pose proof (gv_reward_nonneg d _ gv Hd (overlap_nonneg s e gv (head gvs)) H0). lia.
Qed.

(** The blocks of all governance variables together. *)
Fixpoint overlap_sum (start end_ : Z) (gvs : list GovernanceVariable) : Z :=
  match gvs with
  | [] => 0
  | gv :: gvs => overlap start end_ gv (head gvs) + overlap_sum start end_ gvs
  end.

Lemma overlap_sum_bound start end_ gvs : gv_sorted gvs ->
  0 <= overlap_sum start end_ gvs <=
  Z.max 0 (end_ - Z.max start (match gvs with gv :: _ => gv_BlockHeight gv | [] => end_ end)).
Proof.
  intros Hsort. induction gvs as [|gv gvs IH]; cbn [overlap_sum]; [lia|].
  apply StronglySorted_cons in Hsort as [Hall Hsort]. specialize (IH Hsort).
  destruct gvs as [|gv2 gvs]; cbn [overlap_sum head] in *; unfold overlap in *; [lia|].
  assert (gv_BlockHeight gv <= gv_BlockHeight gv2) by (by inversion Hall). lia.
Qed.

Lemma reward_sum_blocks d s e R gvs : 0 <= d -> gv_rates_ok R gvs ->
  reward_sum d s e gvs <= d * overlap_sum s e gvs * R / rewardDivider.
Proof.
  intros Hd Hr. induction Hr as [|gv gvs [H0 H1] Hr IH]; cbn [reward_sum overlap_sum].
  { by rewrite Z.mul_0_r, Z.mul_0_l. }
  pose proof (overlap_nonneg s e gv (head gvs)) as Ho. set (o := overlap s e gv (head gvs)) in *.
  set (os := overlap_sum s e gvs) in *.
  assert (gv_reward d o gv <= d * o * R / rewardDivider).
  { apply Z.div_le_mono; [apply rewardDivider_pos|]. apply Z.mul_le_mono_nonneg_l; [|done].
    by apply Z.mul_nonneg_nonneg. }
  assert (d * o * R / rewardDivider + d * os * R / rewardDivider <= d * (o + os) * R / rewardDivider); [|lia].
  replace (d * (o + os) * R) with (d * o * R + d * os * R) by lia.
  pose proof rewardDivider_pos. generalize dependent rewardDivider. intros q _ _ Hq.
  apply Z.div_le_lower_bound; [done|].
  pose proof (Z.mul_div_le (d * o * R) q Hq). pose proof (Z.mul_div_le (d * os * R) q Hq). lia.
Qed.

(** C15: the delegation reward is what the blocks of the period pay: never
    negative, at most the highest rate over the whole period, and never less
    for a longer period. *)
Theorem calculateDelegationReward_bounds gvs dg start end_ p R :
  is_u64 start -> is_u64 end_ -> gv_heights_ok gvs -> gv_rates_ok R gvs -> gv_sorted gvs ->
  wf_candidate p -> 0 <= dg_Delegate dg -> 0 <= R ->
  0 <= calculateDelegationReward gvs dg start end_ p
    <= dg_Delegate dg * Z.max 0 (end_ - start) * R / rewardDivider /\
  (forall start', is_u64 start' -> start <= start' ->
    calculateDelegationReward gvs dg start' end_ p <= calculateDelegationReward gvs dg start end_ p).
Proof.
  intros Hs He Hh Hr Hsort Hp Hd HR. split.
  - rewrite calculateDelegationReward_sum by done. destruct (candidate_period start end_ p) as [s e] eqn:E.
    unfold candidate_period in E. injection E as Es Ee.
    assert (start <= s) by lia.
    assert (e <= end_) by (subst e; case_match; lia).
    split; [by eapply reward_sum_nonneg|].
    etransitivity; [by eapply reward_sum_blocks|]. apply Z.div_le_mono; [apply rewardDivider_pos|].
    pose proof (overlap_sum_bound s e gvs Hsort).
    apply Z.mul_le_mono_nonneg_r; [done|]. apply Z.mul_le_mono_nonneg_l; [done|].
    destruct gvs; lia.
  - intros start' Hs' Hle. rewrite !calculateDelegationReward_sum by done.
    unfold candidate_period. eapply reward_sum_mono; [done..| |]; lia.
Qed.

(** ** One account *)

Section Account.
Context (gvs : list GovernanceVariable) (candidates : PRepCandidates).

(** What one delegation earns in a period. *)
Definition eligible_reward (start end_ : Z) (o : option DelegateData) : Z :=
  match o with
  | None => 0
  | Some dg =>
      if big_Uint64 (dg_Delegate dg) <? MinDelegation then 0
      else match candidates !! dg_Address dg with
           | None => 0
           | Some p => calculateDelegationReward gvs dg start end_ p
           end
  end.

Definition account_reward (d : IScoreData) (blockHeight : Z) : Z :=
  Zsum (map (eligible_reward (BlockHeight d) blockHeight) (Delegations d)).

(** The account calculated up to a height. *)
Definition advance (blockHeight : Z) (d : IScoreData) : IScoreData :=
  mkIScoreData (IScore d + account_reward d blockHeight) blockHeight (Delegations d).

Lemma delegations_reward_sum {E} start end_ dgs total : Forall is_Some dgs ->
  delegations_reward (E := E) gvs candidates start end_ dgs total
  = Ok (total + Zsum (map (eligible_reward start end_) dgs)).
Proof.
  intros H. revert total. induction H as [|o dgs [dg ->] _ IH]; intros total;
    cbn [delegations_reward map Zsum foldr].
  { apply f_equal. lia. }
  unfold Zsum in IH. unfold eligible_reward at 1. destruct (_ <? _).
  { rewrite IH. apply f_equal. lia. }
  destruct (candidates !! _); rewrite IH; apply f_equal; lia.
Qed.

(** [calculateIScore] moves an account below the height to it, adding the
    rewards of its delegations and nothing else; an account at or above the
    height is left alone. *)
Lemma calculateIScore_spec {E} ia blockHeight :
  blockHeight <> 0 -> Forall is_Some (ia_Delegations ia) ->
  calculateIScore (E := E) gvs candidates ia blockHeight =
  if blockHeight <=? ia_BlockHeight ia then Ok (ia, None)
  else Ok (mkIScoreAccount (ia_Address ia) (advance blockHeight (ia_Data ia)),
           Some (account_reward (ia_Data ia) blockHeight)).
Proof.
  intros Hb Hd. unfold calculateIScore. rewrite (proj2 (Z.eqb_neq _ 0)) by done.
  destruct (_ <=? _); [done|]. rewrite delegations_reward_sum by done. cbn [obind].
  rewrite Z.add_0_l. change (Zsum _) with (account_reward (ia_Data ia) blockHeight).
  destruct (Z.eqb_spec (account_reward (ia_Data ia) blockHeight) 0) as [E0|_]; [|done].
  unfold advance. rewrite E0, Z.add_0_r. done.
Qed.
End Account.

(** A delegation of 2^64 loop units is taken for zero: only the low 64 bits of
    the amount are compared with the minimum. *)
Lemma MinDelegation_truncation gvs candidates a start end_ :
  MinDelegation <= 2 ^ 64 /\
  eligible_reward gvs candidates start end_ (Some (mkDelegateData a (2 ^ 64))) = 0.
Proof. split; [done|reflexivity]. Qed.

(** ** One account DB *)

Section CalculateDBSpec.
Context {D : Type} `{!LevelDB D, !LevelDBLaws D, !Codec IScoreData, !CodecLaws IScoreData}.
Context (shake256 : bytes -> bytes).
Context (gvs : list GovernanceVariable) (candidates : PRepCandidates).

(** Account DBs hold accounts with decodable, non-nil delegations. *)
Definition account_value (v : bytes) (d : IScoreData) : Prop :=
  v = marshal d /\ wf d /\ Forall is_Some (Delegations d).

Definition account_inv (d : D) : Prop :=
  forall k v, ldb_get d k = Some v -> wf_Address k /\ exists a, account_value v a.

(** The accounts of a list of entries. *)
Definition decode_account (v : bytes) : IScoreData := (unmarshal v zero_IScoreData).1.

Definition is_due (blockHeight : Z) (e : bytes * bytes) : bool :=
  BlockHeight (decode_account e.2) <? blockHeight.

Definition advanced (blockHeight : Z) (e : bytes * bytes) : IScoreAccount :=
  mkIScoreAccount e.1 (advance gvs candidates blockHeight (decode_account e.2)).

Definition due (blockHeight : Z) (l : list (bytes * bytes)) : list (bytes * bytes) :=
  filter (fun e => is_due blockHeight e = true) l.

Definition put_advanced (blockHeight : Z) (d : D) (e : bytes * bytes) : D :=
  ldb_put e.1 (ia_Bytes (advanced blockHeight e)) d.

(** The store the state stands for, its batch included. *)
Definition effective (s : calc_state D) : D := batch_Write (calc_batch s) (calc_db s).

Lemma batch_Write_app (b : list batch_op) o (d : D) : batch_Write (b ++ [o]) d = batch_apply (batch_Write b d) o.
Proof. unfold batch_Write. by rewrite fold_left_app. Qed.

Lemma store_account_effective batchCount k ia r s :
  (batchCount <= 0 -> calc_batch s = []) ->
  let s' := store_account batchCount k (drop (length PrefixIScore) k) ia r s in
  effective s' = ldb_put k (ia_Bytes ia) (effective s) /\
  (batchCount <= 0 -> calc_batch s' = []) /\
  calc_count s' = calc_count s +u 1 /\ calc_hash s' = calc_hash s ++ ia_BytesForHash ia /\
  calc_stats s' = increase FBeta3 (VHexInt r) (calc_stats s).
Proof.
  intros Hb. unfold store_account, effective. destruct (Z.ltb_spec 0 batchCount).
  - unfold batch_Set. destruct (calc_entries s =? batchCount); cbn [calc_batch calc_db calc_count calc_hash calc_stats];
      rewrite ?batch_Write_app; (split_and!; [done|lia|done..]).
  - cbn [calc_batch calc_db calc_count calc_hash calc_stats]. rewrite Hb by done.
    split_and!; try done. unfold bucket_Set. by rewrite internalKey_app.
Qed.

Definition due_rewards (blockHeight : Z) (l : list (bytes * bytes)) : list Z :=
  map (fun e => account_reward gvs candidates (decode_account e.2) blockHeight) (due blockHeight l).

(** The statistics of a pass. *)
Definition pass_stats (blockHeight : Z) (l : list (bytes * bytes)) (st : Statistics) : Statistics :=
  mkStatistics (u64 (Accounts st + Z.of_nat (length l))) (TotalReward st) (Beta1 st) (Beta2 st)
    (Beta3 st + Zsum (due_rewards blockHeight l)).

Lemma due_cons blockHeight k d l : wf d -> decode_account (marshal d) = d /\
  due blockHeight ((k, marshal d) :: l) =
    if BlockHeight d <? blockHeight then (k, marshal d) :: due blockHeight l else due blockHeight l.
Proof.
  intros Hwf. assert (Hdec : decode_account (marshal d) = d) by (unfold decode_account; by rewrite unmarshal_marshal).
  split; [done|]. assert (Hdue : is_due blockHeight (k, marshal d) = (BlockHeight d <? blockHeight)).
  { unfold is_due. cbn [snd]. by rewrite Hdec. }
  unfold due. rewrite filter_cons, Hdue. destruct (_ <? _); [by rewrite decide_True|by rewrite decide_False].
Qed.

(** Counting one entry more. *)
Lemma u64_count c (n : nat) : u64 (u64 (c + 1) + Z.of_nat n) = u64 (c + Z.of_nat (S n)).
Proof. rewrite u64_add_u64. f_equal. lia. Qed.

Lemma calc_loop_spec {E} blockHeight batchCount n l s :
  blockHeight <> 0 -> is_u64 (Accounts (calc_stats s)) -> is_u64 (calc_count s) ->
  (batchCount <= 0 -> calc_batch s = []) ->
  Forall (fun e => wf_Address e.1 /\ exists a, account_value e.2 a) l ->
  exists s', calc_loop (E := E) gvs candidates (fun _ => false) n blockHeight batchCount l s = Ok (s', Finished) /\
    effective s' = fold_left (put_advanced blockHeight) (due blockHeight l) (effective s) /\
    (batchCount <= 0 -> calc_batch s' = []) /\
    calc_count s' = u64 (calc_count s + Z.of_nat (length (due blockHeight l))) /\
    calc_hash s' = calc_hash s ++ concat (map (fun e => ia_BytesForHash (advanced blockHeight e)) (due blockHeight l)) /\
    calc_stats s' = pass_stats blockHeight l (calc_stats s).
Proof.
  intros Hbh Hacc Hcnt Hb Hl. revert n s Hacc Hcnt Hb.
  induction Hl as [|[k v] l [Hk (d & Hv & Hwf & Hdg)] _ IH]; intros n s Hacc Hcnt Hb.
  { exists s. split_and!; [done..| | |].
    - cbn. by rewrite Z.add_0_r, u64_small.
    - by rewrite app_nil_r.
    - unfold pass_stats. cbn. rewrite !Z.add_0_r, u64_small by done. by destruct (calc_stats s). }
  cbn [fst snd] in Hk, Hv. subst v. cbn [calc_loop]. rewrite NewIScoreAccountFromBytes_marshal by done.
  change (drop (length PrefixIScore) k) with k.
  change (NewAddress (Some k)) with (NewAddress (Some (Address_Bytes k))). rewrite NewAddress_Bytes by done.
  rewrite calculateIScore_spec by done.
  unfold ia_set_Address, ia_BlockHeight, ia_Data. cbn [ia_Address].
  destruct (due_cons blockHeight k d l Hwf) as [Hdec Hdl].
  destruct (Z.leb_spec blockHeight (BlockHeight d)) as [Hle|Hgt].
  - rewrite (proj2 (Z.ltb_ge (BlockHeight d) blockHeight)) in Hdl by done. cbn [obind].
    destruct (IH (S n) (next_entry (stat_account s))) as (s' & E' & H1 & H2 & H3 & H4 & H5);
      [unfold stat_account, next_entry; cbn; apply u64_range|done|done|].
    exists s'. rewrite Hdl. split_and!; [done..|]. rewrite H5.
    unfold pass_stats, due_rewards. rewrite Hdl. unfold stat_account, next_entry.
    cbn [calc_stats length]. f_equal. cbn -[u64 Z.of_nat]. apply u64_count.
  - rewrite (proj2 (Z.ltb_lt (BlockHeight d) blockHeight)) in Hdl by done. cbn [obind]. set (ia := mkIScoreAccount k (advance gvs candidates blockHeight d)).
    set (r := account_reward gvs candidates d blockHeight).
    destruct (store_account_effective batchCount k ia r (stat_account s)) as (K1 & K2 & K3 & K4 & K5); [done|].
    change (drop (length PrefixIScore) k) with k in *.
    set (s1 := store_account batchCount k k ia r (stat_account s)) in *.
    destruct (IH (S n) (next_entry s1)) as (s' & E' & H1 & H2 & H3 & H4 & H5).
    + cbn. rewrite K5. apply u64_range.
    + cbn. rewrite K3. apply u64_range.
    + done.
    + exists s'. assert (Hadv : advanced blockHeight (k, marshal d) = ia).
      { unfold advanced, ia. cbn [fst snd]. by rewrite Hdec. }
      rewrite Hdl. split_and!; [done| |done| | |].
      * rewrite H1. cbn [fold_left]. change (effective (next_entry s1)) with (effective s1). rewrite K1.
        assert (put_advanced blockHeight (effective s) (k, marshal d) = ldb_put k (ia_Bytes ia) (effective s))
          as -> by (unfold put_advanced; by rewrite Hadv). done.
      * rewrite H3. change (calc_count (next_entry s1)) with (calc_count s1). rewrite K3.
        cbn [length calc_count stat_account]. apply u64_count.
      * rewrite H4. change (calc_hash (next_entry s1)) with (calc_hash s1). rewrite K4.
        unfold stat_account. cbn [calc_hash]. rewrite <-app_assoc, map_cons. cbn [concat]. by rewrite Hadv.
      * rewrite H5. change (calc_stats (next_entry s1)) with (calc_stats s1). rewrite K5.
        unfold pass_stats, due_rewards. rewrite Hdl. unfold stat_account.
        cbn [map Zsum foldr snd calc_stats length]. rewrite Hdec. fold r.
        cbn -[u64 Z.of_nat foldr]. f_equal; [|unfold Zsum; lia].
        apply u64_count.
Qed.

Lemma fold_put_get blockHeight l (d : D) : NoDup (l.*1) ->
  let d' := fold_left (put_advanced blockHeight) l d in
  (forall k v, (k, v) ∈ l -> ldb_get d' k = Some (ia_Bytes (advanced blockHeight (k, v)))) /\
  (forall k, k ∉ l.*1 -> ldb_get d' k = ldb_get d k).
Proof.
  revert d. induction l as [|[k v] l IH]; intros d Hnd; cbn [fold_left].
  { split; [intros k v Hin; by apply not_elem_of_nil in Hin|done]. }
  apply NoDup_cons in Hnd as [Hn Hnd]. destruct (IH (put_advanced blockHeight d (k, v)) Hnd) as [IH1 IH2]. split.
  - intros k' v' [E|Hin]%elem_of_cons; [|by apply IH1]. injection E as -> ->.
    rewrite IH2 by done. unfold put_advanced. rewrite ldb_get_put. by rewrite decide_True.
  - intros k' Hk'. cbn in Hk'. apply not_elem_of_cons in Hk' as [Hne Hk']. rewrite IH2 by done.
    unfold put_advanced. rewrite ldb_get_put. by rewrite decide_False.
Qed.

Lemma account_entries readDB : account_inv readDB ->
  Forall (fun e => wf_Address e.1 /\ exists a, account_value e.2 a) (ldb_iter None readDB).
Proof.
  intros Hinv. apply Forall_forall. intros [k v] Hin. apply ldb_iter_elem in Hin as [Hg _].
  by apply Hinv.
Qed.

(** The accounts of a DB that are below a height, in key order. *)
Definition due_accounts (blockHeight : Z) (readDB : D) : list (bytes * bytes) :=
  due blockHeight (ldb_iter None readDB).

(** A pass over an account DB that is not interrupted ends, for every
    batch size with the same stores and results: each account below the
    height is written with its I-Score calculated up to it, every other key
    of the written DB is kept, and the count, the statistics and the state
    hash are those of exactly these accounts. *)
Lemma calculateDB_result {E} readDB writeDB blockHeight batchCount :
  account_inv readDB -> blockHeight <> 0 ->
  let accounts := due_accounts blockHeight readDB in
  let count := u64 (Z.of_nat (length accounts)) in
  exists db', calculateDB (E := E) shake256 gvs candidates (fun _ => false) readDB writeDB blockHeight batchCount
      = Ok (db', (count, pass_stats blockHeight (ldb_iter None readDB) zero_Statistics,
              Some (if 0 <? count
                    then shake256 (concat (map (fun e => ia_BytesForHash (advanced blockHeight e)) accounts))
                    else make_bytes 64))) /\
    forall k, ldb_get db' k =
      match ldb_get readDB k with
      | Some v => if is_due blockHeight (k, v) then Some (ia_Bytes (advanced blockHeight (k, v)))
                  else ldb_get writeDB k
      | None => ldb_get writeDB k
      end.
Proof.
  intros Hinv Hbh accounts count. unfold calculateDB. change (iter_New None None readDB) with (ldb_iter None readDB).
  destruct (calc_loop_spec (E := E) blockHeight batchCount 0 (ldb_iter None readDB)
    (mkCalcState writeDB batch_New 0 0 [] zero_Statistics)) as (s' & -> & H1 & H2 & H3 & H4 & H5);
    [done|done|done|done|by apply account_entries|].
  cbn [obind]. exists (effective s'). split.
  - assert ((if 0 <? batchCount then batch_Write (calc_batch s') (calc_db s') else calc_db s') = effective s') as ->.
    { unfold effective. destruct (Z.ltb_spec 0 batchCount); [done|]. by rewrite H2. }
    rewrite H3, H4, H5. cbn [calc_count calc_hash calc_stats]. rewrite Z.add_0_l. done.
  - intros k. rewrite H1. unfold effective. cbn [calc_batch calc_db].
    change (batch_Write batch_New writeDB) with writeDB.
    pose proof (fold_put_get blockHeight (due blockHeight (ldb_iter None readDB)) writeDB) as [K1 K2].
    { eapply sublist_NoDup; [apply (iter_keys_NoDup None readDB)|].
      apply fmap_sublist, sublist_filter. }
    assert (Hin : forall v, (k, v) ∈ due blockHeight (ldb_iter None readDB) <->
      ldb_get readDB k = Some v /\ is_due blockHeight (k, v) = true).
    { intros v. unfold due. rewrite list_elem_of_filter, ldb_iter_elem. cbn. tauto. }
    assert (Hnotin : (forall v, (k, v) ∉ due blockHeight (ldb_iter None readDB)) ->
      k ∉ (due blockHeight (ldb_iter None readDB)).*1).
    { intros Hno Hk. apply list_elem_of_fmap in Hk as ([k' v] & -> & Hv). by apply (Hno v). }
    destruct (ldb_get readDB k) as [v|] eqn:Hg; [destruct (is_due blockHeight (k, v)) eqn:Hd|].
    + apply K1, Hin. done.
    + apply K2, Hnotin. intros v' [? ?]%Hin. congruence.
    + apply K2, Hnotin. intros v' [? _]%Hin. congruence.
Qed.

(** C24: the batches do not show: whatever their size, and without them, a pass
    returns the same count, statistics and state hash and leaves the same
    entries. *)
Theorem calculateDB_batching {E} readDB writeDB blockHeight batch1 batch2 :
  account_inv readDB -> blockHeight <> 0 ->
  exists d1 d2 r,
    calculateDB (E := E) shake256 gvs candidates (fun _ => false) readDB writeDB blockHeight batch1 = Ok (d1, r) /\
    calculateDB (E := E) shake256 gvs candidates (fun _ => false) readDB writeDB blockHeight batch2 = Ok (d2, r) /\
    forall k, ldb_get d1 k = ldb_get d2 k.
Proof.
  intros Hinv Hb.
  destruct (calculateDB_result (E := E) readDB writeDB blockHeight batch1 Hinv Hb) as (d1 & E1 & H1).
  destruct (calculateDB_result (E := E) readDB writeDB blockHeight batch2 Hinv Hb) as (d2 & E2 & H2).
  exists d1, d2. eexists. split_and!; [exact E1|exact E2|]. intros k. by rewrite H1, H2.
Qed.
End CalculateDBSpec.
