(* ===== verification/CalcDebug.v ===== *)
(** * The calculation debug output ([core/calculation_debug.go], [core/msg_debug.go])

    With the debug flag on, a calculation keeps for some addresses how their
    I-Score came about: per period, what they earned as block producers
    (Beta1), as P-Reps (Beta2) and as delegators (Beta3).  The monitor's DEBUG
    messages switch it and read it.  A formula, which the code prints into a
    string, is the list of the numbers printed.

    [TotalIScore] starts as a copy of the struct of [InitialIScore], so the two
    share the words of the big integer and adding to the one may write the
    other.  Whether it does depends on the capacity [math/big] has left;
    [shared_words initial total] is what the copy reads afterwards.  The
    configured addresses are taken not to be nil. *)

From Stdlib Require Strings.String.
From S2P Require Import Prelude Bytes HexInt Address Store Codec Typed Account ClaimDB Management IISSData IScoreDB Context Reward.
Import String.StringSyntax.

(** ** Data *)

Record CalcDebugConfig := mkCalcDebugConfig { Flag : bool; Addresses : list Address }.
Definition NewCalcDebugConfig : CalcDebugConfig := mkCalcDebugConfig false [].

Record Generate := mkGenerate { g_BlockCount : Z; g_Formula : list Z; g_IScore : Z }.
Definition NewGenerate : Generate := mkGenerate 0 [] 0.

Record ValidateInfo := mkValidateInfo {
  v_ValidatorCount : Z;
  v_BlockCount : Z;
  v_Formula : list Z;
  v_IScore : Z;
}.

Record DebugBeta1 := mkBeta1 { Beta1IScore : Z; b1_Generate : Generate; b1_Validate : list ValidateInfo }.
Definition NewBeta1 : DebugBeta1 := mkBeta1 0 NewGenerate [].

Record DelegatedInfo := mkDelegatedInfo {
  dgd_BlockHeight : Z;
  dgd_Delegated : Z;
  dgd_TotalDelegated : Z;
  dgd_Formula : list Z;
  dgd_IScore : Z;
}.

Record DebugBeta2 := mkBeta2 { Beta2IScore : Z; b2_DelegatedInfo : list DelegatedInfo }.
Definition NewBeta2 : DebugBeta2 := mkBeta2 0 [].

Record DelegationInfo := mkDelegationInfo {
  dgi_BlockHeight : Z;
  dgi_Address : Address;
  dgi_Amount : Z;
  dgi_Formula : list Z;
  dgi_IScore : Z;
}.

Record DebugBeta3 := mkBeta3 { Beta3IScore : Z; b3_DelegationInfo : list DelegationInfo }.
Definition NewBeta3 : DebugBeta3 := mkBeta3 0 [].

Record DebugReward := mkReward { rw_BlockHeight : Z; rw_Beta1 : DebugBeta1; rw_Beta2 : DebugBeta2; rw_Beta3 : DebugBeta3 }.
Definition NewReward (blockHeight : Z) : DebugReward := mkReward blockHeight NewBeta1 NewBeta2 NewBeta3.

Record CalcResult := mkDebugCalcResult {
  cr_Address : Address;
  InitialIScore : Z;
  TotalIScore : Z;
  Rewards : list DebugReward;
}.

Record CalcDebugData := mkCalcDebugData {
  Preps : list PRepCandidate;
  cdd_GV : list GovernanceVariable;
  Results : list CalcResult;
}.
Definition zero_CalcDebugData : CalcDebugData := mkCalcDebugData [] [] [].

Record CalcDebugResult := mkCalcDebugResult {
  cdr_BlockHeight : Z;
  cdr_BlockHash : bytes;
  cdr_Data : CalcDebugData;
}.
Definition cdr_Results (r : CalcDebugResult) : list CalcResult := Results (cdr_Data r).

(** The flag and addresses, and the result of the running or last calculation. *)
Record CalcDebug := mkCalcDebug { conf : CalcDebugConfig; result : option CalcDebugResult }.

Definition set_Results (rs : list CalcResult) (r : CalcDebugResult) : CalcDebugResult :=
  mkCalcDebugResult (cdr_BlockHeight r) (cdr_BlockHash r) (mkCalcDebugData (Preps (cdr_Data r)) (cdd_GV (cdr_Data r)) rs).

(** The file read at the start, if it can be opened; what a failed
    [json.Unmarshal] has set so far stays. *)
Definition InitCalcDebugConfig (json_Unmarshal : bytes -> CalcDebugConfig -> CalcDebugConfig * bool)
    (file : option bytes) : CalcDebug :=
  let conf := NewCalcDebugConfig in
  match file with
  | None => mkCalcDebug conf None
  | Some cfgByte => mkCalcDebug (json_Unmarshal cfgByte conf).1 None
  end.

Definition NeedToUpdateCalcDebugResult (dbg : CalcDebug) : bool :=
  Flag (conf dbg) && (0 <? Z.of_nat (length (Addresses (conf dbg)))).

Inductive debug_error : Set := .

(** ** Results of an address *)

Section Results.
Context {D : Type} `{!LevelDB D, !Codec IScoreData}.
Context (shared_words : Z -> Z -> Z).
Implicit Type (ctx : Context D) (rs : list CalcResult).

(** The I-Score before the calculation: [ia] is nil where the entry cannot be decoded. *)
Definition initial_IScore ctx (address : Address) : outcome debug_error Z :=
  let! f := getQueryDB (DB ctx) address in
  match bucket_Get PrefixIScore (db_at (DB ctx) f) (Address_Bytes address) with
  | None => Ok 0
  | Some bs => match NewIScoreAccountFromBytes bs with Some ia => Ok (ia_IScore ia) | None => Panic end
  end.

Definition InitCalcResult ctx (address : Address) rs : outcome debug_error (list CalcResult) :=
  let! initialIScore := initial_IScore ctx address in
  Ok (rs ++ [mkDebugCalcResult address initialIScore initialIScore (map (fun gv => NewReward (gv_BlockHeight gv)) (GV ctx))]).

(** The pointer to the first result of an address is its index. *)
Fixpoint getCalcResult (address : Address) rs : option nat :=
  match rs with
  | [] => None
  | r :: rs' => if bool_decide (cr_Address r = address) then Some 0%nat else S <$> getCalcResult address rs'
  end.

Definition GetCalcResult ctx (address : Address) rs : outcome debug_error (list CalcResult * nat) :=
  match getCalcResult address rs with
  | Some i => Ok (rs, i)
  | None =>
      let! rs' := InitCalcResult ctx address rs in
      match getCalcResult address rs' with Some i => Ok (rs', i) | None => Panic end
  end.

(** The loop runs from the last reward to the first and keeps the last match. *)
Fixpoint getReward_loop (blockHeight : Z) (rewards : list DebugReward) (i : nat) (r : option nat) : option nat :=
  match i with
  | O => r
  | S i' =>
      let r' := match rewards !! i' with
                | Some reward => if rw_BlockHeight reward <? blockHeight then Some i' else r
                | None => r
                end in
      getReward_loop blockHeight rewards i' r'
  end.

Definition getReward (calcResult : CalcResult) (blockHeight : Z) : option nat :=
  getReward_loop blockHeight (Rewards calcResult) (length (Rewards calcResult)) None.

(** A reward is updated in place and the total raised; a nil reward panics. *)
Definition write_reward ctx (address : Address) (blockHeight amount : Z) (f : DebugReward -> DebugReward) rs
    : outcome debug_error (list CalcResult) :=
  let! (rs, i) := GetCalcResult ctx address rs in
  match rs !! i with
  | Some r =>
      match getReward r blockHeight with
      | Some j =>
          let total := TotalIScore r + amount in
          Ok (<[i := mkDebugCalcResult (cr_Address r) (shared_words (InitialIScore r) total) total (alter f j (Rewards r))]> rs)
      | None => Panic
      end
  | None => Panic
  end.

(** ** Beta1: block production *)

Definition add_generate (produceReward : Z) (rw : DebugReward) : DebugReward :=
  let b := rw_Beta1 rw in
  let count := g_BlockCount (b1_Generate b) +u 1 in
  mkReward (rw_BlockHeight rw)
    (mkBeta1 (Beta1IScore b + produceReward)
       (mkGenerate count [count; produceReward] (g_IScore (b1_Generate b) +u produceReward)) (b1_Validate b))
    (rw_Beta2 rw) (rw_Beta3 rw).

(** The entry for a number of validators, appended when there is none. *)
Fixpoint add_validate (validatorCount produceReward iScore : Z) (l : list ValidateInfo) : list ValidateInfo :=
  match l with
  | [] => [mkValidateInfo validatorCount 1 [1; produceReward; validatorCount] iScore]
  | v :: l' =>
      if v_ValidatorCount v =? validatorCount then
        let count := v_BlockCount v +u 1 in
        mkValidateInfo validatorCount count [count; produceReward; validatorCount] (v_IScore v +u iScore) :: l'
      else v :: add_validate validatorCount produceReward iScore l'
  end.

Definition add_validator (validatorCount produceReward iScore : Z) (rw : DebugReward) : DebugReward :=
  let b := rw_Beta1 rw in
  mkReward (rw_BlockHeight rw)
    (mkBeta1 (Beta1IScore b + iScore) (b1_Generate b) (add_validate validatorCount produceReward iScore (b1_Validate b)))
    (rw_Beta2 rw) (rw_Beta3 rw).

Definition writeBeta1Info ctx (address : Address) (produceReward : Z) (bp : IISSBlockProduceInfo) rs
    : outcome debug_error (list CalcResult) :=
  let d := bp_Data bp in
  if bool_decide (Generator d = address) then
    write_reward ctx address (bp_BlockHeight bp) produceReward (add_generate produceReward) rs
  else if bool_decide (address ∈ Validator d) then
    let validatorCount := Z.of_nat (length (Validator d)) in
    let iScore := produceReward / validatorCount in
    write_reward ctx address (bp_BlockHeight bp) iScore (add_validator validatorCount produceReward iScore) rs
  else Ok rs.

(** ** Beta2: P-Reps, Beta3: delegations

    The products are [uint64] and wrap. *)

Definition add_delegated (info : DelegatedInfo) (iScore : Z) (rw : DebugReward) : DebugReward :=
  mkReward (rw_BlockHeight rw) (rw_Beta1 rw)
    (mkBeta2 (Beta2IScore (rw_Beta2 rw) + iScore) (b2_DelegatedInfo (rw_Beta2 rw) ++ [info])) (rw_Beta3 rw).

Definition writeBeta2Info ctx (address : Address) (delegationInfo : PRepDelegationInfo) (prep : PRep)
    (startBlock endBlock prepReward : Z) rs : outcome debug_error (list CalcResult) :=
  if bool_decide (di_Address delegationInfo = address) then
    let period := endBlock -u startBlock in
    let totalDelegation := big_Uint64 (TotalDelegation (pr_Data prep)) in
    let delegatedAmount := big_Uint64 (DelegatedAmount delegationInfo) in
    if totalDelegation =? 0 then Panic
    else
      let iScore := u64 (u64 (prepReward * delegatedAmount) * period) / totalDelegation in
      write_reward ctx address endBlock iScore
        (add_delegated (mkDelegatedInfo endBlock delegatedAmount totalDelegation
           [prepReward; delegatedAmount; period; totalDelegation] iScore) iScore) rs
  else Ok rs.

Definition add_delegation (info : DelegationInfo) (iScore : Z) (rw : DebugReward) : DebugReward :=
  mkReward (rw_BlockHeight rw) (rw_Beta1 rw) (rw_Beta2 rw)
    (mkBeta3 (Beta3IScore (rw_Beta3 rw) + iScore) (b3_DelegationInfo (rw_Beta3 rw) ++ [info])).

Definition writeBeta3Info ctx (debugAddress rewardAddress : Address) (rewardRep : Z) (delegationInfo : DelegateData)
    (period endBlock : Z) rs : outcome debug_error (list CalcResult) :=
  if bool_decide (rewardAddress = debugAddress) then
    let amount := big_Uint64 (dg_Delegate delegationInfo) in
    let iScore := u64 (u64 (rewardRep * period) * amount) / rewardDivider in
    write_reward ctx debugAddress endBlock iScore
      (add_delegation (mkDelegationInfo endBlock (dg_Address delegationInfo) amount
         [rewardRep; period; amount; rewardDivider] iScore) iScore) rs
  else Ok rs.

(** The loops over the configured addresses; without a result they panic. *)
Fixpoint for_addresses (write : Address -> list CalcResult -> outcome debug_error (list CalcResult))
    (addresses : list Address) rs : outcome debug_error (list CalcResult) :=
  match addresses with
  | [] => Ok rs
  | a :: l => let! rs := write a rs in for_addresses write l rs
  end.

Definition write_info (write : Address -> list CalcResult -> outcome debug_error (list CalcResult))
    (dbg : CalcDebug) : outcome debug_error CalcDebug :=
  if NeedToUpdateCalcDebugResult dbg then
    match result dbg with
    | Some r =>
        let! rs := for_addresses write (Addresses (conf dbg)) (cdr_Results r) in
        Ok (mkCalcDebug (conf dbg) (Some (set_Results rs r)))
    | None => Panic
    end
  else Ok dbg.

Definition WriteBeta1Info ctx (produceReward : Z) (bp : IISSBlockProduceInfo) (dbg : CalcDebug) :=
  write_info (fun a => writeBeta1Info ctx a produceReward bp) dbg.

Definition WriteBeta2Info ctx (delegationInfo : PRepDelegationInfo) (prep : PRep)
    (startBlock endBlock prepReward : Z) (dbg : CalcDebug) :=
  write_info (fun a => writeBeta2Info ctx a delegationInfo prep startBlock endBlock prepReward) dbg.

Definition WriteBeta3Info ctx (rewardAddress : Address) (rewardRep : Z) (delegationInfo : DelegateData)
    (period endBlock : Z) (dbg : CalcDebug) :=
  write_info (fun a => writeBeta3Info ctx a rewardAddress rewardRep delegationInfo period endBlock) dbg.

(** [candidates] lists the P-Rep candidates in the order of the iteration. *)
Definition InitCalcDebugResult ctx (candidates : list PRepCandidate) (blockHeight : Z) (blockHash : bytes)
    (dbg : CalcDebug) : outcome debug_error CalcDebug :=
  if NeedToUpdateCalcDebugResult dbg then
    let hash := match blockHash with [] => make_bytes BlockHashSize | _ => blockHash end in
    let! rs := for_addresses (InitCalcResult ctx) (Addresses (conf dbg)) [] in
    Ok (mkCalcDebug (conf dbg)
      (Some (mkCalcDebugResult blockHeight (str "0x" ++ hex_EncodeToString hash)
        (mkCalcDebugData candidates (GV ctx) rs))))
  else Ok dbg.

Definition ResetCalcDebugResults (dbg : CalcDebug) : outcome debug_error CalcDebug :=
  match result dbg with
  | Some r => Ok (mkCalcDebug (conf dbg) (Some (set_Results [] r)))
  | None => Panic
  end.

(** ** The reward of a delegation with the debug output on

    The loop of [calculateDelegationReward] with its call of [WriteBeta3Info]. *)

Fixpoint delegation_reward_debug ctx (rewardAddress : Address) (dg : DelegateData) (start end_ : Z)
    (gvs : list GovernanceVariable) (total : Z) (dbg : CalcDebug) : outcome debug_error (Z * CalcDebug) :=
  match gvs with
  | [] => Ok (total, dbg)
  | gv :: gvs =>
      let '(s, e) := gv_period start end_ gv (head gvs) in
      if e <=? s then delegation_reward_debug ctx rewardAddress dg start end_ gvs total dbg
      else
        let period := NewHexIntFromUint64 (e -u s) in
        let reward := dg_Delegate dg * period in
        let reward := reward * RewardRep (gv_Data gv) in
        let reward := big_Div reward BigIntRewardDivider in
        let! dbg := WriteBeta3Info ctx rewardAddress (big_Uint64 (RewardRep (gv_Data gv))) dg (big_Uint64 period) e dbg in
        delegation_reward_debug ctx rewardAddress dg start end_ gvs (total + reward) dbg
  end.

Definition calculateDelegationReward_debug ctx (dg : DelegateData) (start end_ : Z) (pRep : PRepCandidate)
    (rewardAddress : Address) (dbg : CalcDebug) : outcome debug_error (Z * CalcDebug) :=
  let start := if start <? pc_Start (pcd_Data pRep) then pc_Start (pcd_Data pRep) else start in
  let end_ := if negb (pc_End (pcd_Data pRep) =? 0) && (pc_End (pcd_Data pRep) <? end_)
              then pc_End (pcd_Data pRep) else end_ in
  delegation_reward_debug ctx rewardAddress dg start end_ (GV ctx) 0 dbg.

End Results.

(** ** The configured addresses *)

Definition AddDebuggingAddress (address : Address) (dbg : CalcDebug) : CalcDebug :=
  if bool_decide (address ∈ Addresses (conf dbg)) then dbg
  else mkCalcDebug (mkCalcDebugConfig (Flag (conf dbg)) (Addresses (conf dbg) ++ [address])) (result dbg).

(** A slice is its backing array and its length.  [append(s[:i], s[i+1:]...)]
    moves the elements after [i] to the front and leaves the end of the array;
    it panics when [i] is behind the slice. *)
Definition slice_delete {A : Type} (i : nat) (s : list A * nat) : option (list A * nat) :=
  let '(array, len) := s in
  if decide (i < len)%nat then Some (take i array ++ drop (S i) (take len array) ++ drop (pred len) array, pred len)
  else None.

(** From the last address to the first; [n] are left to look at. *)
Fixpoint delete_addresses (address : Address) (n : nat) (s : list Address * nat) : option (list Address * nat) :=
  match n with
  | O => Some s
  | S i =>
      let s' := if bool_decide (s.1 !! i = Some address) then slice_delete i s else Some s in
      match s' with Some s' => delete_addresses address i s' | None => None end
  end.

(** The [range] has fixed the array and its length; the deletions move the
    elements under it. *)
Fixpoint delete_results (address : Address) (i n : nat) (s : list CalcResult * nat) : option (list CalcResult * nat) :=
  match n with
  | O => Some s
  | S n =>
      let s' := if bool_decide (cr_Address <$> s.1 !! i = Some address) then slice_delete i s else Some s in
      match s' with Some s' => delete_results address (S i) n s' | None => None end
  end.

Definition DeleteDebuggingAddress (address : Address) (dbg : CalcDebug) : outcome debug_error CalcDebug :=
  let addresses := Addresses (conf dbg) in
  match delete_addresses address (length addresses) (addresses, length addresses) with
  | None => Panic
  | Some (array, len) =>
      let conf := mkCalcDebugConfig (Flag (conf dbg)) (take len array) in
      match result dbg with
      | None => Ok (mkCalcDebug conf None)
      | Some r =>
          let rs := cdr_Results r in
          match delete_results address 0 (length rs) (rs, length rs) with
          | None => Panic
          | Some (array, len) => Ok (mkCalcDebug conf (Some (set_Results (take len array) r)))
          end
      end
  end.

(** ** Stored results *)

(** The decoded bytes up to the first that is not hexadecimal. *)
Fixpoint hex_decoded (s : bytes) : bytes :=
  match s with
  | a :: b :: s' =>
      match from_hex_char a, from_hex_char b with
      | Some x, Some y => x * 16 + y :: hex_decoded s'
      | _, _ => []
      end
  | _ => []
  end.

(** [BlockHash[2:]] panics on a shorter string, a height is eight bytes at most. *)
Definition cdr_ID (r : CalcDebugResult) : outcome debug_error bytes :=
  if (length (cdr_BlockHash r) <? 2)%nat then Panic
  else
    let blockHash := hex_decoded (drop 2 (cdr_BlockHash r)) in
    let id := make_bytes (BlockHeightSize + BlockHashSize) in
    Ok (copy_at BlockHeightSize blockHash (copy_height 0 (cdr_BlockHeight r) id)).

Section Stored.
Context {D : Type} `{!LevelDB D, !Codec CalcDebugData}.

Definition cdr_Bytes (r : CalcDebugResult) : bytes := marshal (cdr_Data r).
Definition cdr_SetBytes (bs : bytes) (r : CalcDebugResult) : CalcDebugResult * bool :=
  let '(d, ok) := unmarshal bs (cdr_Data r) in (mkCalcDebugResult (cdr_BlockHeight r) (cdr_BlockHash r) d, ok).

(** [d] is the store [calculation_debug]; a nil result panics. *)
Definition WriteCalcDebugResult (dbg : CalcDebug) (d : D) : outcome debug_error D :=
  match result dbg with
  | None => Panic
  | Some r => let! id := cdr_ID r in Ok (bucket_Set (str "") id (cdr_Bytes r) d)
  end.
End Stored.
