(* ===== verification/DebugTrace.v ===== *)
(** * What the calculation debug output says ([core/calculation_debug.go])

    The entries of an address add up: its total is the stored I-Score plus
    everything recorded for it, after any sequence of writes.  With the debug output on,
    a delegation reward is the one computed without it, and it is
    recorded in full as long as its products fit in 64 bits.  A deletion removes
    an address and its result. *)

From S2P Require Import Prelude Bytes HexInt Address Store Codec Typed Account ClaimDB Management IISSData IScoreDB Context Reward CalcDebug.

(** ** Finding a result and a reward *)

Section Facts.
Context {D : Type} `{!LevelDB D, !Codec IScoreData}.
Context (shared_words : Z -> Z -> Z).
Implicit Type (ctx : Context D) (rs : list CalcResult).

Lemma cdr_Results_set rs r : cdr_Results (set_Results rs r) = rs.
Proof. done. Qed.

Lemma getCalcResult_find address rs :
  getCalcResult address rs = fst <$> list_find (eq address) (cr_Address <$> rs).
Proof.
  induction rs as [|r rs IH]; [done|]. simpl. case_bool_decide as Hr; case_decide; simplify_eq/=; [done|].
  rewrite IH. by destruct (list_find _ _) as [[]|].
Qed.

Lemma getCalcResult_Some address rs i :
  getCalcResult address rs = Some i -> exists c, rs !! i = Some c /\ cr_Address c = address.
Proof.
  rewrite getCalcResult_find. intros ([j b] & Hf & [= ->])%fmap_Some. apply list_find_Some in Hf as (Hb & <- & _).
  apply list_lookup_fmap_Some in Hb as (c & ? & Hc). by exists c.
Qed.

Lemma getCalcResult_is_Some address rs : address ∈ cr_Address <$> rs -> is_Some (getCalcResult address rs).
Proof.
  intros Ha. rewrite getCalcResult_find. apply fmap_is_Some. by apply (list_find_elem_of _ _ address).
Qed.

(** An update that keeps the addresses keeps the results' places. *)
Lemma getCalcResult_insert address rs i c c' :
  rs !! i = Some c -> cr_Address c' = cr_Address c -> getCalcResult address (<[i := c']> rs) = getCalcResult address rs.
Proof.
  intros Hi Hc. rewrite !getCalcResult_find, list_fmap_insert, Hc. f_equal. f_equal. apply list_insert_id.
  by rewrite list_lookup_fmap, Hi.
Qed.

Lemma getReward_loop_find h rewards n r :
  (n <= length rewards)%nat ->
  getReward_loop h rewards n r
  = match list_find (fun rw => rw_BlockHeight rw < h) (take n rewards) with Some (j, _) => Some j | None => r end.
Proof.
  revert r. induction n as [|n IH]; intros r Hn; [done|]. simpl.
  destruct (lookup_lt_is_Some_2 rewards n) as [rw Hrw]; [lia|]. rewrite Hrw, IH by lia.
  rewrite (take_S_r _ _ _ Hrw). destruct (list_find _ (take n rewards)) as [[j x]|] eqn:E.
  - by rewrite (list_find_app_l _ _ _ _ _ E).
  - rewrite (list_find_app_r _ _ _ E). simpl. destruct (rw_BlockHeight rw <? h) eqn:Eh; bool_to_Z.
    + rewrite decide_True by lia. simpl. by rewrite length_take_le by lia.
    + by rewrite decide_False by lia.
Qed.

(** The reward a write goes to is the oldest one below the height: the loop
    does not stop at the latest. *)
Lemma getReward_find r h : getReward r h = fst <$> list_find (fun rw => rw_BlockHeight rw < h) (Rewards r).
Proof.
  unfold getReward. rewrite getReward_loop_find, firstn_all by lia. by destruct (list_find _ _) as [[]|].
Qed.

Lemma getReward_Some r h j : getReward r h = Some j -> exists rw, Rewards r !! j = Some rw.
Proof.
  rewrite getReward_find. intros ([? rw] & Hf & [= ->])%fmap_Some. apply list_find_Some in Hf as (? & _). by exists rw.
Qed.

Lemma getReward_is_Some r h rw : rw ∈ Rewards r -> rw_BlockHeight rw < h -> is_Some (getReward r h).
Proof. intros Hin Hlt. rewrite getReward_find. apply fmap_is_Some. by eapply list_find_elem_of. Qed.

(** ** The balance of a result *)

Definition reward_total (rw : DebugReward) : Z :=
  Beta1IScore (rw_Beta1 rw) + Beta2IScore (rw_Beta2 rw) + Beta3IScore (rw_Beta3 rw).
Definition betas (c : CalcResult) : Z := Zsum (map reward_total (Rewards c)).
Definition base (c : CalcResult) : Z := TotalIScore c - betas c.

Lemma Zsum_alter {A} (g : A -> Z) (f : A -> A) amount j (l : list A) x :
  l !! j = Some x -> g (f x) = g x + amount -> Zsum (map g (alter f j l)) = Zsum (map g l) + amount.
Proof.
  revert j. induction l as [|y l IH]; intros [|j] Hj Hf; simplify_eq/=; [lia|].
  change (g y + Zsum (map g (alter f j l)) = g y + Zsum (map g l) + amount). rewrite (IH j) by done. lia.
Qed.

(** Results of configured addresses that add up. *)
Definition results_ok ctx (addresses : list Address) rs : Prop :=
  Forall (fun c => cr_Address c ∈ addresses /\ initial_IScore ctx (cr_Address c) = Ok (base c)) rs.

Lemma InitCalcResult_ok ctx addresses a rs rs' :
  a ∈ addresses -> results_ok ctx addresses rs -> InitCalcResult ctx a rs = Ok rs' -> results_ok ctx addresses rs'.
Proof.
  intros Ha Hrs. unfold InitCalcResult. intros (z & Hz & [= <-])%obind_ok.
  apply Forall_app. split; [done|]. constructor; [|done]. simpl. split; [done|]. rewrite Hz. unfold base, betas. simpl.
  rewrite map_map, Zsum_map_0; [by rewrite Z.sub_0_r|done].
Qed.

Lemma GetCalcResult_ok ctx addresses a rs rs' i :
  a ∈ addresses -> results_ok ctx addresses rs -> GetCalcResult ctx a rs = Ok (rs', i) -> results_ok ctx addresses rs'.
Proof.
  intros Ha Hrs. unfold GetCalcResult. destruct (getCalcResult a rs); [by intros [= <- _]|].
  intros (rs1 & H1 & H2)%obind_ok. destruct (getCalcResult a rs1); simplify_eq.
  by eapply InitCalcResult_ok.
Qed.

Lemma write_reward_ok ctx addresses a h amount f rs rs' :
  (forall rw, reward_total (f rw) = reward_total rw + amount) ->
  a ∈ addresses -> results_ok ctx addresses rs ->
  write_reward shared_words ctx a h amount f rs = Ok rs' -> results_ok ctx addresses rs'.
Proof.
  intros Hf Ha Hrs. unfold write_reward. intros ((rs1 & i) & H1 & H2)%obind_ok.
  pose proof (GetCalcResult_ok _ _ _ _ _ _ Ha Hrs H1) as Hrs1. clear H1.
  destruct (rs1 !! i) as [c|] eqn:Ei; [|done]. destruct (getReward c h) as [j|] eqn:Ej; [|done]. simplify_eq.
  destruct (getReward_Some _ _ _ Ej) as [rw Hrw].
  apply Forall_insert; [done|]. pose proof (Forall_lookup_1 _ _ _ _ Hrs1 Ei) as [Hin Hb]. simpl.
  split; [done|]. rewrite Hb. f_equal. unfold base, betas. simpl. rewrite (Zsum_alter _ _ amount _ _ _ Hrw) by done. lia.
Qed.

Lemma writeBeta1Info_ok ctx addresses a produceReward bp rs rs' :
  a ∈ addresses -> results_ok ctx addresses rs ->
  writeBeta1Info shared_words ctx a produceReward bp rs = Ok rs' -> results_ok ctx addresses rs'.
Proof.
  intros Ha Hrs. unfold writeBeta1Info. repeat case_bool_decide; [| |by intros [= <-]];
    apply write_reward_ok; try done; intros rw; unfold reward_total; simpl; lia.
Qed.

Lemma writeBeta2Info_ok ctx addresses a di prep s e prepReward rs rs' :
  a ∈ addresses -> results_ok ctx addresses rs ->
  writeBeta2Info shared_words ctx a di prep s e prepReward rs = Ok rs' -> results_ok ctx addresses rs'.
Proof.
  intros Ha Hrs. unfold writeBeta2Info. case_bool_decide; [|by intros [= <-]]. case_match; [done|].
  apply write_reward_ok; try done. intros rw. unfold reward_total. simpl. lia.
Qed.

Lemma writeBeta3Info_ok ctx addresses a b rewardRep dg period e rs rs' :
  a ∈ addresses -> results_ok ctx addresses rs ->
  writeBeta3Info shared_words ctx a b rewardRep dg period e rs = Ok rs' -> results_ok ctx addresses rs'.
Proof.
  intros Ha Hrs. unfold writeBeta3Info. case_bool_decide; [|by intros [= <-]].
  apply write_reward_ok; try done. intros rw. unfold reward_total. simpl. lia.
Qed.

Lemma for_addresses_ind (P : list CalcResult -> Prop) write addresses rs rs' :
  (forall a rs rs', a ∈ addresses -> P rs -> write a rs = Ok rs' -> P rs') ->
  P rs -> for_addresses write addresses rs = Ok rs' -> P rs'.
Proof.
  intros Hw. revert rs. induction addresses as [|a l IH]; intros rs Hrs; simpl; [by intros [= <-]|].
  intros (rs1 & H1 & H2)%obind_ok. eapply (IH ltac:(intros; eapply Hw; [by right|done..]) rs1); [|done].
  eapply Hw; [by left|done..].
Qed.

(** ** Any sequence of writes *)

Inductive debug_write :=
  | Write1 (produceReward : Z) (bp : IISSBlockProduceInfo)
  | Write2 (di : PRepDelegationInfo) (prep : PRep) (startBlock endBlock prepReward : Z)
  | Write3 (rewardAddress : Address) (rewardRep : Z) (dg : DelegateData) (period endBlock : Z).

Definition do_write ctx (w : debug_write) (dbg : CalcDebug) : outcome debug_error CalcDebug :=
  match w with
  | Write1 r bp => WriteBeta1Info shared_words ctx r bp dbg
  | Write2 di prep s e r => WriteBeta2Info shared_words ctx di prep s e r dbg
  | Write3 a r dg p e => WriteBeta3Info shared_words ctx a r dg p e dbg
  end.

Fixpoint do_writes ctx (ws : list debug_write) (dbg : CalcDebug) : outcome debug_error CalcDebug :=
  match ws with
  | [] => Ok dbg
  | w :: ws => let! dbg := do_write ctx w dbg in do_writes ctx ws dbg
  end.

Definition debug_ok ctx (dbg : CalcDebug) : Prop :=
  exists r, result dbg = Some r /\ results_ok ctx (Addresses (conf dbg)) (cdr_Results r).

Lemma write_info_ok ctx write dbg dbg' :
  (forall addresses a rs rs', a ∈ addresses -> results_ok ctx addresses rs -> write a rs = Ok rs' -> results_ok ctx addresses rs') ->
  debug_ok ctx dbg -> write_info write dbg = Ok dbg' -> conf dbg' = conf dbg /\ debug_ok ctx dbg'.
Proof.
  intros Hw (r & Hr & Hrs). unfold write_info. rewrite Hr. destruct (NeedToUpdateCalcDebugResult dbg).
  - intros (rs & H1 & [= <-])%obind_ok. split; [done|]. eexists. split; [done|]. simpl.
    eapply (for_addresses_ind _ _ _ _ _ (Hw _) Hrs H1).
  - intros [= <-]. split; [done|]. by exists r.
Qed.

Lemma do_write_ok ctx w dbg dbg' :
  debug_ok ctx dbg -> do_write ctx w dbg = Ok dbg' -> conf dbg' = conf dbg /\ debug_ok ctx dbg'.
Proof.
  destruct w; apply write_info_ok; intros;
    [by eapply writeBeta1Info_ok|by eapply writeBeta2Info_ok|by eapply writeBeta3Info_ok].
Qed.

Lemma do_writes_ok ctx ws dbg dbg' :
  debug_ok ctx dbg -> do_writes ctx ws dbg = Ok dbg' -> conf dbg' = conf dbg /\ debug_ok ctx dbg'.
Proof.
  revert dbg. induction ws as [|w ws IH]; intros dbg Hd; simpl; [by intros [= <-]|].
  intros (dbg1 & H1 & H2)%obind_ok. destruct (do_write_ok _ _ _ _ Hd H1) as [Hc Hd1].
  destruct (IH dbg1 Hd1 H2) as [Hc' ?]. split; [by rewrite Hc'|done].
Qed.

Lemma InitCalcDebugResult_ok ctx candidates h hash dbg dbg' :
  NeedToUpdateCalcDebugResult dbg = true ->
  InitCalcDebugResult ctx candidates h hash dbg = Ok dbg' -> conf dbg' = conf dbg /\ debug_ok ctx dbg'.
Proof.
  unfold InitCalcDebugResult. intros ->. intros (rs & H1 & [= <-])%obind_ok. split; [done|]. eexists. split; [done|].
  simpl. eapply for_addresses_ind; [|by constructor|exact H1]. intros. by eapply InitCalcResult_ok.
Qed.

(** C29: The entries of the debug output add up: after the start of a
    calculation and any sequence of writes, every result belongs to a
    configured address, and its total is the I-Score stored for the address
    plus all the Beta1, Beta2 and Beta3 I-Scores recorded under its periods. *)
Theorem debug_balance ctx candidates h hash ws dbg dbg0 dbg' :
  NeedToUpdateCalcDebugResult dbg = true ->
  InitCalcDebugResult ctx candidates h hash dbg = Ok dbg0 ->
  do_writes ctx ws dbg0 = Ok dbg' ->
  exists r, result dbg' = Some r /\
    forall c, c ∈ cdr_Results r ->
      cr_Address c ∈ Addresses (conf dbg) /\
      exists stored, initial_IScore ctx (cr_Address c) = Ok stored /\ TotalIScore c = stored + betas c.
Proof.
  intros Hn H0 Hws. destruct (InitCalcDebugResult_ok _ _ _ _ _ _ Hn H0) as [Hc0 Hd0].
  destruct (do_writes_ok _ _ _ _ Hd0 Hws) as [Hc (r & Hr & Hrs)]. exists r. split; [done|].
  intros c Hin. rewrite Hc, Hc0 in Hrs. apply (proj1 (Forall_forall _ _) Hrs) in Hin as [Ha Hb]. split; [done|].
  exists (base c). split; [done|]. unfold base. lia.
Qed.

(** ** Delegation rewards with the debug output on *)

(** The total recorded for an address. *)
Definition total_of (a : Address) (dbg : CalcDebug) : option Z :=
  r ← result dbg; i ← getCalcResult a (cdr_Results r); TotalIScore <$> cdr_Results r !! i.

(** The debug output of [a] is on and was set up with the governance
    variables [gvs]. *)
Definition traced (gvs : list GovernanceVariable) (a : Address) (dbg : CalcDebug) : Prop :=
  Flag (conf dbg) = true /\ NoDup (Addresses (conf dbg)) /\ a ∈ Addresses (conf dbg) /\
  exists r i c, result dbg = Some r /\ getCalcResult a (cdr_Results r) = Some i /\ cdr_Results r !! i = Some c /\
    rw_BlockHeight <$> Rewards c = gv_BlockHeight <$> gvs.

Lemma for_addresses_one a write addresses rs :
  NoDup addresses -> (forall b, b <> a -> write b rs = Ok rs) ->
  (forall b rs', b <> a -> write a rs = Ok rs' -> write b rs' = Ok rs') ->
  for_addresses write addresses rs = if decide (a ∈ addresses) then write a rs else Ok rs.
Proof.
  intros Hnd H1 H2. revert Hnd. induction addresses as [|b l IH]; intros Hnd.
  { rewrite decide_False; [done|apply not_elem_of_nil]. }
  cbn [for_addresses].
  apply NoDup_cons in Hnd as [Hb Hnd]. destruct (decide (b = a)) as [->|Hne].
  - rewrite decide_True by (by left). destruct (write a rs) as [rs'| |] eqn:E; simpl; [|done..].
    clear IH. induction l as [|x l IH]; simpl; [done|]. apply not_elem_of_cons in Hb as [Hx Hb].
    rewrite H2 by done. simpl. apply NoDup_cons in Hnd as [_ Hnd]. by apply IH.
  - rewrite H1 by done. simpl. rewrite IH by done. f_equal.
    destruct (decide (a ∈ l)); [by rewrite decide_True by (by right)|]. by rewrite decide_False by set_solver.
Qed.

Lemma write_reward_found ctx a h amount f rs i c j :
  getCalcResult a rs = Some i -> rs !! i = Some c -> getReward c h = Some j ->
  write_reward shared_words ctx a h amount f rs =
  Ok (<[i := mkDebugCalcResult (cr_Address c) (shared_words (InitialIScore c) (TotalIScore c + amount))
               (TotalIScore c + amount) (alter f j (Rewards c))]> rs).
Proof. intros Hi Hc Hj. unfold write_reward, GetCalcResult. rewrite Hi. simpl. by rewrite Hc, Hj. Qed.

Lemma WriteBeta3Info_traced ctx gvs a rewardRep dg period e dbg gv :
  traced gvs a dbg -> gv ∈ gvs -> gv_BlockHeight gv < e ->
  exists dbg', WriteBeta3Info shared_words ctx a rewardRep dg period e dbg = Ok dbg' /\ traced gvs a dbg' /\
    forall b, total_of b dbg' =
      (fun t => if decide (b = a)
                then t + u64 (u64 (rewardRep * period) * big_Uint64 (dg_Delegate dg)) / rewardDivider else t)
      <$> total_of b dbg.
Proof.
  intros (Hf & Hnd & Ha & r & i & c & Hr & Hi & Hc & Hg) Hgv He.
  assert (Hneed : NeedToUpdateCalcDebugResult dbg = true).
  { unfold NeedToUpdateCalcDebugResult. rewrite Hf. destruct (Addresses (conf dbg)); [by apply not_elem_of_nil in Ha|done]. }
  assert (is_Some (getReward c e)) as [j Hj].
  { assert (gv_BlockHeight gv ∈ rw_BlockHeight <$> Rewards c) as Hin by (rewrite Hg; by apply list_elem_of_fmap_2).
    apply list_elem_of_fmap in Hin as (rw & Hrw & Hin). eapply getReward_is_Some; [done|lia]. }
  unfold WriteBeta3Info, write_info. rewrite Hneed, Hr.
  rewrite (for_addresses_one a) by
    (try done; intros; unfold writeBeta3Info; by rewrite bool_decide_eq_false_2 by done).
  rewrite decide_True by done. unfold writeBeta3Info. rewrite bool_decide_eq_true_2 by done.
  erewrite write_reward_found by done. simpl. eexists. split; [done|].
  set (c' := mkDebugCalcResult _ _ _ _). assert (Hlen : (i < length (cdr_Results r))%nat) by (by eapply lookup_lt_Some).
  assert (Hget : forall b, getCalcResult b (<[i:=c']> (cdr_Results r)) = getCalcResult b (cdr_Results r)).
  { intros b. by eapply getCalcResult_insert. }
  split.
  - split_and!; [done..|]. exists (set_Results (<[i:=c']> (cdr_Results r)) r), i, c'. simpl. rewrite Hget.
    split_and!; [done|done|by apply list_lookup_insert_eq|].
    rewrite <-Hg. unfold c'. simpl. apply list_eq. intros k. rewrite !list_lookup_fmap.
    destruct (decide (k = j)) as [->|]; [rewrite list_lookup_alter_eq|by rewrite list_lookup_alter_ne].
    by destruct (Rewards c !! j).
  - intros b. unfold total_of. rewrite Hr. simpl. rewrite cdr_Results_set, Hget.
    destruct (getCalcResult b (cdr_Results r)) as [k|] eqn:Ek; [|done]. simpl.
    destruct (getCalcResult_Some _ _ _ Ek) as (ck & Hk & Hck).
    destruct (getCalcResult_Some _ _ _ Hi) as (c0 & Hc0 & Hca). simplify_eq.
    destruct (decide (k = i)) as [->|Hne].
    + simplify_eq. rewrite list_lookup_insert_eq by done. simpl. rewrite Hc. simpl. by rewrite decide_True.
    + rewrite list_lookup_insert_ne by done. rewrite Hk. simpl. rewrite decide_False; [done|].
      intros Hb. rewrite Hb in Ek. congruence.
Qed.

(** The output never changes a reward. *)
Lemma delegation_reward_debug_value ctx a dg start end_ gvs total dbg v dbg' :
  delegation_reward_debug shared_words ctx a dg start end_ gvs total dbg = Ok (v, dbg') ->
  v = delegation_reward_loop (dg_Delegate dg) start end_ gvs total.
Proof.
  revert total dbg. induction gvs as [|gv gvs IH]; intros total dbg;
    cbn [delegation_reward_debug delegation_reward_loop]; [by intros [= <- _]|].
  destruct (gv_period start end_ gv (head gvs)) as [s e]. destruct (e <=? s); [apply IH|].
  intros (dbg1 & _ & H)%obind_ok. by apply IH in H.
Qed.

(** The products of the reward fit in 64 bits. *)
Definition no_overflow (dg : DelegateData) (blocks : Z) (gvs : list GovernanceVariable) : Prop :=
  is_u64 (dg_Delegate dg) /\
  Forall (fun gv => is_u64 (RewardRep (gv_Data gv)) /\ RewardRep (gv_Data gv) * blocks * dg_Delegate dg < 2 ^ 64) gvs.

Lemma u64_mul_u64 x y : u64 (u64 x * y) = u64 (x * y).
Proof. unfold u64. by rewrite Z.mul_mod_idemp_l. Qed.

Lemma big_Uint64_small z : is_u64 z -> big_Uint64 z = z.
Proof. intros Hz. unfold big_Uint64. rewrite Z.abs_eq by zlia. by apply u64_small. Qed.

(** What is recorded for a period is the reward of the period. *)
Lemma recorded_reward dg gv s e blocks :
  is_u64 (dg_Delegate dg) -> is_u64 (RewardRep (gv_Data gv)) ->
  RewardRep (gv_Data gv) * blocks * dg_Delegate dg < 2 ^ 64 ->
  0 <= s < e -> e <= blocks -> e < 2 ^ 64 ->
  u64 (u64 (big_Uint64 (RewardRep (gv_Data gv)) * big_Uint64 (NewHexIntFromUint64 (e -u s))) * big_Uint64 (dg_Delegate dg)) / rewardDivider
  = big_Div (dg_Delegate dg * NewHexIntFromUint64 (e -u s) * RewardRep (gv_Data gv)) BigIntRewardDivider.
Proof.
  intros Hd Hr Hlt Hs He He'. pose proof Hd as Hd'. pose proof Hr as Hr'. unfold is_u64 in Hd', Hr'.
  rewrite big_Div_pos by apply rewardDivider_pos. rewrite u64_mul_u64.
  unfold NewHexIntFromUint64. rewrite (u64_small (e - s)) by zlia.
  rewrite !big_Uint64_small by zlia. rewrite u64_small; [f_equal; lia|].
  assert (0 <= RewardRep (gv_Data gv) * dg_Delegate dg * (blocks - (e - s))) by (apply Z.mul_nonneg_nonneg; lia || nia).
  unfold is_u64. split; [apply Z.mul_nonneg_nonneg; [apply Z.mul_nonneg_nonneg|]; lia|]. lia.
Qed.

Lemma delegation_reward_debug_spec ctx a dg start end_ all gvs total dbg blocks :
  traced all a dbg -> gvs ⊆ all -> no_overflow dg blocks gvs -> gv_heights_ok gvs ->
  is_u64 start -> is_u64 end_ -> end_ <= blocks ->
  exists v dbg', delegation_reward_debug shared_words ctx a dg start end_ gvs total dbg = Ok (v, dbg') /\
    forall b, total_of b dbg' = (fun t => if decide (b = a) then t + (v - total) else t) <$> total_of b dbg.
Proof.
  intros Ht Hsub [Hd Hno] Hh Hs He Hb. revert total dbg Ht Hsub. induction gvs as [|gv gvs IH]; intros total dbg Ht Hsub;
    cbn [delegation_reward_debug].
  { exists total, dbg. split; [done|]. intros b. destruct (total_of b dbg); [|done]. simpl. f_equal. case_decide; lia. }
  apply Forall_cons in Hno as [[Hr Hlt] Hno]. apply Forall_cons in Hh as [Hg Hh].
  assert (Hsub' : gvs ⊆ all) by set_solver.
  pose proof (gv_period_overlap start end_ gv (head gvs)) as Hp.
  destruct (gv_period start end_ gv (head gvs)) as [s e]. destruct Hp as [Hps Hpe].
  assert (Hee : e <= end_) by (destruct (head gvs); lia).
  destruct (e <=? s) eqn:Ees; bool_to_Z; [by apply IH|].
  edestruct (WriteBeta3Info_traced ctx all a (big_Uint64 (RewardRep (gv_Data gv))) dg
    (big_Uint64 (NewHexIntFromUint64 (e -u s))) e dbg gv) as (dbg1 & -> & Ht1 & H1); [done|set_solver|lia|].
  cbn [obind].
  edestruct (IH Hno Hh) as (v & dbg' & -> & H2); [exact Ht1|done|]. exists v, dbg'. split; [done|].
  intros b. rewrite H2, H1, (recorded_reward _ _ _ _ blocks) by (try done; zlia).
  destruct (total_of b dbg); [|done]. simpl. f_equal. repeat case_decide; lia.
Qed.

(** C30: With the debug output on, a delegation reward is the one calculated
    without it, the output does not make the calculation panic, and the total recorded
    for the address grows by exactly that reward while no other total changes,
    as long as rate, blocks and delegation multiply within 64 bits. *)
Theorem calculateDelegationReward_debug_spec ctx a dg start end_ pRep dbg :
  traced (GV ctx) a dbg -> no_overflow dg end_ (GV ctx) -> gv_heights_ok (GV ctx) ->
  is_u64 start -> is_u64 end_ -> wf_candidate pRep ->
  exists dbg',
    calculateDelegationReward_debug shared_words ctx dg start end_ pRep a dbg
    = Ok (calculateDelegationReward (GV ctx) dg start end_ pRep, dbg') /\
    forall b, total_of b dbg' =
      (fun t => if decide (b = a) then t + calculateDelegationReward (GV ctx) dg start end_ pRep else t) <$> total_of b dbg.
Proof.
  intros Ht Hno Hh Hs He [Hps Hpe]. unfold calculateDelegationReward_debug, calculateDelegationReward.
  set (start' := if start <? _ then _ else _). set (end' := if negb _ && _ then _ else _).
  assert (is_u64 start') by (subst start'; by case_match).
  assert (is_u64 end' /\ end' <= end_) as [Hu Hle].
  { subst end'. destruct (negb _ && _) eqn:Eb; bool_to_Z; (split; [done|lia]). }
  destruct (delegation_reward_debug_spec ctx a dg start' end' (GV ctx) (GV ctx) 0 dbg end_) as (v & dbg' & E & Hall);
    [done..|]. exists dbg'. rewrite E. pose proof (delegation_reward_debug_value _ _ _ _ _ _ _ _ _ _ E) as Hv.
  rewrite <-Hv. split; [done|]. intros b. rewrite Hall. destruct (total_of b dbg); [|done]. simpl. f_equal. case_decide; lia.
Qed.

End Facts.

(** ** Deletion of an address *)

Lemma slice_delete_Some {A} i (array : list A) len :
  (i < len)%nat -> (len <= length array)%nat ->
  exists array', slice_delete i (array, len) = Some (array', pred len) /\
    length array' = length array /\ take (pred len) array' = delete i (take len array) /\
    take i array' = take i array.
Proof.
  intros Hi Hlen. unfold slice_delete. rewrite decide_True by done. eexists. split; [done|].
  assert (H1 : length (take i array) = i) by (rewrite length_take; lia).
  assert (H2 : length (drop (S i) (take len array)) = (len - S i)%nat) by (rewrite length_drop, length_take; lia).
  split_and!.
  - rewrite !length_app, H1, H2, length_drop. lia.
  - rewrite app_assoc, take_app_length' by (rewrite length_app, H1, H2; lia).
    rewrite delete_take_drop, take_take. by rewrite Nat.min_l by lia.
  - by rewrite take_app_length' by done.
Qed.

Lemma delete_addresses_spec a n array len :
  (n <= len <= length array)%nat ->
  exists array' len', delete_addresses a n (array, len) = Some (array', len') /\
    take len' array' = filter (fun b => b <> a) (take n array) ++ drop n (take len array).
Proof.
  revert array len. induction n as [|i IH]; intros array len Hn; cbn [delete_addresses]; [by exists array, len|].
  destruct (lookup_lt_is_Some_2 array i) as [b Hb]; [lia|]. cbn [fst]. rewrite Hb, (take_S_r _ _ _ Hb), filter_app.
  assert (Hd : drop i (take len array) = b :: drop (S i) (take len array)).
  { apply drop_S. by rewrite lookup_take_lt by lia. }
  case_bool_decide as Hba.
  - destruct (slice_delete_Some i array len) as (array' & -> & Hl & Htake & Hti); [lia..|].
    destruct (IH array' (pred len)) as (array'' & len' & E & E'); [lia|]. exists array'', len'. split; [done|].
    rewrite E', Hti, Htake. injection Hba as ->. rewrite filter_cons_False by (intros H; by apply H). rewrite app_nil_r. f_equal.
    rewrite delete_take_drop, drop_app_length' by (rewrite !length_take; lia). done.
  - destruct (IH array len) as (array'' & len' & E & E'); [lia|]. exists array'', len'. split; [done|].
    rewrite E', filter_cons_True by congruence. by rewrite Hd, <-app_assoc.
Qed.

(** Without the address in the rest of the array the loop changes nothing. *)
Lemma delete_results_none a i n s :
  (forall j c, (i <= j < i + n)%nat -> s.1 !! j = Some c -> cr_Address c <> a) -> delete_results a i n s = Some s.
Proof.
  revert i. induction n as [|n IH]; intros i H; cbn [delete_results]; [done|].
  rewrite bool_decide_eq_false_2; [apply IH; intros j c ?; apply H; lia|].
  intros (c & Hc & Ha)%fmap_Some. by apply (H i c); [lia|..].
Qed.

Lemma filter_absent {A} (P : A -> Prop) `{!forall x, Decision (P x)} (l : list A) : (forall x, x ∈ l -> P x) -> filter P l = l.
Proof.
  induction l as [|x l IH]; intros Hl; [done|]. rewrite filter_cons_True by (apply Hl; by left).
  f_equal. apply IH. intros y Hy. apply Hl. by right.
Qed.

Lemma delete_results_spec a rs n i :
  NoDup (cr_Address <$> rs) -> (i + n = length rs)%nat -> (forall c, c ∈ take i rs -> cr_Address c <> a) ->
  exists array len, delete_results a i n (rs, length rs) = Some (array, len) /\
    take len array = filter (fun c => cr_Address c <> a) rs.
Proof.
  intros Hnd. revert i. induction n as [|n IH]; intros i Hi Hno; cbn [delete_results].
  { eexists _, _. split; [done|]. rewrite take_ge in Hno by lia. by rewrite firstn_all, filter_absent. }
  destruct (lookup_lt_is_Some_2 rs i) as [c Hc]; [lia|]. cbn [fst]. rewrite Hc. cbn [fmap option_fmap option_map]. case_bool_decide as Hca.
  2: { apply IH; [lia|]. intros x. rewrite (take_S_r _ _ _ Hc), elem_of_app, list_elem_of_singleton.
       intros [Hx| ->]; [by apply Hno|congruence]. }
  injection Hca as Hca. destruct (slice_delete_Some i rs (length rs)) as (array & E & Hl & Htake & Hti); [lia..|].
  rewrite E. exists array, (pred (length rs)).
  assert (Hrs : rs = take i rs ++ c :: drop (S i) rs) by (symmetry; by apply take_drop_middle).
  assert (Hrest : forall x, x ∈ drop (S i) rs -> cr_Address x <> a).
  { intros x Hx Hxa. rewrite Hrs, fmap_app, fmap_cons in Hnd. apply NoDup_app in Hnd as (_ & _ & Hnd).
    apply NoDup_cons in Hnd as [Hnd _]. apply Hnd. rewrite Hca, <-Hxa. by apply list_elem_of_fmap_2. }
  assert (Hf : take (pred (length rs)) array = filter (fun c => cr_Address c <> a) rs).
  { rewrite Htake, firstn_all, delete_take_drop. rewrite Hrs at 3. rewrite filter_app, filter_cons_False by (by intros H).
    by rewrite !filter_absent. }
  split; [|done]. apply delete_results_none. intros j x Hj Hx. cbn [fst] in Hx.
  unfold slice_delete in E. rewrite decide_True in E by lia. injection E as <-.
  rewrite firstn_all in Hx. apply list_elem_of_lookup_2 in Hx as Hin.
  rewrite lookup_app_r in Hx by (rewrite length_take; lia).
  apply list_elem_of_lookup_2, elem_of_app in Hx as [Hx|Hx]; [by apply Hrest|]. apply Hrest.
  apply list_elem_of_lookup in Hx as [k Hk]. rewrite lookup_drop in Hk. apply list_elem_of_lookup. exists (pred (length rs) + k - S i)%nat.
  rewrite lookup_drop. rewrite <-Hk. f_equal. lia.
Qed.

(** Deleting an address removes it and its result, given that the results
    have one entry per address. *)
Lemma DeleteDebuggingAddress_spec a dbg :
  (forall r, result dbg = Some r -> NoDup (cr_Address <$> cdr_Results r)) ->
  exists dbg', DeleteDebuggingAddress a dbg = Ok dbg' /\
    Flag (conf dbg') = Flag (conf dbg) /\
    Addresses (conf dbg') = filter (fun b => b <> a) (Addresses (conf dbg)) /\
    cdr_Results <$> result dbg' = (fun r => filter (fun c => cr_Address c <> a) (cdr_Results r)) <$> result dbg.
Proof.
  intros Hnd. unfold DeleteDebuggingAddress.
  destruct (delete_addresses_spec a (length (Addresses (conf dbg))) (Addresses (conf dbg)) (length (Addresses (conf dbg))))
    as (array & len & -> & Haddr); [lia|]. rewrite firstn_all, drop_all, app_nil_r in Haddr.
  destruct (result dbg) as [r|]; [|by eexists].
  destruct (delete_results_spec a (cdr_Results r) (length (cdr_Results r)) 0) as (arr & l & -> & Hrs); [by apply Hnd|done| |].
  { intros c Hc. by apply elem_of_nil in Hc. }
  eexists. split; [done|]. simpl. split_and!; [done..|]. f_equal. exact Hrs.
Qed.
