(* ===== verification/MsgDebug.v ===== *)
(** * The DEBUG messages ([core/msg_debug.go])

    What a monitor connection can ask: the state of the context, the switches
    and addresses of the calculation debug output, and the stored results of
    past calculations.  A stored result is found by the last bytes of its block
    height, as many as the number asked for has. *)

From Stdlib Require Strings.String.
From S2P Require Import Prelude Bytes HexInt Address Store Codec Typed Account ClaimDB Management IISSData IScoreDB Context CalcDebug.
Import String.StringSyntax.

Definition DebugStatistics : Z := 0.
Definition DebugDBInfo : Z := 1.
Definition DebugPRep : Z := 2.
Definition DebugPRepCandidate : Z := 3.
Definition DebugGV : Z := 4.
Definition DebugCalcDebugResult : Z := 5.
Definition DebugLogCTX : Z := 100.
Definition DebugCalc : Z := 200.
Definition DebugCalcFlagOn : Z := DebugCalc.
Definition DebugCalcFlagOff : Z := DebugCalc + 1.
Definition DebugCalcAddAddress : Z := DebugCalc + 2.
Definition DebugCalcDelAddress : Z := DebugCalc + 3.
Definition DebugCalcListAddresses : Z := DebugCalc + 4.

Record MessageData := mkMessageData { md_Address : Address; md_OutputPath : bytes; md_BlockHeight : Z }.
Record DebugMessage := mkDebugMessage { dm_Cmd : Z; dm_MessageData : MessageData }.
Definition zero_MessageData : MessageData := mkMessageData zero_Address [] 0.
Definition zero_DebugMessage : DebugMessage := mkDebugMessage 0 zero_MessageData.

(** The responses.  Those with a [DebugMessage] carry the command in it. *)
Inductive debug_response :=
  | ResponseDebugStats (m : DebugMessage) (BlockHeight : Z) (Stats : Statistics)
  | ResponseDebugDBInfo (m : DebugMessage) (DBInfo : DBInfoData)
  | ResponseDebugPRep (m : DebugMessage) (PReps : list PRep)
  | ResponseDebugPRepCandidate (m : DebugMessage) (PRepCandidates : list PRepCandidate)
  | ResponseDebugGV (m : DebugMessage) (GV : list GovernanceVariable)
  | ResponseCalcDebug (Success : bool) (m : MessageData)
  | ResponseCalcDebugAddressList (m : DebugMessage) (Addresses : list Address)
  | ResponseQueryCalcDebugResult (Results : list CalcDebugResult).

(** A request that does not decode; a stored result that does not; no key for
    the height; a command without a case. *)
Inductive msg_debug_error := ErrDebugDecode | ErrDebugResult | ErrNoDebugKey | ErrUnknownDebugMessage (cmd : Z).

Definition lift_debug {E A : Type} (m : outcome debug_error A) : outcome E A :=
  match m with Ok a => Ok a | Err e => match e with end | Panic => Panic end.

Definition cmd_message (cmd : Z) : DebugMessage := mkDebugMessage cmd zero_MessageData.

(** ** The state of the context *)

Section Handlers.
Context {D : Type}.
Implicit Type ctx : Context D.

Definition handleStats ctx : debug_response :=
  ResponseDebugStats (cmd_message DebugStatistics) (getCalcDoneBH (DB ctx)) (default zero_Statistics (ctx_stats ctx)).
Definition handleDBInfo ctx : debug_response :=
  ResponseDebugDBInfo (cmd_message DebugDBInfo) (info (DB ctx)).
Definition handlePRep ctx : debug_response :=
  ResponseDebugPRep (cmd_message DebugPRep) (ctx_PRep ctx).
(** In the order of an iteration over the map. *)
Definition handlePRepCandidate (order : PRepCandidates -> list (Address * PRepCandidate)) ctx : debug_response :=
  ResponseDebugPRepCandidate (cmd_message DebugPRepCandidate) (order (ctx_PRepCandidates ctx)).*2.
Definition handleGV ctx : debug_response :=
  ResponseDebugGV (cmd_message DebugGV) (GV ctx).

(** ** Switches and addresses

    The response says that it failed while a calculation runs; the change is
    made all the same. *)

Definition not_calculating_now ctx : bool := negb (isCalculating (DB ctx)).

Definition handleCalcDebugFlagOn ctx (dbg : CalcDebug) : CalcDebug * debug_response :=
  (mkCalcDebug (mkCalcDebugConfig true (Addresses (conf dbg))) (result dbg),
   ResponseCalcDebug (not_calculating_now ctx) zero_MessageData).
Definition handleCalcDebugFlagOff ctx (dbg : CalcDebug) : CalcDebug * debug_response :=
  (mkCalcDebug (mkCalcDebugConfig false (Addresses (conf dbg))) (result dbg),
   ResponseCalcDebug (not_calculating_now ctx) zero_MessageData).

Definition address_message (address : Address) : MessageData := mkMessageData address [] 0.

Definition handleCalcDebugAddAddress ctx (address : Address) (dbg : CalcDebug) : CalcDebug * debug_response :=
  (AddDebuggingAddress address dbg, ResponseCalcDebug (not_calculating_now ctx) (address_message address)).
Definition handleCalcDebugDeleteAddress ctx (address : Address) (dbg : CalcDebug)
    : outcome debug_error (CalcDebug * debug_response) :=
  let! dbg := DeleteDebuggingAddress address dbg in
  Ok (dbg, ResponseCalcDebug (not_calculating_now ctx) (address_message address)).
Definition handleCalcDebugAddresses (dbg : CalcDebug) : debug_response :=
  ResponseCalcDebugAddressList (cmd_message DebugCalcListAddresses) (Addresses (conf dbg)).
End Handlers.

(** ** Stored results *)

(** [key[i:8]] of the bytes of a height panics on a key of less than eight. *)
Definition key_matches (blockHeight : Z) (key : bytes) : option bool :=
  let blockHeightBytesValue := Uint64ToBytes blockHeight in
  if (length key <? BlockHeightSize)%nat then None
  else Some (bool_decide (drop (BlockHeightSize - length blockHeightBytesValue) (take BlockHeightSize key)
                          = blockHeightBytesValue)).

Fixpoint matching_keys (blockHeight : Z) (keys : list bytes) : option (list bytes) :=
  match keys with
  | [] => Some []
  | key :: keys =>
      match key_matches blockHeight key, matching_keys blockHeight keys with
      | Some true, Some l => Some (key :: l)
      | Some false, Some l => Some l
      | _, _ => None
      end
  end.

Section StoredResults.
Context {D : Type} `{!LevelDB D, !Codec CalcDebugData}.

Definition GetCalcDebugResultKeys (d : D) (blockHeight : Z) : outcome msg_debug_error (list bytes) :=
  match matching_keys blockHeight ((iter_New None None d).*1) with
  | None => Panic
  | Some [] => Err ErrNoDebugKey
  | Some keys => Ok keys
  end.

Definition NewCalcDebugResult (key value : bytes) : outcome msg_debug_error CalcDebugResult :=
  let '(dr, ok) := cdr_SetBytes value (mkCalcDebugResult 0 [] zero_CalcDebugData) in
  if negb ok then Err ErrDebugResult
  else if (length key <? BlockHeightSize + BlockHashSize)%nat then Panic
  else
    let blockHash := copy_at 0 (take BlockHashSize (drop BlockHeightSize key)) (make_bytes BlockHashSize) in
    Ok (mkCalcDebugResult (BytesToUint64 (take BlockHeightSize key)) (str "0x" ++ hex_EncodeToString blockHash) (cdr_Data dr)).

(** Once for every entry of the address, or for every entry when none is given. *)
Definition results_for (address : Address) (dr : CalcDebugResult) : list CalcDebugResult :=
  let nilAddress := zero_Address in
  map (fun _ => dr)
    (filter (fun c => address = nilAddress \/ address = cr_Address c) (cdr_Results dr)).

Fixpoint query_keys (d : D) (address : Address) (keys : list bytes) : outcome msg_debug_error (list CalcDebugResult) :=
  match keys with
  | [] => Ok []
  | key :: keys =>
      match bucket_Get PrefixClaim d key with
      | None => query_keys d address keys
      | Some value =>
          let! dr := NewCalcDebugResult key value in
          let! rs := query_keys d address keys in
          Ok (results_for address dr ++ rs)
      end
  end.

Definition handleQueryCalcDebugResult (d : D) (address : Address) (blockHeight : Z)
    : outcome msg_debug_error (list CalcDebugResult) :=
  match GetCalcDebugResultKeys d blockHeight with
  | Ok keys => query_keys d address keys
  | Err _ => Ok []
  | Panic => Panic
  end.

(** ** The handler

    [d] is the store of the debug results.  The request is decoded after
    [AddMsgTask]; [DoneMsgTask] follows unless the decoding failed. *)

Definition run_debug {C : Type} (order : PRepCandidates -> list (Address * PRepCandidate)) (ctx : Context C)
    (d : D) (req : DebugMessage) (dbg : CalcDebug) : outcome msg_debug_error (CalcDebug * option debug_response) :=
  let cmd := dm_Cmd req in
  let address := md_Address (dm_MessageData req) in
  let answer r := Ok (dbg, Some r) in
  let switch p := Ok (p.1, Some p.2) in
  if cmd =? DebugStatistics then answer (handleStats ctx)
  else if cmd =? DebugDBInfo then answer (handleDBInfo ctx)
  else if cmd =? DebugPRep then answer (handlePRep ctx)
  else if cmd =? DebugPRepCandidate then answer (handlePRepCandidate order ctx)
  else if cmd =? DebugGV then answer (handleGV ctx)
  else if cmd =? DebugLogCTX then Ok (dbg, None)
  else if cmd =? DebugCalcFlagOn then switch (handleCalcDebugFlagOn ctx dbg)
  else if cmd =? DebugCalcFlagOff then switch (handleCalcDebugFlagOff ctx dbg)
  else if cmd =? DebugCalcAddAddress then switch (handleCalcDebugAddAddress ctx address dbg)
  else if cmd =? DebugCalcDelAddress then
    let! p := lift_debug (handleCalcDebugDeleteAddress ctx address dbg) in switch p
  else if cmd =? DebugCalcListAddresses then answer (handleCalcDebugAddresses dbg)
  else if cmd =? DebugCalcDebugResult then
    let! rs := handleQueryCalcDebugResult d address (md_BlockHeight (dm_MessageData req)) in
    answer (ResponseQueryCalcDebugResult rs)
  else Err (ErrUnknownDebugMessage cmd).

Definition debug `{!Codec DebugMessage} {C : Type} (order : PRepCandidates -> list (Address * PRepCandidate))
    (ctx : Context C) (d : D) (data : bytes) (dbg : CalcDebug)
    : outcome msg_debug_error (CalcDebug * option debug_response) :=
  match unmarshal_new zero_DebugMessage data with
  | None => Err ErrDebugDecode
  | Some req => run_debug order ctx d req dbg
  end.
End StoredResults.

(** ** Keys *)

Lemma hex_decoded_roundtrip bs : all_bytes bs -> hex_decoded (hex_EncodeToString bs) = bs.
Proof.
  induction 1 as [|b bs Hb _ IH]; [done|]. unfold hex_EncodeToString in *. simpl. unfold is_byte in Hb.
  pose proof (Z.div_mod b 16).
  pose proof (Z.mod_pos_bound b 16). rewrite !hex_digit_from by lia. rewrite IH. f_equal. lia.
Qed.

Lemma Uint64ToBytes_split v : is_u64 v -> be_split (length (Uint64ToBytes v)) v = Uint64ToBytes v.
Proof.
  intros Hv. destruct (Uint64ToBytes_spec v Hv) as (H1 & H2 & _). rewrite <-H1 at 2. by apply be_split_combine.
Qed.

(** A stored height matches when its last bytes are those of the number. *)
Definition height_matches (h h' : Z) : Prop := h' mod 256 ^ Z.of_nat (length (Uint64ToBytes h)) = h.

#[global] Instance height_matches_dec h h' : Decision (height_matches h h').
Proof. unfold height_matches. apply _. Defined.

Lemma key_matches_spec h h' rest : is_u64 h -> is_u64 h' ->
  key_matches h (be64 h' ++ rest) = Some (bool_decide (height_matches h h')).
Proof.
  intros Hh Hh'. destruct (Uint64ToBytes_spec h Hh) as (H1 & H2 & H3 & _).
  unfold key_matches, height_matches. rewrite length_app, length_be64.
  change BlockHeightSize with 8%nat. assert ((8 + length rest <? 8)%nat = false) as -> by (apply Nat.ltb_ge; lia).
  rewrite (take_app_length' (be64 h')) by (by rewrite length_be64). f_equal.
  set (n := length (Uint64ToBytes h)) in *.
  rewrite drop_be64 by done.
  assert (Hs : be_split n h = Uint64ToBytes h) by (by apply Uint64ToBytes_split).
  apply bool_decide_ext. split; intros E.
  - by rewrite <-be_combine_split, E.
  - by rewrite <-be_split_mod, E.
Qed.

(** ** Stored results *)

Lemma matching_keys_sub h keys l : matching_keys h keys = Some l -> forall k, k ∈ l -> k ∈ keys /\ key_matches h k = Some true.
Proof.
  revert l. induction keys as [|k keys IH]; intros l; simpl; [by intros [= <-] k H%elem_of_nil|].
  destruct (key_matches h k) as [[]|] eqn:E, (matching_keys h keys) as [l'|]; intros [= <-] k' Hk'.
  - apply elem_of_cons in Hk' as [->|Hk']; [by split; [left|]|]. destruct (IH l' eq_refl k' Hk'). by split; [right|].
  - destruct (IH l' eq_refl k' Hk'). by split; [right|].
Qed.

Section Query.
Context {D : Type} `{!LevelDB D, !LevelDBLaws D, !Codec CalcDebugData, !WF CalcDebugData, !CodecLaws CalcDebugData}.
Implicit Type (d : D) (r : CalcDebugResult).

(** A result of a block: its height and the text of its 32-byte hash. *)
Definition wf_debug r : Prop :=
  is_u64 (cdr_BlockHeight r) /\ wf (cdr_Data r) /\
  exists hash, length hash = BlockHashSize /\ all_bytes hash /\ cdr_BlockHash r = str "0x" ++ hex_EncodeToString hash.

(** The results a store holds, and a store of nothing else. *)
Definition stored d r : Prop :=
  wf_debug r /\ exists key, cdr_ID r = Ok key /\ ldb_get d key = Some (cdr_Bytes r).
Definition debug_store d : Prop :=
  forall k v, ldb_get d k = Some v -> exists r, wf_debug r /\ cdr_ID r = Ok k /\ cdr_Bytes r = v.

Lemma cdr_ID_key r : wf_debug r ->
  exists hash, length hash = BlockHashSize /\ all_bytes hash /\ cdr_BlockHash r = str "0x" ++ hex_EncodeToString hash /\
    cdr_ID r = Ok (be64 (cdr_BlockHeight r) ++ hash).
Proof.
  intros (Hh & _ & hash & Hl & Hb & E). exists hash. split_and!; [done..|]. unfold cdr_ID. rewrite E.
  rewrite length_app. change (length (str "0x")) with 2%nat.
  assert ((2 + length (hex_EncodeToString hash) <? 2)%nat = false) as -> by (apply Nat.ltb_ge; lia).
  rewrite drop_app_length' by done. rewrite hex_decoded_roundtrip by done. f_equal.
  rewrite make_bytes_add, copy_height_0 by done. change BlockHeightSize with 8%nat. rewrite <-(length_be64 (cdr_BlockHeight r)) at 1.
  apply copy_at_end. by rewrite length_make_bytes.
Qed.

(** A stored result is read back from its entry. *)
Lemma NewCalcDebugResult_roundtrip r key : wf_debug r -> cdr_ID r = Ok key -> NewCalcDebugResult key (cdr_Bytes r) = Ok r.
Proof.
  intros Hr Hk. destruct (cdr_ID_key r Hr) as (hash & Hl & Hb & E & E'). rewrite E' in Hk. injection Hk as <-.
  destruct Hr as (Hh & Hd & _). unfold NewCalcDebugResult, cdr_SetBytes, cdr_Bytes. rewrite unmarshal_marshal by done.
  cbn [negb]. rewrite length_app, length_be64, Hl.
  change ((8 + BlockHashSize <? BlockHeightSize + BlockHashSize)%nat) with false. cbn iota.
  change BlockHeightSize with 8%nat. rewrite take_app_length', drop_app_length' by (by rewrite length_be64).
  rewrite (take_ge hash) by lia. rewrite copy_make_exact, <-E, BytesToUint64_be64 by done. by destruct r.
Qed.

Lemma cdr_ID_inj r r' key : wf_debug r -> wf_debug r' -> cdr_ID r = Ok key -> cdr_ID r' = Ok key ->
  cdr_Bytes r = cdr_Bytes r' -> r = r'.
Proof.
  intros Hr Hr' Hk Hk' E. pose proof (NewCalcDebugResult_roundtrip r key Hr Hk) as H1.
  rewrite E, (NewCalcDebugResult_roundtrip r' key Hr' Hk') in H1. by injection H1.
Qed.
Lemma cdr_ID_length r key : wf_debug r -> cdr_ID r = Ok key -> exists rest, key = be64 (cdr_BlockHeight r) ++ rest.
Proof. intros Hr Hk. destruct (cdr_ID_key r Hr) as (hash & _ & _ & _ & E). rewrite E in Hk. injection Hk as <-. by exists hash. Qed.

Lemma key_matches_stored r key h : wf_debug r -> cdr_ID r = Ok key -> is_u64 h ->
  key_matches h key = Some (bool_decide (height_matches h (cdr_BlockHeight r))).
Proof.
  intros Hr Hk Hh. destruct (cdr_ID_length r key Hr Hk) as [rest ->]. destruct Hr as (Hb & _). by apply key_matches_spec.
Qed.

Lemma matching_keys_spec h keys : is_u64 h ->
  (forall k, k ∈ keys -> exists r, wf_debug r /\ cdr_ID r = Ok k) ->
  exists l, matching_keys h keys = Some l /\
    forall r k, wf_debug r -> cdr_ID r = Ok k -> k ∈ l <-> k ∈ keys /\ height_matches h (cdr_BlockHeight r).
Proof.
  intros Hh. induction keys as [|k keys IH]; intros Hk; simpl.
  { exists []. split; [done|]. intros r k _ _. split; [by intros H%elem_of_nil|by intros [H%elem_of_nil _]]. }
  destruct (Hk k) as (r0 & Hr0 & Hk0); [by left|]. rewrite (key_matches_stored r0 k h) by done.
  destruct IH as (l & -> & Hl); [intros k' ?; apply Hk; by right|].
  case_bool_decide as Hm; eexists; (split; [done|]); intros r k' Hr Hk'.
  - rewrite !elem_of_cons, (Hl r k' Hr Hk'). split; [|naive_solver]. intros [->|[? ?]]; [|by auto]. split; [by left|].
    pose proof (key_matches_stored r k h Hr Hk' Hh) as H1. rewrite (key_matches_stored r0 k h Hr0 Hk0 Hh) in H1.
    rewrite bool_decide_eq_true_2 in H1 by done. injection H1 as H1. symmetry in H1. by apply bool_decide_eq_true in H1.
  - rewrite elem_of_cons, (Hl r k' Hr Hk'). split; [naive_solver|]. intros [[->|?] ?]; [|done].
    pose proof (key_matches_stored r k h Hr Hk' Hh) as H1. rewrite (key_matches_stored r0 k h Hr0 Hk0 Hh) in H1.
    rewrite bool_decide_eq_false_2 in H1 by done. injection H1 as H1. symmetry in H1. by apply bool_decide_eq_false in H1.
Qed.

(** The results a query is about. *)
Definition asked_for (address : Address) r : Prop :=
  if decide (address = zero_Address) then cdr_Results r <> [] else address ∈ cr_Address <$> cdr_Results r.

Lemma results_for_elem address r r' : r' ∈ results_for address r <-> r' = r /\ asked_for address r.
Proof.
  unfold results_for, asked_for. change (map ?f ?l) with (f <$> l). rewrite list_elem_of_fmap. setoid_rewrite list_elem_of_filter. split.
  - intros (c & -> & Ha & Hc). split; [done|]. case_decide as Hz; [by intros Hn; rewrite Hn in Hc; apply elem_of_nil in Hc|].
    destruct Ha as [?| ->]; [done|]. by apply list_elem_of_fmap_2.
  - intros [-> Ha]. case_decide as Hz.
    + destruct (cdr_Results r) as [|c l]; [done|]. exists c. split; [done|]. split; [by left|by left].
    + apply list_elem_of_fmap in Ha as (c & -> & Hc). exists c. split; [done|]. split; [by right|done].
Qed.

Lemma query_keys_spec d address keys :
  (forall k, k ∈ keys -> exists r, wf_debug r /\ cdr_ID r = Ok k /\ ldb_get d k = Some (cdr_Bytes r)) ->
  exists rs, query_keys d address keys = Ok rs /\
    forall r, r ∈ rs <-> stored d r /\ (exists k, k ∈ keys /\ cdr_ID r = Ok k) /\ asked_for address r.
Proof.
  induction keys as [|k keys IH]; intros Hk; simpl.
  { exists []. split; [done|]. intros r. split; [by intros H%elem_of_nil|]. by intros (_ & (k & H%elem_of_nil & _) & _). }
  destruct (Hk k) as (r0 & Hr0 & Hk0 & Hd); [by left|].
  assert (Hs0 : stored d r0) by (split; [done|by exists k]).
  rewrite bucket_Get_ldb. change (PrefixClaim ++ k) with k. rewrite Hd, (NewCalcDebugResult_roundtrip r0 k) by done.
  destruct IH as (rs & -> & Hrs); [intros k' ?; apply Hk; by right|]. cbn [obind]. eexists. split; [done|].
  intros r. rewrite elem_of_app, results_for_elem, Hrs. split.
  - intros [[-> Ha]|(Hs & (k' & Hin & E) & Ha)]; (split; [done|]); (split; [|done]); [exists k|exists k']; (split; [|done]); [by left|by right].
  - intros (Hs & (k' & Hin & E) & Ha). apply elem_of_cons in Hin as [->|Hin]; [left|right; split; [done|]; split; [by exists k'|done]].
    destruct Hs as (Hr & k'' & E' & Hd'). rewrite E in E'. injection E' as <-. rewrite Hd in Hd'. injection Hd' as Hd'.
    assert (r = r0) as -> by (by apply (cdr_ID_inj r r0 k)). done.
Qed.

Lemma WriteCalcDebugResult_stored dbg r d : debug_store d -> result dbg = Some r -> wf_debug r ->
  exists d', WriteCalcDebugResult dbg d = Ok d' /\ debug_store d' /\
    forall r', stored d' r' <-> r' = r \/ stored d r' /\ cdr_ID r' <> cdr_ID r.
Proof.
  intros Hd Hr Hw. destruct (cdr_ID_key r Hw) as (hash & _ & _ & _ & E). unfold WriteCalcDebugResult. rewrite Hr, E.
  cbn [obind]. set (key := be64 _ ++ hash) in *. eexists. split; [done|].
  assert (Hget : forall k, ldb_get (bucket_Set (str "") key (cdr_Bytes r) d) k = if decide (key = k) then Some (cdr_Bytes r) else ldb_get d k).
  { intros k. apply bucket_get_set. }
  split.
  - intros k v. rewrite Hget. case_decide; [intros [= <-]; subst k; by exists r|apply Hd].
  - intros r'. unfold stored. setoid_rewrite Hget. split.
    + intros (Hw' & k & Hk & Hv). case_decide as Ek.
      * left. subst k. injection Hv as Hv. by apply (cdr_ID_inj r' r key).
      * right. split; [split; [done|by exists k]|]. rewrite Hk. congruence.
    + intros [->|[(Hw' & k & Hk & Hv) Hne]]; (split; [done|]); [exists key; by rewrite decide_True|].
      exists k. split; [done|]. rewrite decide_False; [done|]. intros <-. congruence.
Qed.

(** C31: The debug results of calculations: once a result is written, a query
    by height and address returns it together with the results stored before,
    and only those that have an entry of the address (any entry, without
    an address).  A height is compared by its last bytes only: the results of every
    height with the same last bytes are returned too. *)
Theorem debug_query dbg r d address h :
  debug_store d -> result dbg = Some r -> wf_debug r -> is_u64 h ->
  exists d' rs, WriteCalcDebugResult dbg d = Ok d' /\ debug_store d' /\
    handleQueryCalcDebugResult d' address h = Ok rs /\
    forall r', r' ∈ rs <->
      (r' = r \/ stored d r' /\ cdr_ID r' <> cdr_ID r) /\ height_matches h (cdr_BlockHeight r') /\ asked_for address r'.
Proof.
  intros Hd Hr Hw Hh. destruct (WriteCalcDebugResult_stored dbg r d Hd Hr Hw) as (d' & E & Hd' & Hst).
  assert (Hkeys : forall k, k ∈ (iter_New None None d').*1 -> exists v, ldb_get d' k = Some v).
  { intros k ((k' & v) & -> & Hin)%list_elem_of_fmap. exists v. by apply ldb_iter_elem in Hin as [? _]. }
  destruct (matching_keys_spec h ((iter_New None None d').*1) Hh) as (l & El & Hl).
  { intros k [v Hv]%Hkeys. destruct (Hd' k v Hv) as (r0 & ? & ? & _). by exists r0. }
  assert (Hin : forall r' k, stored d' r' -> cdr_ID r' = Ok k -> k ∈ l <-> height_matches h (cdr_BlockHeight r')).
  { intros r' k (Hw' & k' & Hk' & Hv) Hk. rewrite Hk in Hk'. injection Hk' as <-. rewrite (Hl r' k Hw' Hk).
    split; [by intros [_ ?]|]. intros ?. split; [|done]. apply list_elem_of_fmap. exists (k, cdr_Bytes r'). split; [done|].
    by apply ldb_iter_elem. }
  exists d'. destruct (query_keys_spec d' address l) as (rs & Ers & Hrs).
  { intros k Hk. assert (k ∈ (iter_New None None d').*1) as [v Hv]%Hkeys.
    { destruct (matching_keys_sub h _ _ El k Hk) as [? _]. done. }
    destruct (Hd' k v Hv) as (r0 & ? & ? & <-). by exists r0. }
  exists rs. split_and!; [done..| |].
  - unfold handleQueryCalcDebugResult, GetCalcDebugResultKeys. rewrite El. by destruct l.
  - intros r'. rewrite Hrs, Hst. split.
    + intros (Hs & (k & Hk & Ek) & Ha). split; [done|]. split; [|done]. apply (Hin r' k); [by apply Hst|done..].
    + intros (Hs & Hm & Ha). apply Hst in Hs as Hs'. pose proof Hs' as (_ & k & Ek & _).
      split; [done|]. split; [|done]. exists k. split; [|done]. by apply (Hin r' k).
Qed.

End Query.
