(* ===== verification/Calculate.v ===== *)
(** * Calculation: [core/msg_calculate.go], [core/db_calculate.go]

    [DoCalculate]: the checks of a CALCULATE request, the exchange and backup
    of the account DBs, the update of the context with the IISS data, and the
    three rewards: delegation (every account, then the delegation transactions
    of the period), block production, and P-Rep delegation.  The passes over
    the account DBs run concurrently on disjoint stores and are modelled in
    index order; what happens meanwhile to the cancellation state is an input. *)

From S2P Require Import Prelude Bytes HexInt Address Store Codec Typed Account ClaimDB Management IISSData IScoreDB Context Reward.

(** ** Calculation results: [core/db_calculate.go] *)

Record CRData := mkCRData {
  cr_Success : bool;
  cr_StateHash : bytes;
  cr_IScore : Z;
  cr_Beta1 : Z;
  cr_Beta2 : Z;
  cr_Beta3 : Z;
}.

Definition zero_CRData : CRData := mkCRData false [] 0 0 0 0.

Section Results.
Context {D : Type} `{!LevelDB D, !Codec CRData}.

(** Only the data: the caller sets the height. *)
Definition NewCalculationResultFromBytes (bs : bytes) : option CRData := unmarshal_new zero_CRData bs.

Definition WriteCalculationResult (crDB : D) (blockHeight : Z) (stats : option Statistics)
    (stateHash : bytes) : D :=
  let cr := match stats with
            | Some s => mkCRData true stateHash (TotalReward s) (Beta1 s) (Beta2 s) (Beta3 s)
            | None => mkCRData true stateHash 0 0 0 0
            end in
  bucket_Set PrefixCalcResult (cr_ID blockHeight) (marshal cr) crDB.
End Results.

#[global] Instance wf_CRData : WF CRData := fun _ => True.

(** ** Requests, responses and errors *)

Record CalculateRequest := mkCalculateRequest {
  req_Path : bytes;
  req_BlockHeight : Z;
  req_BlockHash : bytes;
}.

Record CalculateResponse := mkCalculateResponse { resp_Status : Z; resp_BlockHeight : Z }.

Definition CalcRespStatusOK : Z := 0.
Definition CalcRespStatusInvalidData : Z := 1.
Definition CalcRespStatusDoing : Z := 2.
Definition CalcRespStatusInvalidBH : Z := 3.
Definition CalcRespStatusDuplicateBH : Z := 4.

Inductive calc_error :=
  | ErrCalculating
  | ErrInvalidData
  | ErrDuplicateBH
  | ErrTooLowBH
  | CalcCancelByExit (BlockHeight : Z)
  | CalcCancelByRollbackError (BlockHeight : Z).

(** [reloadBlockHeight], [reloadMsgID] and [isReloadRequest] of
    [core/manager.go]. *)
Definition reloadBlockHeight : Z := max_u64.
Definition reloadMsgID : Z := 2 ^ 32 - 1.
Definition isReloadRequest (blockHeight id : Z) : bool :=
  (blockHeight =? reloadBlockHeight) && (id =? reloadMsgID).

(** ** Rewards of the IISS data *)

Section Calculate.
Context {D : Type} `{!LevelDB D}.
Context `{!Codec IScoreData, !Codec IISSTXData, !Codec IISSBlockProduceInfoData, !Codec CRData,
  !Codec DBInfoData, !Codec GVData, !Codec PRepData, !Codec PRepCandidateData,
  !Codec IISSHeader, !Codec IISSGVData}.
Context (shake256 : bytes -> bytes).
(** The order in which Go iterates over the block reward map. *)
Context (map_order : gmap bytes Z -> list (bytes * Z)).

(** An account of the calculate DB the address belongs to. *)
Definition get_account (idb : IScoreDB D) (f : fname) (addr : Address) : option bytes :=
  bucket_Get PrefixIScore (db_at idb f) (Address_Bytes addr).
Definition put_account (f : fname) (ia : IScoreAccount) (idb : IScoreDB D) : IScoreDB D :=
  db_update f (bucket_Set PrefixIScore (ia_ID ia) (ia_Bytes ia) (db_at idb f)) idb.

(** What the three functions accumulate: the stores, the number of new
    accounts, the reward and what was written to the hash. *)
Record reward_acc := mkAcc {
  acc_idb : IScoreDB D;
  acc_new : Z;
  acc_reward : Z;
  acc_hash : bytes;
}.

(** ** Delegation transactions: [calculateIISSTX] *)

(** One delegation: the account is taken back to the height of the
    transaction and calculated again with the new delegations.  A nil
    account panics where it is used. *)
Definition delegate_tx {E : Type} (gvs : list GovernanceVariable) (candidates : PRepCandidates)
    (blockHeight : Z) (tx : IISSTX) (a : reward_acc) : outcome E reward_acc :=
  let d := tx_TXData tx in
  let! f := getCalculateDB (acc_idb a) (tx_Address d) in
  let! newIA := NewIScoreAccountFromIISS tx in
  let finish (newIA : IScoreAccount) (newAccount stats : Z) : outcome E reward_acc :=
    let! (newIA, reward) := calculateIScore gvs candidates newIA blockHeight in
    let stats := match reward with Some r => stats + r | None => stats end in
    Ok (mkAcc (put_account f newIA (acc_idb a)) newAccount stats
          (acc_hash a ++ ia_BytesForHash newIA)) in
  match get_account (acc_idb a) f (tx_Address d) with
  | Some data =>
      match NewIScoreAccountFromBytes data with
      | None => Ok a
      | Some ia =>
          if negb (ia_BlockHeight ia =? blockHeight) then Ok a
          else
            match newIA with
            | None => Panic
            | Some newIA =>
                let newIA := ia_set_IScore (ia_IScore ia) newIA in
                let ia := ia_set_IScore 0 (ia_set_BlockHeight (tx_BlockHeight d) ia) in
                let! (ia, _) := calculateIScore gvs candidates ia blockHeight in
                let newIA := ia_set_IScore (ia_IScore newIA - ia_IScore ia) newIA in
                finish newIA (acc_new a) (acc_reward a - ia_IScore ia)
            end
      end
  | None =>
      match newIA with
      | None => Panic
      | Some newIA => finish newIA (acc_new a +u 1) (acc_reward a)
      end
  end.

Fixpoint tx_loop {E : Type} (gvs : list GovernanceVariable) (candidates : PRepCandidates)
    (blockHeight : Z) (tx : IISSTX) (l : list (bytes * bytes)) (a : reward_acc) : outcome E reward_acc :=
  match l with
  | [] => Ok a
  | (_, v) :: l =>
      let '(tx, ok) := tx_SetBytes v tx in
      if negb ok then tx_loop gvs candidates blockHeight tx l a
      else
        let! a := if tx_DataType (tx_TXData tx) =? TXDataTypeDelegate
                  then delegate_tx gvs candidates blockHeight tx a else Ok a in
        tx_loop gvs candidates blockHeight tx l a
  end.

Definition calculateIISSTX {E : Type} (ctx : Context D) (iissDB : D) (blockHeight : Z)
    : outcome E (Context D * (Z * Z * bytes)) :=
  let! a := tx_loop (GV ctx) (ctx_PRepCandidates ctx) blockHeight zero_IISSTX
              (iter_prefix PrefixIISSTX iissDB) (mkAcc (DB ctx) 0 0 []) in
  Ok (set_DB (acc_idb a) ctx, (acc_new a, acc_reward a, shake256 (acc_hash a))).

(** ** Block production: [calculateIISSBlockProduce] *)

Definition map_add (a : Address) (v : Z) (m : gmap bytes Z) : gmap bytes Z :=
  <[a := default 0 (m !! a) + v]> m.

Definition block_rewards (gv : GovernanceVariable) (bp : IISSBlockProduceInfoData) (m : gmap bytes Z)
    : gmap bytes Z :=
  let m := map_add (Generator bp) (BlockProduceReward gv) m in
  match Validator bp with
  | [] => m
  | vs =>
      let valReward := big_Div (BlockProduceReward gv) (Z.of_nat (length vs)) in
      foldl (fun m v => map_add v valReward m) m vs
  end.

Fixpoint bp_loop (ctx : Context D) (bp : IISSBlockProduceInfo) (l : list (bytes * bytes))
    (m : gmap bytes Z) : gmap bytes Z :=
  match l with
  | [] => m
  | (k, v) :: l =>
      let '(bp, ok) := bp_SetBytes v bp in
      if negb ok then bp_loop ctx bp l m
      else
        let bp := mkIISSBP (BytesToUint64 (drop (length PrefixIISSBPInfo) k)) (bp_Data bp) in
        match getGVByBlockHeight ctx (bp_BlockHeight bp) with
        | None => bp_loop ctx bp l m
        | Some gv => bp_loop ctx bp l (block_rewards gv (bp_Data bp) m)
        end
  end.

(** The I-Score of an account goes up, or a new account starts at the height
    of the calculation.  An account that does not decode ends the loop. *)
Fixpoint bp_write_loop {E : Type} (blockHeight : Z) (l : list (bytes * Z)) (idb : IScoreDB D)
    (newAccount totalReward : Z) (iaSlice : list IScoreAccount)
    : outcome E (IScoreDB D * Z * Z * list IScoreAccount) :=
  match l with
  | [] => Ok (idb, newAccount, totalReward, iaSlice)
  | (addr, reward) :: l =>
      let! f := getCalculateDB idb addr in
      let write ia newAccount :=
        bp_write_loop blockHeight l (put_account f ia idb) newAccount (totalReward + reward)
          (iaSlice ++ [ia]) in
      match get_account idb f addr with
      | Some data =>
          match NewIScoreAccountFromBytes data with
          | None => Ok (idb, newAccount, totalReward, iaSlice)
          | Some ia => write (ia_set_Address addr (ia_set_IScore (ia_IScore ia + reward) ia)) newAccount
          end
      | None => write (mkIScoreAccount addr (mkIScoreData reward blockHeight [])) (newAccount +u 1)
      end
  end.

(** The order of [sort.Slice] by [Compare]. *)
Definition ia_le (a b : IScoreAccount) : Prop := ia_ID a <=b ia_ID b.
#[global] Instance ia_le_dec : RelDecision ia_le.
Proof. intros ??. unfold ia_le. apply _. Defined.

Definition hash_accounts (l : list IScoreAccount) : bytes := concat (map ia_BytesForHash l).

Definition calculateIISSBlockProduce {E : Type} (ctx : Context D) (iissDB : D) (blockHeight : Z)
    : outcome E (Context D * (Z * Z * bytes)) :=
  let bpMap := bp_loop ctx zero_IISSBP (iter_prefix PrefixIISSBPInfo iissDB) ∅ in
  let! (idb, newAccount, totalReward, iaSlice) :=
    bp_write_loop blockHeight (map_order bpMap) (DB ctx) 0 0 [] in
  Ok (set_DB idb ctx, (newAccount, totalReward, shake256 (hash_accounts (merge_sort ia_le iaSlice)))).

(** ** P-Rep rewards: [calculatePRepReward], [setPRepReward] *)

(** The rewards of one governance variable added to those of the list; the
    second component is [rewards[i].blockHeight]. *)
Definition prep_gv_rewards (prep : PRepData) (gv : GovernanceVariable) (s e : Z)
    (rewards : list (Z * Z)) : list (Z * Z) :=
  let period := NewHexIntFromUint64 (e -u s) in
  let rewardRate := period * PRepReward gv in
  zip_with (fun dgInfo (r : Z * Z) =>
    (r.1 + big_Div (rewardRate * DelegatedAmount dgInfo) (TotalDelegation prep), e)) (pd_List prep) rewards.

(** The period of a governance variable; unlike [gv_period] its start is
    compared with [<=], which gives the same. *)
Definition prep_gv_period (start end_ : Z) (gv : GovernanceVariable) (next : option GovernanceVariable)
    : Z * Z :=
  let s := if start <=? gv_BlockHeight gv then gv_BlockHeight gv else start in
  let e := match next with
           | Some n => if gv_BlockHeight n <? end_ then gv_BlockHeight n else end_
           | None => end_
           end in
  (s, e).

Fixpoint prep_rewards (prep : PRepData) (start end_ : Z) (gvs : list GovernanceVariable)
    (rewards : list (Z * Z)) : list (Z * Z) :=
  match gvs with
  | [] => rewards
  | gv :: gvs =>
      let '(s, e) := prep_gv_period start end_ gv (head gvs) in
      if e <=? s then prep_rewards prep start end_ gvs rewards
      else prep_rewards prep start end_ gvs (prep_gv_rewards prep gv s e rewards)
  end.

(** The write loop over the list and its rewards. *)
Fixpoint prep_write_loop {E : Type} (revision end_ blockHeight : Z)
    (l : list (PRepDelegationInfo * (Z * Z))) (a : reward_acc) : outcome E reward_acc :=
  match l with
  | [] => Ok a
  | (dgInfo, (iScore, rBH)) :: l =>
      let! f := getCalculateDB (acc_idb a) (di_Address dgInfo) in
      let write ia newAccount :=
        let ia := ia_set_Address (di_Address dgInfo) ia in
        prep_write_loop revision end_ blockHeight l
          (mkAcc (put_account f ia (acc_idb a)) newAccount (acc_reward a + iScore)
             (acc_hash a ++ ia_BytesForHash ia)) in
      match get_account (acc_idb a) f (di_Address dgInfo) with
      | Some data =>
          match NewIScoreAccountFromBytes data with
          | None => Ok a
          | Some ia =>
              let ia := ia_set_IScore (ia_IScore ia + iScore) ia in
              write (if revision <? Revision8 then ia_set_BlockHeight rBH ia else ia) (acc_new a)
          end
      | None =>
          write (mkIScoreAccount zero_Address
                   (mkIScoreData iScore (if Revision8 <=? revision then blockHeight else end_) []))
            (acc_new a +u 1)
      end
  end.

Definition setPRepReward {E : Type} (ctx : Context D) (start end_ : Z) (prep : PRep) (blockHeight : Z)
    : outcome E (Context D * (Z * Z * bytes)) :=
  let rewards := prep_rewards (pr_Data prep) start end_ (GV ctx)
                   (replicate (length (pd_List (pr_Data prep))) (0, 0)) in
  let! a := prep_write_loop (Revision ctx) end_ blockHeight (zip (pd_List (pr_Data prep)) rewards)
              (mkAcc (DB ctx) 0 0 []) in
  Ok (set_DB (acc_idb a) ctx, (acc_new a, acc_reward a, shake256 (acc_hash a))).

(** The period of a P-Rep list within a calculation. *)
Definition prep_period (start end_ : Z) (prep : PRep) (next : option PRep) : Z * Z :=
  let s := if start <? pr_BlockHeight prep then pr_BlockHeight prep else start in
  let e := match next with
           | Some n => if pr_BlockHeight n <? end_ then pr_BlockHeight n else end_
           | None => end_
           end in
  (s, e).

Fixpoint prep_loop {E : Type} (start to : Z) (preps : list PRep) (ctx : Context D)
    (newAccount totalReward : Z) (hash : bytes) : outcome E (Context D * (Z * Z * bytes)) :=
  match preps with
  | [] => Ok (ctx, (newAccount, totalReward, hash))
  | prep :: preps =>
      if TotalDelegation (pr_Data prep) =? 0 then prep_loop start to preps ctx newAccount totalReward hash
      else
        let '(s, e) := prep_period start to prep (head preps) in
        if e <=? s then prep_loop start to preps ctx newAccount totalReward hash
        else
          let! (ctx, (account, reward, h)) := setPRepReward ctx s e prep to in
          prep_loop start to preps ctx (newAccount +u account) (totalReward + reward) (hash ++ h)
  end.

Definition calculatePRepReward {E : Type} (ctx : Context D) (to : Z)
    : outcome E (Context D * (Z * Z * bytes)) :=
  let! (ctx, (newAccount, totalReward, hash)) :=
    prep_loop (getCalcDoneBH (DB ctx)) to (ctx_PRep ctx) ctx 0 0 [] in
  Ok (ctx, (newAccount, totalReward, shake256 hash)).
End Calculate.
Arguments mkAcc {D}. Arguments acc_idb {D}. Arguments acc_new {D}.
Arguments acc_reward {D}. Arguments acc_hash {D}.
