(* ===== verification/AccountDBs.v ===== *)
(** * The account DBs as a map of accounts

    A set of account DBs that is well-formed ([accounts_inv]) stands for a map
    from addresses to accounts ([calc_account]): what the reward functions of
    [core/msg_calculate.go] read from and write to the calculate DBs. *)

From S2P Require Import Prelude Bytes HexInt Address Store Codec Typed Account ClaimDB Management IISSData IScoreDB Context Reward Calculate.

Section AccountDBs.
Context {D : Type} `{!LevelDB D, !LevelDBLaws D}.
Context `{!Codec IScoreData, !CodecLaws IScoreData, !Codec DBInfoData}.
Implicit Type (s : IScoreDB D) (a : Address) (d : D).

(** Only the account DBs changed. *)
Definition files_only s s' : Prop := s' = set_files (files s') s.

#[global] Instance files_only_refl : Reflexive files_only.
Proof. by intros []. Qed.
#[global] Instance files_only_trans : Transitive files_only.
Proof. intros s1 s2 s3 H1 H2. unfold files_only in *. rewrite H2, H1. by destruct s1. Qed.

Lemma files_only_put f ia s : files_only s (put_account f ia s).
Proof. done. Qed.
Lemma files_only_update f d s : files_only s (db_update f d s).
Proof. done. Qed.

Lemma files_only_info s s' : files_only s s' ->
  info s' = info s /\ management s' = management s /\ calcResult s' = calcResult s.
Proof. intros ->. done. Qed.

(** ** Well-formed account DBs *)

Definition good_account (x : IScoreData) : Prop := wf x /\ Forall is_Some (Delegations x).

(** The number of the DB of an address, from 1, and the file of it. *)
Definition db_no (count : Z) a : Z := 1 + Z.rem (hd 0 (Address_ID a)) count.

Record accounts_inv s : Prop := {
  ai_ok : accounts_ok s;
  ai_count : 1 <= DBCount (info s);
  ai_files : forall f d, files s !! f = Some d -> account_inv d;
  ai_placed : forall i p d k, files s !! AccountName i (DBCount (info s)) p = Some d ->
    is_Some (ldb_get d k) -> db_no (DBCount (info s)) k = i;
  ai_backups : forall b i d k, files s !! BackupName b i = Some d ->
    is_Some (ldb_get d k) -> db_no (DBCount (info s)) k = i;
}.

Lemma db_no_range n a : 1 <= n -> wf_Address a -> 1 <= db_no n a <= n.
Proof.
  intros Hn Ha. destruct (wf_Address_inv a Ha) as (t & [|b id] & -> & _ & Hid & Hb); [done|].
  inversion_clear Hb as [|? ? Hb0 _]. unfold db_no. cbn [Address_ID drop hd].
  pose proof (Z.rem_bound_pos b n). zlia.
Qed.

Lemma lookup_account_names n p i : 1 <= i <= n -> account_names n p !! Z.to_nat (i - 1) = Some (AccountName i n p).
Proof.
  intros Hi. unfold account_names. rewrite list_lookup_fmap, lookup_seqZ_lt by lia. cbn. do 2 f_equal. lia.
Qed.

Lemma nth_account_name {E : Type} s a p : 1 <= DBCount (info s) -> wf_Address a ->
  (let! i := getAccountDBIndex (E := E) s a in nth_db (account_names (DBCount (info s)) p) i)
  = Ok (AccountName (db_no (DBCount (info s)) a) (DBCount (info s)) p).
Proof.
  intros Hn Ha. pose proof (db_no_range _ a Hn Ha) as Hr. revert Hr.
  destruct (wf_Address_inv a Ha) as (t & [|b id] & -> & _ & Hid & Hb); [done|].
  unfold getAccountDBIndex, nth_db, db_no. cbn [Address_ID drop hd].
  rewrite (proj2 (Z.eqb_neq _ _)) by lia. cbn [obind]. intros Hr.
  replace (Z.to_nat (Z.rem b (DBCount (info s)))) with (Z.to_nat (1 + Z.rem b (DBCount (info s)) - 1)) by (f_equal; lia).
  by rewrite lookup_account_names.
Qed.

Lemma getCalculateDB_name {E : Type} s a : accounts_inv s -> wf_Address a ->
  getCalculateDB (E := E) s a = Ok (calc_name s (db_no (DBCount (info s)) a)).
Proof.
  intros Hs Ha. unfold getCalculateDB. rewrite (calc_list s (ai_ok _ Hs)). by apply nth_account_name; [apply Hs|].
Qed.

Lemma getQueryDB_name {E : Type} s a : accounts_inv s -> wf_Address a ->
  getQueryDB (E := E) s a = Ok (query_name s (db_no (DBCount (info s)) a)).
Proof.
  intros Hs Ha. unfold getQueryDB. rewrite (query_list s (ai_ok _ Hs)). by apply nth_account_name; [apply Hs|].
Qed.

Lemma account_value_good v x : account_value v x <-> v = marshal x /\ good_account x.
Proof. unfold account_value, good_account. tauto. Qed.

Lemma account_inv_empty : account_inv (ldb_empty : D).
Proof. intros k v. by rewrite ldb_get_empty. Qed.

Lemma account_inv_put d k x : account_inv d -> wf_Address k -> good_account x ->
  account_inv (ldb_put k (marshal x) d).
Proof.
  intros Hd Hk Hx k' v. rewrite ldb_get_put. case_decide as E; [|apply Hd].
  intros [= <-]. subst k'. split; [done|]. exists x. by apply account_value_good.
Qed.

Lemma db_at_inv s f : accounts_inv s -> account_inv (db_at s f).
Proof.
  intros Hs. unfold db_at. destruct (files s !! f) as [d|] eqn:E; cbn; [by eapply ai_files|].
  apply account_inv_empty.
Qed.

Lemma accounts_ok_update f d s : accounts_ok s -> accounts_ok (db_update f d s).
Proof.
  intros [H0 H1 H2]. split; [done|done|]. intros i p Hi Hp. cbn [files db_update set_files].
  destruct (decide (f = AccountName i (DBCount (info s)) p)) as [->|Hf].
  - rewrite lookup_insert_eq. by eexists.
  - rewrite lookup_insert_ne by done. by apply H2.
Qed.

(** An update of a DB with accounts that belong there. *)
Lemma accounts_inv_update j q d s : accounts_inv s -> account_inv d ->
  (forall k, is_Some (ldb_get d k) -> db_no (DBCount (info s)) k = j) ->
  accounts_inv (db_update (AccountName j (DBCount (info s)) q) d s).
Proof.
  intros [H1 H2 H3 H4 H5] Hd Hp. set (f := AccountName j _ q). split; [by apply accounts_ok_update|done| | |].
  - intros f' d'. cbn [files db_update set_files]. destruct (decide (f = f')) as [->|Hf].
    + rewrite lookup_insert_eq. by intros [= <-].
    + rewrite lookup_insert_ne by done. apply H3.
  - intros i p d' k. cbn [files db_update set_files info].
    destruct (decide (f = AccountName i (DBCount (info s)) p)) as [E|Hf].
    + rewrite <-E, lookup_insert_eq. injection E as <- <-. intros [= <-]. by apply Hp.
    + rewrite lookup_insert_ne by done. apply H4.
  - intros b i d' k. cbn [files db_update set_files info]. rewrite lookup_insert_ne by done. apply H5.
Qed.

Lemma db_at_placed s i p k : accounts_inv s -> is_Some (ldb_get (db_at s (AccountName i (DBCount (info s)) p)) k) ->
  db_no (DBCount (info s)) k = i.
Proof.
  intros Hs. unfold db_at. destruct (files s !! _) as [d|] eqn:E; cbn [default from_option id].
  - by apply (ai_placed s Hs i p d k).
  - rewrite ldb_get_empty. by intros [].
Qed.

Lemma accounts_inv_put {E : Type} f ia s : accounts_inv s -> wf_Address (ia_Address ia) ->
  getCalculateDB (E := E) s (ia_Address ia) = Ok f -> good_account (ia_Data ia) ->
  accounts_inv (put_account f ia s).
Proof.
  intros Hs Ha Hf Hx. rewrite getCalculateDB_name in Hf by done.
  assert (f = calc_name s (db_no (DBCount (info s)) (ia_Address ia))) as -> by congruence. clear Hf.
  assert (Hget : forall k, ldb_get (bucket_Set PrefixIScore (ia_ID ia) (ia_Bytes ia) (db_at s
      (calc_name s (db_no (DBCount (info s)) (ia_Address ia))))) k =
    ldb_get (ldb_put (ia_Address ia) (marshal (ia_Data ia)) (db_at s
      (calc_name s (db_no (DBCount (info s)) (ia_Address ia))))) k).
  { intros k. by rewrite bucket_get_set, ldb_get_put. }
  apply accounts_inv_update; [done| |].
  - intros k v. rewrite Hget. apply account_inv_put; [by apply db_at_inv|done..].
  - intros k. rewrite Hget, ldb_get_put. case_decide as Ek; [by subst k|].
    unfold calc_name. by apply db_at_placed.
Qed.

(** ** The map of accounts *)

Lemma decode_account_marshal x : wf x -> decode_account (marshal x) = x.
Proof. intros Hx. unfold decode_account. by rewrite unmarshal_marshal. Qed.

(** The account of an address in the calculate DBs. *)
Definition calc_account s a : option IScoreData :=
  match getCalculateDB (E := Empty_set) s a with
  | Ok f => option_map decode_account (get_account s f a)
  | _ => None
  end.

Lemma get_account_good s f a v : accounts_inv s -> get_account s f a = Some v ->
  exists x, v = marshal x /\ good_account x /\ decode_account v = x /\
    NewIScoreAccountFromBytes v = Some (mkIScoreAccount zero_Address x).
Proof.
  intros Hs Hv. unfold get_account in Hv. rewrite bucket_Get_ldb in Hv.
  destruct (db_at_inv s f Hs _ _ Hv) as (_ & x & [-> Hx]%account_value_good).
  exists x. split_and!; [done|done|apply decode_account_marshal, Hx|].
  apply NewIScoreAccountFromBytes_marshal, Hx.
Qed.

(** An address has its DB, and there its account or none. *)
Lemma calc_account_cases {E : Type} s a : accounts_inv s -> wf_Address a ->
  exists f, getCalculateDB (E := E) s a = Ok f /\
    match calc_account s a with
    | Some x => good_account x /\ exists v, get_account s f a = Some v /\
        NewIScoreAccountFromBytes v = Some (mkIScoreAccount zero_Address x)
    | None => get_account s f a = None
    end.
Proof.
  intros Hs Ha. eexists. split; [by apply getCalculateDB_name|].
  unfold calc_account. rewrite getCalculateDB_name by done.
  destruct (get_account s _ a) as [v|] eqn:Hv; cbn [option_map]; [|done].
  destruct (get_account_good s _ a v Hs Hv) as (x & _ & Hx & -> & Hn). eauto.
Qed.

(** The account of an address in the query DBs. *)
Definition query_account s a : option IScoreData :=
  match getQueryDB (E := Empty_set) s a with
  | Ok f => option_map decode_account (get_account s f a)
  | _ => None
  end.

Lemma calc_account_good s a x : accounts_inv s -> wf_Address a -> calc_account s a = Some x -> good_account x.
Proof.
  intros Hs Ha Hx. destruct (calc_account_cases (E := Empty_set) s a Hs Ha) as (f & _ & H). rewrite Hx in H. apply H.
Qed.

Lemma getCalculateDB_put {E : Type} f ia s a :
  getCalculateDB (E := E) (put_account f ia s) a = getCalculateDB s a.
Proof. done. Qed.

(** A write through the handle of the address changes its account only. *)
Lemma calc_account_put {E : Type} f ia s a :
  getCalculateDB (E := E) s (ia_Address ia) = Ok f -> good_account (ia_Data ia) ->
  calc_account (put_account f ia s) a = if decide (ia_Address ia = a) then Some (ia_Data ia) else calc_account s a.
Proof.
  intros Hf%(getCalculateDB_any (E' := Empty_set)) Hx. unfold calc_account. rewrite getCalculateDB_put.
  destruct (decide (ia_Address ia = a)) as [<-|Hne].
  - rewrite Hf. unfold get_account, put_account, db_at. cbn [files db_update set_files].
    rewrite lookup_insert_eq. cbn [from_option id]. rewrite bucket_Get_Set.
    rewrite decide_True by done. cbn [option_map]. f_equal. apply decode_account_marshal, Hx.
  - destruct (getCalculateDB s a) as [f'| |]; [|done..]. f_equal.
    unfold get_account, put_account, db_at. cbn [files db_update set_files].
    destruct (decide (f = f')) as [->|Hff].
    + rewrite lookup_insert_eq. cbn [from_option id]. rewrite bucket_Get_Set.
      by rewrite decide_False.
    + by rewrite lookup_insert_ne.
Qed.

(** ** The I-Score of a set of addresses *)

Definition score_of (o : option IScoreData) : Z := match o with Some x => IScore x | None => 0 end.

Definition score_sum s (l : list Address) : Z := Zsum (map (fun a => score_of (calc_account s a)) l).

Lemma score_sum_update s s' a x l : NoDup l ->
  (forall a', calc_account s' a' = if decide (a = a') then Some x else calc_account s a') -> a ∈ l ->
  score_sum s' l = score_sum s l + (IScore x - score_of (calc_account s a)).
Proof.
  intros Hnd Hs'. unfold score_sum, Zsum. induction Hnd as [|a' l Hn _ IH]; [by intros []%not_elem_of_nil|].
  intros [<-|Hin]%elem_of_cons; cbn [map foldr]; rewrite Hs'.
  - rewrite decide_True by done. cbn [score_of].
    assert (map (fun a0 => score_of (calc_account s' a0)) l = map (fun a0 => score_of (calc_account s a0)) l) as ->.
    { apply map_ext_in. intros b Hb%list_elem_of_In. rewrite Hs'. rewrite decide_False; [done|]. by intros ->. }
    lia.
  - rewrite decide_False by (by intros ->). rewrite IH by done. lia.
Qed.

Lemma score_sum_same s s' l : (forall a, a ∈ l -> calc_account s' a = calc_account s a) ->
  score_sum s' l = score_sum s l.
Proof.
  intros H. unfold score_sum. f_equal. apply map_ext_in. intros a Ha%list_elem_of_In. by rewrite H.
Qed.
End AccountDBs.
