(* ===== verification/BlockProduce.v ===== *)
(** * The block production reward

    [calculateIISSBlockProduce] of [core/msg_calculate.go] gathers rewards in a
    map and writes them in the order Go iterates over it.  The accounts it
    leaves and everything it returns are given here without that order. *)

From S2P Require Import Prelude Bytes HexInt Address Store Codec Typed Account ClaimDB Management IISSData IScoreDB Context Reward Calculate AccountDBs.

Section Credit.
Context {D : Type} `{!LevelDB D, !LevelDBLaws D}.
Context `{!Codec IScoreData, !CodecLaws IScoreData, !Codec DBInfoData}.
Implicit Type (s : IScoreDB D) (a : Address).

(** The account of an address after a reward at a height. *)
Definition credit (blockHeight reward : Z) (o : option IScoreData) : IScoreData :=
  match o with
  | Some x => mkIScoreData (IScore x + reward) (BlockHeight x) (Delegations x)
  | None => mkIScoreData reward blockHeight []
  end.

Definition credited (blockHeight : Z) s (e : Address * Z) : IScoreAccount :=
  mkIScoreAccount e.1 (credit blockHeight e.2 (calc_account s e.1)).

(** How many addresses have no account. *)
Definition new_count s (l : list Address) : Z :=
  Zsum (map (fun a => match calc_account s a with Some _ => 0 | None => 1 end) l).

Lemma credit_good bh r o : is_u64 bh -> (forall x, o = Some x -> good_account x) -> good_account (credit bh r o).
Proof. intros Hb Ho. destruct o as [x|]; cbn; [exact (Ho x eq_refl)|]. split; [split; [done|]|]; apply Forall_nil_2. Qed.

Lemma credited_good bh s e : accounts_inv s -> is_u64 bh -> wf_Address e.1 -> good_account (ia_Data (credited bh s e)).
Proof. intros Hs Hb Ha. apply credit_good; [done|]. intros x. by apply calc_account_good. Qed.

Lemma new_count_nonneg s l : 0 <= new_count s l.
Proof. unfold new_count, Zsum. induction l as [|a l IH]; cbn in *; [lia|]. destruct (calc_account s a); lia. Qed.

(** Accounts that are the same are credited and counted alike. *)
Lemma same_accounts bh s s1 (l : list (bytes * Z)) : (forall e, e ∈ l -> calc_account s1 e.1 = calc_account s e.1) ->
  map (credited bh s1) l = map (credited bh s) l /\ new_count s1 l.*1 = new_count s l.*1.
Proof.
  intros Hrest. split.
  - apply map_ext_in. intros e He%list_elem_of_In. unfold credited. by rewrite Hrest.
  - unfold new_count. f_equal. apply map_ext_in. intros a' (e & -> & He)%list_elem_of_In%list_elem_of_fmap.
    by rewrite Hrest.
Qed.

(** The write loop, on distinct addresses: every account gets its reward once,
    the others keep theirs. *)
Lemma bp_write_loop_spec {E : Type} bh l s n t ias :
  accounts_inv s -> is_u64 bh -> is_u64 n -> NoDup l.*1 -> Forall wf_Address l.*1 ->
  exists s', bp_write_loop (E := E) bh l s n t ias
      = Ok (s', u64 (n + new_count s l.*1), t + Zsum l.*2, ias ++ map (credited bh s) l) /\
    files_only s s' /\ accounts_inv s' /\
    (forall a, a ∉ l.*1 -> calc_account s' a = calc_account s a) /\
    (forall e, e ∈ l -> calc_account s' e.1 = Some (ia_Data (credited bh s e))).
Proof.
  revert s n t ias. induction l as [|[a r] l IH]; intros s n t ias Hs Hb Hn Hnd Hw; cbn [bp_write_loop].
  { exists s. cbn. rewrite !Z.add_0_r, app_nil_r, u64_small by done.
    split_and!; [done|reflexivity|done|done|]. intros e []%not_elem_of_nil. }
  apply NoDup_cons in Hnd as [Ha Hnd]. apply Forall_cons in Hw as [Hwa Hw]. cbn [fst] in *.
  destruct (calc_account_cases (E := E) s a Hs Hwa) as (f & Hf & Hc). rewrite Hf. cbn [obind].
  set (ia := credited bh s (a, r)).
  assert (Hg : good_account (ia_Data ia)) by by apply credited_good.
  set (s1 := put_account f ia s).
  assert (Hs1 : accounts_inv s1) by by apply (accounts_inv_put (E := E)).
  assert (Hput : forall a', calc_account s1 a' = if decide (a = a') then Some (ia_Data ia) else calc_account s a').
  { intros a'. by apply (calc_account_put (E := E) f ia s a'). }
  assert (Hrest : forall e, e ∈ l -> calc_account s1 e.1 = calc_account s e.1).
  { intros e He. rewrite Hput. rewrite decide_False; [done|]. intros ->. apply Ha. by apply list_elem_of_fmap_2. }
  destruct (same_accounts bh s s1 l Hrest) as [Hmap Hcnt].
  assert (Hstep : forall n', is_u64 n' -> n' = u64 (n + match calc_account s a with Some _ => 0 | None => 1 end) ->
    exists s', bp_write_loop (E := E) bh l s1 n' (t + r) (ias ++ [ia])
      = Ok (s', u64 (n + new_count s (a :: l.*1)), t + Zsum (r :: l.*2), ias ++ map (credited bh s) ((a, r) :: l)) /\
      files_only s s' /\ accounts_inv s' /\
      (forall a', a' ∉ a :: l.*1 -> calc_account s' a' = calc_account s a') /\
      (forall e, e ∈ (a, r) :: l -> calc_account s' e.1 = Some (ia_Data (credited bh s e)))).
  { intros n' Hn' ->. destruct (IH s1 (u64 (n + match calc_account s a with Some _ => 0 | None => 1 end))
      (t + r) (ias ++ [ia])) as (s' & -> & H1 & H2 & H3 & H4); [done..|].
    exists s'. split_and!.
    - rewrite Hmap, Hcnt, u64_add_u64, <-app_assoc. unfold new_count. cbn [map Zsum foldr app].
      fold (Zsum l.*2). by rewrite !Z.add_assoc.
    - etransitivity; [|exact H1]. apply files_only_put.
    - done.
    - intros a' [Hne Hin]%not_elem_of_cons. rewrite H3 by done. rewrite Hput. by rewrite decide_False by done.
    - intros e [->|He]%elem_of_cons.
      + cbn [fst]. rewrite H3 by done. rewrite Hput. by rewrite decide_True by done.
      + rewrite H4 by done. unfold credited. by rewrite Hrest. }
  destruct (calc_account s a) as [x|] eqn:Ex.
  - destruct Hc as (Hx & v & Hv & Hnew). rewrite Hv, Hnew.
    assert (ia_set_Address a (ia_set_IScore (ia_IScore (mkIScoreAccount zero_Address x) + r)
      (mkIScoreAccount zero_Address x)) = ia) as -> by (unfold ia, credited; cbn; by rewrite Ex).
    apply Hstep; [done|]. by rewrite Z.add_0_r, u64_small.
  - rewrite Hc. assert (mkIScoreAccount a (mkIScoreData r bh []) = ia) as ->
      by (unfold ia, credited; cbn; by rewrite Ex).
    apply Hstep; [apply u64_range|done].
Qed.
End Credit.

(** ** The map of rewards *)

Section BlockRewards.
Context {D : Type} `{!LevelDB D, !LevelDBLaws D}.
Context `{!Codec IScoreData, !CodecLaws IScoreData, !Codec IISSBlockProduceInfoData,
  !CodecLaws IISSBlockProduceInfoData, !Codec DBInfoData}.
Implicit Type (ctx : Context D) (m : gmap bytes Z).

Definition map_total m : Z := Zsum (map_to_list m).*2.

Lemma map_total_insert a v m : m !! a = None -> map_total (<[a := v]> m) = v + map_total m.
Proof. intros Ha. unfold map_total. by rewrite map_to_list_insert. Qed.

Lemma map_total_add a v m : map_total (map_add a v m) = map_total m + v.
Proof.
  unfold map_add. destruct (m !! a) as [w|] eqn:Ha; cbn [default from_option id].
  - rewrite <-insert_delete_eq, map_total_insert by apply lookup_delete_eq.
    rewrite <-(insert_delete_id m a w) at 2 by done.
    rewrite map_total_insert by apply lookup_delete_eq. lia.
  - rewrite map_total_insert by done. lia.
Qed.

(** What a block pays: the rate to its generator, and as much again shared by
    its validators, rounded down. *)
Definition block_reward (gv : GovernanceVariable) (bp : IISSBlockProduceInfoData) : Z :=
  let validators := Z.of_nat (length (Validator bp)) in
  BlockProduceReward gv +
    (if validators =? 0 then 0 else validators * big_Div (BlockProduceReward gv) validators).

Lemma fold_map_add vs r m : map_total (foldl (fun m v => map_add v r m) m vs) = map_total m + Z.of_nat (length vs) * r.
Proof.
  revert m. induction vs as [|v vs IH]; intros m; cbn [foldl length]; [lia|].
  rewrite IH, map_total_add. lia.
Qed.

Lemma block_rewards_total gv bp m : map_total (block_rewards gv bp m) = map_total m + block_reward gv bp.
Proof.
  unfold block_rewards, block_reward. destruct (Validator bp) as [|v vs] eqn:Hv.
  - rewrite map_total_add. change (Z.of_nat (length [])) with 0. by rewrite Z.add_0_r.
  - rewrite fold_map_add, map_total_add. cbn [length]. rewrite (proj2 (Z.eqb_neq _ 0)) by lia. lia.
Qed.

(** Blocks as the ICON service wrote them; what one of them pays, by the
    governance variable in force. *)
Definition bps_ok (l : list (bytes * bytes)) : Prop :=
  Forall (fun e => exists d : IISSBlockProduceInfoData, wf d /\ e.2 = marshal d) l.

Definition entry_reward ctx (e : bytes * bytes) : Z :=
  match getGVByBlockHeight ctx (BytesToUint64 (drop (length PrefixIISSBPInfo) e.1)) with
  | Some gv => block_reward gv (unmarshal e.2 (bp_Data zero_IISSBP)).1
  | None => 0
  end.

(** A predicate of the addresses of the map. *)
Definition keys_ok (P : Address -> Prop) m : Prop := forall a, is_Some (m !! a) -> P a.

Lemma keys_ok_add P a v m : P a -> keys_ok P m -> keys_ok P (map_add a v m).
Proof.
  intros Ha Hm a'. unfold map_add. destruct (decide (a = a')) as [->|Hne]; [done|].
  rewrite lookup_insert_ne by done. apply Hm.
Qed.

Lemma block_rewards_keys P gv bp m : P (Generator bp) -> Forall P (Validator bp) -> keys_ok P m ->
  keys_ok P (block_rewards gv bp m).
Proof.
  intros Hg Hvs Hm. unfold block_rewards. pose proof (keys_ok_add P _ (BlockProduceReward gv) m Hg Hm) as H1.
  destruct (Validator bp) as [|x xs]; [done|]. revert H1. generalize (map_add (Generator bp) (BlockProduceReward gv) m).
  generalize (big_Div (BlockProduceReward gv) (Z.of_nat (length (x :: xs)))). intros r.
  induction Hvs as [|y ys Hy _ IH]; intros m' Hm'; cbn [foldl]; [done|]. apply IH. by apply keys_ok_add.
Qed.

(** The addresses of a block. *)
Definition bp_addresses (e : bytes * bytes) : list Address :=
  let d := (unmarshal e.2 (bp_Data zero_IISSBP)).1 in Generator d :: Validator d.

Lemma bp_loop_spec (P : Address -> Prop) ctx bp l m : bps_ok l ->
  Forall (fun e => Forall P (bp_addresses e)) l -> keys_ok P m ->
  map_total (bp_loop ctx bp l m) = map_total m + Zsum (map (entry_reward ctx) l) /\
  keys_ok P (bp_loop ctx bp l m).
Proof.
  intros Hl HP. revert bp m. induction Hl as [|[k v] l (d & Hd & Hv) _ IH]; intros bp m Hm; cbn [bp_loop map].
  { cbn. split; [lia|done]. }
  cbn [snd] in Hv. subst v. apply Forall_cons in HP as [HP1 HP]. specialize (IH HP). revert HP1.
  unfold bp_addresses, bp_SetBytes. cbn [snd]. rewrite !unmarshal_marshal by done. cbn [negb bp_BlockHeight bp_Data fst].
  intros [Hg Hvs]%Forall_cons.
  unfold entry_reward at 1. cbn [fst snd]. rewrite unmarshal_marshal by done. cbn [fst]. unfold Zsum. cbn [foldr].
  destruct (getGVByBlockHeight ctx _) as [gv|]; [|by apply IH].
  destruct (IH (mkIISSBP (BytesToUint64 (drop (length PrefixIISSBPInfo) k)) d) (block_rewards gv d m)) as [-> H].
  - by apply block_rewards_keys.
  - rewrite block_rewards_total. unfold Zsum. split; [lia|done].
Qed.

Lemma bps_ok_addresses l : bps_ok l -> Forall (fun e => Forall wf_Address (bp_addresses e)) l.
Proof.
  intros Hl. eapply Forall_impl; [exact Hl|]. intros [k v] (d & [Hg Hvs] & Hv). cbn [snd] in Hv. subst v.
  unfold bp_addresses. cbn [snd]. rewrite unmarshal_marshal by done. by apply Forall_cons.
Qed.

(** The map, counted over a list of addresses. *)
Lemma map_total_list m l : NoDup l -> keys_ok (fun a => a ∈ l) m ->
  map_total m = Zsum (map (fun a => default 0 (m !! a)) l).
Proof.
  intros Hnd Hk.
  assert (Hp : (map_to_list m).*1 ≡ₚ filter (fun a => is_Some (m !! a)) l).
  { apply NoDup_Permutation; [apply NoDup_fst_map_to_list|by apply NoDup_filter|]. intros a.
    rewrite list_elem_of_filter, list_elem_of_fmap. split.
    - intros ([a' r] & -> & Ha%elem_of_map_to_list). cbn [fst]. split; [by eexists|]. apply Hk. by eexists.
    - intros [[r Hr] _]. exists (a, r). split; [done|]. by apply elem_of_map_to_list. }
  transitivity (Zsum (map (fun a => default 0 (m !! a)) (map_to_list m).*1)).
  - rewrite map_map. unfold map_total. f_equal. apply map_ext_in.
    intros [a r] Ha%list_elem_of_In%elem_of_map_to_list. cbn [fst snd]. by rewrite Ha.
  - rewrite Hp, Zsum_filter. f_equal. apply map_ext. intros a. case_decide as Hd; [done|].
    destruct (m !! a); [|done]. destruct Hd. by eexists.
Qed.

(** ** The order of the map *)

Lemma sort_accounts l1 l2 : Permutation l1 l2 -> NoDup (map ia_ID l1) -> merge_sort ia_le l1 = merge_sort ia_le l2.
Proof.
  intros Hp Hnd.
  assert (Trans : Transitive ia_le) by (intros ???; unfold ia_le; apply transitivity).
  assert (Tot : Total ia_le) by (intros x y; apply (total bytes_le)).
  apply StronglySorted_unique_strong with (R := ia_le).
  - intros x1 x2. rewrite !merge_sort_Permutation, <-Hp. intros H1 H2 Hle Hge.
    assert (ia_ID x1 = ia_ID x2) as E by by apply (anti_symm bytes_le).
    apply list_elem_of_lookup in H1 as [i1 H1], H2 as [i2 H2].
    assert (i1 = i2) as <-.
    { eapply NoDup_lookup; [exact Hnd| |]; rewrite list_lookup_fmap; [by rewrite H1|].
      rewrite H2. cbn. by rewrite E. }
    congruence.
  - by apply StronglySorted_merge_sort.
  - by apply StronglySorted_merge_sort.
  - by rewrite !merge_sort_Permutation.
Qed.
End BlockRewards.

Section BlockProduce.
Context {D : Type} `{!LevelDB D, !LevelDBLaws D}.
Context `{!Codec IScoreData, !CodecLaws IScoreData, !Codec IISSBlockProduceInfoData,
  !CodecLaws IISSBlockProduceInfoData, !Codec DBInfoData}.
Context (shake256 : bytes -> bytes).
Context (map_order : gmap bytes Z -> list (bytes * Z)).
Hypothesis map_order_perm : forall m, Permutation (map_order m) (map_to_list m).
Implicit Type (ctx : Context D) (m : gmap bytes Z).

(** The block production reward does not depend on the order in which Go
    iterates over its map: every account gets what its blocks pay, once, a new
    one starts at the height of the calculation, the other accounts stay; the
    total is what the blocks pay, and the state hash is that of the accounts
    in the order of their addresses. *)
Lemma calculateIISSBlockProduce_result {E : Type} ctx iissDB blockHeight :
  accounts_inv (DB ctx) -> is_u64 blockHeight -> bps_ok (iter_prefix PrefixIISSBPInfo iissDB) ->
  let m := bp_loop ctx zero_IISSBP (iter_prefix PrefixIISSBPInfo iissDB) ∅ in
  exists s', calculateIISSBlockProduce (E := E) shake256 map_order ctx iissDB blockHeight
      = Ok (set_DB s' ctx,
            (u64 (new_count (DB ctx) (map_to_list m).*1),
             Zsum (map (entry_reward ctx) (iter_prefix PrefixIISSBPInfo iissDB)),
             shake256 (hash_accounts (merge_sort ia_le (map (credited blockHeight (DB ctx)) (map_to_list m)))))) /\
    files_only (DB ctx) s' /\ accounts_inv s' /\
    (forall a, calc_account s' a =
       match m !! a with
       | Some r => Some (credit blockHeight r (calc_account (DB ctx) a))
       | None => calc_account (DB ctx) a
       end).
Proof.
  intros Hs Hb Hl m. destruct (bp_loop_spec wf_Address ctx zero_IISSBP _ ∅ Hl (bps_ok_addresses _ Hl)) as [Htot Hwf].
  { intros a. rewrite lookup_empty. by intros []. }
  fold m in Htot, Hwf. pose proof (map_order_perm m) as Hp.
  assert (Hnd : NoDup (map_order m).*1) by (rewrite Hp; apply NoDup_fst_map_to_list).
  destruct (bp_write_loop_spec (E := E) blockHeight (map_order m) (DB ctx) 0 0 [])
    as (s' & Hw & H1 & H2 & H3 & H4); [done|done|done|done| |].
  { rewrite Hp. apply Forall_forall. intros a ([a' r] & -> & Hin)%list_elem_of_fmap.
    apply Hwf. exists r. by apply elem_of_map_to_list. }
  exists s'. split_and!; [|done|done|].
  - unfold calculateIISSBlockProduce. fold m. rewrite Hw. cbn [obind app].
    assert (new_count (DB ctx) (map_order m).*1 = new_count (DB ctx) (map_to_list m).*1) as ->
      by (unfold new_count; by rewrite Hp).
    assert (Zsum (map_order m).*2 = Zsum (map (entry_reward ctx) (iter_prefix PrefixIISSBPInfo iissDB))) as ->
      by (rewrite Hp; exact Htot).
    assert (merge_sort ia_le (map (credited blockHeight (DB ctx)) (map_order m)) =
      merge_sort ia_le (map (credited blockHeight (DB ctx)) (map_to_list m))) as ->; [|done].
    apply sort_accounts; [by rewrite Hp|]. by rewrite map_map.
  - intros a. destruct (m !! a) as [r|] eqn:Ha.
    + apply (H4 (a, r)). rewrite Hp. by apply elem_of_map_to_list.
    + apply H3. rewrite Hp. intros ([a' r] & -> & Hin%elem_of_map_to_list)%list_elem_of_fmap. cbn [fst] in Ha. by rewrite Hin in Ha.
Qed.

(** The accounts gain together what the blocks pay. *)
Lemma calculateIISSBlockProduce_conserves {E : Type} ctx iissDB blockHeight :
  accounts_inv (DB ctx) -> is_u64 blockHeight -> bps_ok (iter_prefix PrefixIISSBPInfo iissDB) ->
  exists s' n r h, calculateIISSBlockProduce (E := E) shake256 map_order ctx iissDB blockHeight
      = Ok (set_DB s' ctx, (n, r, h)) /\
    files_only (DB ctx) s' /\ accounts_inv s' /\
    forall l, NoDup l ->
      Forall (fun e => Forall (fun a => a ∈ l) (bp_addresses e)) (iter_prefix PrefixIISSBPInfo iissDB) ->
      score_sum s' l = score_sum (DB ctx) l + r.
Proof.
  intros Hs Hb Hl. destruct (calculateIISSBlockProduce_result (E := E) ctx iissDB blockHeight Hs Hb Hl)
    as (s' & E1 & H1 & H2 & H3).
  exists s'. do 3 eexists. split_and!; [exact E1|done|done|]. intros l Hnd HL.
  destruct (bp_loop_spec (fun a => a ∈ l) ctx zero_IISSBP _ ∅ Hl HL) as [Ht Hk].
  { intros a. rewrite lookup_empty. by intros []. }
  change (map_total ∅) with 0 in Ht. rewrite Z.add_0_l in Ht. rewrite <-Ht, (map_total_list _ l Hnd Hk).
  unfold score_sum. rewrite <-Zsum_map_add. f_equal. apply map_ext. intros a. rewrite H3.
  destruct (bp_loop _ _ _ _ !! a); cbn [default from_option id]; [|lia].
  destruct (calc_account _ _); cbn [credit score_of IScore]; lia.
Qed.
End BlockProduce.

Section BlockProduceClaims.
Context {D : Type} `{!LevelDB D, !LevelDBLaws D}.
Context `{!Codec IScoreData, !CodecLaws IScoreData, !Codec IISSBlockProduceInfoData,
  !CodecLaws IISSBlockProduceInfoData, !Codec DBInfoData}.
Context (shake256 : bytes -> bytes).
Implicit Type (ctx : Context D) (m : gmap bytes Z).

(** C21: the block production reward is a function of the blocks and the
    accounts: Go may iterate over its map of rewards in any order, the number
    of new accounts, the total, the state hash and the accounts are the same. *)
Theorem calculateIISSBlockProduce_order {E : Type} map_order map_order' ctx iissDB blockHeight :
  (forall m, Permutation (map_order m) (map_to_list m)) ->
  (forall m, Permutation (map_order' m) (map_to_list m)) ->
  accounts_inv (DB ctx) -> is_u64 blockHeight -> bps_ok (iter_prefix PrefixIISSBPInfo iissDB) ->
  exists s1 s2 r,
    calculateIISSBlockProduce (E := E) shake256 map_order ctx iissDB blockHeight = Ok (set_DB s1 ctx, r) /\
    calculateIISSBlockProduce (E := E) shake256 map_order' ctx iissDB blockHeight = Ok (set_DB s2 ctx, r) /\
    forall a, calc_account s1 a = calc_account s2 a.
Proof.
  intros Ho Ho' Hs Hb Hl.
  destruct (calculateIISSBlockProduce_result (E := E) shake256 map_order Ho ctx iissDB blockHeight Hs Hb Hl)
    as (s1 & E1 & _ & _ & H1).
  destruct (calculateIISSBlockProduce_result (E := E) shake256 map_order' Ho' ctx iissDB blockHeight Hs Hb Hl)
    as (s2 & E2 & _ & _ & H2).
  exists s1, s2. eexists. split_and!; [exact E1|exact E2|]. intros a. by rewrite H1, H2.
Qed.

(** A block pays the whole rate to its generator, and as much again to its
    validators together, less what the division among them leaves. *)
Lemma block_rewards_bounds gv bp m : 0 <= BlockProduceReward gv ->
  let R := BlockProduceReward gv in
  map_total m + R <= map_total (block_rewards gv bp m) <= map_total m + 2 * R /\
  (Validator bp <> [] ->
   map_total (block_rewards gv bp m) = map_total m + 2 * R - R mod Z.of_nat (length (Validator bp))).
Proof.
  intros HR R. rewrite block_rewards_total. unfold block_reward. fold R.
  destruct (Validator bp) as [|v vs]; cbn [length].
  - split; [change (Z.of_nat 0) with 0; cbn [Z.eqb]; lia|done].
  - set (n := Z.of_nat (S (length vs))). assert (0 < n) as Hn by lia.
    rewrite (proj2 (Z.eqb_neq n 0)), big_Div_pos by lia.
    pose proof (Z.mod_eq R n). pose proof (Z.mod_pos_bound R n Hn). pose proof (Z.mul_div_le R n Hn).
    pose proof (Z.div_pos R n HR Hn). pose proof (Z.mul_nonneg_nonneg n (R / n)). split; lia.
Qed.

End BlockProduceClaims.
