(* ===== verification/Delegation.v ===== *)
(** * Delegation transactions

    [calculateIISSTX] of [core/msg_calculate.go] takes the account of a
    delegation back to the height of the transaction and pays it again from
    there with the new delegations. *)

From S2P Require Import Prelude Bytes HexInt Address Store Codec Typed Account ClaimDB Management IISSData IScoreDB Context Reward Calculate AccountDBs BlockProduce.

Section Delegation.
Context {D : Type} `{!LevelDB D, !LevelDBLaws D}.
Context `{!Codec IScoreData, !CodecLaws IScoreData, !Codec IISSTXData, !CodecLaws IISSTXData, !Codec DBInfoData}.
Context (gvs : list GovernanceVariable) (candidates : PRepCandidates).
Implicit Type (s : IScoreDB D) (tx : IISSTXData).

(** The delegations a transaction asks for, when it decodes. *)
Definition delegation_of tx (dgs : list (option DelegateData)) : Prop :=
  NewIScoreAccountFromDelegation (E := Empty_set) (tx_Address tx) (tx_BlockHeight tx) (tx_Data tx)
    = Ok (Some (mkIScoreAccount (tx_Address tx) (mkIScoreData 0 (tx_BlockHeight tx) dgs))) /\
  good_account (mkIScoreData 0 (tx_BlockHeight tx) dgs).

Lemma NewIScoreAccountFromDelegation_any {E E' : Type} addr h data ia :
  NewIScoreAccountFromDelegation (E := E') addr h data = Ok ia ->
  NewIScoreAccountFromDelegation (E := E) addr h data = Ok ia.
Proof. unfold NewIScoreAccountFromDelegation. by destruct (DecodeAny _) as [[]| |]; intros [= ->]. Qed.

(** What delegations earn from the height of a transaction on. *)
Definition reward_from (blockHeight txHeight : Z) (dgs : list (option DelegateData)) : Z :=
  if blockHeight <=? txHeight then 0
  else account_reward gvs candidates (mkIScoreData 0 txHeight dgs) blockHeight.

(** The account after the transaction: the old delegations are paid up to it,
    the new ones from there on. *)
Definition redelegated (blockHeight txHeight : Z) (dgs : list (option DelegateData)) (o : option IScoreData)
    : IScoreData :=
  mkIScoreData
    (match o with Some x => IScore x - reward_from blockHeight txHeight (Delegations x) | None => 0 end
     + reward_from blockHeight txHeight dgs)
    (if blockHeight <=? txHeight then txHeight else blockHeight) dgs.

(** An account that was not calculated to this height is left alone. *)
Definition stale (blockHeight : Z) (o : option IScoreData) : bool :=
  match o with Some x => negb (BlockHeight x =? blockHeight) | None => false end.

Lemma redelegated_good bh t dgs o : is_u64 bh -> good_account (mkIScoreData 0 t dgs) ->
  good_account (redelegated bh t dgs o).
Proof.
  intros Hb [[Ht Hw] Hs]. unfold redelegated. split; [split; [|exact Hw]|exact Hs].
  cbn [BlockHeight]. by destruct (bh <=? t).
Qed.

(** One calculation of an account with no I-Score or a given one. *)
Lemma calculate_from {E : Type} bh t dgs i a : bh <> 0 -> Forall is_Some dgs ->
  exists r, calculateIScore (E := E) gvs candidates (mkIScoreAccount a (mkIScoreData i t dgs)) bh
    = Ok (mkIScoreAccount a (mkIScoreData (i + reward_from bh t dgs) (if bh <=? t then t else bh) dgs), r) /\
    default 0 r = reward_from bh t dgs.
Proof.
  intros Hb Hd. rewrite calculateIScore_spec by assumption.
  change (ia_BlockHeight (mkIScoreAccount a (mkIScoreData i t dgs))) with t.
  unfold reward_from. destruct (bh <=? t).
  - exists None. by rewrite Z.add_0_r.
  - by eexists.
Qed.

(** A delegation transaction pays the old delegations of an account up to
    its height and the new ones from there to the height of the calculation;
    a first delegation starts an account; the reward it adds to the total is
    exactly what the account gains; no other account changes. *)
Lemma delegate_tx_result {E : Type} bh index tx dgs (a : @reward_acc D) :
  accounts_inv (acc_idb a) -> is_u64 bh -> bh <> 0 -> wf tx -> tx_DataType tx = TXDataTypeDelegate ->
  delegation_of tx dgs ->
  let addr := tx_Address tx in
  let o := calc_account (acc_idb a) addr in
  let new_ := redelegated bh (tx_BlockHeight tx) dgs o in
  exists a', delegate_tx (E := E) gvs candidates bh (mkIISSTX index tx) a = Ok a' /\
    files_only (acc_idb a) (acc_idb a') /\ accounts_inv (acc_idb a') /\
    if stale bh o then a' = a
    else acc_new a' = (match o with Some _ => acc_new a | None => acc_new a +u 1 end) /\
      acc_reward a' = acc_reward a + (IScore new_ - score_of o) /\
      acc_hash a' = acc_hash a ++ ia_BytesForHash (mkIScoreAccount addr new_) /\
      forall a1, calc_account (acc_idb a') a1 = if decide (addr = a1) then Some new_ else calc_account (acc_idb a) a1.
Proof.
  intros Hs Hb Hb0 (Ha & _ & _) Ht [Hn Hg] addr o new_.
  destruct (calc_account_cases (E := E) (acc_idb a) addr Hs Ha) as (f & Hf & Hc). fold o in Hc.
  assert (Hgn : good_account new_) by by apply redelegated_good.
  set (res := put_account f (mkIScoreAccount addr new_) (acc_idb a)).
  assert (Hres : files_only (acc_idb a) res /\ accounts_inv res /\
    forall a1, calc_account res a1 = if decide (addr = a1) then Some new_ else calc_account (acc_idb a) a1).
  { split_and!; [apply files_only_put|by apply (accounts_inv_put (E := E))|].
    intros a1. exact (calc_account_put (E := E) f (mkIScoreAccount addr new_) (acc_idb a) a1 Hf Hgn). }
  destruct Hres as (R1 & R2 & R3).
  unfold delegate_tx. cbn [tx_TXData]. fold addr. rewrite Hf. cbn [obind].
  unfold NewIScoreAccountFromIISS. cbn [tx_TXData]. rewrite Ht. cbn [Z.eqb negb TXDataTypeDelegate].
  rewrite (NewIScoreAccountFromDelegation_any _ _ _ _ Hn). cbn [obind].
  destruct o as [x|] eqn:Eo; cbn [stale score_of].
  - destruct Hc as (Hx & v & Hv & Hnew). rewrite Hv, Hnew.
    change (ia_BlockHeight (mkIScoreAccount zero_Address x)) with (BlockHeight x).
    destruct (BlockHeight x =? bh); cbn [negb]; [|by exists a].
    unfold ia_set_IScore, ia_set_BlockHeight, ia_IScore, ia_BlockHeight, ia_Delegations.
    cbn [ia_Address ia_Data IScore BlockHeight Delegations].
    destruct (calculate_from (E := E) bh (tx_BlockHeight tx) (Delegations x) 0 zero_Address)
      as (r1 & -> & _); [done|apply Hx|].
    cbn [obind ia_Data IScore].
    destruct (calculate_from (E := E) bh (tx_BlockHeight tx) dgs
      (IScore x - (0 + reward_from bh (tx_BlockHeight tx) (Delegations x))) (tx_Address tx))
      as (r & -> & Hr); [done|apply Hg|].
    cbn [obind]. rewrite !Z.add_0_l. eexists. split; [done|]. cbn [acc_idb acc_new acc_reward acc_hash].
    split_and!; try done. destruct r; cbn in Hr |- *; lia.
  - rewrite Hc.
    destruct (calculate_from (E := E) bh (tx_BlockHeight tx) dgs 0 (tx_Address tx)) as (r & -> & Hr); [done|apply Hg|].
    cbn [obind]. eexists. split; [done|]. cbn [acc_idb acc_new acc_reward acc_hash].
    split_and!; try done. destruct r; cbn in Hr |- *; lia.
Qed.

(** ** The transactions of a calculation *)

Definition txs_ok (l : list (bytes * bytes)) : Prop :=
  Forall (fun e => exists tx : IISSTXData, wf tx /\ e.2 = marshal tx /\
    (tx_DataType tx = TXDataTypeDelegate -> exists dgs, delegation_of tx dgs)) l.

Definition tx_address (e : bytes * bytes) : Address := tx_Address (unmarshal e.2 (tx_TXData zero_IISSTX)).1.

(** One transaction, whatever its type and its account. *)
Lemma delegate_tx_conserves {E : Type} bh index tx dgs (a : @reward_acc D) :
  accounts_inv (acc_idb a) -> is_u64 bh -> bh <> 0 -> wf tx -> tx_DataType tx = TXDataTypeDelegate ->
  delegation_of tx dgs ->
  exists a', delegate_tx (E := E) gvs candidates bh (mkIISSTX index tx) a = Ok a' /\
    files_only (acc_idb a) (acc_idb a') /\ accounts_inv (acc_idb a') /\
    forall l, NoDup l -> tx_Address tx ∈ l ->
      score_sum (acc_idb a') l - acc_reward a' = score_sum (acc_idb a) l - acc_reward a.
Proof.
  intros H1 H2 H3 H4 H5 H6.
  destruct (delegate_tx_result (E := E) bh index tx dgs a H1 H2 H3 H4 H5 H6) as (a' & E1 & F1 & F2 & F3).
  exists a'. split_and!; [done..|]. intros l Hnd Hin.
  destruct (stale _ _); [by rewrite F3|]. destruct F3 as (_ & -> & _ & Hg).
  rewrite (score_sum_update _ _ _ _ l Hnd Hg Hin). lia.
Qed.

Lemma tx_loop_spec {E : Type} bh (tx0 : IISSTX) l (a : @reward_acc D) :
  accounts_inv (acc_idb a) -> is_u64 bh -> bh <> 0 -> txs_ok l ->
  exists a', tx_loop (E := E) gvs candidates bh tx0 l a = Ok a' /\
    files_only (acc_idb a) (acc_idb a') /\ accounts_inv (acc_idb a') /\
    forall L, NoDup L -> Forall (fun e => tx_address e ∈ L) l ->
      score_sum (acc_idb a') L - acc_reward a' = score_sum (acc_idb a) L - acc_reward a.
Proof.
  intros Ha Hb Hb0 Hl. revert tx0 a Ha.
  induction Hl as [|[k v] l (tx & Hw & Hv & Hd) _ IH]; intros tx0 a Ha; cbn [tx_loop].
  { exists a. split_and!; [done|reflexivity|done|done]. }
  cbn [snd] in Hv. subst v. unfold tx_SetBytes. rewrite unmarshal_marshal by done. cbn [negb tx_TXData tx_Index].
  assert (exists a1, (if tx_DataType tx =? TXDataTypeDelegate
      then delegate_tx (E := E) gvs candidates bh (mkIISSTX (tx_Index tx0) tx) a else Ok a) = Ok a1 /\
    files_only (acc_idb a) (acc_idb a1) /\ accounts_inv (acc_idb a1) /\
    forall L, NoDup L -> tx_Address tx ∈ L ->
      score_sum (acc_idb a1) L - acc_reward a1 = score_sum (acc_idb a) L - acc_reward a)
    as (a1 & -> & F1 & F2 & F3).
  { destruct (Z.eqb_spec (tx_DataType tx) TXDataTypeDelegate) as [Et|]; [|by exists a].
    destruct (Hd Et) as [dgs Hdgs]. by eapply delegate_tx_conserves. }
  cbn [obind]. destruct (IH (mkIISSTX (tx_Index tx0) tx) a1 F2) as (a' & -> & G1 & G2 & G3).
  exists a'. split_and!; [done|by etransitivity|done|].
  intros L Hnd [H1 H2]%Forall_cons. rewrite G3, F3; [done..| |done|done].
  unfold tx_address in H1. cbn [snd] in H1. by rewrite unmarshal_marshal in H1.
Qed.

(** C22: a delegation transaction within the period of a calculation changes the
    account of its address only: an account at the height of the calculation
    loses what its old delegations earned from the height of the transaction
    on and gains what the new ones earn, a first delegation starts an account,
    and an account at another height is left alone. *)
Theorem delegate_tx_spec {E : Type} bh index tx dgs (a : @reward_acc D) :
  accounts_inv (acc_idb a) -> is_u64 bh -> wf tx -> tx_DataType tx = TXDataTypeDelegate ->
  delegation_of tx dgs -> tx_BlockHeight tx < bh ->
  let addr := tx_Address tx in
  let earned dgs := account_reward gvs candidates (mkIScoreData 0 (tx_BlockHeight tx) dgs) bh in
  exists a', delegate_tx (E := E) gvs candidates bh (mkIISSTX index tx) a = Ok a' /\
    (forall a1, a1 <> addr -> calc_account (acc_idb a') a1 = calc_account (acc_idb a) a1) /\
    match calc_account (acc_idb a) addr with
    | Some x =>
        if BlockHeight x =? bh
        then calc_account (acc_idb a') addr
               = Some (mkIScoreData (IScore x - earned (Delegations x) + earned dgs) bh dgs) /\
             acc_reward a' = acc_reward a - earned (Delegations x) + earned dgs /\ acc_new a' = acc_new a
        else a' = a
    | None => calc_account (acc_idb a') addr = Some (mkIScoreData (earned dgs) bh dgs) /\
        acc_reward a' = acc_reward a + earned dgs /\ acc_new a' = acc_new a +u 1
    end.
Proof.
  intros Hs Hb Hw Ht Hd Hlt addr earned.
  assert (bh <> 0) as Hb0 by (destruct Hw as (_ & ? & _); zlia).
  destruct (delegate_tx_result (E := E) bh index tx dgs a Hs Hb Hb0 Hw Ht Hd) as (a' & E1 & _ & _ & H).
  exists a'. split; [done|]. unfold redelegated, reward_from in H. rewrite (proj2 (Z.leb_gt _ _)) in H by done.
  fold addr in H |- *. destruct (calc_account (acc_idb a) addr) as [x|]; cbn [stale score_of] in H.
  - destruct (BlockHeight x =? bh); cbn [negb] in H; [|by subst a'].
    destruct H as (H1 & H2 & _ & H4). split; [intros a1 Hne; by rewrite H4, decide_False|].
    rewrite H4, decide_True by done. split_and!; [done| |done].
    rewrite H2. cbn [IScore]. unfold earned. lia.
  - destruct H as (H1 & H2 & _ & H4). split; [intros a1 Hne; by rewrite H4, decide_False|].
    rewrite H4, decide_True by done. split_and!; [done| |done].
    rewrite H2. cbn [IScore]. unfold earned. lia.
Qed.

End Delegation.

Section IISSTX.
Context {D : Type} `{!LevelDB D, !LevelDBLaws D}.
Context `{!Codec IScoreData, !CodecLaws IScoreData, !Codec IISSTXData, !CodecLaws IISSTXData, !Codec DBInfoData}.

(** The transactions of a calculation never stop it, whatever they ask for,
    and the reward they add to the total, negative when delegations were
    taken back, is exactly what the accounts gain together. *)
Lemma calculateIISSTX_result {E : Type} (shake256 : bytes -> bytes) (ctx : Context D) (iissDB : D) bh :
  accounts_inv (DB ctx) -> is_u64 bh -> bh <> 0 -> txs_ok (iter_prefix PrefixIISSTX iissDB) ->
  exists s' n r h, calculateIISSTX (E := E) shake256 ctx iissDB bh = Ok (set_DB s' ctx, (n, r, h)) /\
    files_only (DB ctx) s' /\ accounts_inv s' /\
    forall l, NoDup l -> Forall (fun e => tx_address e ∈ l) (iter_prefix PrefixIISSTX iissDB) ->
      score_sum s' l = score_sum (DB ctx) l + r.
Proof.
  intros Hs Hb Hb0 Hl. unfold calculateIISSTX.
  destruct (tx_loop_spec (E := E) (GV ctx) (ctx_PRepCandidates ctx) bh zero_IISSTX _ (mkAcc (DB ctx) 0 0 []) Hs Hb Hb0 Hl) as (a' & E1 & H1 & H2 & H3).
  exists (acc_idb a'), (acc_new a'), (acc_reward a'), (shake256 (acc_hash a')).
  rewrite E1. split_and!; [done..|]. intros l Hnd Hin. pose proof (H3 l Hnd Hin) as H. cbn in H. lia.
Qed.
End IISSTX.
