(* ===== verification/PRepReward.v ===== *)
(** * The P-Rep reward

    [calculatePRepReward] and [setPRepReward] of [core/msg_calculate.go]: the
    P-Reps of a list share the reward of the blocks of a period by their
    delegated amounts. *)

From S2P Require Import Prelude Bytes HexInt Address Store Codec Typed Account ClaimDB Management IISSData IScoreDB Context Reward Calculate AccountDBs BlockProduce.

Section PRepShares.
Implicit Type (gvs : list GovernanceVariable) (prep : PRepData) (di : PRepDelegationInfo).

(** The part of one P-Rep in the periods of the governance variables, and the
    end of the last period that is not empty. *)
Definition prep_part prep di (blocks : Z) (gv : GovernanceVariable) : Z :=
  big_Div (blocks * PRepReward gv * DelegatedAmount di) (TotalDelegation prep).

Fixpoint prep_share prep (start end_ : Z) gvs di : Z :=
  match gvs with
  | [] => 0
  | gv :: gvs =>
      let '(s, e) := prep_gv_period start end_ gv (head gvs) in
      (if e <=? s then 0 else prep_part prep di (e -u s) gv) + prep_share prep start end_ gvs di
  end.

Fixpoint prep_last (start end_ : Z) gvs (last : Z) : Z :=
  match gvs with
  | [] => last
  | gv :: gvs =>
      let '(s, e) := prep_gv_period start end_ gv (head gvs) in
      prep_last start end_ gvs (if e <=? s then last else e)
  end.

Lemma zip_with_self {A B C} (f : A -> B -> C) (g : A -> B) l :
  zip_with f l (map g l) = map (fun x => f x (g x)) l.
Proof. induction l as [|x l IH]; cbn; [done|]. by rewrite IH. Qed.

Lemma prep_rewards_map prep start end_ gvs (g : PRepDelegationInfo -> Z) b :
  prep_rewards prep start end_ gvs (map (fun di => (g di, b)) (pd_List prep)) =
  map (fun di => (g di + prep_share prep start end_ gvs di, prep_last start end_ gvs b)) (pd_List prep).
Proof.
  revert g b. induction gvs as [|gv gvs IH]; intros g b; cbn [prep_rewards prep_share prep_last].
  { apply map_ext. intros di. by rewrite Z.add_0_r. }
  destruct (prep_gv_period start end_ gv (head gvs)) as [s e]. destruct (e <=? s).
  { by rewrite IH. }
  unfold prep_gv_rewards. rewrite zip_with_self. cbn [fst snd]. rewrite IH. apply map_ext. intros di.
  f_equal. unfold prep_part, NewHexIntFromUint64. by rewrite Z.add_assoc.
Qed.

(** All of them start at zero. *)
Lemma prep_rewards_start prep start end_ gvs :
  prep_rewards prep start end_ gvs (replicate (length (pd_List prep)) (0, 0)) =
  map (fun di => (prep_share prep start end_ gvs di, prep_last start end_ gvs 0)) (pd_List prep).
Proof.
  assert (replicate (length (pd_List prep)) (0, 0) = map (fun _ => (0, 0)) (pd_List prep)) as ->.
  { induction (pd_List prep) as [|x l IH]; cbn; [done|]. by rewrite IH. }
  by rewrite (prep_rewards_map prep start end_ gvs (fun _ => 0) 0).
Qed.

Lemma prep_last_u64 start end_ gvs b : is_u64 end_ -> is_u64 b -> gv_heights_ok gvs ->
  is_u64 (prep_last start end_ gvs b).
Proof.
  intros He Hb Hg. revert b Hb. induction Hg as [|gv gvs Hgv Hg IH]; intros b Hb; cbn [prep_last]; [done|].
  destruct (prep_gv_period start end_ gv (head gvs)) as [s e] eqn:Ep. apply IH. destruct (e <=? s); [done|].
  unfold prep_gv_period in Ep. injection Ep as _ <-. destruct gvs as [|n gvs]; cbn [head]; [done|].
  apply Forall_cons in Hg as [Hn _]. by destruct (_ <? end_).
Qed.
End PRepShares.

(** ** At most the reward of the blocks *)

Section PRepBound.
Context (prep : PRepData) (R start end_ : Z).
Hypotheses (Hstart : is_u64 start) (Hend : is_u64 end_).
Hypotheses (Htotal : 0 < TotalDelegation prep)
  (Hamounts : Forall (fun di => 0 <= DelegatedAmount di) (pd_List prep))
  (Hsum : Zsum (map DelegatedAmount (pd_List prep)) <= TotalDelegation prep).

Lemma prep_gv_period_overlap gv next :
  let '(s, e) := prep_gv_period start end_ gv next in
  s = Z.max start (gv_BlockHeight gv) /\
  e = match next with Some n => Z.min end_ (gv_BlockHeight n) | None => end_ end.
Proof.
  unfold prep_gv_period. split.
  - destruct (Z.leb_spec start (gv_BlockHeight gv)); lia.
  - destruct next as [n|]; [|done]. destruct (Z.ltb_spec (gv_BlockHeight n) end_); lia.
Qed.

Lemma prep_share_step gv gvs di : gv_heights_ok (gv :: gvs) ->
  prep_share prep start end_ (gv :: gvs) di =
  prep_part prep di (overlap start end_ gv (head gvs)) gv + prep_share prep start end_ gvs di.
Proof.
  intros Hg. apply Forall_cons in Hg as [Hgv Hg]. cbn [prep_share].
  pose proof (prep_gv_period_overlap gv (head gvs)) as Hp.
  destruct (prep_gv_period start end_ gv (head gvs)) as [s e]. destruct Hp as [-> ->].
  unfold overlap. set (s := Z.max start _). set (e := match head gvs with Some n => _ | None => _ end).
  destruct (Z.leb_spec e s) as [Hle|Hlt].
  - rewrite Z.max_l by lia. unfold prep_part. rewrite !Z.mul_0_l.
    by rewrite big_Div_pos, Z.div_0_l by lia.
  - rewrite Z.max_r by lia. rewrite u64_small; [done|].
    unfold s, e, is_u64 in *. destruct gvs as [|n gvs]; cbn [head] in *; lia.
Qed.

Lemma parts_sum (blocks : Z) gv : 0 <= blocks -> 0 <= PRepReward gv ->
  0 <= Zsum (map (fun di => prep_part prep di blocks gv) (pd_List prep)) <= blocks * PRepReward gv.
Proof.
  intros Hb Hr. set (q := TotalDelegation prep) in *. set (P := blocks * PRepReward gv).
  assert (HP : 0 <= P) by by apply Z.mul_nonneg_nonneg.
  assert (H : forall l, Forall (fun di => 0 <= DelegatedAmount di) l ->
    0 <= Zsum (map (fun di => prep_part prep di blocks gv) l) /\
    0 <= Zsum (map DelegatedAmount l) /\
    q * Zsum (map (fun di => prep_part prep di blocks gv) l) <= P * Zsum (map DelegatedAmount l)).
  { intros l Hl. unfold Zsum. induction Hl as [|di l Hdi _ (H0 & H1 & H2)]; cbn [map foldr]; [lia|].
    unfold prep_part at 1 3. fold P q. rewrite !big_Div_pos by done.
    pose proof (Z.mul_nonneg_nonneg P (DelegatedAmount di) HP Hdi) as Hn.
    pose proof (Z.mul_div_le (P * DelegatedAmount di) q Htotal). pose proof (Z.div_pos _ q Hn Htotal). lia. }
  destruct (H _ Hamounts) as (H0 & H1 & H2). split; [done|].
  apply Z.mul_le_mono_pos_l with (p := q); [done|]. etransitivity; [exact H2|]. rewrite (Z.mul_comm q P).
  by apply Z.mul_le_mono_nonneg_l.
Qed.

Lemma prep_shares_bound gvs : gv_heights_ok gvs -> Forall (fun gv => 0 <= PRepReward gv <= R) gvs ->
  0 <= Zsum (map (prep_share prep start end_ gvs) (pd_List prep)) <= overlap_sum start end_ gvs * R.
Proof.
  intros Hg Hr. induction gvs as [|gv gvs IH].
  { cbn [overlap_sum]. rewrite Z.mul_0_l.
    assert (Zsum (map (prep_share prep start end_ []) (pd_List prep)) = 0) as ->; [|lia].
    by apply Zsum_map_0. }
  assert (Zsum (map (prep_share prep start end_ (gv :: gvs)) (pd_List prep)) =
    Zsum (map (fun di => prep_part prep di (overlap start end_ gv (head gvs)) gv) (pd_List prep)) +
    Zsum (map (prep_share prep start end_ gvs) (pd_List prep))) as ->.
  { rewrite <-Zsum_map_add. f_equal. apply map_ext. intros di. by apply prep_share_step. }
  apply Forall_cons in Hg as [_ Hg]. apply Forall_cons in Hr as [[Hr0 Hr1] Hr].
  specialize (IH Hg Hr). pose proof (overlap_nonneg start end_ gv (head gvs)) as Ho.
  pose proof (parts_sum _ gv Ho Hr0) as Hp. cbn [overlap_sum].
  set (o := overlap start end_ gv (head gvs)) in *.
  pose proof (Z.mul_le_mono_nonneg_l _ _ o Ho Hr1). lia.
Qed.
End PRepBound.

(** ** Writing the rewards *)

Section PRepWrite.
Context {D : Type} `{!LevelDB D, !LevelDBLaws D}.
Context `{!Codec IScoreData, !CodecLaws IScoreData, !Codec DBInfoData}.
Context (shake256 : bytes -> bytes).
Implicit Type (s : IScoreDB D) (ctx : Context D).

(** The account of a P-Rep after its reward; before revision 8 its height
    moves to the end of the period. *)
Definition prep_paid (revision end_ blockHeight iScore rBH : Z) (o : option IScoreData) : IScoreData :=
  match o with
  | Some x => mkIScoreData (IScore x + iScore) (if revision <? Revision8 then rBH else BlockHeight x) (Delegations x)
  | None => mkIScoreData iScore (if Revision8 <=? revision then blockHeight else end_) []
  end.

Lemma prep_paid_good rev e bh i r o : is_u64 e -> is_u64 bh -> is_u64 r ->
  (forall x, o = Some x -> good_account x) -> good_account (prep_paid rev e bh i r o).
Proof.
  intros He Hb Hr Ho. destruct o as [x|]; cbn [prep_paid].
  - destruct (Ho x eq_refl) as [[Hx Hw] Hs]. split; [split|]; cbn [BlockHeight Delegations]; [|done|done].
    by destruct (_ <? _).
  - split; [split|]; cbn [BlockHeight Delegations]; [by destruct (_ <=? _)|apply Forall_nil_2..].
Qed.

Lemma prep_write_loop_spec {E : Type} rev e bh l (a : @reward_acc D) :
  accounts_inv (acc_idb a) -> is_u64 e -> is_u64 bh ->
  Forall (fun x => wf_Address (di_Address x.1) /\ is_u64 x.2.2) l ->
  exists a', prep_write_loop (E := E) rev e bh l a = Ok a' /\
    files_only (acc_idb a) (acc_idb a') /\ accounts_inv (acc_idb a') /\
    acc_reward a' = acc_reward a + Zsum (map (fun x => x.2.1) l) /\
    forall L, NoDup L -> Forall (fun x => di_Address x.1 ∈ L) l ->
      score_sum (acc_idb a') L - acc_reward a' = score_sum (acc_idb a) L - acc_reward a.
Proof.
  intros Ha He Hb Hl. revert a Ha.
  induction Hl as [|[di [i r]] l [Hdi Hr] _ IH]; intros a Ha; cbn [prep_write_loop].
  { exists a. split_and!; [done|reflexivity|done|by rewrite Z.add_0_r|done]. }
  cbn [fst snd] in Hdi, Hr. set (addr := di_Address di) in *.
  destruct (calc_account_cases (E := E) (acc_idb a) addr Ha Hdi) as (f & Hf & Hc). rewrite Hf. cbn [obind].
  set (o := calc_account (acc_idb a) addr) in *. set (ia := mkIScoreAccount addr (prep_paid rev e bh i r o)).
  assert (Hg : good_account (ia_Data ia)).
  { apply prep_paid_good; [done..|]. intros x. by apply calc_account_good. }
  set (s1 := put_account f ia (acc_idb a)).
  assert (Hs1 : accounts_inv s1) by by apply (accounts_inv_put (E := E)).
  assert (Hput := fun a1 => calc_account_put (E := E) f ia (acc_idb a) a1 Hf Hg).
  fold s1 in Hput.
  assert (Hgain : IScore (ia_Data ia) = score_of o + i).
  { unfold ia. cbn [ia_Data]. destruct o; cbn [prep_paid score_of IScore]; lia. }
  assert (Hstep : forall n, exists a', prep_write_loop (E := E) rev e bh l
      (mkAcc s1 n (acc_reward a + i) (acc_hash a ++ ia_BytesForHash ia)) = Ok a' /\
    files_only (acc_idb a) (acc_idb a') /\ accounts_inv (acc_idb a') /\
    acc_reward a' = acc_reward a + Zsum (map (fun x => x.2.1) ((di, (i, r)) :: l)) /\
    forall L, NoDup L -> Forall (fun x => di_Address x.1 ∈ L) ((di, (i, r)) :: l) ->
      score_sum (acc_idb a') L - acc_reward a' = score_sum (acc_idb a) L - acc_reward a).
  { intros n. destruct (IH (mkAcc s1 n (acc_reward a + i) (acc_hash a ++ ia_BytesForHash ia)) Hs1)
      as (a' & E1 & F1 & F2 & F3 & F4). cbn [acc_idb acc_reward] in *.
    exists a'. split_and!; [done|by transitivity s1|done| |].
    - rewrite F3. unfold Zsum. cbn [map foldr fst snd]. lia.
    - intros L Hnd [H1 H2]%Forall_cons. rewrite (F4 L Hnd H2).
      rewrite (score_sum_update _ _ _ _ L Hnd Hput H1), Hgain.
      change (calc_account (acc_idb a) (ia_Address ia)) with o. lia. }
  destruct o as [x|].
  - destruct Hc as (_ & v & Hv & Hnew). rewrite Hv, Hnew. destruct (Hstep (acc_new a)) as (a' & E1 & H).
    exists a'. split; [|done]. rewrite <-E1. unfold s1, ia, prep_paid. by destruct (rev <? Revision8).
  - rewrite Hc. destruct (Hstep (acc_new a +u 1)) as (a' & E1 & H). exists a'. by split.
Qed.

Lemma zip_map {A B} (f : A -> B) l : zip l (map f l) = map (fun x => (x, f x)) l.
Proof. induction l as [|x l IH]; cbn; [done|]. by rewrite IH. Qed.

(** What a list pays in a period. *)
Definition prep_total ctx (start end_ : Z) (prep : PRepData) : Z :=
  Zsum (map (prep_share prep start end_ (GV ctx)) (pd_List prep)).

Lemma setPRepReward_result {E : Type} ctx start end_ prep bh :
  accounts_inv (DB ctx) -> is_u64 end_ -> is_u64 bh -> gv_heights_ok (GV ctx) -> wf (pr_Data prep) ->
  exists s' n h, setPRepReward (E := E) shake256 ctx start end_ prep bh
      = Ok (set_DB s' ctx, (n, prep_total ctx start end_ (pr_Data prep), h)) /\
    files_only (DB ctx) s' /\ accounts_inv s' /\
    forall L, NoDup L -> Forall (fun di => di_Address di ∈ L) (pd_List (pr_Data prep)) ->
      score_sum s' L = score_sum (DB ctx) L + prep_total ctx start end_ (pr_Data prep).
Proof.
  intros Hs He Hb Hg Hw. unfold setPRepReward. rewrite prep_rewards_start, zip_map.
  destruct (prep_write_loop_spec (E := E) (Revision ctx) end_ bh
    (map (fun di => (di, (prep_share (pr_Data prep) start end_ (GV ctx) di, prep_last start end_ (GV ctx) 0)))
      (pd_List (pr_Data prep))) (mkAcc (DB ctx) 0 0 []) Hs He Hb) as (a' & -> & F1 & F2 & F3 & F4).
  { apply Forall_fmap. eapply Forall_impl; [exact Hw|]. intros di Hdi. split; [done|].
    by apply prep_last_u64. }
  cbn [obind acc_idb acc_reward] in *. rewrite map_map in F3. cbn [fst snd] in F3. rewrite Z.add_0_l in F3.
  exists (acc_idb a'), (acc_new a'), (shake256 (acc_hash a')).
  change (acc_reward a' = prep_total ctx start end_ (pr_Data prep)) in F3.
  split_and!; [|done|done|].
  - by rewrite F3.
  - intros L Hnd HL. rewrite <-F3. specialize (F4 L Hnd). rewrite Forall_fmap in F4. specialize (F4 HL). lia.
Qed.

(** What the lists pay one after another, each in its period. *)
Fixpoint preps_total ctx (start to : Z) (preps : list PRep) : Z :=
  match preps with
  | [] => 0
  | prep :: preps =>
      (if TotalDelegation (pr_Data prep) =? 0 then 0
       else let '(s, e) := prep_period start to prep (head preps) in
            if e <=? s then 0 else prep_total ctx s e (pr_Data prep))
      + preps_total ctx start to preps
  end.

Definition preps_ok (preps : list PRep) : Prop :=
  Forall (fun p => is_u64 (pr_BlockHeight p) /\ wf (pr_Data p)) preps.

Lemma prep_period_u64 start to prep preps : is_u64 start -> is_u64 to -> preps_ok (prep :: preps) ->
  is_u64 (prep_period start to prep (head preps)).1 /\ is_u64 (prep_period start to prep (head preps)).2.
Proof.
  intros Hs Ht [[Hp _] Hps]%Forall_cons. unfold prep_period. cbn [fst snd].
  split; [by destruct (_ <? _)|]. destruct preps as [|n preps]; cbn [head]; [done|].
  apply Forall_cons in Hps as [[Hn _] _]. by destruct (_ <? _).
Qed.

Lemma preps_total_set ctx s start to preps : preps_total (set_DB s ctx) start to preps = preps_total ctx start to preps.
Proof. induction preps as [|p preps IH]; cbn [preps_total]; [done|]. by rewrite IH. Qed.

Lemma prep_loop_spec {E : Type} start to preps ctx n t h :
  accounts_inv (DB ctx) -> is_u64 start -> is_u64 to -> gv_heights_ok (GV ctx) -> preps_ok preps ->
  exists s' n' h', prep_loop (E := E) shake256 start to preps ctx n t h
      = Ok (set_DB s' ctx, (n', t + preps_total ctx start to preps, h')) /\
    files_only (DB ctx) s' /\ accounts_inv s' /\
    forall L, NoDup L -> Forall (fun p => Forall (fun di => di_Address di ∈ L) (pd_List (pr_Data p))) preps ->
      score_sum s' L = score_sum (DB ctx) L + preps_total ctx start to preps.
Proof.
  intros Hs Hst Hto Hg Hp. revert ctx n t h Hs Hg.
  induction preps as [|p preps IH]; intros ctx n t h Hs Hg; cbn [prep_loop preps_total].
  { exists (DB ctx), n, h. rewrite Z.add_0_r. split_and!; [by destruct ctx|reflexivity|done|].
    intros. by rewrite Z.add_0_r. }
  destruct (prep_period_u64 start to p preps Hst Hto Hp) as [_ He].
  apply Forall_cons in Hp as [[_ Hw] Hp].
  destruct (_ =? 0).
  { destruct (IH Hp ctx n t h Hs Hg) as (s' & n' & h' & E1 & F1 & F2 & F3). exists s', n', h'.
    rewrite Z.add_0_l. split_and!; [done..|]. intros L Hnd [_ HL]%Forall_cons. auto. }
  destruct (prep_period start to p (head preps)) as [s e]. cbn [snd] in He.
  destruct (e <=? s).
  { destruct (IH Hp ctx n t h Hs Hg) as (s' & n' & h' & E1 & F1 & F2 & F3). exists s', n', h'.
    rewrite Z.add_0_l. split_and!; [done..|]. intros L Hnd [_ HL]%Forall_cons. auto. }
  destruct (setPRepReward_result (E := E) ctx s e p to Hs He Hto Hg Hw) as (s1 & n1 & h1 & -> & F1 & F2 & F3).
  cbn [obind]. destruct (IH Hp (set_DB s1 ctx) (n +u n1) (t + prep_total ctx s e (pr_Data p)) (h ++ h1) F2 Hg)
    as (s' & n' & h' & -> & G1 & G2 & G3).
  exists s', n', h'. rewrite preps_total_set in *. rewrite Z.add_assoc. split_and!; [done|by transitivity s1|done|].
  intros L Hnd [HL1 HL2]%Forall_cons. rewrite (G3 L Hnd HL2). cbn [DB set_DB]. rewrite (F3 L Hnd HL1). lia.
Qed.

(** The P-Rep reward is always calculated, the account of every P-Rep of
    the lists is written, and the accounts gain together exactly the reward
    that is announced. *)
Lemma calculatePRepReward_result {E : Type} ctx to :
  accounts_inv (DB ctx) -> is_u64 (CalcDone (info (DB ctx))) -> is_u64 to ->
  gv_heights_ok (GV ctx) -> preps_ok (ctx_PRep ctx) ->
  exists s' n h, let r := preps_total ctx (CalcDone (info (DB ctx))) to (ctx_PRep ctx) in
    calculatePRepReward (E := E) shake256 ctx to = Ok (set_DB s' ctx, (n, r, h)) /\
    files_only (DB ctx) s' /\ accounts_inv s' /\
    forall L, NoDup L ->
      Forall (fun p => Forall (fun di => di_Address di ∈ L) (pd_List (pr_Data p))) (ctx_PRep ctx) ->
      score_sum s' L = score_sum (DB ctx) L + r.
Proof.
  intros Hs Hd Ht Hg Hp. unfold calculatePRepReward.
  destruct (prep_loop_spec (E := E) (getCalcDoneBH (DB ctx)) to (ctx_PRep ctx) ctx 0 0 [])
    as (s' & n' & h' & -> & F1 & F2 & F3); [done..|].
  cbn [obind]. exists s', n', (shake256 h'). rewrite Z.add_0_l. by split_and!.
Qed.

(** ** The bound *)

(** The amounts of a list do not exceed the total it is divided by. *)
Definition amounts_ok (prep : PRepData) : Prop :=
  TotalDelegation prep = 0 \/
  0 < TotalDelegation prep /\ Forall (fun di => 0 <= DelegatedAmount di) (pd_List prep) /\
  Zsum (map DelegatedAmount (pd_List prep)) <= TotalDelegation prep.

Lemma prep_total_bound ctx R start end_ prep : is_u64 start -> is_u64 end_ -> amounts_ok prep ->
  TotalDelegation prep <> 0 -> gv_heights_ok (GV ctx) -> gv_sorted (GV ctx) ->
  Forall (fun gv => 0 <= PRepReward gv <= R) (GV ctx) -> 0 <= R ->
  0 <= prep_total ctx start end_ prep <= Z.max 0 (end_ - start) * R.
Proof.
  intros Hs He [?|(Ht & Ha & Hsum)] Hne Hg Hsort Hr HR; [done|].
  pose proof (prep_shares_bound prep R start end_ Hs He Ht Ha Hsum (GV ctx) Hg Hr) as [H1 H2].
  split; [done|]. etransitivity; [exact H2|]. apply Z.mul_le_mono_nonneg_r; [done|].
  pose proof (overlap_sum_bound start end_ (GV ctx) Hsort). destruct (GV ctx); lia.
Qed.

Lemma preps_total_bound ctx R start to preps : is_u64 start -> is_u64 to -> preps_ok preps ->
  Forall (fun p => amounts_ok (pr_Data p)) preps ->
  StronglySorted (fun p q => pr_BlockHeight p < pr_BlockHeight q) preps ->
  gv_heights_ok (GV ctx) -> gv_sorted (GV ctx) ->
  Forall (fun gv => 0 <= PRepReward gv <= R) (GV ctx) -> 0 <= R ->
  0 <= preps_total ctx start to preps
    <= Z.max 0 (to - Z.max start (match preps with p :: _ => pr_BlockHeight p | [] => to end)) * R.
Proof.
  intros Hs Ht Hp Ha Hsort Hg Hgs Hr HR. induction preps as [|p preps IH]; cbn [preps_total].
  { split; [done|]. apply Z.mul_nonneg_nonneg; lia. }
  destruct (prep_period_u64 start to p preps Hs Ht Hp) as [Hps Hpe].
  apply Forall_cons in Hp as [_ Hp]. apply Forall_cons in Ha as [Ha1 Ha].
  apply StronglySorted_cons in Hsort as [Hlt Hsort]. specialize (IH Hp Ha Hsort).
  destruct (prep_period start to p (head preps)) as [s e] eqn:Ep. cbn [fst snd] in Hps, Hpe.
  assert (Hse : s = Z.max start (pr_BlockHeight p) /\
    e = match head preps with Some n => Z.min to (pr_BlockHeight n) | None => to end).
  { unfold prep_period in Ep. injection Ep as <- <-. split.
    - destruct (Z.ltb_spec start (pr_BlockHeight p)); lia.
    - destruct (head preps) as [n|]; [|done]. destruct (Z.ltb_spec (pr_BlockHeight n) to); lia. }
  assert (Hterm : 0 <= (if TotalDelegation (pr_Data p) =? 0 then 0
      else if e <=? s then 0 else prep_total ctx s e (pr_Data p)) <= Z.max 0 (e - s) * R).
  { pose proof (Z.mul_nonneg_nonneg (Z.max 0 (e - s)) R ltac:(lia) HR).
    destruct (Z.eqb_spec (TotalDelegation (pr_Data p)) 0); [lia|]. destruct (e <=? s); [lia|].
    by apply prep_total_bound. }
  set (term := if TotalDelegation (pr_Data p) =? 0 then 0 else _) in *.
  destruct Hse as [-> ->]. set (a := Z.max start (pr_BlockHeight p)) in *.
  destruct preps as [|n preps]; cbn [head preps_total] in *.
  { rewrite Z.add_0_r. exact Hterm. }
  apply Forall_cons in Hlt as [Hn _]. set (b := pr_BlockHeight n) in *.
  assert (Z.max 0 (Z.min to b - a) + Z.max 0 (to - Z.max start b) <= Z.max 0 (to - a)) as Hsum by lia.
  pose proof (Z.mul_le_mono_nonneg_r _ _ R HR Hsum). lia.
Qed.

(** C23: the P-Rep rewards of a calculation are shares of what its blocks pay:
    whatever the lists and the governance variables in between, the total is
    never negative and at most the highest rate for each block since the last
    calculation. *)
Theorem calculatePRepReward_bounds {E : Type} ctx to R :
  accounts_inv (DB ctx) -> is_u64 (CalcDone (info (DB ctx))) -> is_u64 to ->
  preps_ok (ctx_PRep ctx) -> Forall (fun p => amounts_ok (pr_Data p)) (ctx_PRep ctx) ->
  StronglySorted (fun p q => pr_BlockHeight p < pr_BlockHeight q) (ctx_PRep ctx) ->
  gv_heights_ok (GV ctx) -> gv_sorted (GV ctx) ->
  Forall (fun gv => 0 <= PRepReward gv <= R) (GV ctx) -> 0 <= R ->
  exists ctx' n r h, calculatePRepReward (E := E) shake256 ctx to = Ok (ctx', (n, r, h)) /\
    0 <= r <= Z.max 0 (to - CalcDone (info (DB ctx))) * R.
Proof.
  intros Hs Hd Ht Hp Ha Hsort Hg Hgs Hr HR.
  destruct (calculatePRepReward_result (E := E) ctx to Hs Hd Ht Hg Hp) as (s' & n & h & E1 & _).
  do 4 eexists. split; [exact E1|].
  pose proof (preps_total_bound ctx R _ to (ctx_PRep ctx) Hd Ht Hp Ha Hsort Hg Hgs Hr HR) as [H1 H2].
  split; [done|]. etransitivity; [exact H2|]. apply Z.mul_le_mono_nonneg_r; [done|].
  destruct (ctx_PRep ctx); lia.
Qed.
End PRepWrite.
