(* ===== verification/DoCalculate.v ===== *)
(** * A CALCULATE request: [DoCalculate] and the calculation queries of
    [core/msg_calculate.go] *)

From S2P Require Import Prelude Bytes HexInt Address Store Codec Typed Account ClaimDB Management IISSData IScoreDB Context Reward Calculate.

(** What the rest of the process does while a calculation runs: whether the
    quit channel is closed when account DB [i] looks at it for the [n]-th time,
    and the cancellation state afterwards. *)
Record calc_env := mkCalcEnv {
  interrupted : nat -> nat -> bool;
  cancel_during : CancelCalculation -> CancelCalculation;
}.

(** The context, the acknowledgements sent, and the results. *)
Record calc_result (D : Type) := mkCalcResult {
  res_ctx : Context D;
  res_acks : list (Z * CalculateResponse);
  res_err : option calc_error;
  res_BlockHeight : Z;
  res_stats : option Statistics;
  res_stateHash : option bytes;
}.
Arguments mkCalcResult {D}. Arguments res_ctx {D}. Arguments res_acks {D}. Arguments res_err {D}.
Arguments res_BlockHeight {D}. Arguments res_stats {D}. Arguments res_stateHash {D}.

Section DoCalculate.
Context {D : Type} `{!LevelDB D}.
Context `{!Codec IScoreData, !Codec IISSTXData, !Codec IISSBlockProduceInfoData, !Codec CRData,
  !Codec DBInfoData, !Codec GVData, !Codec PRepData, !Codec PRepCandidateData,
  !Codec IISSHeader, !Codec IISSGVData}.
Context (shake256 : bytes -> bytes).
Context (map_order : gmap bytes Z -> list (bytes * Z)).

(** The account DBs, one pass each: the stores, the statistics and the state
    hashes by index. *)
Fixpoint calc_account_dbs {E : Type} (gvs : list GovernanceVariable) (candidates : PRepCandidates)
    (env : calc_env) (blockHeight : Z) (i : nat) (query calc : list fname) (idb : IScoreDB D)
    (stats : list Statistics) (hashes : list (option bytes)) {struct calc}
    : outcome E (IScoreDB D * list Statistics * list (option bytes)) :=
  match calc with
  | [] => Ok (idb, stats, hashes)
  | c :: calc =>
      match query with
      | [] => Panic
      | q :: query =>
          let! (d, (_, s, h)) := calculateDB shake256 gvs candidates (interrupted env i)
            (db_at idb q) (db_at idb c) blockHeight writeBatchCount in
          calc_account_dbs gvs candidates env blockHeight (S i) query calc (db_update c d idb)
            (stats ++ [s]) (hashes ++ [h])
      end
  end.

Definition add_account_stats (stats s : Statistics) : Statistics :=
  let stats := increase FAccounts (VUint64 (Accounts s)) stats in
  let stats := increase FBeta3 (VHexInt (Beta3 s)) stats in
  increase FTotalReward (VHexInt (Beta3 s)) stats.

Definition add_reward_stats (f : stat_field) (newAccount reward : Z) (stats : Statistics) : Statistics :=
  let stats := increase FAccounts (VUint64 newAccount) stats in
  let stats := increase f (VHexInt reward) stats in
  increase FTotalReward (VHexInt reward) stats.

(** The rewards of the IISS data and the end of a calculation that was not
    cancelled. *)
Definition finish_calculation {E : Type} (iissDB : D) (blockHeight : Z) (ctx : Context D)
    (stats : Statistics) (hashes : list (option bytes)) (acks : list (Z * CalculateResponse))
    : outcome E (calc_result D) :=
  let! (ctx, (newAccount, reward, h1)) := calculateIISSTX shake256 ctx iissDB blockHeight in
  let stats := add_reward_stats FBeta3 newAccount reward stats in
  let! (ctx, (newAccount, reward, h2)) :=
    calculateIISSBlockProduce shake256 map_order ctx iissDB blockHeight in
  let stats := add_reward_stats FBeta1 newAccount reward stats in
  let! (ctx, (newAccount, reward, h3)) := calculatePRepReward shake256 ctx blockHeight in
  let stats := add_reward_stats FBeta2 newAccount reward stats in
  let ctx := set_stats (Some stats) ctx in
  let stateHash := shake256 (h1 ++ h2 ++ h3 ++ concat (map nonNilBytes hashes)) in
  let ctx := update_DB (setCalcDoneBH blockHeight) ctx in
  let ctx := update_DB (fun s =>
    set_calcResult (WriteCalculationResult (calcResult s) blockHeight (Some stats) stateHash) s) ctx in
  Ok (mkCalcResult ctx acks None blockHeight (ctx_stats ctx) (Some stateHash)).

(** A request with a connection is acknowledged under its message id; a
    reload is not. *)
Definition sendCalculateACK (connected : bool) (id status blockHeight : Z) : list (Z * CalculateResponse) :=
  if connected then [(id, mkCalculateResponse status blockHeight)] else [].

(** A request that is refused: the height that was being calculated goes
    back to the last one done. *)
Definition refuse {E : Type} (connected : bool) (id : Z) (ctx : Context D) (status blockHeight : Z) (e : calc_error)
    : outcome E (calc_result D) :=
  Ok (mkCalcResult (update_DB resetCalculatingBH ctx) (sendCalculateACK connected id status blockHeight)
        (Some e) blockHeight None None).

(** The calculation of an accepted request. *)
Definition run_calculation {E : Type} (env : calc_env) (quit : nat) (connected : bool) (id : Z) (ctx : Context D)
    (iissDB : D) (blockHeight : Z) (header : IISSHeader) (gvList : list IISSGovernanceVariable)
    (prepList : list PRep) : outcome E (calc_result D) :=
  let ctx := update_DB (toggleAccountDB (blockHeight +u 1)) ctx in
  let acks := sendCalculateACK connected id CalcRespStatusOK blockHeight in
  let ctx := update_DB (fun s => resetAccountDB blockHeight (getCalcDoneBH s) s) ctx in
  let ctx := set_Revision (ih_Revision header) ctx in
  let ctx := UpdateGovernanceVariable gvList ctx in
  let ctx := UpdatePRep prepList ctx in
  let ctx := UpdatePRepCandidate iissDB ctx in
  let! (idb, statsList, hashes) :=
    calc_account_dbs (GV ctx) (ctx_PRepCandidates ctx) env blockHeight 0 (getQueryDBList (DB ctx))
      (getCalcDBList (DB ctx)) (DB ctx) [] [] in
  let ctx := set_DB idb ctx in
  let ctx := set_Cancel (cancel_during env (ctx_Cancel ctx)) ctx in
  if negb (quit =? channel (ctx_Cancel ctx))%nat then
    let code := cancelCode (ctx_Cancel ctx) in
    let err := if code =? CancelExit then Some (CalcCancelByExit blockHeight)
               else if code =? CancelRollback then Some (CalcCancelByRollbackError blockHeight)
               else None in
    let ctx := set_Cancel (mkCancel (channel (ctx_Cancel ctx)) CancelNone) ctx in
    Ok (mkCalcResult ctx acks err blockHeight None None)
  else
    finish_calculation iissDB blockHeight ctx (foldl add_account_stats zero_Statistics statsList)
      hashes acks.

(** [DoCalculate]: [quit] is the channel the caller took from the context,
    [connected] tells whether there is a connection, [iissDB] is what
    [OpenIISSData] finds at the path of the request. *)
Definition DoCalculate {E : Type} (env : calc_env) (quit : nat) (ctx : Context D)
    (req : CalculateRequest) (iissDB : D) (connected : bool) (id : Z) : outcome E (calc_result D) :=
  let reload := isReloadRequest (req_BlockHeight req) id in
  let blockHeight := req_BlockHeight req in
  if negb reload && isCalculating (DB ctx) then
    Ok (mkCalcResult ctx (sendCalculateACK connected id CalcRespStatusDoing blockHeight)
          (Some ErrCalculating) blockHeight None None)
  else
    match LoadIISSData iissDB with
    | None => refuse connected id ctx CalcRespStatusInvalidData blockHeight ErrInvalidData
    | Some (header, gvList, prepList) =>
        let blockHeight := ih_BlockHeight header in
        let blockHeight := if blockHeight =? 0 then getCalcDoneBH (DB ctx) +u 1 else blockHeight in
        let ctx := update_DB (setCalculatingBH blockHeight) ctx in
        let calcDoneBH := getCalcDoneBH (DB ctx) in
        if blockHeight =? calcDoneBH then
          refuse connected id ctx CalcRespStatusDuplicateBH blockHeight ErrDuplicateBH
        else if blockHeight <? calcDoneBH then
          refuse connected id ctx CalcRespStatusInvalidBH blockHeight ErrTooLowBH
        else run_calculation env quit connected id ctx iissDB blockHeight header gvList prepList
    end.

(** ** The handler [calculate] and [reloadIISSData] *)

Record CalculateDone := mkCalculateDone {
  cd_Success : bool;
  cd_Height : Z;
  cd_Reward : Z;
  cd_StateHash : option bytes;
}.

Definition calculate_done (r : calc_result D) : CalculateDone :=
  mkCalculateDone (match res_err r with None => true | Some _ => false end) (res_BlockHeight r)
    (match res_stats r with Some s => TotalReward s | None => 0 end) (res_stateHash r).

(** The notification, and the directories of old IISS data to remove when
    the calculation succeeded. *)
Definition calculate {E : Type} (env : calc_env) (ctx : Context D) (req : CalculateRequest) (iissDB : D)
    (id : Z) (dir : list (bytes * bool)) (name : bytes)
    : outcome E (calc_result D * CalculateDone * list bytes) :=
  let! r := DoCalculate env (channel (ctx_Cancel ctx)) ctx req iissDB true id in
  Ok (r, calculate_done r, match res_err r with None => cleanupIISSData dir name | Some _ => [] end).

Definition needIISSDataReload (ctx : Context D) : bool :=
  negb (getCalcDoneBH (DB ctx) =? getCalculatingBH (DB ctx)).

(** The path is built from the height that was being calculated: the
    directory [iiss_rc_db_<height>], given here by [open_iiss]. *)
Definition reloadIISSData {E : Type} (env : calc_env) (ctx : Context D) (open_iiss : Z -> D)
    : outcome E (Context D) :=
  if needIISSDataReload ctx then
    let req := mkCalculateRequest [] reloadBlockHeight [] in
    let! r := DoCalculate env (channel (ctx_Cancel ctx)) ctx req
                (open_iiss (getCalculatingBH (DB ctx))) false reloadMsgID in
    Ok (res_ctx r)
  else Ok ctx.

(** ** Queries *)

Definition CalculationDone : Z := 0.
Definition CalculationDoing : Z := 1.

(** Status and block height of [QueryCalculateStatusResponse]. *)
Definition DoQueryCalculateStatus (ctx : Context D) : Z * Z :=
  if isCalculating (DB ctx) then (CalculationDoing, getCalculatingBH (DB ctx))
  else (CalculationDone, getCalcDoneBH (DB ctx)).

Definition calcSucceeded : Z := 0.
Definition calcFailed : Z := 1.
Definition calcDoing : Z := 2.
Definition InvalidBH : Z := 3.

Record QueryCalculateResultResponse := mkQueryResult {
  qr_Status : Z;
  qr_BlockHeight : Z;
  qr_IScore : Z;
  qr_StateHash : bytes;
}.

(** A stored result that does not decode is a nil pointer: the access
    panics. *)
Definition DoQueryCalculateResult {E : Type} (ctx : Context D) (blockHeight : Z)
    : outcome E QueryCalculateResultResponse :=
  if isCalculating (DB ctx) && (blockHeight =? getCalculatingBH (DB ctx))
  then Ok (mkQueryResult calcDoing blockHeight 0 [])
  else
    match bucket_Get PrefixCalcResult (calcResult (DB ctx)) (Uint64ToBytes blockHeight) with
    | Some bs =>
        match NewCalculationResultFromBytes bs with
        | None => Panic
        | Some cr =>
            if cr_Success cr
            then Ok (mkQueryResult calcSucceeded blockHeight (cr_IScore cr) (cr_StateHash cr))
            else Ok (mkQueryResult calcFailed blockHeight 0 [])
        end
    | None => Ok (mkQueryResult InvalidBH blockHeight 0 [])
    end.
End DoCalculate.
