(* ===== verification/DebugCalc.v ===== *)
(** * The calculation with the debug output ([core/msg_calculate.go])

    The functions of [Reward.v], [Calculate.v] and [DoCalculate.v] with the
    calls of the debug output in their places: [WriteBeta3Info] for every
    period of a delegation, [WriteBeta1Info] for every block, [WriteBeta2Info]
    for every P-Rep and period, the set-up before the account DBs are passed
    and the write of the result at the end.  As long as the configured
    addresses have results and no total delegation is a multiple of 2^64, the
    output changes nothing of the calculation and cannot make it panic. *)

From S2P Require Import Prelude Bytes HexInt Address Store Codec Typed Account ClaimDB Management IISSData IScoreDB Context Reward Calculate DoCalculate CalcDebug DebugTrace.

Section DebugCalc.
Context {D : Type} `{!LevelDB D}.
Context `{!Codec IScoreData, !Codec IISSTXData, !Codec IISSBlockProduceInfoData, !Codec CRData,
  !Codec DBInfoData, !Codec GVData, !Codec PRepData, !Codec PRepCandidateData,
  !Codec IISSHeader, !Codec IISSGVData, !Codec CalcDebugData}.
Context (shake256 : bytes -> bytes).
Context (map_order : gmap bytes Z -> list (bytes * Z)).
Context (shared_words : Z -> Z -> Z).
(** The order of an iteration over the P-Rep candidates. *)
Context (candidate_order : PRepCandidates -> list PRepCandidate).
Implicit Type (ctx : Context D) (dbg : CalcDebug).

(** A step of the calculation and the debug output after it. *)
Notation traced_outcome A := (outcome debug_error (A * CalcDebug)).

(** ** Delegations *)

Fixpoint delegations_reward_debug ctx (rewardAddress : Address) (start end_ : Z)
    (dgs : list (option DelegateData)) (totalReward : Z) dbg : traced_outcome Z :=
  match dgs with
  | [] => Ok (totalReward, dbg)
  | None :: _ => Panic
  | Some dg :: dgs =>
      if big_Uint64 (dg_Delegate dg) <? MinDelegation
      then delegations_reward_debug ctx rewardAddress start end_ dgs totalReward dbg
      else
        match ctx_PRepCandidates ctx !! dg_Address dg with
        | None => delegations_reward_debug ctx rewardAddress start end_ dgs totalReward dbg
        | Some pRep =>
            let! (reward, dbg) :=
              calculateDelegationReward_debug shared_words ctx dg start end_ pRep rewardAddress dbg in
            delegations_reward_debug ctx rewardAddress start end_ dgs (totalReward + reward) dbg
        end
  end.

Definition calculateIScore_debug ctx (ia : IScoreAccount) (blockHeight : Z) dbg
    : traced_outcome (IScoreAccount * option Z) :=
  let blockHeight := if blockHeight =? 0 then ia_BlockHeight ia +u 1 else blockHeight in
  if blockHeight <=? ia_BlockHeight ia then Ok (ia, None, dbg)
  else
    let! (totalReward, dbg) :=
      delegations_reward_debug ctx (ia_Address ia) (ia_BlockHeight ia) blockHeight (ia_Delegations ia) 0 dbg in
    let ia := if totalReward =? 0 then ia else ia_set_IScore (ia_IScore ia + totalReward) ia in
    Ok (ia_set_BlockHeight blockHeight ia, Some totalReward, dbg).

Fixpoint calc_loop_debug ctx (interrupted : nat -> bool) (n : nat) (blockHeight batchCount : Z)
    (l : list (bytes * bytes)) (s : calc_state D) dbg : traced_outcome (calc_state D * calc_end) :=
  match l with
  | [] => Ok (s, Finished, dbg)
  | (k, v) :: l =>
      if interrupted n then Ok (s, Interrupted, dbg)
      else
        let key := drop (length PrefixIScore) k in
        match NewIScoreAccountFromBytes v with
        | None => Ok (s, BadAccount, dbg)
        | Some ia =>
            match NewAddress (Some key) with
            | Ok addr =>
                let s := stat_account s in
                let! (ia, reward, dbg) := calculateIScore_debug ctx (ia_set_Address addr ia) blockHeight dbg in
                let s := match reward with
                         | Some r => store_account batchCount k key ia r s
                         | None => s
                         end in
                calc_loop_debug ctx interrupted (S n) blockHeight batchCount l (next_entry s) dbg
            | _ => Panic
            end
        end
  end.

Definition calculateDB_debug ctx (interrupted : nat -> bool) (readDB writeDB : D)
    (blockHeight batchCount : Z) dbg : traced_outcome (D * (Z * Statistics * option bytes)) :=
  let s0 := mkCalcState writeDB batch_New 0 0 [] zero_Statistics in
  let! (s, e, dbg) := calc_loop_debug ctx interrupted 0 blockHeight batchCount (iter_New None None readDB) s0 dbg in
  match e with
  | Finished =>
      let db := if 0 <? batchCount then batch_Write (calc_batch s) (calc_db s) else calc_db s in
      let stateHash := if 0 <? calc_count s then shake256 (calc_hash s) else make_bytes 64 in
      Ok (db, (calc_count s, calc_stats s, Some stateHash), dbg)
  | _ => Ok (calc_db s, (0, calc_stats s, None), dbg)
  end.

Fixpoint calc_account_dbs_debug ctx (env : calc_env) (blockHeight : Z) (i : nat) (query calc : list fname)
    (idb : IScoreDB D) (stats : list Statistics) (hashes : list (option bytes)) dbg {struct calc}
    : traced_outcome (IScoreDB D * list Statistics * list (option bytes)) :=
  match calc with
  | [] => Ok (idb, stats, hashes, dbg)
  | c :: calc =>
      match query with
      | [] => Panic
      | q :: query =>
          let! (d, (_, s, h), dbg) := calculateDB_debug (set_DB idb ctx) (interrupted env i)
            (db_at idb q) (db_at idb c) blockHeight writeBatchCount dbg in
          calc_account_dbs_debug ctx env blockHeight (S i) query calc (db_update c d idb)
            (stats ++ [s]) (hashes ++ [h]) dbg
      end
  end.

(** ** Delegation transactions

    The account that is taken back to the height of the transaction was just
    decoded and has no address: what its old delegations earn is not recorded,
    nor taken off what the pass has recorded. *)

Definition delegate_tx_debug ctx (blockHeight : Z) (tx : IISSTX) (a : reward_acc) dbg
    : traced_outcome reward_acc :=
  let ctx := set_DB (acc_idb a) ctx in
  let d := tx_TXData tx in
  let! f := getCalculateDB (acc_idb a) (tx_Address d) in
  let! newIA := NewIScoreAccountFromIISS tx in
  let finish (newIA : IScoreAccount) (newAccount stats : Z) dbg : traced_outcome reward_acc :=
    let! (newIA, reward, dbg) := calculateIScore_debug ctx newIA blockHeight dbg in
    let stats := match reward with Some r => stats + r | None => stats end in
    Ok (mkAcc (put_account f newIA (acc_idb a)) newAccount stats
          (acc_hash a ++ ia_BytesForHash newIA), dbg) in
  match get_account (acc_idb a) f (tx_Address d) with
  | Some data =>
      match NewIScoreAccountFromBytes data with
      | None => Ok (a, dbg)
      | Some ia =>
          if negb (ia_BlockHeight ia =? blockHeight) then Ok (a, dbg)
          else
            match newIA with
            | None => Panic
            | Some newIA =>
                let newIA := ia_set_IScore (ia_IScore ia) newIA in
                let ia := ia_set_IScore 0 (ia_set_BlockHeight (tx_BlockHeight d) ia) in
                let! (ia, _, dbg) := calculateIScore_debug ctx ia blockHeight dbg in
                let newIA := ia_set_IScore (ia_IScore newIA - ia_IScore ia) newIA in
                finish newIA (acc_new a) (acc_reward a - ia_IScore ia) dbg
            end
      end
  | None =>
      match newIA with
      | None => Panic
      | Some newIA => finish newIA (acc_new a +u 1) (acc_reward a) dbg
      end
  end.

Fixpoint tx_loop_debug ctx (blockHeight : Z) (tx : IISSTX) (l : list (bytes * bytes)) (a : reward_acc) dbg
    : traced_outcome reward_acc :=
  match l with
  | [] => Ok (a, dbg)
  | (_, v) :: l =>
      let '(tx, ok) := tx_SetBytes v tx in
      if negb ok then tx_loop_debug ctx blockHeight tx l a dbg
      else
        let! (a, dbg) := if tx_DataType (tx_TXData tx) =? TXDataTypeDelegate
                         then delegate_tx_debug ctx blockHeight tx a dbg else Ok (a, dbg) in
        tx_loop_debug ctx blockHeight tx l a dbg
  end.

Definition calculateIISSTX_debug ctx (iissDB : D) (blockHeight : Z) dbg
    : traced_outcome (Context D * (Z * Z * bytes)) :=
  let! (a, dbg) := tx_loop_debug ctx blockHeight zero_IISSTX
                     (iter_prefix PrefixIISSTX iissDB) (mkAcc (DB ctx) 0 0 []) dbg in
  Ok (set_DB (acc_idb a) ctx, (acc_new a, acc_reward a, shake256 (acc_hash a)), dbg).

(** ** Block production

    A block without validators pays its generator and goes on to the next
    block: it is not recorded. *)

Fixpoint bp_loop_debug ctx (bp : IISSBlockProduceInfo) (l : list (bytes * bytes)) (m : gmap bytes Z) dbg
    : traced_outcome (gmap bytes Z) :=
  match l with
  | [] => Ok (m, dbg)
  | (k, v) :: l =>
      let '(bp, ok) := bp_SetBytes v bp in
      if negb ok then bp_loop_debug ctx bp l m dbg
      else
        let bp := mkIISSBP (BytesToUint64 (drop (length PrefixIISSBPInfo) k)) (bp_Data bp) in
        match getGVByBlockHeight ctx (bp_BlockHeight bp) with
        | None => bp_loop_debug ctx bp l m dbg
        | Some gv =>
            let m := block_rewards gv (bp_Data bp) m in
            match Validator (bp_Data bp) with
            | [] => bp_loop_debug ctx bp l m dbg
            | _ =>
                let! dbg := WriteBeta1Info shared_words ctx (big_Uint64 (BlockProduceReward gv)) bp dbg in
                bp_loop_debug ctx bp l m dbg
            end
        end
  end.

Definition calculateIISSBlockProduce_debug ctx (iissDB : D) (blockHeight : Z) dbg
    : traced_outcome (Context D * (Z * Z * bytes)) :=
  let! (bpMap, dbg) := bp_loop_debug ctx zero_IISSBP (iter_prefix PrefixIISSBPInfo iissDB) ∅ dbg in
  let! (idb, newAccount, totalReward, iaSlice) :=
    bp_write_loop blockHeight (map_order bpMap) (DB ctx) 0 0 [] in
  Ok (set_DB idb ctx, (newAccount, totalReward, shake256 (hash_accounts (merge_sort ia_le iaSlice))), dbg).

(** ** P-Rep rewards *)

(** The calls for the P-Reps of a list, in one period. *)
Fixpoint write_prep_infos ctx (dgInfos : list PRepDelegationInfo) (prep : PRep) (s e prepReward : Z) dbg
    : outcome debug_error CalcDebug :=
  match dgInfos with
  | [] => Ok dbg
  | dgInfo :: dgInfos =>
      let! dbg := WriteBeta2Info shared_words ctx dgInfo prep s e prepReward dbg in
      write_prep_infos ctx dgInfos prep s e prepReward dbg
  end.

Fixpoint prep_rewards_debug ctx (prep : PRep) (start end_ : Z) (gvs : list GovernanceVariable)
    (rewards : list (Z * Z)) dbg : traced_outcome (list (Z * Z)) :=
  match gvs with
  | [] => Ok (rewards, dbg)
  | gv :: gvs =>
      let '(s, e) := prep_gv_period start end_ gv (head gvs) in
      if e <=? s then prep_rewards_debug ctx prep start end_ gvs rewards dbg
      else
        let! dbg := write_prep_infos ctx (pd_List (pr_Data prep)) prep s e (big_Uint64 (PRepReward gv)) dbg in
        prep_rewards_debug ctx prep start end_ gvs (prep_gv_rewards (pr_Data prep) gv s e rewards) dbg
  end.

Definition setPRepReward_debug ctx (start end_ : Z) (prep : PRep) (blockHeight : Z) dbg
    : traced_outcome (Context D * (Z * Z * bytes)) :=
  let! (rewards, dbg) := prep_rewards_debug ctx prep start end_ (GV ctx)
                           (replicate (length (pd_List (pr_Data prep))) (0, 0)) dbg in
  let! a := prep_write_loop (Revision ctx) end_ blockHeight (zip (pd_List (pr_Data prep)) rewards)
              (mkAcc (DB ctx) 0 0 []) in
  Ok (set_DB (acc_idb a) ctx, (acc_new a, acc_reward a, shake256 (acc_hash a)), dbg).

Fixpoint prep_loop_debug (start to : Z) (preps : list PRep) ctx (newAccount totalReward : Z) (hash : bytes) dbg
    : traced_outcome (Context D * (Z * Z * bytes)) :=
  match preps with
  | [] => Ok (ctx, (newAccount, totalReward, hash), dbg)
  | prep :: preps =>
      if TotalDelegation (pr_Data prep) =? 0
      then prep_loop_debug start to preps ctx newAccount totalReward hash dbg
      else
        let '(s, e) := prep_period start to prep (head preps) in
        if e <=? s then prep_loop_debug start to preps ctx newAccount totalReward hash dbg
        else
          let! (ctx, (account, reward, h), dbg) := setPRepReward_debug ctx s e prep to dbg in
          prep_loop_debug start to preps ctx (newAccount +u account) (totalReward + reward) (hash ++ h) dbg
  end.

Definition calculatePRepReward_debug ctx (to : Z) dbg : traced_outcome (Context D * (Z * Z * bytes)) :=
  let! (ctx, (newAccount, totalReward, hash), dbg) :=
    prep_loop_debug (getCalcDoneBH (DB ctx)) to (ctx_PRep ctx) ctx 0 0 [] dbg in
  Ok (ctx, (newAccount, totalReward, shake256 hash), dbg).

(** ** The calculation

    [dbgDB] is the store of the debug results. *)

Definition store_debug_result dbg (dbgDB : D) : outcome debug_error (CalcDebug * D) :=
  if NeedToUpdateCalcDebugResult dbg then
    let! dbgDB := WriteCalcDebugResult dbg dbgDB in
    let! dbg := ResetCalcDebugResults dbg in
    Ok (dbg, dbgDB)
  else Ok (dbg, dbgDB).

Definition finish_calculation_debug (iissDB : D) (blockHeight : Z) ctx (stats : Statistics)
    (hashes : list (option bytes)) (acks : list (Z * CalculateResponse)) dbg (dbgDB : D)
    : outcome debug_error (calc_result D * CalcDebug * D) :=
  let! (ctx, (newAccount, reward, h1), dbg) := calculateIISSTX_debug ctx iissDB blockHeight dbg in
  let stats := add_reward_stats FBeta3 newAccount reward stats in
  let! (ctx, (newAccount, reward, h2), dbg) := calculateIISSBlockProduce_debug ctx iissDB blockHeight dbg in
  let stats := add_reward_stats FBeta1 newAccount reward stats in
  let! (ctx, (newAccount, reward, h3), dbg) := calculatePRepReward_debug ctx blockHeight dbg in
  let stats := add_reward_stats FBeta2 newAccount reward stats in
  let ctx := set_stats (Some stats) ctx in
  let stateHash := shake256 (h1 ++ h2 ++ h3 ++ concat (map nonNilBytes hashes)) in
  let! (dbg, dbgDB) := store_debug_result dbg dbgDB in
  let ctx := update_DB (setCalcDoneBH blockHeight) ctx in
  let ctx := update_DB (fun s =>
    set_calcResult (WriteCalculationResult (calcResult s) blockHeight (Some stats) stateHash) s) ctx in
  Ok (mkCalcResult ctx acks None blockHeight (ctx_stats ctx) (Some stateHash), dbg, dbgDB).

(** The exchange of the account DBs and the update of the context with the
    IISS data, up to the set-up of the debug output. *)
Definition start_calculation ctx (iissDB : D) (blockHeight : Z) (header : IISSHeader)
    (gvList : list IISSGovernanceVariable) (prepList : list PRep) : Context D :=
  let ctx := update_DB (toggleAccountDB (blockHeight +u 1)) ctx in
  let ctx := update_DB (fun s => resetAccountDB blockHeight (getCalcDoneBH s) s) ctx in
  let ctx := set_Revision (ih_Revision header) ctx in
  let ctx := UpdateGovernanceVariable gvList ctx in
  let ctx := UpdatePRep prepList ctx in
  UpdatePRepCandidate iissDB ctx.

Definition run_calculation_debug (env : calc_env) (quit : nat) (connected : bool) (id : Z) ctx
    (iissDB : D) (blockHeight : Z) (blockHash : bytes) (header : IISSHeader) (gvList : list IISSGovernanceVariable)
    (prepList : list PRep) dbg (dbgDB : D) : outcome debug_error (calc_result D * CalcDebug * D) :=
  let ctx := start_calculation ctx iissDB blockHeight header gvList prepList in
  let acks := sendCalculateACK connected id CalcRespStatusOK blockHeight in
  let! dbg := InitCalcDebugResult ctx (candidate_order (ctx_PRepCandidates ctx)) blockHeight blockHash dbg in
  let! (idb, statsList, hashes, dbg) :=
    calc_account_dbs_debug ctx env blockHeight 0 (getQueryDBList (DB ctx))
      (getCalcDBList (DB ctx)) (DB ctx) [] [] dbg in
  let ctx := set_DB idb ctx in
  let ctx := set_Cancel (cancel_during env (ctx_Cancel ctx)) ctx in
  if negb (quit =? channel (ctx_Cancel ctx))%nat then
    let code := cancelCode (ctx_Cancel ctx) in
    let err := if code =? CancelExit then Some (CalcCancelByExit blockHeight)
               else if code =? CancelRollback then Some (CalcCancelByRollbackError blockHeight)
               else None in
    let ctx := set_Cancel (mkCancel (channel (ctx_Cancel ctx)) CancelNone) ctx in
    Ok (mkCalcResult ctx acks err blockHeight None None, dbg, dbgDB)
  else
    finish_calculation_debug iissDB blockHeight ctx (foldl add_account_stats zero_Statistics statsList)
      hashes acks dbg dbgDB.

Definition DoCalculate_debug (env : calc_env) (quit : nat) ctx (req : CalculateRequest) (iissDB : D)
    (connected : bool) (id : Z) dbg (dbgDB : D) : outcome debug_error (calc_result D * CalcDebug * D) :=
  let reload := isReloadRequest (req_BlockHeight req) id in
  let blockHeight := req_BlockHeight req in
  let untouched (m : outcome debug_error (calc_result D)) : outcome debug_error (calc_result D * CalcDebug * D) :=
    let! r := m in Ok (r, dbg, dbgDB) in
  if negb reload && isCalculating (DB ctx) then
    Ok (mkCalcResult ctx (sendCalculateACK connected id CalcRespStatusDoing blockHeight)
          (Some ErrCalculating) blockHeight None None, dbg, dbgDB)
  else
    match LoadIISSData iissDB with
    | None => untouched (refuse connected id ctx CalcRespStatusInvalidData blockHeight ErrInvalidData)
    | Some (header, gvList, prepList) =>
        let blockHeight := ih_BlockHeight header in
        let blockHeight := if blockHeight =? 0 then getCalcDoneBH (DB ctx) +u 1 else blockHeight in
        let ctx := update_DB (setCalculatingBH blockHeight) ctx in
        let calcDoneBH := getCalcDoneBH (DB ctx) in
        if blockHeight =? calcDoneBH then
          untouched (refuse connected id ctx CalcRespStatusDuplicateBH blockHeight ErrDuplicateBH)
        else if blockHeight <? calcDoneBH then
          untouched (refuse connected id ctx CalcRespStatusInvalidBH blockHeight ErrTooLowBH)
        else run_calculation_debug env quit connected id ctx iissDB blockHeight (req_BlockHash req)
               header gvList prepList dbg dbgDB
    end.
End DebugCalc.
