(* ===== verification/DebugCalcSpec.v ===== *)
(** * The debug output does not touch the calculation

    Each function of [DebugCalc.v] computes what its counterpart without the
    output computes, a panic included.  What the output needs for this is that
    every configured address has a result with the periods of the governance
    variables ([ready]); the set-up makes it so and every write keeps it. *)

From S2P Require Import Prelude Bytes HexInt Address Store Codec Typed Account ClaimDB Management IISSData IScoreDB Context Reward Calculate DoCalculate CalcDebug DebugTrace DebugCalc.

(** ** Results that are ready *)

Definition rs_ready (gvs : list GovernanceVariable) (addresses : list Address) (rs : list CalcResult) : Prop :=
  forall a, a ∈ addresses -> exists i c, getCalcResult a rs = Some i /\ rs !! i = Some c /\
    rw_BlockHeight <$> Rewards c = gv_BlockHeight <$> gvs.

(** The configuration [cf], and, when there is something to write, a result
    with all its entries and a hash that can be a key. *)
Definition ready (gvs : list GovernanceVariable) (cf : CalcDebugConfig) (dbg : CalcDebug) : Prop :=
  conf dbg = cf /\
  (NeedToUpdateCalcDebugResult dbg = true ->
   exists r, result dbg = Some r /\ (2 <= length (cdr_BlockHash r))%nat /\ rs_ready gvs (Addresses cf) (cdr_Results r)).

(** [f] is [m] with the debug output: the same outcome, and what [P] says of
    the debug output still holds. *)
Definition transparent {A : Type} (P : CalcDebug -> Prop) (m : outcome debug_error A)
    (f : CalcDebug -> outcome debug_error (A * CalcDebug)) : Prop :=
  forall dbg, P dbg -> exists dbg', P dbg' /\ f dbg = (let! a := m in Ok (a, dbg')).

Definition writes (P : CalcDebug -> Prop) (f : CalcDebug -> outcome debug_error CalcDebug) : Prop :=
  forall dbg, P dbg -> exists dbg', P dbg' /\ f dbg = Ok dbg'.

Lemma transparent_Ok {A} P (a : A) : transparent P (Ok a) (fun dbg => Ok (a, dbg)).
Proof. intros dbg Hd. by exists dbg. Qed.

Lemma transparent_Panic {A} P : transparent (A := A) P Panic (fun _ => Panic).
Proof. intros dbg Hd. by exists dbg. Qed.

Lemma transparent_Err {A} P e : transparent (A := A) P (Err e) (fun _ => Err e).
Proof. destruct e. Qed.

Lemma transparent_bind {A B} P (m : outcome debug_error A) (k : A -> outcome debug_error B) f g :
  transparent P m f -> (forall a, m = Ok a -> transparent P (k a) (fun dbg => g (a, dbg))) ->
  transparent P (obind m k) (fun dbg => obind (f dbg) g).
Proof.
  intros Hm Hk dbg Hd. destruct (Hm dbg Hd) as (dbg1 & Hd1 & ->).
  destruct m as [a|e|]; cbn [obind]; [by apply Hk|by exists dbg1..].
Qed.

(** A step without output in between. *)
Lemma transparent_pure {A B} P (m : outcome debug_error A) (k : A -> outcome debug_error B) g :
  (forall a, m = Ok a -> transparent P (k a) (fun dbg => g dbg a)) ->
  transparent P (obind m k) (fun dbg => obind m (g dbg)).
Proof.
  intros Hk dbg Hd. destruct m as [a|e|]; cbn [obind]; [by apply Hk|by exists dbg..].
Qed.

Lemma transparent_write {A} P (m : outcome debug_error A) w f :
  writes P w -> transparent P m f -> transparent P m (fun dbg => obind (w dbg) f).
Proof. intros Hw Hm dbg Hd. destruct (Hw dbg Hd) as (dbg1 & Hd1 & ->). by apply Hm. Qed.

Create HintDb transparent.
#[export] Hint Resolve transparent_Ok transparent_Panic transparent_Err : transparent.

Section Ready.
Context {D : Type} `{!LevelDB D, !Codec IScoreData}.
Context (shared_words : Z -> Z -> Z).
Context (gvs : list GovernanceVariable) (cf : CalcDebugConfig).
Implicit Type (ctx : Context D) (rs : list CalcResult).

Lemma rs_ready_insert addresses rs i c c' :
  rs !! i = Some c -> cr_Address c' = cr_Address c ->
  rw_BlockHeight <$> Rewards c' = rw_BlockHeight <$> Rewards c ->
  rs_ready gvs addresses rs -> rs_ready gvs addresses (<[i := c']> rs).
Proof.
  intros Hc Ha Hr Hrs b Hb. destruct (Hrs b Hb) as (j & x & Hj & Hx & Hg).
  destruct (decide (i = j)) as [->|Hne].
  - simplify_eq. exists j, c'. rewrite (getCalcResult_insert _ _ _ _ _ Hc Ha), Hr.
    split_and!; [done|by apply list_lookup_insert_eq; eapply lookup_lt_Some|done].
  - exists j, x. rewrite (getCalcResult_insert _ _ _ _ _ Hc Ha). by rewrite list_lookup_insert_ne.
Qed.

(** A write above the height of some governance variable finds its reward. *)
Lemma write_reward_ready ctx a h amount f rs gv :
  (forall rw, rw_BlockHeight (f rw) = rw_BlockHeight rw) ->
  a ∈ Addresses cf -> gv ∈ gvs -> gv_BlockHeight gv < h -> rs_ready gvs (Addresses cf) rs ->
  exists rs', write_reward shared_words ctx a h amount f rs = Ok rs' /\ rs_ready gvs (Addresses cf) rs'.
Proof.
  intros Hf Ha Hgv Hh Hrs. destruct (Hrs a Ha) as (i & c & Hi & Hc & Hg).
  assert (is_Some (getReward c h)) as [j Hj].
  { assert (gv_BlockHeight gv ∈ rw_BlockHeight <$> Rewards c) as Hin by (rewrite Hg; by apply list_elem_of_fmap_2).
    apply list_elem_of_fmap in Hin as (rw & Hrw & Hin). eapply getReward_is_Some; [done|lia]. }
  erewrite write_reward_found by done. eexists. split; [done|].
  eapply rs_ready_insert; [done..| |done]. cbn [Rewards]. apply list_eq. intros k. rewrite !list_lookup_fmap.
  destruct (decide (k = j)) as [->|]; [rewrite list_lookup_alter_eq|by rewrite list_lookup_alter_ne].
  destruct (Rewards c !! j); cbn; [by rewrite Hf|done].
Qed.

Lemma for_addresses_ready write addresses rs :
  addresses ⊆ Addresses cf ->
  (forall a rs, a ∈ Addresses cf -> rs_ready gvs (Addresses cf) rs ->
    exists rs', write a rs = Ok rs' /\ rs_ready gvs (Addresses cf) rs') ->
  rs_ready gvs (Addresses cf) rs ->
  exists rs', for_addresses write addresses rs = Ok rs' /\ rs_ready gvs (Addresses cf) rs'.
Proof.
  intros Hs Hw. revert rs. induction addresses as [|a l IH]; intros rs Hrs; cbn [for_addresses]; [by exists rs|].
  destruct (Hw a rs) as (rs1 & -> & Hrs1); [apply Hs; by left|done|]. apply IH; [set_solver|done].
Qed.

Lemma write_info_ready write :
  (forall a rs, a ∈ Addresses cf -> rs_ready gvs (Addresses cf) rs ->
    exists rs', write a rs = Ok rs' /\ rs_ready gvs (Addresses cf) rs') ->
  writes (ready gvs cf) (write_info write).
Proof.
  intros Hw dbg [Hc Hr]. unfold write_info.
  destruct (NeedToUpdateCalcDebugResult dbg) eqn:En; [|exists dbg; split; [split; [done|by rewrite En]|done]].
  destruct (Hr eq_refl) as (r & -> & Hl & Hrs). rewrite Hc.
  destruct (for_addresses_ready write (Addresses cf) (cdr_Results r)) as (rs & -> & Hrs'); [done..|].
  eexists. split; [|done]. split; [done|]. intros _. by exists (set_Results rs r).
Qed.

Lemma WriteBeta1Info_ready ctx produceReward bp gv :
  gv ∈ gvs -> gv_BlockHeight gv < bp_BlockHeight bp ->
  writes (ready gvs cf) (WriteBeta1Info shared_words ctx produceReward bp).
Proof.
  intros Hgv Hh. apply write_info_ready. intros a rs Ha Hrs. unfold writeBeta1Info.
  repeat case_bool_decide; [by eapply write_reward_ready..|by exists rs].
Qed.

Lemma WriteBeta2Info_ready ctx di prep s e prepReward gv :
  big_Uint64 (TotalDelegation (pr_Data prep)) <> 0 -> gv ∈ gvs -> gv_BlockHeight gv < e ->
  writes (ready gvs cf) (WriteBeta2Info shared_words ctx di prep s e prepReward).
Proof.
  intros Ht Hgv Hh. apply write_info_ready. intros a rs Ha Hrs. unfold writeBeta2Info.
  case_bool_decide; [|by exists rs]. rewrite (proj2 (Z.eqb_neq _ _) Ht). by eapply write_reward_ready.
Qed.

Lemma WriteBeta3Info_ready ctx a rewardRep dg period e gv :
  gv ∈ gvs -> gv_BlockHeight gv < e ->
  writes (ready gvs cf) (WriteBeta3Info shared_words ctx a rewardRep dg period e).
Proof.
  intros Hgv Hh. apply write_info_ready. intros b rs Hb Hrs. unfold writeBeta3Info.
  case_bool_decide; [by eapply write_reward_ready|by exists rs].
Qed.

(** The set-up: for every address the stored I-Score can be read. *)
Definition scores_readable ctx : Prop := forall a, a ∈ Addresses cf -> exists z, initial_IScore ctx a = Ok z.

Lemma rs_ready_app addresses rs rs' : rs_ready gvs addresses rs -> rs_ready gvs addresses (rs ++ rs').
Proof.
  intros Hrs a Ha. destruct (Hrs a Ha) as (i & c & Hi & Hc & Hg). exists i, c. split_and!; [|by apply lookup_app_l_Some|done].
  rewrite getCalcResult_find in Hi |- *. apply fmap_Some in Hi as ([j x] & Hf & ->).
  rewrite fmap_app. by rewrite (list_find_app_l _ _ _ _ _ Hf).
Qed.

(** Entries with the right periods, whatever their addresses. *)
Definition all_periods rs : Prop := Forall (fun c => rw_BlockHeight <$> Rewards c = gv_BlockHeight <$> gvs) rs.

Lemma init_results ctx addresses rs :
  GV ctx = gvs -> scores_readable ctx -> addresses ⊆ Addresses cf -> all_periods rs ->
  exists rs', for_addresses (InitCalcResult ctx) addresses rs = Ok rs' /\ all_periods rs' /\
    forall a, a ∈ addresses \/ a ∈ cr_Address <$> rs -> a ∈ cr_Address <$> rs'.
Proof.
  intros Hgv Hread. revert rs. induction addresses as [|a l IH]; intros rs Hs Hrs; cbn [for_addresses].
  { exists rs. split_and!; [done..|]. intros b [Hb|?]; [by apply elem_of_nil in Hb|done]. }
  destruct (Hread a) as [z Hz]; [apply Hs; by left|]. unfold InitCalcResult at 1. rewrite Hz. cbn [obind].
  edestruct (IH (rs ++ [mkDebugCalcResult a z z (map (fun gv => NewReward (gv_BlockHeight gv)) (GV ctx))]))
    as (rs' & -> & Hp & Hin).
  - set_solver.
  - apply Forall_app. split; [done|]. constructor; [|done]. cbn. rewrite Hgv. change (@map) with (@list_fmap).
    by rewrite <-list_fmap_compose.
  - exists rs'. split_and!; [done..|]. intros b [[->|Hb]%elem_of_cons|Hb]; apply Hin; [right|by left|right];
      rewrite fmap_app; apply elem_of_app; [right|by left]. by apply list_elem_of_singleton.
Qed.

Lemma InitCalcDebugResult_ready ctx candidates h hash dbg :
  GV ctx = gvs -> scores_readable ctx -> conf dbg = cf ->
  exists dbg', InitCalcDebugResult ctx candidates h hash dbg = Ok dbg' /\ ready gvs cf dbg'.
Proof.
  intros Hgv Hread Hc. unfold InitCalcDebugResult.
  destruct (NeedToUpdateCalcDebugResult dbg) eqn:En; [|exists dbg; split; [done|split; [done|by rewrite En]]].
  rewrite Hc. destruct (init_results ctx (Addresses cf) []) as (rs & -> & Hp & Hin); [done..|by constructor|].
  eexists. split; [done|]. split; [done|]. intros _. eexists. split; [done|]. split; [cbn; lia|].
  intros a Ha. destruct (getCalcResult_is_Some a rs) as [i Hi]; [apply Hin; by left|].
  destruct (getCalcResult_Some _ _ _ Hi) as (c & Hc' & _). exists i, c. split_and!; [done..|].
  by apply (proj1 (Forall_lookup _ _) Hp i).
Qed.
End Ready.

(** ** Function by function *)

Section Transparent.
Context {D : Type} `{!LevelDB D}.
Context `{!Codec IScoreData, !Codec IISSTXData, !Codec IISSBlockProduceInfoData, !Codec CRData,
  !Codec DBInfoData, !Codec GVData, !Codec PRepData, !Codec PRepCandidateData,
  !Codec IISSHeader, !Codec IISSGVData, !Codec CalcDebugData}.
Context (shake256 : bytes -> bytes).
Context (map_order : gmap bytes Z -> list (bytes * Z)).
Context (shared_words : Z -> Z -> Z).
Context (candidate_order : PRepCandidates -> list PRepCandidate).
Context (gvs : list GovernanceVariable) (cf : CalcDebugConfig).
Implicit Type ctx : Context D.
Notation P := (ready gvs cf).

Lemma delegation_reward_transparent ctx a dg start end_ l total :
  l ⊆ gvs ->
  transparent P (Ok (delegation_reward_loop (dg_Delegate dg) start end_ l total))
    (delegation_reward_debug shared_words ctx a dg start end_ l total).
Proof.
  revert total. induction l as [|gv l IH]; intros total Hl; cbn [delegation_reward_debug delegation_reward_loop];
    [apply transparent_Ok|].
  assert (Hl' : l ⊆ gvs) by set_solver. pose proof (gv_period_overlap start end_ gv (head l)) as Hp.
  destruct (gv_period start end_ gv (head l)) as [s e]. destruct Hp as [Hs _].
  destruct (e <=? s) eqn:Ee; bool_to_Z; [by apply IH|].
  apply transparent_write; [|by apply IH]. eapply (WriteBeta3Info_ready _ _ _ _ _ _ _ _ _ gv); [set_solver|lia].
Qed.

Lemma calculateDelegationReward_transparent ctx dg start end_ pRep a :
  GV ctx = gvs ->
  transparent P (Ok (calculateDelegationReward gvs dg start end_ pRep))
    (calculateDelegationReward_debug shared_words ctx dg start end_ pRep a).
Proof. intros Hg. unfold calculateDelegationReward_debug, calculateDelegationReward. rewrite Hg. by apply delegation_reward_transparent. Qed.

Lemma delegations_reward_transparent ctx a start end_ dgs total :
  GV ctx = gvs ->
  transparent P (delegations_reward gvs (ctx_PRepCandidates ctx) start end_ dgs total)
    (delegations_reward_debug shared_words ctx a start end_ dgs total).
Proof.
  intros Hg. revert total. induction dgs as [|[dg|] dgs IH]; intros total;
    cbn [delegations_reward_debug delegations_reward]; eauto with transparent.
  destruct (_ <? _); [apply IH|]. destruct (_ !! _) as [pRep|]; [|apply IH].
  eapply (transparent_bind P (Ok _) (fun r => delegations_reward _ _ _ _ _ (total + r)));
    [by apply calculateDelegationReward_transparent|]. intros r _. apply IH.
Qed.

Lemma calculateIScore_transparent ctx ia bh :
  GV ctx = gvs ->
  transparent P (calculateIScore gvs (ctx_PRepCandidates ctx) ia bh) (calculateIScore_debug shared_words ctx ia bh).
Proof.
  intros Hg. unfold calculateIScore, calculateIScore_debug. set (h := if bh =? 0 then _ else _).
  destruct (h <=? _); [apply transparent_Ok|].
  apply transparent_bind; [by apply delegations_reward_transparent|]. intros total _. apply transparent_Ok.
Qed.

Lemma calc_loop_transparent ctx interrupted n bh batchCount l (s : calc_state D) :
  GV ctx = gvs ->
  transparent P (calc_loop gvs (ctx_PRepCandidates ctx) interrupted n bh batchCount l s)
    (calc_loop_debug shared_words ctx interrupted n bh batchCount l s).
Proof.
  intros Hg. revert n s. induction l as [|[k v] l IH]; intros n s; cbn [calc_loop calc_loop_debug]; [apply transparent_Ok|].
  destruct (interrupted n); [apply transparent_Ok|].
  destruct (NewIScoreAccountFromBytes v) as [ia|]; [|apply transparent_Ok].
  destruct (NewAddress _); [|apply transparent_Panic..].
  apply transparent_bind; [by apply calculateIScore_transparent|]. intros [ia' r] _. apply IH.
Qed.

Lemma calculateDB_transparent ctx interrupted (readDB writeDB : D) bh batchCount :
  GV ctx = gvs ->
  transparent P (calculateDB shake256 gvs (ctx_PRepCandidates ctx) interrupted readDB writeDB bh batchCount)
    (calculateDB_debug shake256 shared_words ctx interrupted readDB writeDB bh batchCount).
Proof.
  intros Hg. unfold calculateDB, calculateDB_debug. apply transparent_bind; [by apply calc_loop_transparent|].
  intros [s []] _; apply transparent_Ok.
Qed.

Lemma calc_account_dbs_transparent ctx env bh i query calc idb stats hashes :
  GV ctx = gvs ->
  transparent P
    (calc_account_dbs shake256 gvs (ctx_PRepCandidates ctx) env bh i query calc idb stats hashes)
    (calc_account_dbs_debug shake256 shared_words ctx env bh i query calc idb stats hashes).
Proof.
  intros Hg. revert i query idb stats hashes. induction calc as [|c calc IH]; intros i query idb stats hashes;
    cbn [calc_account_dbs calc_account_dbs_debug]; [apply transparent_Ok|].
  destruct query as [|q query]; [apply transparent_Panic|].
  apply transparent_bind; [exact (calculateDB_transparent (set_DB idb ctx) _ _ _ _ _ Hg)|].
  intros [d [[? ?] h]] _. apply IH.
Qed.

Lemma delegate_tx_transparent ctx bh tx (a : @reward_acc D) :
  GV ctx = gvs ->
  transparent P (delegate_tx gvs (ctx_PRepCandidates ctx) bh tx a) (delegate_tx_debug shared_words ctx bh tx a).
Proof.
  intros Hg. unfold delegate_tx, delegate_tx_debug.
  apply (transparent_pure P _ _ (fun dbg f => _)). intros f _.
  apply (transparent_pure P _ _ (fun dbg newIA => _)). intros newIA _.
  pose proof (fun ia => calculateIScore_transparent (set_DB (acc_idb a) ctx) ia bh Hg) as Hc.
  destruct (get_account _ _ _) as [data|].
  - destruct (NewIScoreAccountFromBytes data) as [ia|]; [|apply transparent_Ok].
    destruct (negb _); [apply transparent_Ok|]. destruct newIA as [newIA|]; [|apply transparent_Panic].
    apply transparent_bind; [apply Hc|]. intros [ia' ?] _.
    apply transparent_bind; [apply Hc|]. intros [ia'' ?] _. apply transparent_Ok.
  - destruct newIA as [newIA|]; [|apply transparent_Panic].
    apply transparent_bind; [apply Hc|]. intros [ia'' ?] _. apply transparent_Ok.
Qed.

Lemma tx_loop_transparent ctx bh tx l (a : @reward_acc D) :
  GV ctx = gvs ->
  transparent P (tx_loop gvs (ctx_PRepCandidates ctx) bh tx l a) (tx_loop_debug shared_words ctx bh tx l a).
Proof.
  intros Hg. revert tx a. induction l as [|[k v] l IH]; intros tx a; cbn [tx_loop tx_loop_debug]; [apply transparent_Ok|].
  destruct (tx_SetBytes v tx) as [tx' ok]. destruct (negb ok); [apply IH|].
  apply transparent_bind; [|intros a' _; apply IH].
  destruct (_ =? _); [by apply delegate_tx_transparent|apply transparent_Ok].
Qed.

Lemma calculateIISSTX_transparent ctx iissDB bh :
  GV ctx = gvs ->
  transparent P (calculateIISSTX shake256 ctx iissDB bh) (calculateIISSTX_debug shake256 shared_words ctx iissDB bh).
Proof.
  intros Hg. unfold calculateIISSTX, calculateIISSTX_debug. rewrite Hg.
  apply transparent_bind; [by apply tx_loop_transparent|]. intros a _. apply transparent_Ok.
Qed.

Lemma getGVByBlockHeight_Some ctx h gv : getGVByBlockHeight ctx h = Some gv -> gv ∈ GV ctx /\ gv_BlockHeight gv < h.
Proof.
  unfold getGVByBlockHeight. intros Hh%head_Some_elem_of. apply list_elem_of_filter in Hh as [Hlt Hin].
  split; [by rewrite elem_of_reverse in Hin|done].
Qed.

Lemma bp_loop_transparent ctx bp l m :
  GV ctx = gvs ->
  transparent P (Ok (bp_loop ctx bp l m)) (bp_loop_debug shared_words ctx bp l m).
Proof.
  intros Hg. revert bp m. induction l as [|[k v] l IH]; intros bp m; cbn [bp_loop bp_loop_debug]; [apply transparent_Ok|].
  destruct (bp_SetBytes v bp) as [bp' ok]. destruct (negb ok); [apply IH|].
  destruct (getGVByBlockHeight _ _) as [gv|] eqn:Egv; [|apply IH].
  apply getGVByBlockHeight_Some in Egv as [Hin Hlt]. rewrite Hg in Hin.
  cbn [bp_Data]. destruct (Validator (bp_Data bp')); [apply IH|].
  apply transparent_write; [by eapply WriteBeta1Info_ready|apply IH].
Qed.

Lemma calculateIISSBlockProduce_transparent ctx iissDB bh :
  GV ctx = gvs ->
  transparent P (calculateIISSBlockProduce shake256 map_order ctx iissDB bh)
    (calculateIISSBlockProduce_debug shake256 map_order shared_words ctx iissDB bh).
Proof.
  intros Hg. unfold calculateIISSBlockProduce, calculateIISSBlockProduce_debug.
  eapply (transparent_bind P (Ok _) (fun m => obind (bp_write_loop bh (map_order m) _ _ _ _) _));
    [by apply bp_loop_transparent|]. intros m _.
  apply (transparent_pure P _ _ (fun dbg f => _)). intros [[[? ?] ?] ?] _. apply transparent_Ok.
Qed.

Lemma write_prep_infos_ready ctx l prep s e prepReward gv :
  big_Uint64 (TotalDelegation (pr_Data prep)) <> 0 -> gv ∈ gvs -> gv_BlockHeight gv < e ->
  writes P (write_prep_infos shared_words ctx l prep s e prepReward).
Proof.
  intros Ht Hgv Hh. induction l as [|di l IH]; intros dbg Hd; cbn [write_prep_infos]; [by exists dbg|].
  destruct (WriteBeta2Info_ready shared_words gvs cf ctx di prep s e prepReward gv Ht Hgv Hh dbg Hd) as (dbg1 & Hd1 & ->).
  by apply IH.
Qed.

Lemma prep_rewards_transparent ctx prep start end_ l rewards :
  big_Uint64 (TotalDelegation (pr_Data prep)) <> 0 -> l ⊆ gvs ->
  transparent P (Ok (prep_rewards (pr_Data prep) start end_ l rewards))
    (prep_rewards_debug shared_words ctx prep start end_ l rewards).
Proof.
  intros Ht. revert rewards. induction l as [|gv l IH]; intros rewards Hl; cbn [prep_rewards prep_rewards_debug];
    [apply transparent_Ok|].
  assert (Hl' : l ⊆ gvs) by set_solver. destruct (prep_gv_period start end_ gv (head l)) as [s e] eqn:Ep.
  destruct (e <=? s) eqn:Ee; bool_to_Z; [by apply IH|].
  apply transparent_write; [|by apply IH]. apply (write_prep_infos_ready _ _ _ _ _ _ gv); [done|set_solver|].
  unfold prep_gv_period in Ep. destruct (start <=? gv_BlockHeight gv) eqn:E; bool_to_Z; simplify_eq; lia.
Qed.

Lemma setPRepReward_transparent ctx start end_ prep bh :
  big_Uint64 (TotalDelegation (pr_Data prep)) <> 0 -> GV ctx = gvs ->
  transparent P (setPRepReward shake256 ctx start end_ prep bh)
    (setPRepReward_debug shake256 shared_words ctx start end_ prep bh).
Proof.
  intros Ht Hg. unfold setPRepReward, setPRepReward_debug. rewrite Hg.
  eapply (transparent_bind P (Ok _) (fun rewards => obind (prep_write_loop _ _ _ (zip _ rewards) _) _));
    [by apply prep_rewards_transparent|]. intros rewards _.
  apply (transparent_pure P _ _ (fun dbg f => _)). intros a _. apply transparent_Ok.
Qed.

(** No total delegation is a positive multiple of 2^64. *)
Definition totals_ok (preps : list PRep) : Prop :=
  Forall (fun prep => TotalDelegation (pr_Data prep) <> 0 -> big_Uint64 (TotalDelegation (pr_Data prep)) <> 0) preps.

Lemma prep_loop_transparent start to preps ctx newAccount totalReward hash :
  totals_ok preps -> GV ctx = gvs ->
  transparent P (prep_loop shake256 start to preps ctx newAccount totalReward hash)
    (prep_loop_debug shake256 shared_words start to preps ctx newAccount totalReward hash).
Proof.
  intros Ht. revert ctx newAccount totalReward hash. induction Ht as [|prep preps Hp Ht IH]; intros ctx n t h Hg;
    cbn [prep_loop prep_loop_debug]; [apply transparent_Ok|].
  destruct (_ =? 0) eqn:E; bool_to_Z; [by apply IH|]. destruct (prep_period _ _ _ _) as [s e].
  destruct (e <=? s); [by apply IH|]. apply transparent_bind; [apply setPRepReward_transparent; [by apply Hp|done]|].
  intros [ctx' [[? ?] ?]] Hset. apply IH. rewrite <-Hg. unfold setPRepReward in Hset.
  apply obind_ok in Hset as (a & _ & [= <- _ _ _]). done.
Qed.

Lemma calculatePRepReward_transparent ctx to :
  totals_ok (ctx_PRep ctx) -> GV ctx = gvs ->
  transparent P (calculatePRepReward shake256 ctx to) (calculatePRepReward_debug shake256 shared_words ctx to).
Proof.
  intros Ht Hg. unfold calculatePRepReward, calculatePRepReward_debug.
  apply transparent_bind; [by apply prep_loop_transparent|]. intros [ctx' [[n t] h]] _. apply transparent_Ok.
Qed.

(** ** The calculation

    The set-up and the end of the output are not steps of the calculation:
    here the store of the debug results goes along. *)

Lemma calculateIISSTX_keeps {E} ctx iissDB bh ctx' r :
  calculateIISSTX (E := E) shake256 ctx iissDB bh = Ok (ctx', r) -> GV ctx' = GV ctx /\ ctx_PRep ctx' = ctx_PRep ctx.
Proof. unfold calculateIISSTX. by intros (a & _ & [= <- _])%obind_ok. Qed.

Lemma calculateIISSBlockProduce_keeps {E} ctx iissDB bh ctx' r :
  calculateIISSBlockProduce (E := E) shake256 map_order ctx iissDB bh = Ok (ctx', r) ->
  GV ctx' = GV ctx /\ ctx_PRep ctx' = ctx_PRep ctx.
Proof. unfold calculateIISSBlockProduce. by intros ([[[? ?] ?] ?] & _ & [= <- _])%obind_ok. Qed.

Lemma store_debug_result_ok dbg (dbgDB : D) :
  P dbg -> exists dbg' dbgDB', store_debug_result dbg dbgDB = Ok (dbg', dbgDB') /\ conf dbg' = cf.
Proof.
  intros [Hc Hr]. unfold store_debug_result. destruct (NeedToUpdateCalcDebugResult dbg); [|by exists dbg, dbgDB].
  destruct (Hr eq_refl) as (r & Er & Hl & _). unfold WriteCalcDebugResult, ResetCalcDebugResults, cdr_ID.
  rewrite Er. rewrite (proj2 (Nat.ltb_ge _ _) Hl). cbn [obind]. by eexists _, _.
Qed.

(** The outcome of [m] together with some debug output and store. *)
Definition carries {A : Type} (m : outcome debug_error A) (f : outcome debug_error (A * CalcDebug * D)) : Prop :=
  exists dbg' dbgDB', conf dbg' = cf /\ f = (let! a := m in Ok (a, dbg', dbgDB')).

Lemma carries_Ok {A} (a : A) dbg dbgDB : conf dbg = cf -> carries (Ok a) (Ok (a, dbg, dbgDB)).
Proof. intros Hc. by exists dbg, dbgDB. Qed.

Lemma carries_bind {A B} (m : outcome debug_error A) (k : A -> outcome debug_error B) f g dbg (dbgDB : D) :
  transparent P m f -> P dbg ->
  (forall a dbg, m = Ok a -> P dbg -> carries (k a) (g (a, dbg))) ->
  carries (obind m k) (obind (f dbg) g).
Proof.
  intros Hm Hd Hk. destruct (Hm dbg Hd) as (dbg1 & Hd1 & ->).
  destruct m as [a|e|]; cbn [obind]; [by apply Hk|destruct e|exists dbg1, dbgDB; split; [apply Hd1|done]].
Qed.

Lemma finish_calculation_carries iissDB bh ctx stats hashes acks dbg (dbgDB : D) :
  P dbg -> GV ctx = gvs -> totals_ok (ctx_PRep ctx) ->
  carries (finish_calculation shake256 map_order iissDB bh ctx stats hashes acks)
    (finish_calculation_debug shake256 map_order shared_words iissDB bh ctx stats hashes acks dbg dbgDB).
Proof.
  intros Hd Hg Ht. unfold finish_calculation, finish_calculation_debug.
  apply carries_bind; [done|by apply calculateIISSTX_transparent|done|]. intros [ctx1 [[n1 r1] h1]] dbg1 E1 Hd1.
  apply calculateIISSTX_keeps in E1 as [G1 T1].
  apply carries_bind; [done|by apply calculateIISSBlockProduce_transparent; congruence|done|].
  intros [ctx2 [[n2 r2] h2]] dbg2 E2 Hd2. apply calculateIISSBlockProduce_keeps in E2 as [G2 T2].
  apply carries_bind; [done|apply calculatePRepReward_transparent; [by rewrite T2, T1|congruence]|done|].
  intros [ctx3 [[n3 r3] h3]] dbg3 E3 Hd3.
  destruct (store_debug_result_ok dbg3 dbgDB Hd3) as (dbg4 & dbgDB' & -> & Hc). by apply carries_Ok.
Qed.

Lemma run_calculation_carries env quit connected id ctx iissDB bh hash header gvList prepList dbg (dbgDB : D) :
  let ctx' := start_calculation ctx iissDB bh header gvList prepList in
  conf dbg = cf -> GV ctx' = gvs -> scores_readable cf ctx' -> totals_ok (ctx_PRep ctx') ->
  carries (run_calculation shake256 map_order env quit connected id ctx iissDB bh header gvList prepList)
    (run_calculation_debug shake256 map_order shared_words candidate_order env quit connected id ctx iissDB bh hash
       header gvList prepList dbg dbgDB).
Proof.
  intros ctx' Hc Hg Hs Ht. unfold run_calculation, run_calculation_debug. fold (start_calculation ctx iissDB bh header gvList prepList).
  fold ctx'. destruct (InitCalcDebugResult_ready shared_words gvs cf ctx' (candidate_order (ctx_PRepCandidates ctx')) bh hash dbg)
    as (dbg1 & -> & Hd1); [done..|]. cbn [obind].
  apply carries_bind; [done| |done|].
  { rewrite Hg. by apply calc_account_dbs_transparent. }
  intros [[idb statsList] hashes] dbg2 _ Hd2. set (ctx2 := set_Cancel _ _).
  destruct (negb _); [apply carries_Ok; apply Hd2|by apply finish_calculation_carries].
Qed.
End Transparent.

Section Whole.
Context {D : Type} `{!LevelDB D}.
Context `{!Codec IScoreData, !Codec IISSTXData, !Codec IISSBlockProduceInfoData, !Codec CRData,
  !Codec DBInfoData, !Codec GVData, !Codec PRepData, !Codec PRepCandidateData,
  !Codec IISSHeader, !Codec IISSGVData, !Codec CalcDebugData}.
Context (shake256 : bytes -> bytes).
Context (map_order : gmap bytes Z -> list (bytes * Z)).
Context (shared_words : Z -> Z -> Z).
Context (candidate_order : PRepCandidates -> list PRepCandidate).
Implicit Type ctx : Context D.

(** The context when the debug output is set up, for IISS data that loads. *)
Definition started ctx (iissDB : D) : option (Context D) :=
  '(header, gvList, prepList) ← LoadIISSData iissDB;
  let blockHeight := if ih_BlockHeight header =? 0 then getCalcDoneBH (DB ctx) +u 1 else ih_BlockHeight header in
  Some (start_calculation (update_DB (setCalculatingBH blockHeight) ctx) iissDB blockHeight header gvList prepList).

(** C14: The debug output is transparent: whatever the flag and the addresses, a
    CALCULATE request handled with the output has the outcome it has without
    it (the context, the acknowledgements, the results, or a panic), and the
    configuration is kept.  It needs that the stored I-Score of each configured
    address can be read and that no total delegation of a P-Rep list is a
    positive multiple of 2^64, by which the output divides. *)
Theorem DoCalculate_debug_transparent env quit ctx req iissDB connected id dbg (dbgDB : D) :
  (forall ctx', started ctx iissDB = Some ctx' ->
     scores_readable (conf dbg) ctx' /\ totals_ok (ctx_PRep ctx')) ->
  exists dbg' dbgDB', conf dbg' = conf dbg /\
    DoCalculate_debug shake256 map_order shared_words candidate_order env quit ctx req iissDB connected id dbg dbgDB =
    let! r := DoCalculate shake256 map_order env quit ctx req iissDB connected id in Ok (r, dbg', dbgDB').
Proof.
  intros Hstart. unfold DoCalculate_debug, DoCalculate.
  destruct (negb _ && _); [by apply carries_Ok|]. unfold started in Hstart.
  destruct (LoadIISSData iissDB) as [[[header gvList] prepList]|]; [|by exists dbg, dbgDB].
  cbn [mbind option_bind] in Hstart. cbv zeta. cbv zeta in Hstart. set (bh := if ih_BlockHeight header =? 0 then _ else _) in *.
  destruct (bh =? _); [by exists dbg, dbgDB|]. destruct (bh <? _); [by exists dbg, dbgDB|].
  destruct (Hstart _ eq_refl) as [Hs Ht]. by eapply run_calculation_carries.
Qed.
End Whole.
