(* ===== verification/AccountPass.v ===== *)
(** * The pass over the account DBs

    The first half of [DoCalculate] of [core/msg_calculate.go]: every query DB
    is read and its accounts written, calculated, to the calculate DB of the
    same number.  Interrupted or not, a pass leaves well-formed DBs; one that
    is not interrupted calculates every account. *)

From S2P Require Import Prelude Bytes HexInt Address Store Codec Typed Account ClaimDB Management IISSData IScoreDB Context Reward Calculate AccountDBs DoCalculate.

Section AccountPass.
Context {D : Type} `{!LevelDB D, !LevelDBLaws D}.
Context `{!Codec IScoreData, !CodecLaws IScoreData, !Codec DBInfoData}.
Context (shake256 : bytes -> bytes).
Context (gvs : list GovernanceVariable) (candidates : PRepCandidates).
Implicit Type (s : IScoreDB D) (d : D) (a : Address).

Lemma advance_good bh x : is_u64 bh -> good_account x -> good_account (advance gvs candidates bh x).
Proof. intros Hb [[_ Hw] Hs]. split; [split; [exact Hb|exact Hw]|exact Hs]. Qed.

(** ** Interrupted or not *)

(** A DB, or a batch, of accounts whose addresses satisfy a predicate. *)
Definition entry_ok (P : bytes -> Prop) (k v : bytes) : Prop := wf_Address k /\ P k /\ exists x, account_value v x.
Definition db_ok (P : bytes -> Prop) d : Prop := forall k v, ldb_get d k = Some v -> entry_ok P k v.
Definition op_ok (P : bytes -> Prop) (o : batch_op) : Prop :=
  match o with BatchPut k v => entry_ok P k v | BatchDelete _ => True end.

Lemma db_ok_put P d k v : db_ok P d -> entry_ok P k v -> db_ok P (ldb_put k v d).
Proof. intros Hd Hk k' v'. rewrite ldb_get_put. case_decide as E; [subst; by intros [= <-]|apply Hd]. Qed.

Lemma batch_Write_ok P b d : db_ok P d -> Forall (op_ok P) b -> db_ok P (batch_Write b d).
Proof.
  intros Hd Hb. unfold batch_Write. revert d Hd.
  induction Hb as [|[k v|k] b Ho _ IH]; intros d Hd; cbn [fold_left batch_apply]; [done| |]; apply IH.
  - by apply db_ok_put.
  - intros k' v'. rewrite ldb_get_delete. case_decide; [done|apply Hd].
Qed.

Lemma store_account_ok P bc k ia r (st : calc_state D) : entry_ok P k (ia_Bytes ia) ->
  db_ok P (calc_db st) -> Forall (op_ok P) (calc_batch st) ->
  let st' := store_account bc k (drop (length PrefixIScore) k) ia r st in
  db_ok P (calc_db st') /\ Forall (op_ok P) (calc_batch st').
Proof.
  intros Hk Hd Hb. unfold store_account, batch_Set.
  assert (Hb' : Forall (op_ok P) (calc_batch st ++ [BatchPut k (ia_Bytes ia)])).
  { apply Forall_app. split; [done|]. by constructor. }
  destruct (0 <? bc); [destruct (_ =? bc)|]; cbn [calc_db calc_batch].
  - split; [by apply batch_Write_ok|apply Forall_nil_2].
  - done.
  - split; [|done]. unfold bucket_Set. rewrite internalKey_app. by apply db_ok_put.
Qed.

Lemma calc_loop_ok {E : Type} P intr n bh bc l (st : calc_state D) : bh <> 0 -> is_u64 bh ->
  Forall (fun e => entry_ok P e.1 e.2) l -> db_ok P (calc_db st) -> Forall (op_ok P) (calc_batch st) ->
  exists st' e, calc_loop (E := E) gvs candidates intr n bh bc l st = Ok (st', e) /\
    db_ok P (calc_db st') /\ Forall (op_ok P) (calc_batch st').
Proof.
  intros Hb0 Hb Hl. revert n st.
  induction Hl as [|[k v] l (Hk & HP & x & [Ev Hx]%account_value_good) _ IH]; intros n st Hd Hbt; cbn [calc_loop].
  { by exists st, Finished. }
  cbn [fst snd] in Hk, HP, Ev. subst v. destruct (intr n); [by exists st, Interrupted|].
  rewrite NewIScoreAccountFromBytes_marshal by apply Hx.
  change (drop (length PrefixIScore) k) with k.
  change (NewAddress (Some k)) with (NewAddress (Some (Address_Bytes k))). rewrite NewAddress_Bytes by done.
  rewrite calculateIScore_spec by (assumption || apply Hx).
  destruct (_ <=? _); cbn [obind]; [by apply IH|].
  match goal with |- context [store_account _ _ _ ?ia ?r ?s1] =>
    destruct (store_account_ok P bc k ia r s1) as [H1 H2]; [|done|done|] end.
  - split_and!; [done|done|]. eexists. apply account_value_good. split; [done|]. by apply advance_good.
  - by apply IH.
Qed.

Lemma calculateDB_ok {E : Type} P intr readDB writeDB bh bc : bh <> 0 -> is_u64 bh ->
  db_ok P readDB -> db_ok P writeDB ->
  exists d c st h, calculateDB (E := E) shake256 gvs candidates intr readDB writeDB bh bc = Ok (d, (c, st, h)) /\
    db_ok P d.
Proof.
  intros Hb0 Hb Hr Hw. unfold calculateDB. change (iter_New None None readDB) with (ldb_iter None readDB).
  destruct (calc_loop_ok (E := E) P intr 0 bh bc (ldb_iter None readDB) (mkCalcState writeDB batch_New 0 0 [] zero_Statistics))
    as (st & e & -> & H1 & H2); [done|done| |done|apply Forall_nil_2|].
  { apply Forall_forall. intros [k v] [Hk _]%ldb_iter_elem. by apply Hr. }
  cbn [obind]. destruct e; do 4 eexists; (split; [done|]); [|done|done].
  destruct (0 <? bc); [by apply batch_Write_ok|done].
Qed.

(** The DBs of both lists, by number. *)
Lemma query_names s : accounts_inv s -> getQueryDBList s = map (query_name s) (seqZ 1 (DBCount (info s))).
Proof. intros Hs. by rewrite (query_list s (ai_ok _ Hs)). Qed.
Lemma calc_names s : accounts_inv s -> getCalcDBList s = map (calc_name s) (seqZ 1 (DBCount (info s))).
Proof. intros Hs. by rewrite (calc_list s (ai_ok _ Hs)). Qed.

Definition placed_in s (i : Z) (k : bytes) : Prop := db_no (DBCount (info s)) k = i.

Lemma db_at_ok s i p : accounts_inv s -> db_ok (placed_in s i) (db_at s (AccountName i (DBCount (info s)) p)).
Proof.
  intros Hs k v Hk. destruct (db_at_inv s _ Hs _ _ Hk) as (Ha & Hx). split_and!; [done| |done].
  apply (db_at_placed s i p k Hs). by rewrite Hk.
Qed.

Lemma accounts_inv_db s i p d : accounts_inv s -> db_ok (placed_in s i) d ->
  accounts_inv (db_update (AccountName i (DBCount (info s)) p) d s).
Proof.
  intros Hs Hd. apply accounts_inv_update; [done| |].
  - intros k v Hk. by destruct (Hd k v Hk) as (? & _ & ?).
  - intros k [v Hk]. by destruct (Hd k v Hk) as (_ & ? & _).
Qed.

Lemma calc_account_dbs_ok {E : Type} env bh s0 js i s st hs : bh <> 0 -> is_u64 bh ->
  accounts_inv s -> files_only s0 s ->
  exists s' st' hs', calc_account_dbs (E := E) shake256 gvs candidates env bh i
      (map (query_name s0) js) (map (calc_name s0) js) s st hs = Ok (s', st', hs') /\
    files_only s0 s' /\ accounts_inv s'.
Proof.
  intros Hb0 Hb. revert i s st hs.
  induction js as [|j js IH]; intros i s st hs Hs Hf; cbn [map calc_account_dbs]; [by exists s, st, hs|].
  destruct (files_only_info _ _ Hf) as (Hi & _ & _).
  destruct (calculateDB_ok (E := E) (placed_in s j) (interrupted env i) (db_at s (query_name s0 j))
    (db_at s (calc_name s0 j)) bh writeBatchCount Hb0 Hb) as (d & c & t & h & -> & Hd).
  { unfold query_name. rewrite <-Hi. by apply db_at_ok. }
  { unfold calc_name. rewrite <-Hi. by apply db_at_ok. }
  cbn [obind]. apply IH.
  - unfold calc_name. rewrite <-Hi. by apply accounts_inv_db.
  - etransitivity; [exact Hf|]. apply files_only_update.
Qed.

(** ** Not interrupted *)

Lemma db_at_update s f d f' : db_at (db_update f d s) f' = if decide (f = f') then d else db_at s f'.
Proof.
  unfold db_at, db_update. cbn [files set_files]. case_decide as Ef; [subst; by rewrite lookup_insert_eq|].
  by rewrite lookup_insert_ne.
Qed.

Lemma calc_name_inj s i j : calc_name s i = calc_name s j -> i = j.
Proof. unfold calc_name. by intros [=]. Qed.
Lemma calc_query_name s i j : calc_name s i <> query_name s j.
Proof. unfold calc_name, query_name. destruct (postfix_cases s) as [[-> ->]|[-> ->]]; by intros [=]. Qed.

(** What the pass leaves in the calculate DB of a number. *)
Definition pass_db bh s (j : Z) (k : bytes) : option bytes :=
  match ldb_get (db_at s (query_name s j)) k with
  | Some v => if is_due bh (k, v) then Some (ia_Bytes (advanced gvs candidates bh (k, v)))
              else ldb_get (db_at s (calc_name s j)) k
  | None => ldb_get (db_at s (calc_name s j)) k
  end.

(** The state hash of the pass over one account DB. *)
Definition pass_hash bh s (j : Z) : option bytes :=
  let accounts := due_accounts bh (db_at s (query_name s j)) in
  Some (if 0 <? u64 (Z.of_nat (length accounts))
        then shake256 (concat (map (fun e => ia_BytesForHash (advanced gvs candidates bh e)) accounts))
        else make_bytes 64).

Definition uninterrupted (env : calc_env) : Prop := forall i n, interrupted env i n = false.

Lemma calculateDB_quiet {E : Type} env i readDB writeDB bh bc : uninterrupted env ->
  calculateDB (E := E) shake256 gvs candidates (interrupted env i) readDB writeDB bh bc =
  calculateDB (E := E) shake256 gvs candidates (fun _ => false) readDB writeDB bh bc.
Proof.
  intros Hq. unfold calculateDB.
  assert (forall l n st, calc_loop (E := E) gvs candidates (interrupted env i) n bh bc l st =
    calc_loop (E := E) gvs candidates (fun _ => false) n bh bc l st) as H; [|by rewrite H].
  induction l as [|[k v] l IH]; intros n st; cbn [calc_loop]; [done|]. rewrite Hq.
  destruct (NewIScoreAccountFromBytes v) as [ia|]; [|done]. destruct (NewAddress _); [|done..].
  destruct (calculateIScore _ _ _ _) as [[ia' r]| |]; cbn [obind]; [apply IH|done..].
Qed.

Lemma quiet_pass {E : Type} env bh s0 js i s st hs : uninterrupted env -> bh <> 0 -> is_u64 bh -> NoDup js ->
  accounts_inv s -> files_only s0 s ->
  (forall j, j ∈ js -> db_at s (query_name s0 j) = db_at s0 (query_name s0 j) /\
     db_at s (calc_name s0 j) = db_at s0 (calc_name s0 j)) ->
  exists s', calc_account_dbs (E := E) shake256 gvs candidates env bh i
      (map (query_name s0) js) (map (calc_name s0) js) s st hs
      = Ok (s', st ++ map (fun j => pass_stats gvs candidates bh
                             (ldb_iter None (db_at s0 (query_name s0 j))) zero_Statistics) js,
            hs ++ map (pass_hash bh s0) js) /\
    (forall j k, j ∈ js -> ldb_get (db_at s' (calc_name s0 j)) k = pass_db bh s0 j k) /\
    (forall f, (forall j, j ∈ js -> f <> calc_name s0 j) -> db_at s' f = db_at s f) /\
    files_only s0 s' /\ accounts_inv s'.
Proof.
  intros Hq Hb0 Hb Hnd. revert i s st hs.
  induction Hnd as [|j js Hn _ IH]; intros i s st hs Hs Hf Heq; cbn [map calc_account_dbs].
  { exists s. rewrite !app_nil_r. split_and!; try done. intros j k []%not_elem_of_nil. }
  destruct (files_only_info _ _ Hf) as (Hi & _ & _).
  rewrite calculateDB_quiet by done. destruct (Heq j) as [Hqj Hcj]; [by left|].
  destruct (calculateDB_result (E := E) shake256 gvs candidates (db_at s (query_name s0 j))
    (db_at s (calc_name s0 j)) bh writeBatchCount (db_at_inv _ _ Hs) Hb0) as (d & Ed & Hd).
  destruct (calculateDB_ok (E := E) (placed_in s j) (fun _ => false) (db_at s (query_name s0 j))
    (db_at s (calc_name s0 j)) bh writeBatchCount Hb0 Hb) as (d' & c & t & h & Ed' & Hok).
  { unfold query_name. rewrite <-Hi. by apply db_at_ok. }
  { unfold calc_name. rewrite <-Hi. by apply db_at_ok. }
  assert (d' = d) as -> by (rewrite Ed in Ed'; congruence). clear Ed'. rewrite Ed. cbn [obind].
  set (s1 := db_update (calc_name s0 j) d s).
  assert (Hs1 : accounts_inv s1).
  { unfold s1, calc_name. rewrite <-Hi. by apply accounts_inv_db. }
  assert (Hf1 : files_only s0 s1) by (etransitivity; [exact Hf|apply files_only_update]).
  destruct (IH (S i) s1 (st ++ [pass_stats gvs candidates bh (ldb_iter None (db_at s (query_name s0 j))) zero_Statistics])
    (hs ++ [Some (if 0 <? u64 (Z.of_nat (length (due_accounts bh (db_at s (query_name s0 j)))))
       then shake256 (concat (map (fun e => ia_BytesForHash (advanced gvs candidates bh e))
              (due_accounts bh (db_at s (query_name s0 j)))))
       else make_bytes 64)])) as (s' & E1 & H1 & H2 & H3 & H4); [done|done| |].
  { intros j' Hj'. unfold s1. rewrite !db_at_update.
    rewrite decide_False by apply calc_query_name.
    rewrite decide_False by (intros ->%calc_name_inj; done). apply Heq. by right. }
  exists s'. split_and!; [|  | |done|done].
  - rewrite E1, <-!app_assoc, Hqj. unfold pass_hash at 2. done.
  - intros j' k [->|Hj']%elem_of_cons; [|by apply H1].
    rewrite H2 by (intros j1 Hj1 ->%calc_name_inj; done). unfold s1. rewrite db_at_update, decide_True by done.
    rewrite Hd, Hqj, Hcj. done.
  - intros f Hff. rewrite H2 by (intros j1 Hj1; apply Hff; by right).
    unfold s1. rewrite db_at_update, decide_False; [done|]. intros <-. by apply (Hff j); [left|].
Qed.

(** ** The accounts after a pass *)

Lemma calc_account_get s a : accounts_inv s -> wf_Address a ->
  calc_account s a = option_map decode_account (ldb_get (db_at s (calc_name s (db_no (DBCount (info s)) a))) a).
Proof. intros Hs Ha. unfold calc_account. rewrite getCalculateDB_name by done. unfold get_account. by rewrite bucket_Get_ldb. Qed.

Lemma query_account_get s a : accounts_inv s -> wf_Address a ->
  query_account s a = option_map decode_account (ldb_get (db_at s (query_name s (db_no (DBCount (info s)) a))) a).
Proof. intros Hs Ha. unfold query_account. rewrite getQueryDB_name by done. unfold get_account. by rewrite bucket_Get_ldb. Qed.

(** An account read from a query DB, after the pass. *)
Definition passed bh (x : IScoreData) (old : option IScoreData) : option IScoreData :=
  if BlockHeight x <? bh then Some (advance gvs candidates bh x) else old.

Definition query_stats bh s : list Statistics :=
  map (fun j => pass_stats gvs candidates bh (ldb_iter None (db_at s (query_name s j))) zero_Statistics)
    (seqZ 1 (DBCount (info s))).

Lemma pass_accounts {E : Type} env bh s : uninterrupted env -> bh <> 0 -> is_u64 bh -> accounts_inv s ->
  exists s' hs, calc_account_dbs (E := E) shake256 gvs candidates env bh 0 (getQueryDBList s) (getCalcDBList s) s [] []
      = Ok (s', query_stats bh s, hs) /\ files_only s s' /\ accounts_inv s' /\
    forall a, wf_Address a -> query_account s' a = query_account s a /\
      calc_account s' a = match query_account s a with
                          | Some x => passed bh x (calc_account s a)
                          | None => calc_account s a
                          end.
Proof.
  intros Hq Hb0 Hb Hs. rewrite query_names, calc_names by done.
  destruct (quiet_pass (E := E) env bh s (seqZ 1 (DBCount (info s))) 0 s [] [] Hq Hb0 Hb (NoDup_seqZ _ _) Hs)
    as (s' & -> & H1 & H2 & H3 & H4); [reflexivity|done|].
  exists s', (map (pass_hash bh s) (seqZ 1 (DBCount (info s)))). split_and!; [done..|]. intros a Ha.
  destruct (files_only_info _ _ H3) as (Hi & _ & _).
  pose proof (db_no_range _ a (ai_count _ Hs) Ha) as Hr. set (j := db_no (DBCount (info s)) a) in *.
  rewrite (query_account_get s'), (query_account_get s), (calc_account_get s'), (calc_account_get s) by done.
  unfold query_name at 1, calc_name at 1, query_postfix, calc_postfix. rewrite Hi. fold j.
  fold (query_postfix s) (calc_postfix s) (query_name s j) (calc_name s j). split.
  - by rewrite H2 by (intros j' _ E'; by apply (calc_query_name s j' j)).
  - rewrite H1 by (apply elem_of_seqZ; lia). unfold pass_db.
    destruct (ldb_get (db_at s (query_name s j)) a) as [v|] eqn:Hv; cbn [option_map]; [|done].
    destruct (db_at_inv s _ Hs _ _ Hv) as (_ & x & [-> Hx]%account_value_good).
    unfold is_due, advanced, passed. cbn [fst snd]. rewrite decode_account_marshal by apply Hx.
    destruct (_ <? _); [|done]. cbn [option_map]. unfold ia_Bytes. cbn [ia_Data].
    f_equal. apply decode_account_marshal. by apply advance_good.
Qed.

(** C13: the pass over all account DBs, when it is not interrupted, gives every
    account that is below the height the reward of its delegations up to it,
    exactly once, whatever DB it is in; the DBs that are read do not change. *)
Theorem calc_account_dbs_spec {E : Type} env bh s : uninterrupted env -> bh <> 0 -> is_u64 bh -> accounts_inv s ->
  exists s' stats hashes,
    calc_account_dbs (E := E) shake256 gvs candidates env bh 0 (getQueryDBList s) (getCalcDBList s) s [] []
      = Ok (s', stats, hashes) /\
    accounts_inv s' /\
    forall a, wf_Address a -> query_account s' a = query_account s a /\
      forall x, query_account s a = Some x -> BlockHeight x < bh ->
        calc_account s' a
        = Some (mkIScoreData (IScore x + account_reward gvs candidates x bh) bh (Delegations x)).
Proof.
  intros Hq Hb0 Hb Hs. destruct (pass_accounts (E := E) env bh s Hq Hb0 Hb Hs) as (s' & hs & E1 & _ & H2 & H3).
  exists s', (query_stats bh s), hs. split_and!; [done..|]. intros a Ha. destruct (H3 a Ha) as [Hqa Hca].
  split; [done|]. intros x Hx Hlt. rewrite Hca, Hx. unfold passed. by rewrite (proj2 (Z.ltb_lt _ _)).
Qed.

(** ** The reward of a pass *)

(** The entries of a DB, counted by their addresses. *)
Lemma db_sum d (g : bytes -> Z) l : NoDup l -> (forall k, is_Some (ldb_get d k) -> k ∈ l) ->
  Zsum (map (fun e => g e.2) (ldb_iter None d)) =
  Zsum (map (fun a => match ldb_get d a with Some v => g v | None => 0 end) l).
Proof.
  intros Hnd Hl. set (h := fun a => match ldb_get d a with Some v => g v | None => 0 end).
  assert (Hp : (ldb_iter None d).*1 ≡ₚ filter (fun a => is_Some (ldb_get d a)) l).
  { apply NoDup_Permutation; [apply iter_keys_NoDup|by apply NoDup_filter|]. intros k.
    rewrite list_elem_of_filter, list_elem_of_fmap. split.
    - intros ([k' v] & -> & [Hk _]%ldb_iter_elem). cbn [fst]. split; [by eexists|]. apply Hl. by eexists.
    - intros [[v Hv] _]. exists (k, v). split; [done|]. by apply ldb_iter_elem. }
  transitivity (Zsum (map h (ldb_iter None d).*1)).
  - rewrite map_map. f_equal. apply map_ext_in. intros [k v] [Hk _]%list_elem_of_In%ldb_iter_elem.
    unfold h. cbn [fst snd]. by rewrite Hk.
  - rewrite Hp, Zsum_filter. f_equal. apply map_ext. intros a. unfold h.
    case_decide as Hd; [done|]. destruct (ldb_get d a); [|done]. destruct Hd. by eexists.
Qed.

(** What the pass pays to an account. *)
Definition pass_reward bh (o : option IScoreData) : Z :=
  match o with
  | Some x => if BlockHeight x <? bh then account_reward gvs candidates x bh else 0
  | None => 0
  end.

(** Every address that has an account to calculate is in the list. *)
Definition query_covered s (l : list Address) : Prop :=
  forall j k, 1 <= j <= DBCount (info s) -> is_Some (ldb_get (db_at s (query_name s j)) k) -> k ∈ l.

(** The statistics of a pass add up to the rewards of the accounts. *)
Lemma pass_total bh s l : accounts_inv s -> NoDup l -> Forall wf_Address l -> query_covered s l ->
  Zsum (map Beta3 (query_stats bh s)) = Zsum (map (fun a => pass_reward bh (query_account s a)) l).
Proof.
  intros Hs Hnd Hw Hc. unfold query_stats. rewrite map_map.
  set (h := fun j a => match ldb_get (db_at s (query_name s j)) a with
                       | Some v => pass_reward bh (Some (decode_account v)) | None => 0 end).
  transitivity (Zsum (map (fun j => Zsum (map (h j) l)) (seqZ 1 (DBCount (info s))))).
  - f_equal. apply map_ext_in. intros j Hj%list_elem_of_In%elem_of_seqZ.
    unfold pass_stats. cbn [Beta3 zero_Statistics]. unfold due_rewards, due.
    rewrite Zsum_filter, Z.add_0_l. unfold h.
    rewrite <-(db_sum _ (fun v => pass_reward bh (Some (decode_account v))) l Hnd).
    + f_equal. apply map_ext. intros [k v]. unfold is_due, pass_reward. cbn [snd].
      destruct (_ <? _); [by rewrite decide_True|by rewrite decide_False].
    + intros k Hk. apply (Hc j); [lia|done].
  - rewrite Zsum_swap. f_equal. apply map_ext_in. intros a Ha%list_elem_of_In.
    rewrite Forall_forall in Hw. specialize (Hw a Ha).
    pose proof (db_no_range _ a (ai_count _ Hs) Hw) as Hr.
    rewrite (Zsum_single (fun j => h j a) _ (db_no (DBCount (info s)) a)).
    + unfold h. rewrite query_account_get by done. by destruct (ldb_get _ a).
    + apply NoDup_seqZ.
    + apply elem_of_seqZ. lia.
    + intros j _ Hne. unfold h. destruct (ldb_get (db_at s (query_name s j)) a) eqn:E'; [|done].
      destruct Hne. symmetry. apply (db_at_placed s j (query_postfix s) a Hs).
      unfold query_name in E'. by rewrite E'.
Qed.
End AccountPass.
