(* ===== verification/CalcState.v ===== *)
(** * The state machine of CALCULATE

    What a request does to the block heights and the result store, on every
    branch of [DoCalculate]: refused, cancelled, or done. *)

From S2P Require Import Prelude Bytes HexInt Address Store Codec Typed Account ClaimDB Management IISSData IScoreDB Context Mirror Reward Calculate AccountDBs DoCalculate.

Section CalcState.
Context {D : Type} `{!LevelDB D, !LevelDBLaws D}.
Context `{!Codec IScoreData, !Codec IISSTXData, !Codec IISSBlockProduceInfoData, !Codec CRData,
  !Codec DBInfoData, !Codec GVData, !Codec PRepData, !Codec PRepCandidateData,
  !Codec IISSHeader, !Codec IISSGVData}.
Context (shake256 : bytes -> bytes).
Context (map_order : gmap bytes Z -> list (bytes * Z)).
Implicit Type (s : IScoreDB D).

(** ** The reward functions *)

Lemma delegate_tx_files {E : Type} gvs cands bh tx a a' :
  delegate_tx (E := E) gvs cands bh tx a = Ok a' -> files_only (acc_idb a) (acc_idb a').
Proof.
  unfold delegate_tx. intros H. repeat (apply obind_ok in H as (? & _ & H)).
  repeat case_match; simplify_eq/=; try reflexivity;
    repeat (apply obind_ok in H as ([? ?] & _ & H)); simplify_eq/=; apply files_only_put.
Qed.

Lemma tx_loop_files {E : Type} gvs cands bh tx l a a' :
  tx_loop (E := E) gvs cands bh tx l a = Ok a' -> files_only (acc_idb a) (acc_idb a').
Proof.
  revert tx a. induction l as [|[k v] l IH]; intros tx a H; cbn [tx_loop] in H; [by simplify_eq|].
  destruct (tx_SetBytes v tx) as [tx' []]; cbn [negb] in H; [|by apply IH in H].
  apply obind_ok in H as (a1 & Ha & H). apply IH in H. transitivity (acc_idb a1); [|done].
  case_match; [by apply delegate_tx_files in Ha|by simplify_eq].
Qed.

Lemma bp_write_loop_files {E : Type} bh l s n t ias s' r :
  bp_write_loop (E := E) bh l s n t ias = Ok (s', r.1, r.2.1, r.2.2) -> files_only s s'.
Proof.
  revert s n t ias. induction l as [|[a v] l IH]; intros s n t ias H; cbn [bp_write_loop] in H; [by simplify_eq|].
  apply obind_ok in H as (f & _ & H).
  repeat case_match; simplify_eq; try reflexivity; apply IH in H; (etransitivity; [|exact H]); apply files_only_put.
Qed.

Lemma prep_write_loop_files {E : Type} rev e bh l a a' :
  prep_write_loop (E := E) rev e bh l a = Ok a' -> files_only (acc_idb a) (acc_idb a').
Proof.
  revert a. induction l as [|[di [i r]] l IH]; intros a H; cbn [prep_write_loop] in H; [by simplify_eq|].
  apply obind_ok in H as (f & _ & H).
  repeat case_match; simplify_eq; try reflexivity; apply IH in H; (etransitivity; [|exact H]); apply files_only_put.
Qed.

(** A context of which only account DBs changed. *)
Definition accounts_only (ctx ctx' : Context D) : Prop :=
  ctx' = set_DB (DB ctx') ctx /\ files_only (DB ctx) (DB ctx').

#[global] Instance accounts_only_refl : Reflexive accounts_only.
Proof. intros []. by split; [|reflexivity]. Qed.
#[global] Instance accounts_only_trans : Transitive accounts_only.
Proof.
  intros c1 c2 c3 [E1 H1] [E2 H2]. split; [|by etransitivity].
  rewrite E2. cbn. rewrite E1. by destruct c1.
Qed.

Lemma accounts_only_set ctx s : files_only (DB ctx) s -> accounts_only ctx (set_DB s ctx).
Proof. by split. Qed.

Lemma calculateIISSTX_files {E : Type} ctx iiss bh ctx' r :
  calculateIISSTX (E := E) shake256 ctx iiss bh = Ok (ctx', r) -> accounts_only ctx ctx'.
Proof.
  unfold calculateIISSTX. intros (a & Ha & H)%obind_ok. simplify_eq.
  by apply accounts_only_set, (tx_loop_files _ _ _ _ _ _ _ Ha).
Qed.

Lemma calculateIISSBlockProduce_files {E : Type} ctx iiss bh ctx' r :
  calculateIISSBlockProduce (E := E) shake256 map_order ctx iiss bh = Ok (ctx', r) -> accounts_only ctx ctx'.
Proof.
  unfold calculateIISSBlockProduce. intros ([[[s n] t] ias] & Ha & H)%obind_ok. simplify_eq.
  by apply accounts_only_set, (bp_write_loop_files _ _ _ _ _ _ _ (n, (t, ias)) Ha).
Qed.

Lemma prep_loop_files {E : Type} start to preps ctx n t h ctx' r :
  prep_loop (E := E) shake256 start to preps ctx n t h = Ok (ctx', r) -> accounts_only ctx ctx'.
Proof.
  revert ctx n t h. induction preps as [|p preps IH]; intros ctx n t h H; cbn [prep_loop] in H; [by simplify_eq|].
  case_match; [by apply IH in H|]. destruct (prep_period start to p (head preps)) as [s e].
  case_match; [by apply IH in H|].
  apply obind_ok in H as ([ctx1 [[n1 t1] h1]] & Hs & H). apply IH in H.
  etransitivity; [|exact H]. unfold setPRepReward in Hs. apply obind_ok in Hs as (a & Ha & Hs). simplify_eq.
  by apply accounts_only_set, (prep_write_loop_files _ _ _ _ _ _ Ha).
Qed.

Lemma calculatePRepReward_files {E : Type} ctx to ctx' r :
  calculatePRepReward (E := E) shake256 ctx to = Ok (ctx', r) -> accounts_only ctx ctx'.
Proof.
  unfold calculatePRepReward. intros ([ctx1 [[n t] h]] & Ha & H)%obind_ok. simplify_eq.
  by apply prep_loop_files in Ha.
Qed.

Lemma calc_account_dbs_files {E : Type} gvs cands env bh i q c s st hs s' st' hs' :
  calc_account_dbs (E := E) shake256 gvs cands env bh i q c s st hs = Ok (s', st', hs') -> files_only s s'.
Proof.
  revert i q s st hs. induction c as [|c cs IH]; intros i q s st hs H; cbn [calc_account_dbs] in H;
    [injection H as <- _ _; reflexivity|].
  destruct q as [|q qs]; [done|]. apply obind_ok in H as ([d [[n t] h]] & _ & H). apply IH in H.
  etransitivity; [|exact H]. apply files_only_update.
Qed.

(** ** The updates before a calculation *)

Lemma reset_info bh old s : let s' := resetAccountDB bh old s in
  info s' = info s /\ management s' = management s /\ calcResult s' = calcResult s.
Proof.
  unfold resetAccountDB. destruct (reset_loop _ _ _ _ _ _) as [fs []]; cbn [negb]; [|done].
  destruct (QueryDBIsZero _); by split_and!.
Qed.

Lemma toggle_info bh s : let s' := toggleAccountDB bh s in
  CalcDone (info s') = CalcDone (info s) /\ PrevCalcDone (info s') = PrevCalcDone (info s) /\
  Calculating (info s') = Calculating (info s) /\ calcResult s' = calcResult s.
Proof. unfold toggleAccountDB. by destruct (_ =? _). Qed.

(** A context of which the heights and the results are kept. *)
Definition heights_kept (ctx ctx' : Context D) : Prop :=
  CalcDone (info (DB ctx')) = CalcDone (info (DB ctx)) /\
  PrevCalcDone (info (DB ctx')) = PrevCalcDone (info (DB ctx)) /\
  Calculating (info (DB ctx')) = Calculating (info (DB ctx)) /\
  calcResult (DB ctx') = calcResult (DB ctx).

#[global] Instance heights_kept_refl : Reflexive heights_kept.
Proof. by intros ctx. Qed.
#[global] Instance heights_kept_trans : Transitive heights_kept.
Proof. unfold heights_kept. intros c1 c2 c3 (H1 & H2 & H3 & H4) (H5 & H6 & H7 & H8). split_and!; congruence. Qed.

Lemma accounts_only_heights ctx ctx' : accounts_only ctx ctx' -> heights_kept ctx ctx'.
Proof. intros [_ H]. destruct (files_only_info _ _ H) as (E1 & _ & E2). unfold heights_kept. rewrite E1, E2. by split_and!. Qed.

Lemma UpdateGV_heights gvs ctx : heights_kept ctx (UpdateGovernanceVariable gvs ctx).
Proof. unfold UpdateGovernanceVariable. destruct (add_gv _ _ _). destruct (drop_old _ _ _ _ _ _). by split_and!. Qed.
Lemma UpdatePRep_heights preps ctx : heights_kept ctx (UpdatePRep preps ctx).
Proof. unfold UpdatePRep. destruct (add_prep _ _ _). destruct (drop_old _ _ _ _ _ _). by split_and!. Qed.
Lemma UpdatePRepCandidate_heights iiss ctx : heights_kept ctx (UpdatePRepCandidate iiss ctx).
Proof. unfold UpdatePRepCandidate. destruct (candidate_loop _ _ _ _). by split_and!. Qed.
Lemma toggle_heights bh ctx : heights_kept ctx (update_DB (toggleAccountDB bh) ctx).
Proof. apply (toggle_info bh (DB ctx)). Qed.
Lemma reset_heights bh ctx :
  heights_kept ctx (update_DB (fun s => resetAccountDB bh (getCalcDoneBH s) s) ctx).
Proof.
  destruct (reset_info bh (getCalcDoneBH (DB ctx)) (DB ctx)) as (E1 & _ & E2).
  unfold heights_kept, update_DB. cbn [DB set_DB]. by rewrite E1, E2.
Qed.
Lemma Revision_heights v ctx : heights_kept ctx (set_Revision v ctx).
Proof. by split_and!. Qed.

(** ** The three kinds of results *)

Definition refused (e : calc_error) : Prop :=
  e = ErrCalculating \/ e = ErrInvalidData \/ e = ErrDuplicateBH \/ e = ErrTooLowBH.

(** Only the height being calculated is written, and it is the last one
    done. *)
Definition calculating_reset (ctx ctx' : Context D) : Prop :=
  info (DB ctx') = set_Calculating (CalcDone (info (DB ctx))) (info (DB ctx)) /\
  ctx' = set_DB (set_info (info (DB ctx')) (set_management (management (DB ctx')) (DB ctx))) ctx.

Lemma finish_done {E : Type} iiss bh ctx st hs acks r : 
  finish_calculation (E := E) shake256 map_order iiss bh ctx st hs acks = Ok r ->
  exists st' h, r = mkCalcResult (res_ctx r) acks None bh (Some st') (Some h) /\
    CalcDone (info (DB (res_ctx r))) = bh /\
    PrevCalcDone (info (DB (res_ctx r))) = CalcDone (info (DB ctx)) /\
    Calculating (info (DB (res_ctx r))) = Calculating (info (DB ctx)) /\
    calcResult (DB (res_ctx r)) = WriteCalculationResult (calcResult (DB ctx)) bh (Some st') h.
Proof.
  unfold finish_calculation.
  intros ([c1 [[n1 t1] h1]] & H1%calculateIISSTX_files & H)%obind_ok.
  apply obind_ok in H as ([c2 [[n2 t2] h2]] & H2%calculateIISSBlockProduce_files & H).
  apply obind_ok in H as ([c3 [[n3 t3] h3]] & H3%calculatePRepReward_files & H).
  assert (Hk : accounts_only ctx c3) by (do 2 (etransitivity; [eassumption|]); done).
  apply accounts_only_heights in Hk as (K1 & K2 & K3 & K4).
  injection H as <-. eexists _, _. cbn. split_and!; try done; by rewrite ?K4.
Qed.

Lemma run_calculation_heights {E : Type} env quit conn id ctx iiss bh header gvs preps r :
  run_calculation (E := E) shake256 map_order env quit conn id ctx iiss bh header gvs preps = Ok r ->
  res_BlockHeight r = bh /\
  ((exists ctx1, heights_kept ctx ctx1 /\ exists st h,
      r = mkCalcResult (res_ctx r) (sendCalculateACK conn id CalcRespStatusOK bh) None bh (Some st) (Some h) /\
      CalcDone (info (DB (res_ctx r))) = bh /\
      PrevCalcDone (info (DB (res_ctx r))) = CalcDone (info (DB ctx1)) /\
      Calculating (info (DB (res_ctx r))) = Calculating (info (DB ctx1)) /\
      calcResult (DB (res_ctx r)) = WriteCalculationResult (calcResult (DB ctx1)) bh (Some st) h) \/
   heights_kept ctx (res_ctx r) /\ res_stats r = None /\
     (forall e, res_err r = Some e -> ~ refused e)).
Proof.
  unfold run_calculation. intros ([[s st] hs] & Hs%calc_account_dbs_files & H)%obind_ok.
  set (c0 := UpdatePRepCandidate _ _) in *.
  assert (Hc0 : heights_kept ctx c0).
  { unfold c0. etransitivity; [|apply UpdatePRepCandidate_heights].
    etransitivity; [|apply UpdatePRep_heights]. etransitivity; [|apply UpdateGV_heights].
    etransitivity; [|apply Revision_heights]. etransitivity; [|apply reset_heights].
    apply toggle_heights. }
  set (c1 := set_Cancel _ _) in *.
  assert (Hc1 : heights_kept ctx c1).
  { etransitivity; [exact Hc0|]. destruct (files_only_info _ _ Hs) as (E1 & _ & E2).
    unfold heights_kept. cbn. rewrite E1, E2. by split_and!. }
  destruct (negb _).
  - injection H as <-. split; [done|]. right. split_and!; [exact Hc1|done|]. cbn. intros e He Hr.
    repeat case_match; simplify_eq; destruct Hr as [|[|[|]]]; done.
  - apply finish_done in H as (st' & h & E1 & E2 & E3 & E4 & E5).
    split; [by rewrite E1|]. left. exists c1. split; [done|]. by exists st', h.
Qed.


(** C16: a finished calculation is for a height above the last one done,
    becomes the last one done, keeps the previous one for a rollback, and can
    be queried: the status is done at this height and the stored result is
    the total reward and the state hash that were announced. *)
Theorem DoCalculate_done {E : Type} `{!CodecLaws CRData} env quit ctx req iiss conn id r st :
  DoCalculate (E := E) shake256 map_order env quit ctx req iiss conn id = Ok r ->
  res_stats r = Some st ->
  exists h, let bh := res_BlockHeight r in
    res_err r = None /\ res_stateHash r = Some h /\
    res_acks r = sendCalculateACK conn id CalcRespStatusOK bh /\
    CalcDone (info (DB ctx)) < bh /\
    CalcDone (info (DB (res_ctx r))) = bh /\
    PrevCalcDone (info (DB (res_ctx r))) = CalcDone (info (DB ctx)) /\
    DoQueryCalculateStatus (res_ctx r) = (CalculationDone, bh) /\
    forall E', DoQueryCalculateResult (E := E') (res_ctx r) bh
      = Ok (mkQueryResult calcSucceeded bh (TotalReward st) h).
Proof.
  unfold DoCalculate. intros H Hst.
  destruct (negb _ && isCalculating (DB ctx)); [injection H as <-; done|].
  destruct (LoadIISSData iiss) as [[[header gvs] preps]|]; [|injection H as <-; done].
  set (bh := if ih_BlockHeight header =? 0 then _ else _) in *.
  set (ctx1 := update_DB (setCalculatingBH bh) ctx) in *.
  change (getCalcDoneBH (DB ctx1)) with (CalcDone (info (DB ctx))) in H.
  destruct (Z.eqb_spec bh (CalcDone (info (DB ctx)))) as [|Hne]; [injection H as <-; done|].
  destruct (Z.ltb_spec bh (CalcDone (info (DB ctx)))) as [|Hge]; [injection H as <-; done|].
  apply run_calculation_heights in H as [Hbh [(c1 & (K1 & K2 & K3 & K4) & st' & h & E1 & E2 & E3 & E4 & E5)|(_ & Hno & _)]];
    [|congruence].
  cbn in K1, K2, K3, K4. rewrite E1 in Hst. cbn in Hst. injection Hst as ->.
  exists h. cbn. rewrite Hbh. split_and!.
  - by rewrite E1.
  - by rewrite E1.
  - by rewrite E1.
  - lia.
  - done.
  - by rewrite E3, K1.
  - unfold DoQueryCalculateStatus, isCalculating, getCalcDoneBH, getCalculatingBH.
    by rewrite E2, E4, K3, Z.ltb_irrefl.
  - intros E'. unfold DoQueryCalculateResult, isCalculating, getCalcDoneBH, getCalculatingBH.
    rewrite E2, E4, K3, Z.ltb_irrefl. cbn [andb]. rewrite E5. unfold WriteCalculationResult, cr_ID.
    rewrite bucket_Get_Set, decide_True by done.
    unfold NewCalculationResultFromBytes. by rewrite unmarshal_new_marshal.
Qed.

(** C18: a cancelled calculation leaves the heights done as they were, but the
    height being calculated stays above them: the process keeps answering
    that it is calculating, and refuses every request but a reload. *)
Theorem DoCalculate_cancelled {E : Type} env quit ctx req iiss conn id r :
  DoCalculate (E := E) shake256 map_order env quit ctx req iiss conn id = Ok r ->
  res_stats r = None -> (forall e, res_err r = Some e -> ~ refused e) ->
  CalcDone (info (DB (res_ctx r))) = CalcDone (info (DB ctx)) /\
  PrevCalcDone (info (DB (res_ctx r))) = PrevCalcDone (info (DB ctx)) /\
  calcResult (DB (res_ctx r)) = calcResult (DB ctx) /\
  DoQueryCalculateStatus (res_ctx r) = (CalculationDoing, res_BlockHeight r) /\
  forall env' quit' req' iiss' conn' id', isReloadRequest (req_BlockHeight req') id' = false ->
    DoCalculate (E := E) shake256 map_order env' quit' (res_ctx r) req' iiss' conn' id'
    = Ok (mkCalcResult (res_ctx r) (sendCalculateACK conn' id' CalcRespStatusDoing (req_BlockHeight req'))
            (Some ErrCalculating) (req_BlockHeight req') None None).
Proof.
  unfold DoCalculate at 1. intros H Hst Hno.
  destruct (negb _ && isCalculating (DB ctx)).
  { injection H as <-. destruct (Hno _ eq_refl). by left. }
  destruct (LoadIISSData iiss) as [[[header gvs] preps]|].
  2: { injection H as <-. destruct (Hno _ eq_refl). by right; left. }
  set (bh := if ih_BlockHeight header =? 0 then _ else _) in *.
  set (ctx1 := update_DB (setCalculatingBH bh) ctx) in *.
  change (getCalcDoneBH (DB ctx1)) with (CalcDone (info (DB ctx))) in H.
  destruct (Z.eqb_spec bh (CalcDone (info (DB ctx)))) as [|Hne].
  { injection H as <-. destruct (Hno _ eq_refl). by right; right; left. }
  destruct (Z.ltb_spec bh (CalcDone (info (DB ctx)))) as [|Hge].
  { injection H as <-. destruct (Hno _ eq_refl). by right; right; right. }
  apply run_calculation_heights in H as [Hbh [(c1 & _ & st' & h & E1 & _)|((K1 & K2 & K3 & K4) & _ & _)]].
  { rewrite E1 in Hst. done. }
  cbn in K1, K2, K3, K4.
  assert (Hcalc : isCalculating (DB (res_ctx r)) = true).
  { unfold isCalculating, getCalcDoneBH, getCalculatingBH. rewrite K1, K3. apply Z.ltb_lt. lia. }
  split_and!; [done..| |].
  - unfold DoQueryCalculateStatus. rewrite Hcalc. unfold getCalculatingBH. by rewrite K3, Hbh.
  - intros env' quit' req' iiss' conn' id' Hid. unfold DoCalculate. by rewrite Hid, Hcalc.
Qed.
End CalcState.
