(* ===== verification/CalcTotal.v ===== *)
(** * A calculation ends, and what it pays

    [DoCalculate] of [core/msg_calculate.go] on a well-formed context and
    well-formed IISS data returns whatever happens meanwhile, and leaves a
    well-formed context.  A calculation that is done has given the accounts,
    together, exactly the reward it announces. *)

From S2P Require Import Prelude Bytes HexInt Address Store Codec Typed Account ClaimDB Management IISSData IScoreDB Context Mirror Reward Calculate AccountDBs BlockProduce Delegation PRepReward DoCalculate AccountPass CalcState.

Section Accounts.
Context {D : Type} `{!LevelDB D, !LevelDBLaws D}.
Context `{!Codec IScoreData, !CodecLaws IScoreData, !Codec DBInfoData}.
Implicit Type (s : IScoreDB D) (fs : gmap fname D) (a : Address).

(** ** The account DBs before the pass *)

Lemma accounts_inv_same s s' : accounts_inv s -> DBCount (info s') = DBCount (info s) ->
  Account0 s' = Account0 s -> Account1 s' = Account1 s -> files s' = files s -> accounts_inv s'.
Proof.
  intros [[H0 H1 H2] H3 H4 H5 H6] E1 E2 E3 E4. split; [split| | | |]; rewrite ?E1, ?E2, ?E3, ?E4; done.
Qed.

(** [resetAccountDB] moves and empties DBs; whatever backups there are, it
    succeeds when the DBs exist. *)
Lemma reset_loop_total bh count p l i fs :
  (forall j, i < j <= i + Z.of_nat (length l) -> is_Some (fs !! AccountName j count p)) ->
  exists fs', reset_loop bh count p i l fs = (fs', true) /\
    (forall j n q, is_Some (fs !! AccountName j n q) -> is_Some (fs' !! AccountName j n q)) /\
    (forall j n q d, fs' !! AccountName j n q = Some d -> d = ldb_empty \/ fs !! AccountName j n q = Some d) /\
    (forall f d, fs' !! f = Some d -> d = ldb_empty \/ exists f', fs !! f' = Some d) /\
    (forall b j d, fs' !! BackupName b j = Some d ->
      d = ldb_empty \/ fs !! BackupName b j = Some d \/ fs !! AccountName j count p = Some d).
Proof.
  revert i fs. induction l as [|x l IH]; intros i fs Ha; cbn [reset_loop length] in *.
  { exists fs. split_and!; eauto. }
  rewrite Nat2Z.inj_succ in Ha.
  set (dbn := AccountName (i + 1) count p). destruct (Ha (i + 1)) as [d0 Hd0]; [lia|]. fold dbn in Hd0.
  assert (exists fs1, (match fs !! BackupName bh (i + 1) with Some _ => Some fs
      | None => Rename dbn (BackupName bh (i + 1)) fs end) = Some fs1 /\
    (forall f d, fs1 !! f = Some d -> exists f', fs !! f' = Some d) /\
    (forall j n q, AccountName j n q <> dbn -> fs1 !! AccountName j n q = fs !! AccountName j n q) /\
    (forall d, fs1 !! dbn = Some d -> fs !! dbn = Some d) /\
    (forall b j d, fs1 !! BackupName b j = Some d -> fs !! BackupName b j = Some d \/ fs !! AccountName j count p = Some d))
    as (fs1 & -> & F1 & F2 & F3 & F4).
  { destruct (fs !! BackupName bh (i + 1)) eqn:Eb; [exists fs; split_and!; eauto|].
    unfold Rename. rewrite Hd0. eexists. split; [done|]. split_and!.
    - intros f d [[<- <-]|[_ [_ Hf]%lookup_delete_Some]]%lookup_insert_Some; eauto.
    - intros j n q Hne. rewrite lookup_insert_ne, lookup_delete_ne by done. done.
    - intros d. rewrite lookup_insert_ne by done. by rewrite lookup_delete_eq.
    - intros b j d [[[= <- <-] <-]|[_ [_ Hf]%lookup_delete_Some]]%lookup_insert_Some; auto. }
  assert (Hopen : forall f, db_Open dbn fs1 !! f =
    if decide (dbn = f) then Some (default ldb_empty (fs1 !! dbn)) else fs1 !! f).
  { intros f. unfold db_Open. destruct (fs1 !! dbn) as [d|] eqn:E; case_decide as Ef; subst; try done.
    - by rewrite lookup_insert_eq.
    - by rewrite lookup_insert_ne. }
  destruct (IH (i + 1) (db_Open dbn fs1)) as (fs' & E1 & G1 & G2 & G3 & G4).
  { intros j Hj. rewrite Hopen. case_decide as Ef; [by eexists|].
    rewrite F2 by congruence. apply Ha. lia. }
  exists fs'. split; [done|]. split_and!.
  - intros j n q Hs. apply G1. rewrite Hopen. case_decide as Ef; [by eexists|]. by rewrite F2 by congruence.
  - intros j n q d [->|Hd]%G2; [by left|]. rewrite Hopen in Hd. case_decide as Ef.
    + injection Hd as <-. rewrite <-Ef. destruct (fs1 !! dbn) as [d1|] eqn:E; [right; by apply F3|by left].
    + right. by rewrite F2 in Hd by congruence.
  - intros f d [->|[f' Hd]]%G3; [by left|]. rewrite Hopen in Hd. case_decide as Ef.
    + injection Hd as <-. destruct (fs1 !! dbn) as [d1|] eqn:E; [right; by eapply F1|by left].
    + right. by eapply F1.
  - intros b j d [->|[Hd|Hd]]%G4; [by left| |].
    + rewrite Hopen, decide_False in Hd by done. right. by apply F4.
    + rewrite Hopen in Hd. case_decide as Ef; [|right; right; by rewrite F2 in Hd by congruence].
      injection Ef as <-. injection Hd as <-. destruct (fs1 !! dbn) as [d1|] eqn:E; [right; right; by apply F3|by left].
Qed.

Lemma Glob_backup_account h fs j n q : foldl (flip RemoveAll) fs (Glob_backup h fs) !! AccountName j n q
  = fs !! AccountName j n q.
Proof.
  rewrite foldl_RemoveAll_lookup. case_decide as Hin; [|done]. by apply Glob_backup_elem in Hin as [? _].
Qed.

Lemma reset_inv bh old s : accounts_inv s -> accounts_inv (resetAccountDB bh old s).
Proof.
  intros Hs. destruct Hs as [Hok Hn Hf Hp Hbk]. unfold resetAccountDB.
  set (n := DBCount (info s)) in *. rewrite (calc_list s Hok). fold n (calc_postfix s).
  set (fs0 := foldl (flip RemoveAll) (files s) _).
  assert (Hacc : forall j q, fs0 !! AccountName j n q = files s !! AccountName j n q)
    by (intros; apply Glob_backup_account).
  assert (Hsub : forall f d, fs0 !! f = Some d -> files s !! f = Some d).
  { intros f d. unfold fs0. rewrite foldl_RemoveAll_lookup. by case_decide. }
  destruct (reset_loop_total bh n (calc_postfix s) (account_names n (calc_postfix s)) 0 fs0)
    as (fs' & -> & G1 & G2 & G3 & G4).
  { intros j Hj. rewrite length_account_names in Hj by lia. rewrite Hacc. apply (ao_files s Hok); [fold n; lia|].
    destruct (postfix_cases s) as [[-> _]|[-> _]]; auto. }
  cbn [negb]. rewrite length_account_names by lia.
  change (map (fun i => AccountName i (DBCount (info (set_files fs' s))) (calc_postfix s)) (seqZ 1 n))
    with (account_names n (calc_postfix s)).
  set (s1 := if QueryDBIsZero (info (set_files fs' s)) then _ else _).
  assert (files s1 = fs' /\ info s1 = info s /\ Account0 s1 = Account0 s /\ Account1 s1 = Account1 s) as (E1 & E2 & E3 & E4).
  { unfold s1, calc_postfix. cbn [info set_files]. destruct Hok as [H0 H1 _]. destruct (QueryDBIsZero (info s)); cbn.
    - by rewrite H1.
    - by rewrite H0. }
  split; [split| | | |]; rewrite ?E1, ?E2, ?E3, ?E4; fold n; try done.
  - apply Hok.
  - apply Hok.
  - intros i q Hi Hq. apply G1. rewrite Hacc. by apply (ao_files s Hok).
  - intros f d [->|[f' Hd]]%G3; [apply account_inv_empty|]. apply Hsub in Hd. by apply (Hf f').
  - intros i q d k [->|Hd]%G2 Hk; [rewrite ldb_get_empty in Hk; by destruct Hk|].
    rewrite Hacc in Hd. by apply (Hp i q d k).
  - intros b i d k [->|[Hd|Hd]]%G4 Hk; [rewrite ldb_get_empty in Hk; by destruct Hk|by eapply Hbk; eauto|].
    rewrite Hacc in Hd. by apply (Hp i (calc_postfix s) d k).
Qed.

Lemma toggle_inv bh s : accounts_inv s -> accounts_inv (toggleAccountDB bh s).
Proof.
  intros Hs. apply (accounts_inv_same s); [done|..]; unfold toggleAccountDB; by destruct (_ =? _).
Qed.

(** ** What the calculation starts from *)

(** Toggled, the calculate DBs become the query DBs; after the reset the
    calculate DBs are empty. *)
Lemma begin_files bh s : accounts_inv s -> only_backups (files s) (CalcDone (info s)) ->
  CalcDone (info s) <> bh -> ToggleBH (info s) <> bh +u 1 ->
  let s1 := begin_calculation bh s in
  accounts_inv s1 /\ DBCount (info s1) = DBCount (info s) /\
  forall j, 1 <= j <= DBCount (info s) ->
    db_at s1 (query_name s1 j) = db_at s (calc_name s j) /\ db_at s1 (calc_name s1 j) = ldb_empty.
Proof.
  intros Hs Hold Hne Ht. unfold begin_calculation.
  destruct (toggle_other (bh +u 1) s Ht) as (T1 & _ & T3 & T4 & _ & _ & _ & T8).
  pose proof (toggle_inv (bh +u 1) s Hs) as Hts. set (st := toggleAccountDB (bh +u 1) s) in *.
  pose proof (ai_count _ Hs) as Hn.
  destruct (resetAccountDB_spec st bh) as (_ & Hi & _ & _ & Hc);
    [apply Hts|rewrite T3; lia|by rewrite T8, T4|by rewrite T4|].
  pose proof (reset_inv bh (getCalcDoneBH st) st Hts) as Hrs.
  set (s1 := resetAccountDB bh (getCalcDoneBH st) st) in *. split; [done|]. split; [by rewrite Hi|].
  intros j Hj. rewrite T3 in Hc. destruct (Hc j Hj) as (H1 & _ & H2).
  assert (query_name s1 j = query_name st j /\ calc_name s1 j = calc_name st j) as [-> ->].
  { unfold query_name, calc_name, query_postfix, calc_postfix. by rewrite Hi. }
  unfold db_at. rewrite H1, H2, T8. split; [|done].
  assert (query_name st j = calc_name s j) as ->; [|done].
  unfold query_name, calc_name, query_postfix, calc_postfix. rewrite T1, T3. by destruct (QueryDBIsZero (info s)).
Qed.

Lemma begin_accounts bh s a : accounts_inv s -> wf_Address a -> only_backups (files s) (CalcDone (info s)) ->
  CalcDone (info s) <> bh -> ToggleBH (info s) <> bh +u 1 ->
  query_account (begin_calculation bh s) a = calc_account s a /\ calc_account (begin_calculation bh s) a = None.
Proof.
  intros Hs Ha Hold Hne Ht. destruct (begin_files bh s Hs Hold Hne Ht) as (Hs1 & Hn & Hf).
  rewrite query_account_get, !calc_account_get by done. rewrite Hn.
  destruct (Hf (db_no (DBCount (info s)) a)) as [-> ->]; [apply db_no_range; [apply Hs|done]|].
  by rewrite ldb_get_empty.
Qed.

(** Every address that has an account in the calculate DBs is in the list. *)
Definition accounts_covered s (l : list Address) : Prop :=
  forall j k, 1 <= j <= DBCount (info s) -> is_Some (ldb_get (db_at s (calc_name s j)) k) -> k ∈ l.

Lemma begin_covered bh s l : accounts_inv s -> only_backups (files s) (CalcDone (info s)) ->
  CalcDone (info s) <> bh -> ToggleBH (info s) <> bh +u 1 -> accounts_covered s l ->
  query_covered (begin_calculation bh s) l.
Proof.
  intros Hs Hold Hne Ht Hc j k. destruct (begin_files bh s Hs Hold Hne Ht) as (_ & -> & Hf).
  intros Hj. destruct (Hf j Hj) as [-> _]. by apply Hc.
Qed.
End Accounts.

Section Total.
Context {D : Type} `{!LevelDB D, !LevelDBLaws D}.
Context `{!Codec IScoreData, !CodecLaws IScoreData, !Codec IISSTXData, !CodecLaws IISSTXData,
  !Codec IISSBlockProduceInfoData, !CodecLaws IISSBlockProduceInfoData, !Codec CRData,
  !Codec DBInfoData, !CodecLaws DBInfoData, !Codec DBInfoDataV1, !Codec GVData, !CodecLaws GVData,
  !Codec PRepData, !CodecLaws PRepData, !Codec PRepCandidateData, !CodecLaws PRepCandidateData,
  !Codec IISSHeader, !Codec IISSGVData}.
Context (shake256 : bytes -> bytes).
Context (map_order : gmap bytes Z -> list (bytes * Z)).
Hypothesis map_order_perm : forall m, Permutation (map_order m) (map_to_list m).
Implicit Type (ctx : Context D).

(** ** Well-formed IISS data *)

(** What [LoadIISSData] gives, the blocks and the transactions are as the
    ICON service writes them, the P-Rep lists above those there are. *)
Record iiss_ok ctx (iissDB : D) : Prop := {
  io_load : forall header gvList prepList, LoadIISSData iissDB = Some (header, gvList, prepList) ->
    is_u64 (ih_BlockHeight header) /\ Forall (fun g => is_u64 (ig_BlockHeight g)) gvList /\
    preps_ok prepList /\ heights_sorted pr_BlockHeight (ctx_PRep ctx ++ prepList);
  io_txs : txs_ok (iter_prefix PrefixIISSTX iissDB);
  io_bps : bps_ok (iter_prefix PrefixIISSBPInfo iissDB);
}.

Lemma txs_ok_iiss l : txs_ok l -> Forall (fun e => exists tx : IISSTXData, wf tx /\ e.2 = marshal tx) l.
Proof. intros H. eapply Forall_impl; [exact H|]. intros e (tx & H1 & H2 & _). eauto. Qed.

(** Memory and stores agree, the accounts are well-formed. *)
Record calc_ready ctx : Prop := {
  cr_mirror : ctx_mirror ctx;
  cr_accounts : accounts_inv (DB ctx);
}.

Lemma ctx_heights ctx : ctx_mirror ctx ->
  gv_heights_ok (GV ctx) /\ preps_ok (ctx_PRep ctx) /\ is_u64 (CalcDone (info (DB ctx))).
Proof.
  intros Hm. destruct (ctx_gv _ Hm) as [Hg _], (ctx_prep _ Hm) as [Hp Hpw].
  destruct (ctx_info_wf _ Hm) as (_ & _ & _ & Hc & _).
  split_and!; [apply Hg| |done]. apply Forall_forall. intros p Hin. split.
  - pose proof (m_u64 _ _ _ _ _ Hp) as H. rewrite Forall_forall in H. by apply H.
  - rewrite Forall_forall in Hpw. by apply Hpw.
Qed.

Lemma ctx_mirror_accounts ctx ctx' : ctx_mirror ctx -> accounts_only ctx ctx' -> ctx_mirror ctx'.
Proof.
  intros Hm [E Hf]. rewrite E. apply ctx_mirror_info; [done|].
  destruct (files_only_info _ _ Hf) as (H1 & H2 & _).
  eapply info_saved_same; [by apply ctx_mirror_saved|done|done].
Qed.

(** ** The end of a calculation *)

Lemma TotalReward_account st s : TotalReward (add_account_stats st s) = TotalReward st + Beta3 s.
Proof. done. Qed.

Lemma TotalReward_accounts l st : TotalReward (foldl add_account_stats st l) = TotalReward st + Zsum (map Beta3 l).
Proof.
  revert st. unfold Zsum. induction l as [|s l IH]; intros st; cbn [foldl map foldr]; [lia|].
  rewrite IH, TotalReward_account. lia.
Qed.

Lemma TotalReward_reward f n r st : f = FBeta1 \/ f = FBeta2 \/ f = FBeta3 ->
  TotalReward (add_reward_stats f n r st) = TotalReward st + r.
Proof. by intros [-> | [-> | ->]]. Qed.

(** Every address the IISS data and the P-Rep lists mention is in the list. *)
Definition rewards_covered (iissDB : D) (preps : list PRep) (l : list Address) : Prop :=
  Forall (fun e => tx_address e ∈ l) (iter_prefix PrefixIISSTX iissDB) /\
  Forall (fun e => Forall (fun a => a ∈ l) (bp_addresses e)) (iter_prefix PrefixIISSBPInfo iissDB) /\
  Forall (fun p => Forall (fun di => di_Address di ∈ l) (pd_List (pr_Data p))) preps.

Lemma finish_total {E : Type} iissDB bh ctx st hs acks :
  calc_ready ctx -> is_u64 bh -> bh <> 0 -> txs_ok (iter_prefix PrefixIISSTX iissDB) ->
  bps_ok (iter_prefix PrefixIISSBPInfo iissDB) ->
  exists r st', finish_calculation (E := E) shake256 map_order iissDB bh ctx st hs acks = Ok r /\
    res_stats r = Some st' /\ calc_ready (res_ctx r) /\
    forall l, NoDup l -> rewards_covered iissDB (ctx_PRep ctx) l ->
      score_sum (DB (res_ctx r)) l = score_sum (DB ctx) l + (TotalReward st' - TotalReward st).
Proof.
  intros [Hm Hs] Hb Hb0 Htx Hbp. destruct (ctx_heights _ Hm) as (Hg & Hp & Hd). unfold finish_calculation.
  destruct (calculateIISSTX_result (E := E) shake256 ctx iissDB bh Hs Hb Hb0 Htx)
    as (s1 & n1 & r1 & h1 & -> & F1 & I1 & C1). cbn [obind].
  destruct (calculateIISSBlockProduce_conserves (E := E) shake256 map_order map_order_perm (set_DB s1 ctx) iissDB bh I1 Hb Hbp)
    as (s2 & n2 & r2 & h2 & -> & F2 & I2 & C2). cbn [obind].
  destruct (files_only_info _ _ F1) as (E1 & _ & _). destruct (files_only_info _ _ F2) as (E2 & _ & _).
  cbn [DB set_DB] in E2.
  destruct (calculatePRepReward_result (E := E) shake256 (set_DB s2 (set_DB s1 ctx)) bh)
    as (s3 & n3 & h3 & -> & F3 & I3 & C3); [done|cbn [DB set_DB]; by rewrite E2, E1|done..|].
  cbn [obind]. set (r3 := preps_total _ _ _ _) in *.
  eexists _, _. split; [done|]. split; [done|]. cbn [res_ctx].
  assert (Hao : accounts_only ctx (set_DB s3 ctx)).
  { apply accounts_only_set. etransitivity; [exact F1|]. etransitivity; [exact F2|]. exact F3. }
  assert (Hm3 : ctx_mirror (set_DB s3 ctx)) by by eapply ctx_mirror_accounts.
  split.
  - split.
    + set (s4 := setCalcDoneBH bh s3).
      assert (Hm4 : ctx_mirror (set_DB s4 (set_DB s3 ctx))).
      { apply ctx_mirror_info; [done|]. apply info_saved_write; [by apply ctx_mirror_saved|].
        destruct (ctx_info_wf _ Hm3) as (? & ? & ? & ? & ? & ? & ?). by split_and!. }
      destruct Hm4 as [K1 K2 K3 K4 K5 K6]. split; [exact K1|exact K2|exact K3|exact K4|exact K5|exact K6].
    + apply (accounts_inv_same s3); done.
  - intros l Hnd (L1 & L2 & L3). rewrite !TotalReward_reward by auto.
    transitivity (score_sum s3 l); [done|].
    rewrite (C3 l Hnd L3). cbn [DB set_DB]. rewrite (C2 l Hnd L2). cbn [DB set_DB]. rewrite (C1 l Hnd L1). lia.
Qed.

(** ** The updates before the pass *)

Definition prepared (bh rev : Z) (gvList : list IISSGovernanceVariable) (prepList : list PRep) (iissDB : D)
    ctx : Context D :=
  UpdatePRepCandidate iissDB (UpdatePRep prepList (UpdateGovernanceVariable gvList
    (set_Revision rev (update_DB (begin_calculation bh) ctx)))).

Lemma set_Revision_mirror rev ctx : ctx_mirror ctx -> ctx_mirror (set_Revision rev ctx).
Proof. intros [H1 H2 H3 H4 H5 H6]. by split. Qed.
Lemma set_Cancel_mirror c ctx : ctx_mirror ctx -> ctx_mirror (set_Cancel c ctx).
Proof. intros [H1 H2 H3 H4 H5 H6]. by split. Qed.

Lemma begin_mirror bh ctx : ctx_mirror ctx -> ctx_mirror (update_DB (begin_calculation bh) ctx).
Proof.
  intros Hm. apply ctx_mirror_info; [done|]. unfold begin_calculation.
  set (st := toggleAccountDB (bh +u 1) (DB ctx)).
  destruct (reset_info bh (getCalcDoneBH st) st) as (E1 & E2 & _).
  eapply info_saved_same; [|done|done]. apply info_saved_toggle; [by apply ctx_mirror_saved|apply u64_range].
Qed.

(** Only the management DB changes after the account DBs. *)
Lemma prepared_DB bh rev gvList prepList iissDB ctx :
  DB (prepared bh rev gvList prepList iissDB ctx) =
  set_management (management (DB (prepared bh rev gvList prepList iissDB ctx))) (begin_calculation bh (DB ctx)).
Proof.
  unfold prepared, UpdatePRepCandidate, UpdatePRep, UpdateGovernanceVariable.
  destruct (add_gv _ _ _). destruct (drop_old _ _ _ _ _ _). destruct (add_prep _ _ _).
  destruct (drop_old _ _ _ _ _ _). by destruct (candidate_loop _ _ _ _).
Qed.

Lemma begin_inv bh s : accounts_inv s -> accounts_inv (begin_calculation bh s).
Proof. intros Hs. apply reset_inv. by apply toggle_inv. Qed.

Lemma prepared_ready bh rev gvList prepList iissDB ctx : calc_ready ctx ->
  Forall (fun g => is_u64 (ig_BlockHeight g)) gvList -> preps_ok prepList ->
  heights_sorted pr_BlockHeight (ctx_PRep ctx ++ prepList) -> txs_ok (iter_prefix PrefixIISSTX iissDB) ->
  calc_ready (prepared bh rev gvList prepList iissDB ctx) /\
  (forall p, p ∈ ctx_PRep (prepared bh rev gvList prepList iissDB ctx) -> p ∈ ctx_PRep ctx ++ prepList).
Proof.
  intros [Hm Hs] Hg Hp Hsort Htx.
  set (c1 := set_Revision rev (update_DB (begin_calculation bh) ctx)).
  assert (Hm1 : ctx_mirror c1) by by apply set_Revision_mirror, begin_mirror.
  destruct (UpdateGovernanceVariable_steps c1 gvList Hm1 Hg) as (Hm2 & _ & _).
  set (c2 := UpdateGovernanceVariable gvList c1) in *.
  assert (Hc2 : ctx_PRep c2 = ctx_PRep ctx).
  { unfold c2, UpdateGovernanceVariable. destruct (add_gv _ _ _). by destruct (drop_old _ _ _ _ _ _). }
  destruct (UpdatePRep_steps c2 prepList Hm2) as (Hm3 & [l0 Hsuf] & _); [by rewrite Hc2|done|].
  set (c3 := UpdatePRep prepList c2) in *.
  assert (Hc4 : ctx_PRep (UpdatePRepCandidate iissDB c3) = ctx_PRep c3).
  { unfold UpdatePRepCandidate. by destruct (candidate_loop _ _ _ _). }
  change (prepared bh rev gvList prepList iissDB ctx) with (UpdatePRepCandidate iissDB c3).
  split.
  - split; [apply UpdatePRepCandidate_keeps; [done|by apply txs_ok_iiss]|].
    change (UpdatePRepCandidate iissDB c3) with (prepared bh rev gvList prepList iissDB ctx).
    rewrite prepared_DB. by apply (accounts_inv_same (begin_calculation bh (DB ctx))); [apply begin_inv|..].
  - intros p Hin. rewrite Hc4 in Hin. rewrite <-Hc2, Hsuf. apply elem_of_app. by right.
Qed.

Lemma run_total {E : Type} env quit conn id ctx iissDB bh header gvList prepList :
  calc_ready ctx -> is_u64 bh -> bh <> 0 -> iiss_ok ctx iissDB ->
  Forall (fun g => is_u64 (ig_BlockHeight g)) gvList -> preps_ok prepList ->
  heights_sorted pr_BlockHeight (ctx_PRep ctx ++ prepList) ->
  exists r, run_calculation (E := E) shake256 map_order env quit conn id ctx iissDB bh header gvList prepList = Ok r /\
    calc_ready (res_ctx r).
Proof.
  intros Hr Hb Hb0 [_ Htx Hbp] Hg Hp Hsort.
  destruct (prepared_ready bh (ih_Revision header) gvList prepList iissDB ctx Hr Hg Hp Hsort Htx) as [[Hm Hs] _].
  unfold run_calculation.
  match goal with |- context [UpdatePRepCandidate iissDB ?c] => change (UpdatePRepCandidate iissDB c)
    with (prepared bh (ih_Revision header) gvList prepList iissDB ctx) end.
  set (c4 := prepared bh (ih_Revision header) gvList prepList iissDB ctx) in *. cbv zeta.
  rewrite query_names, calc_names by done.
  destruct (calc_account_dbs_ok (E := E) shake256 (GV c4) (ctx_PRepCandidates c4) env bh (DB c4)
    (seqZ 1 (DBCount (info (DB c4)))) 0 (DB c4) [] [] Hb0 Hb Hs) as (s' & st & hs & -> & F & I); [reflexivity|].
  cbn [obind].
  assert (Hm' : ctx_mirror (set_DB s' c4)) by (eapply ctx_mirror_accounts; [exact Hm|by apply accounts_only_set]).
  match goal with |- context [negb ?b] => destruct (negb b) end.
  - eexists. split; [done|]. cbn [res_ctx]. split; [by apply set_Cancel_mirror, set_Cancel_mirror|done].
  - destruct (finish_total (E := E) iissDB bh (set_Cancel (cancel_during env (ctx_Cancel (set_DB s' c4))) (set_DB s' c4))
      (foldl add_account_stats zero_Statistics st) hs (sendCalculateACK conn id CalcRespStatusOK bh))
      as (r & st' & E1 & _ & H & _); [|done..|by exists r].
    split; [by apply set_Cancel_mirror|done].
Qed.

Lemma calculating_ready h ctx : calc_ready ctx -> is_u64 h -> calc_ready (update_DB (setCalculatingBH h) ctx).
Proof.
  intros [Hm Hs] Hh. split; [|by apply (accounts_inv_same (DB ctx))].
  apply ctx_mirror_info; [done|]. apply info_saved_write; [by apply ctx_mirror_saved|].
  destruct (ctx_info_wf _ Hm) as (? & ? & ? & ? & ? & ? & ?). by split_and!.
Qed.

(** C2: a calculation request on a well-formed state and well-formed IISS data
    always returns, whatever the state of the process, whoever cancels it and
    wherever the pass over the accounts stops: no loop runs on and nothing
    panics; the state it leaves is well-formed again. *)
Theorem DoCalculate_total {E : Type} env quit ctx req iissDB conn id :
  calc_ready ctx -> iiss_ok ctx iissDB ->
  exists r, DoCalculate (E := E) shake256 map_order env quit ctx req iissDB conn id = Ok r /\ calc_ready (res_ctx r).
Proof.
  intros Hr Hi. destruct (ctx_info_wf _ (cr_mirror _ Hr)) as (_ & _ & _ & Hd & _). unfold DoCalculate.
  destruct (negb _ && _); [by eexists|].
  destruct (LoadIISSData iissDB) as [[[header gvList] prepList]|] eqn:Hl.
  2: { eexists. split; [done|]. by apply calculating_ready. }
  destruct (io_load _ _ Hi _ _ _ Hl) as (Hh & Hg & Hp & Hsort).
  set (bh := if ih_BlockHeight header =? 0 then getCalcDoneBH (DB ctx) +u 1 else ih_BlockHeight header).
  assert (Hb : is_u64 bh) by (unfold bh; destruct (_ =? _); [apply u64_range|done]).
  pose proof (calculating_ready bh ctx Hr Hb) as Hr'. set (c1 := update_DB (setCalculatingBH bh) ctx) in *.
  destruct (Z.eqb_spec bh (getCalcDoneBH (DB c1))) as [|Hne]; [eexists; split; [done|by apply calculating_ready]|].
  destruct (Z.ltb_spec bh (getCalcDoneBH (DB c1))) as [|Hge]; [eexists; split; [done|by apply calculating_ready]|].
  assert (Hb0 : bh <> 0) by (change (getCalcDoneBH (DB c1)) with (CalcDone (info (DB ctx))) in *; zlia).
  apply run_total; try done. destruct Hi. by split.
Qed.

(** ** What a calculation pays *)

(** The pass over the accounts. *)
Lemma pass_conserves {E : Type} gvs candidates env bh s l : uninterrupted env -> bh <> 0 -> is_u64 bh ->
  accounts_inv s -> NoDup l -> Forall wf_Address l -> query_covered s l ->
  (forall a, a ∈ l -> calc_account s a = None) ->
  (forall a x, a ∈ l -> query_account s a = Some x -> BlockHeight x < bh) ->
  exists s' hs, calc_account_dbs (E := E) shake256 gvs candidates env bh 0 (getQueryDBList s) (getCalcDBList s) s [] []
      = Ok (s', query_stats gvs candidates bh s, hs) /\ files_only s s' /\ accounts_inv s' /\
    score_sum s' l = Zsum (map (fun a => score_of (query_account s a)) l)
      + TotalReward (foldl add_account_stats zero_Statistics (query_stats gvs candidates bh s)).
Proof.
  intros Hq Hb0 Hb Hs Hnd Hw Hc Hnone Hdue.
  destruct (pass_accounts (E := E) shake256 gvs candidates env bh s Hq Hb0 Hb Hs) as (s' & hs & -> & F & I & H).
  exists s', hs. split_and!; [done..|]. rewrite TotalReward_accounts, (pass_total gvs candidates bh s l) by done.
  cbn [TotalReward zero_Statistics]. rewrite Z.add_0_l, <-Zsum_map_add. unfold score_sum. f_equal.
  apply map_ext_in. intros a Ha%list_elem_of_In. rewrite Forall_forall in Hw. destruct (H a (Hw a Ha)) as [_ ->].
  rewrite Hnone by done. destruct (query_account s a) as [x|] eqn:Hx; cbn [score_of pass_reward]; [|done].
  unfold passed. by rewrite (proj2 (Z.ltb_lt _ _)) by (by apply (Hdue a)).
Qed.

(** The accounts a calculation starts from, every one of them to be
    calculated, and no other backups than those of the last calculation. *)
Record calc_start ctx (bh : Z) (l : list Address) : Prop := {
  cs_backups : only_backups (files (DB ctx)) (CalcDone (info (DB ctx)));
  cs_toggle : ToggleBH (info (DB ctx)) <> bh +u 1;
  cs_addresses : NoDup l /\ Forall wf_Address l;
  cs_covered : accounts_covered (DB ctx) l;
  cs_due : forall a x, a ∈ l -> calc_account (DB ctx) a = Some x -> BlockHeight x < bh;
}.

Lemma run_conserves {E : Type} env quit conn id ctx iissDB bh header gvList prepList r st l :
  calc_ready ctx -> is_u64 bh -> bh <> 0 -> CalcDone (info (DB ctx)) <> bh -> iiss_ok ctx iissDB ->
  Forall (fun g => is_u64 (ig_BlockHeight g)) gvList -> preps_ok prepList ->
  heights_sorted pr_BlockHeight (ctx_PRep ctx ++ prepList) -> uninterrupted env ->
  calc_start ctx bh l -> rewards_covered iissDB (ctx_PRep ctx ++ prepList) l ->
  run_calculation (E := E) shake256 map_order env quit conn id ctx iissDB bh header gvList prepList = Ok r ->
  res_stats r = Some st ->
  score_sum (DB (res_ctx r)) l = score_sum (DB ctx) l + TotalReward st.
Proof.
  intros Hr Hb Hb0 Hne [_ Htx Hbp] Hg Hp Hsort Hq [S1 S2 [Hnd Hw] S3 S4] (L1 & L2 & L3).
  destruct (prepared_ready bh (ih_Revision header) gvList prepList iissDB ctx Hr Hg Hp Hsort Htx) as [[Hm Hs] Hpr].
  pose proof (prepared_DB bh (ih_Revision header) gvList prepList iissDB ctx) as Edb.
  unfold run_calculation.
  match goal with |- context [UpdatePRepCandidate iissDB ?c] => change (UpdatePRepCandidate iissDB c)
    with (prepared bh (ih_Revision header) gvList prepList iissDB ctx) end.
  set (c4 := prepared bh (ih_Revision header) gvList prepList iissDB ctx) in *. cbv zeta.
  pose proof (cr_accounts _ Hr) as Hs0.
  assert (Hacc : forall a, a ∈ l -> query_account (DB c4) a = calc_account (DB ctx) a /\ calc_account (DB c4) a = None).
  { intros a Ha. rewrite Forall_forall in Hw. rewrite Edb. by apply begin_accounts; [| |done..]; auto. }
  destruct (pass_conserves (E := E) (GV c4) (ctx_PRepCandidates c4) env bh (DB c4) l Hq Hb0 Hb Hs Hnd Hw)
    as (s' & hs & -> & F & I & Hsum).
  { rewrite Edb. by apply begin_covered. }
  { intros a Ha. by apply Hacc. }
  { intros a x Ha Hx. apply (S4 a x Ha). destruct (Hacc a Ha) as [<- _]. done. }
  cbn [obind].
  assert (Hm' : ctx_mirror (set_DB s' c4)) by (eapply ctx_mirror_accounts; [exact Hm|by apply accounts_only_set]).
  match goal with |- context [negb ?b] => destruct (negb b) end; [by intros [= <-]|].
  destruct (finish_total (E := E) iissDB bh (set_Cancel (cancel_during env (ctx_Cancel (set_DB s' c4))) (set_DB s' c4))
    (foldl add_account_stats zero_Statistics (query_stats (GV c4) (ctx_PRepCandidates c4) bh (DB c4))) hs
    (sendCalculateACK conn id CalcRespStatusOK bh)) as (r' & st' & E1 & Hst & _ & Hc);
    [split; [by apply set_Cancel_mirror|done]|done..|].
  rewrite E1. intros [= <-] Hst'. rewrite Hst in Hst'. injection Hst' as <-.
  rewrite (Hc l Hnd).
  - cbn [DB set_DB set_Cancel]. rewrite Hsum.
    assert (Zsum (map (fun a => score_of (query_account (DB c4) a)) l) = score_sum (DB ctx) l) as ->; [|lia].
    unfold score_sum. f_equal. apply map_ext_in. intros a Ha%list_elem_of_In. by destruct (Hacc a Ha) as [-> _].
  - split_and!; [done|done|]. apply Forall_forall. intros p Hin. rewrite Forall_forall in L3.
    apply L3. by apply Hpr.
Qed.

(** C1: a calculation that is done pays exactly what it announces: over any set
    of addresses that holds every account there is and every address the IISS
    data and the P-Rep lists mention, the I-Score of the accounts has grown,
    from the calculate DBs of the last calculation to those of this one, by
    the total reward of the statistics. *)
Theorem DoCalculate_conserves {E : Type} env quit ctx req iissDB conn id r st l header gvList prepList :
  calc_ready ctx -> iiss_ok ctx iissDB -> LoadIISSData iissDB = Some (header, gvList, prepList) ->
  uninterrupted env -> calc_start ctx (res_BlockHeight r) l ->
  rewards_covered iissDB (ctx_PRep ctx ++ prepList) l ->
  DoCalculate (E := E) shake256 map_order env quit ctx req iissDB conn id = Ok r -> res_stats r = Some st ->
  score_sum (DB (res_ctx r)) l = score_sum (DB ctx) l + TotalReward st.
Proof.
  intros Hr Hi Hl Hq Hstart Hcov. destruct (ctx_info_wf _ (cr_mirror _ Hr)) as (_ & _ & _ & Hd & _).
  unfold DoCalculate. destruct (negb _ && _); [by intros [= <-]|]. rewrite Hl.
  destruct (io_load _ _ Hi _ _ _ Hl) as (Hh & Hg & Hp & Hsort).
  set (bh := if ih_BlockHeight header =? 0 then getCalcDoneBH (DB ctx) +u 1 else ih_BlockHeight header).
  assert (Hb : is_u64 bh) by (unfold bh; destruct (_ =? _); [apply u64_range|done]).
  pose proof (calculating_ready bh ctx Hr Hb) as Hr'. set (c1 := update_DB (setCalculatingBH bh) ctx) in *.
  destruct (Z.eqb_spec bh (getCalcDoneBH (DB c1))) as [|Hne]; [by intros [= <-]|].
  destruct (Z.ltb_spec bh (getCalcDoneBH (DB c1))) as [|Hge]; [by intros [= <-]|].
  assert (Hb0 : bh <> 0) by (change (getCalcDoneBH (DB c1)) with (CalcDone (info (DB ctx))) in *; zlia).
  intros Er Hst. pose proof Er as Er'.
  apply run_calculation_heights in Er' as [Hbh _]. rewrite Hbh in Hstart.
  eapply (run_conserves (E := E) env quit conn id c1 iissDB bh header gvList prepList r st l); try done.
  - by destruct Hi.
  - destruct Hstart. by split.
Qed.
End Total.
