(* ===== verification/Messages.v ===== *)
(** * Claim, query, rollback and initialisation messages

    The handlers of [core/msg_claim.go], [core/msg_rollback.go] and
    [core/msg.go] on the context: what each request writes and answers.  The
    decoding of a request and the sending of the response are left out. *)

From S2P Require Import Prelude Bytes HexInt Address Store Codec Typed Account ClaimDB Management IISSData IScoreDB Context.

Definition claimMinIScore : Z := 1000.
Definition BigIntClaimMinIScore : Z := claimMinIScore.
Definition IPCVersion : Z := 2.

Record ClaimMessage := mkClaimMessage {
  cm_Address : Address;
  cm_BlockHeight : Z;
  cm_BlockHash : bytes;
  cm_TXIndex : Z;
  cm_TXHash : bytes;
}.

Record ResponseClaim := mkResponseClaim {
  rcl_ClaimMessage : ClaimMessage;
  rcl_IScore : Z;
}.

Record CommitClaim := mkCommitClaim {
  cc_Success : bool;
  cc_Address : Address;
  cc_BlockHeight : Z;
  cc_BlockHash : bytes;
  cc_TXIndex : Z;
  cc_TXHash : bytes;
}.

Record StartBlock := mkStartBlock { sb_BlockHeight : Z; sb_BlockHash : option bytes }.
Record CommitBlock := mkCommitBlock {
  cbk_Success : bool;
  cbk_BlockHeight : Z;
  cbk_BlockHash : option bytes;
}.

Record RollBackRequest := mkRollBackRequest { rb_BlockHeight : Z; rb_BlockHash : bytes }.
Record RollBackResponse := mkRollBackResponse { rbr_Success : bool; rbr_Request : RollBackRequest }.

Record Query := mkQuery {
  q_Address : Address;
  q_BlockHeight : Z;
  q_BlockHash : bytes;
  q_TXHash : bytes;
}.
Record ResponseQuery := mkResponseQuery {
  rq_Address : Address;
  rq_IScore : Z;
  rq_BlockHeight : Z;
}.

Record ResponseInit := mkResponseInit { ri_Success : bool; ri_BlockHeight : Z }.
Record ResponseVersion := mkResponseVersion { rv_Version : Z; rv_BlockHeight : Z; rv_BlockHash : bytes }.

Inductive init_error := ErrTooHighBlockHeight (blockHeight limit : Z).

(** Errors that stop an operation carry the context reached; nothing else of
    it is changed. *)
Section Messages.
Context {D : Type} `{!LevelDB D}.
Context `{!Codec ClaimData, !Codec ClaimBackupInfo, !Codec PreCommitData, !Codec IScoreData,
  !Codec DBInfoData, !Codec GVData, !Codec PRepData}.

(** ** Claims: [core/msg_claim.go] *)

(** [claim, _ = NewClaimFromBytes(bs)]: nil when there is none. *)
Definition find_claim (cDB : D) (a : Address) : option Claim :=
  match bucket_Get PrefixIScore cDB (Address_Bytes a) with
  | Some bs => NewClaimFromBytes bs
  | None => None
  end.

(** The block height and the I-Score; a nil I-Score means zero.  The value
    written rounds the claimable I-Score down to a multiple of 1000. *)
Definition DoClaim {E : Type} (ctx : Context D) (req : ClaimMessage)
    : outcome E (Context D * (Z * option Z)) :=
  let pcDB := preCommit (DB ctx) in
  let pc := newPreCommit (cm_BlockHeight req) (cm_BlockHash req) (cm_TXIndex req)
              (cm_TXHash req) (cm_Address req) in
  let '(pc, found) := pc_query pc pcDB in
  if found then Ok (ctx, (pc_BlockHeight pc, None))
  else
    let claim := find_claim (claim (DB ctx)) (cm_Address req) in
    let! f := getQueryDB (DB ctx) (cm_Address req) in
    match bucket_Get PrefixIScore (db_at (DB ctx) f) (Address_Bytes (cm_Address req)) with
    | None => Ok (ctx, (0, None))
    | Some bs =>
        match NewIScoreAccountFromBytes bs with
        | None => Ok (ctx, (0, None))
        | Some ia =>
            if match claim with
               | Some c => ia_BlockHeight ia =? cd_BlockHeight (c_Data c)
               | None => false
               end
            then Ok (ctx, (ia_BlockHeight ia, None))
            else
              let iScore := match claim with
                            | Some c => ia_IScore ia - cd_IScore (c_Data c)
                            | None => ia_IScore ia
                            end in
              if iScore <? BigIntClaimMinIScore then Ok (ctx, (0, None))
              else
                let remain := big_Mod iScore BigIntClaimMinIScore in
                let iScore := iScore - remain in
                let ctx := update_DB (set_preCommit (pc_write pc (Some iScore) pcDB)) ctx in
                Ok (ctx, (ia_BlockHeight ia, Some iScore))
        end
    end.

(** The handler [claim]. *)
Definition handle_claim {E : Type} (ctx : Context D) (req : ClaimMessage)
    : outcome E (Context D * ResponseClaim) :=
  let! (ctx, (blockHeight, iScore)) := DoClaim ctx req in
  Ok (ctx, mkResponseClaim (mkClaimMessage (cm_Address req) blockHeight (cm_BlockHash req)
                              (cm_TXIndex req) (cm_TXHash req)) (default 0 iScore)).

(** The error of [commit] and [revert] is only logged. *)
Definition DoCommitClaim (ctx : Context D) (req : CommitClaim) : Context D :=
  let pc := newPreCommit (cc_BlockHeight req) (cc_BlockHash req) (cc_TXIndex req)
              (cc_TXHash req) (cc_Address req) in
  let pcDB := preCommit (DB ctx) in
  match (if cc_Success req then pc_commit pc pcDB else pc_revert pc pcDB) with
  | Ok pcDB => update_DB (set_preCommit pcDB) ctx
  | _ => ctx
  end.

Definition startBlock (ctx : Context D) (req : StartBlock) : Context D * StartBlock :=
  (update_DB (set_preCommit (flushPreCommit (preCommit (DB ctx)) (sb_BlockHeight req) (sb_BlockHash req))) ctx,
   req).

Definition set_claim_stores (p c cb : D) (s : IScoreDB D) : IScoreDB D :=
  set_claims c cb (set_preCommit p s).

Definition commitBlock {E : Type} (ctx : Context D) (req : CommitBlock)
    : outcome E (Context D * CommitBlock) :=
  let s := DB ctx in
  let respond ctx ret := Ok (ctx, mkCommitBlock ret (cbk_BlockHeight req) (cbk_BlockHash req)) in
  if cbk_Success req then
    match writePreCommitToClaimDB (preCommit s) (claim s) (claimBackup s) (cbk_BlockHeight req)
            (cbk_BlockHash req) with
    | Ok (p, c, cb) =>
        let s := set_claim_stores p c cb s in
        respond (set_DB (setCurrentBlockInfo (cbk_BlockHeight req) (nonNilBytes (cbk_BlockHash req)) s) ctx) true
    | Err (_, (p, c, cb)) => respond (set_DB (set_claim_stores p c cb s) ctx) false
    | Panic => Panic
    end
  else
    respond (update_DB (set_preCommit (flushPreCommit (preCommit s) (cbk_BlockHeight req)
               (cbk_BlockHash req))) ctx) true.

(** ** Rollback: [core/msg_rollback.go] *)

Definition checkRollback (ctx : Context D) (rollback : Z) : outcome claim_error unit :=
  if rollback <=? getPrevCalcDoneBH (DB ctx)
  then Err (RollbackLowBlockHeightError (getPrevCalcDoneBH (DB ctx)) rollback)
  else Ok tt.

Definition checkAccountDBRollback (ctx : Context D) (rollback : Z) : bool :=
  negb (getCalcDoneBH (DB ctx) <? rollback).

(** [rollbackClaimDB]: the current block information goes back only when
    something was undone. *)
Definition rollbackClaimDB (ctx : Context D) (to : Z) (blockHash : bytes) : outcome claim_error (Context D) :=
  let s := DB ctx in
  let! (undone, (cDB, cbDB)) := rollbackClaimDB_stores (claim s) (claimBackup s) to in
  let s := set_claims cDB cbDB s in
  Ok (set_DB (if undone : bool then rollbackCurrentBlockInfo to blockHash s else s) ctx).

(** The context after the request, and whether it succeeded. *)
Definition DoRollBack {E : Type} (ctx : Context D) (req : RollBackRequest) : outcome E (Context D * bool) :=
  let blockHeight := rb_BlockHeight req in
  match checkRollback ctx blockHeight with
  | Err _ => Ok (ctx, false)
  | Panic => Panic
  | Ok _ =>
      let ctx := set_Cancel (notifyRollback (ctx_Cancel ctx)) ctx in
      match rollbackClaimDB ctx blockHeight (rb_BlockHash req) with
      | Err _ => Ok (ctx, false)
      | Panic => Panic
      | Ok ctx =>
          let '(ctx, ok) :=
            if checkAccountDBRollback ctx blockHeight
            then let '(s, ok) := rollbackAccountDB blockHeight (DB ctx) in (set_DB s ctx, ok)
            else (ctx, true) in
          if negb ok then Ok (ctx, false) else Ok (RollbackManagementDB blockHeight ctx, true)
      end
  end.

Definition rollback {E : Type} (ctx : Context D) (req : RollBackRequest)
    : outcome E (Context D * RollBackResponse) :=
  let! (ctx, success) := DoRollBack ctx req in
  Ok (ctx, mkRollBackResponse success (mkRollBackRequest (rb_BlockHeight req)
        (copy_at 0 (rb_BlockHash req) (make_bytes BlockHashSize)))).

(** ** Queries and initialisation: [core/msg.go] *)

(** A claim of the same transaction that is not committed yet makes the
    I-Score zero.  A stored account that does not decode is nil: the access
    panics. *)
Definition DoQuery {E : Type} (ctx : Context D) (req : Query) : outcome E ResponseQuery :=
  let! pc := if (length (q_TXHash req) =? 0)%nat then Ok None
             else match findPreCommit (preCommit (DB ctx)) (q_Address req) (q_BlockHeight req)
                          (q_BlockHash req) with
                  | Ok pc => Ok pc
                  | Err _ => Ok None
                  | Panic => Panic
                  end in
  let pending := match pc with
                 | Some pc => if bool_decide (TXHash (pc_Data pc) = q_TXHash req) && negb (pc_IsEmpty pc)
                              then Some pc else None
                 | None => None
                 end in
  match pending with
  | Some pc => Ok (mkResponseQuery (q_Address req) 0 (cd_BlockHeight (pc_Claim_Data pc)))
  | None =>
      let claim := find_claim (claim (DB ctx)) (q_Address req) in
      let! f := getQueryDB (DB ctx) (q_Address req) in
      match bucket_Get PrefixIScore (db_at (DB ctx) f) (Address_Bytes (q_Address req)) with
      | None => Ok (mkResponseQuery (q_Address req) 0 0)
      | Some bs =>
          match NewIScoreAccountFromBytes bs with
          | None => Panic
          | Some ia =>
              let iScore := match claim with
                            | Some c => ia_IScore ia - cd_IScore (c_Data c)
                            | None => ia_IScore ia
                            end in
              Ok (mkResponseQuery (q_Address req) iScore (ia_BlockHeight ia))
          end
      end
  end.

Definition DoInit (ctx : Context D) (blockHeight : Z) : outcome init_error (Context D) :=
  let currentBlockHeight := bi_BlockHeight (getCurrentBlockInfo (DB ctx)) in
  if currentBlockHeight +u 1 <? blockHeight
  then Err (ErrTooHighBlockHeight blockHeight (currentBlockHeight +u 1))
  else Ok (update_DB (set_preCommit (initPreCommit (preCommit (DB ctx)) blockHeight)) ctx).

(** The handler [init]. *)
Definition handle_init (ctx : Context D) (blockHeight : Z) : Context D * ResponseInit :=
  match DoInit ctx blockHeight with
  | Ok ctx => (ctx, mkResponseInit true blockHeight)
  | _ => (ctx, mkResponseInit false blockHeight)
  end.

Definition version (ctx : Context D) : ResponseVersion :=
  let cBI := getCurrentBlockInfo (DB ctx) in
  mkResponseVersion IPCVersion (bi_BlockHeight cBI) (bi_BlockHash cBI).
End Messages.
