(* ===== verification/Dispatch.v ===== *)
(** * Messages and their handlers ([core/msg.go], [common/ipc/connection.go])

    Which messages a connection accepts, and which handler runs for each: in a
    goroutine of its own, or for ROLLBACK in the loop of the connection.  What the
    handlers do to the stores is in [Messages.v], [DoCalculate.v] and [CalcState.v], and
    when they run in [Life.v]. *)

From Stdlib Require Strings.String.
From S2P Require Import Prelude Bytes HexInt.
Import String.StringSyntax.

(** ** Message numbers *)

Definition MsgVersion : Z := 0.
Definition MsgClaim : Z := 1.
Definition MsgQuery : Z := 2.
Definition MsgCalculate : Z := 3.
Definition MsgCommitBlock : Z := 4.
Definition MsgCommitClaim : Z := 5.
Definition MsgQueryCalculateStatus : Z := 6.
Definition MsgQueryCalculateResult : Z := 7.
Definition MsgRollBack : Z := 8.
Definition MsgINIT : Z := 9.
Definition MsgStartBlock : Z := 10.
Definition MsgNotify : Z := 100.
Definition MsgReady : Z := MsgNotify + 0.
Definition MsgCalculateDone : Z := MsgNotify + 1.
Definition MsgDebug : Z := 1000.

Definition MsgToString (msg : Z) : bytes :=
  if msg =? MsgVersion then str "VERSION"
  else if msg =? MsgClaim then str "CLAIM"
  else if msg =? MsgQuery then str "QUERY"
  else if msg =? MsgCalculate then str "CALCULATE"
  else if msg =? MsgCommitBlock then str "COMMIT_BLOCK"
  else if msg =? MsgCommitClaim then str "COMMIT_CLAIM"
  else if msg =? MsgQueryCalculateStatus then str "QUERY_CALCULATE_STATUS"
  else if msg =? MsgQueryCalculateResult then str "QUERY_CALCULATE_RESULT"
  else if msg =? MsgReady then str "READY"
  else if msg =? MsgCalculateDone then str "CALCULATE_DONE"
  else if msg =? MsgRollBack then str "ROLLBACK"
  else if msg =? MsgINIT then str "INIT"
  else if msg =? MsgStartBlock then str "START_BLOCK"
  else if msg =? MsgDebug then str "DEBUG"
  else str "UNKNOWN".

(** ** Handlers *)

Inductive handler : Set :=
  | H_version | H_claim | H_query | H_calculate | H_startBlock | H_commitBlock | H_debug
  | H_commitClaim | H_queryCalculateStatus | H_queryCalculateResult | H_rollback | H_init.

#[global] Instance handler_eq_dec : EqDecision handler.
Proof. solve_decision. Defined.

(** [connection.handler]: the message numbers with a handler; [SetHandler] adds one. *)
Definition handlers : Type := list Z.
Definition SetHandler (msg : Z) (c : handlers) : handlers := msg :: c.

(** The handlers that [newConnection] sets. *)
Definition newConnection (monitorMode : bool) : handlers :=
  let c := fold_left (fun c m => SetHandler m c)
    [MsgVersion; MsgQuery; MsgQueryCalculateStatus; MsgQueryCalculateResult] [] in
  if monitorMode then SetHandler MsgDebug c
  else fold_left (fun c m => SetHandler m c)
    [MsgClaim; MsgCalculate; MsgStartBlock; MsgCommitBlock; MsgCommitClaim; MsgRollBack; MsgINIT] c.

(** [msgHandler.HandleMessage]: a goroutine for the handler, or for ROLLBACK
    the handler itself; [None] is the error for an unknown message. *)
Inductive action : Set := Go (h : handler) | Call (h : handler).

Definition HandleMessage (msg : Z) : option action :=
  if msg =? MsgVersion then Some (Go H_version)
  else if msg =? MsgClaim then Some (Go H_claim)
  else if msg =? MsgQuery then Some (Go H_query)
  else if msg =? MsgCalculate then Some (Go H_calculate)
  else if msg =? MsgStartBlock then Some (Go H_startBlock)
  else if msg =? MsgCommitBlock then Some (Go H_commitBlock)
  else if msg =? MsgDebug then Some (Go H_debug)
  else if msg =? MsgCommitClaim then Some (Go H_commitClaim)
  else if msg =? MsgQueryCalculateStatus then Some (Go H_queryCalculateStatus)
  else if msg =? MsgQueryCalculateResult then Some (Go H_queryCalculateResult)
  else if msg =? MsgRollBack then Some (Call H_rollback)
  else if msg =? MsgINIT then Some (Go H_init)
  else None.

(** [connection.HandleMessage]: a message without a handler is dropped. *)
Inductive reaction : Set := Dropped | Failed | Does (a : action).

Definition connection_HandleMessage (c : handlers) (msg : Z) : reaction :=
  if bool_decide (msg ∈ c) then match HandleMessage msg with Some a => Does a | None => Failed end else Dropped.

(** Whether a handler reads the message's data; these two ignore it. *)
Definition reads_data (h : handler) : bool :=
  match h with H_version | H_queryCalculateStatus => false | _ => true end.

(** Handlers that change the claims, the heights or the accounts. *)
Definition changes_state (h : handler) : bool :=
  match h with
  | H_claim | H_calculate | H_startBlock | H_commitBlock | H_commitClaim | H_rollback | H_init => true
  | _ => false
  end.

Definition handler_of (a : action) : handler := match a with Go h | Call h => h end.

(** A connection reacts to its messages without error, a monitor connection
    never runs a handler that changes the state, and only ROLLBACK holds its loop. *)
Lemma connection_reactions monitor msg :
  match connection_HandleMessage (newConnection monitor) msg with
  | Failed => False
  | Does a => (monitor = true -> changes_state (handler_of a) = false) /\
      (a = Call (handler_of a) <-> msg = MsgRollBack)
  | Dropped => True
  end.
Proof.
  unfold connection_HandleMessage. case_bool_decide as Hin; [|done].
  destruct monitor; cbn in Hin; rewrite !elem_of_cons in Hin;
    repeat (destruct Hin as [->|Hin]; [cbn; split; [done|split; done]|]); by apply elem_of_nil in Hin.
Qed.
