(* ===== verification/Life.v ===== *)
(** * The life of the process ([core/manager.go], [common/ipc/server.go],
    [cmd/icon_rc/main.go])

    A transition system: connections are accepted by the server of the
    calculator and by that of the monitor, or in client mode there is the one that was
    dialled; a connection starts a goroutine for a message, ROLLBACK runs in
    its loop; the handlers count themselves in the wait group that both managers
    share; the reload of IISS data runs beside them; a signal, or in client mode the end of
    the connection, calls [Close], which waits for the count and closes the
    stores. *)

From Stdlib Require Strings.String.
From stdpp Require Import relations.
From S2P Require Import Prelude Bytes HexInt Dispatch.
Import String.StringSyntax.

(** ** The state *)

(** A handler's goroutine: before [AddMsgTask], and between it and its return. *)
Inductive stage : Set := Spawned | Counted.

#[global] Instance stage_eq_dec : EqDecision stage.
Proof. solve_decision. Defined.

(** The connection that started it, and whether it can read its request. *)
Record task := mkTask { t_conn : nat; t_handler : handler; t_readable : bool; t_stage : stage }.

(** Its manager's [monitorMode], and whether its loop still reads. *)
Record connection := mkConnection { c_monitor : bool; c_open : bool }.

(** The calls of [Close]: by [main] on a signal, or by [manager.Loop]. *)
Inductive closer : Set := BySignal | ByLoop.

#[global] Instance closer_eq_dec : EqDecision closer.
Proof. solve_decision. Defined.

(** [closers] are the calls that wait, [closed] tells about the stores, and
    [ended] that [main] has returned. *)
Record process := mkProcess {
  clientMode : bool;
  accepting : bool;
  monitor_accepting : bool;
  connections : list connection;
  waitGroup : Z;
  tasks : list task;
  reloading : bool;
  signalled : bool;
  closers : list closer;
  closed : bool;
  ended : bool;
}.

Definition set_accepting b p := mkProcess (clientMode p) b (monitor_accepting p) (connections p) (waitGroup p) (tasks p) (reloading p) (signalled p) (closers p) (closed p) (ended p).
Definition set_connections cs p := mkProcess (clientMode p) (accepting p) (monitor_accepting p) cs (waitGroup p) (tasks p) (reloading p) (signalled p) (closers p) (closed p) (ended p).
Definition set_tasks ts p := mkProcess (clientMode p) (accepting p) (monitor_accepting p) (connections p) (waitGroup p) ts (reloading p) (signalled p) (closers p) (closed p) (ended p).
Definition set_closers cs p := mkProcess (clientMode p) (accepting p) (monitor_accepting p) (connections p) (waitGroup p) (tasks p) (reloading p) (signalled p) cs (closed p) (ended p).
Definition reload_over p := mkProcess (clientMode p) (accepting p) (monitor_accepting p) (connections p) (waitGroup p) (tasks p) false (signalled p) (closers p) (closed p) (ended p).
Definition got_signal p := mkProcess (clientMode p) (accepting p) (monitor_accepting p) (connections p) (waitGroup p) (tasks p) (reloading p) true (closers p) (closed p) (ended p).
Definition AddMsgTask p := mkProcess (clientMode p) (accepting p) (monitor_accepting p) (connections p) (waitGroup p + 1) (tasks p) (reloading p) (signalled p) (closers p) (closed p) (ended p).
Definition DoneMsgTask p := mkProcess (clientMode p) (accepting p) (monitor_accepting p) (connections p) (waitGroup p - 1) (tasks p) (reloading p) (signalled p) (closers p) (closed p) (ended p).
Definition CloseIScoreDB p := mkProcess (clientMode p) (accepting p) (monitor_accepting p) (connections p) (waitGroup p) (tasks p) (reloading p) (signalled p) (closers p) true (ended p).
Definition end_process p := mkProcess (clientMode p) (accepting p) (monitor_accepting p) (connections p) (waitGroup p) (tasks p) (reloading p) (signalled p) (closers p) (closed p) true.

(** [InitManager]: what dialling and listening give.  The reload was started
    before; an error ends the process. *)
Definition InitManager_channels (client monitor reload : bool) (dialled listening monitor_listening : bool) : option process :=
  if (if client then dialled else listening) && (negb monitor || monitor_listening) then
    Some (mkProcess client (negb client) monitor (if client then [mkConnection false true] else []) 0 [] reload false [] false false)
  else None.

(** ** Steps *)

(** ROLLBACK runs in the loop of its connection: nothing is read until it
    returns. *)
Definition in_rollback (i : nat) (p : process) : bool :=
  existsb (fun t => bool_decide (t_conn t = i) && bool_decide (t_handler t = H_rollback)) (tasks p).

Definition hang_up (c : connection) : connection := mkConnection (c_monitor c) false.

(** [Close] begins: [notifyExit], and then it waits. *)
Definition begin_Close (who : closer) (p : process) : process := set_closers (closers p ++ [who]) p.

(** The loop of a connection ends with an error.  In client mode the
    connection of the calculator is the first, and [manager.Loop] closes then. *)
Definition loop_ends (i : nat) (p : process) : process :=
  let p := set_connections (alter hang_up i (connections p)) p in
  if clientMode p && bool_decide (i = 0)%nat then begin_Close ByLoop p else p.

(** The rest of [Close]: the connection in client mode, the server else, and
    the stores. *)
Definition finish_Close (k : nat) (p : process) : process :=
  let p := set_closers (delete k (closers p)) p in
  let p := if clientMode p then set_connections (alter hang_up 0%nat (connections p)) p else set_accepting false p in
  CloseIScoreDB p.

Inductive event :=
  | E_accept (monitor : bool)
  | E_message (i : nat) (msg : Z) (readable : bool)
  | E_read_error (i : nat)
  | E_count (j : nat)
  | E_return (j : nat)
  | E_reloaded
  | E_signal
  | E_close (k : nat)
  | E_exit.

(** A handler returns: with its work done, or before it when its data could
    not be read; then without [DoneMsgTask], and for ROLLBACK with an error that
    ends the loop. *)
Definition return_task (j : nat) (t : task) (p : process) : process :=
  let p := set_tasks (delete j (tasks p)) p in
  if t_readable t then DoneMsgTask p
  else if bool_decide (t_handler t = H_rollback) then loop_ends (t_conn t) p else p.

Definition receive (i : nat) (c : connection) (msg : Z) (readable : bool) (p : process) : option process :=
  match connection_HandleMessage (newConnection (c_monitor c)) msg with
  | Does a =>
      let h := handler_of a in
      Some (set_tasks (tasks p ++ [mkTask i h (readable || negb (reads_data h)) Spawned]) p)
  | Dropped => Some p
  | Failed => Some (loop_ends i p)
  end.

Definition signal_Close_done (p : process) : bool := signalled p && bool_decide (BySignal ∉ closers p).

(** What an event makes of the process; [None] where it cannot happen. *)
Definition fire (e : event) (p : process) : option process :=
  if ended p then None
  else
    match e with
    | E_accept monitor =>
        if (if monitor then monitor_accepting p else accepting p)
        then Some (set_connections (connections p ++ [mkConnection monitor true]) p) else None
    | E_message i msg readable =>
        c ← connections p !! i;
        if c_open c && negb (in_rollback i p) then receive i c msg readable p else None
    | E_read_error i =>
        c ← connections p !! i;
        if c_open c && negb (in_rollback i p) then Some (loop_ends i p) else None
    | E_count j =>
        t ← tasks p !! j;
        match t_stage t with
        | Spawned => Some (AddMsgTask (set_tasks (<[j := mkTask (t_conn t) (t_handler t) (t_readable t) Counted]> (tasks p)) p))
        | Counted => None
        end
    | E_return j =>
        t ← tasks p !! j;
        match t_stage t with Spawned => None | Counted => Some (return_task j t p) end
    | E_reloaded => if reloading p then Some (reload_over p) else None
    | E_signal => if signalled p then None else Some (begin_Close BySignal (got_signal p))
    | E_close k =>
        match closers p !! k with
        | Some _ => if waitGroup p =? 0 then Some (finish_Close k p) else None
        | None => None
        end
    | E_exit => if signal_Close_done p then Some (end_process p) else None
    end.

Definition step (p p' : process) : Prop := exists e, fire e p = Some p'.

(** The states of a process, from any start. *)
Inductive reachable : process -> Prop :=
  | reach_start client monitor reload dialled listening monitor_listening p :
      InitManager_channels client monitor reload dialled listening monitor_listening = Some p -> reachable p
  | reach_step p p' : reachable p -> step p p' -> reachable p'.

(** A sequence of events. *)
Fixpoint fire_all (es : list event) (p : process) : option process :=
  match es with [] => Some p | e :: es => p ← fire e p; fire_all es p end.

Lemma fire_all_reachable es p p' : reachable p -> fire_all es p = Some p' -> reachable p'.
Proof.
  revert p. induction es as [|e es IH]; intros p Hr; cbn; [by intros [= <-]|].
  intros (p1 & He & H1)%bind_Some. apply (IH p1); [|done]. apply (reach_step p); [done|by exists e].
Qed.

(** ** Waiting *)

(** The handlers that have counted themselves: those that will take their
    count back, and with [u] = 1 those that will not. *)
Definition weigh (u : Z) (t : task) : Z :=
  match t_stage t with Counted => if t_readable t then 1 else u | Spawned => 0 end.
Definition surplus (u : Z) (p : process) : Z := waitGroup p - Zsum (map (weigh u) (tasks p)).

(** The count that no handler will take back. *)
Definition lost (p : process) : Z := surplus 0 p.

#[local] Arguments Zsum : simpl never.

Lemma Zsum_cons a l : Zsum (a :: l) = a + Zsum l.
Proof. done. Qed.

Lemma weigh_nonneg u t : 0 <= u -> 0 <= weigh u t.
Proof. intros Hu. unfold weigh. by repeat case_match. Qed.

Lemma Zsum_split u l t r : Zsum (map (weigh u) (l ++ t :: r)) = Zsum (map (weigh u) (l ++ r)) + weigh u t.
Proof. rewrite !map_app, !Zsum_app. cbn [map]. rewrite Zsum_cons. lia. Qed.

Lemma Zsum_delete u j t ts : ts !! j = Some t -> Zsum (map (weigh u) (delete j ts)) = Zsum (map (weigh u) ts) - weigh u t.
Proof. intros Ht. rewrite <-(take_drop_middle ts j t Ht) at 2. rewrite delete_take_drop, Zsum_split. lia. Qed.

Lemma Zsum_insert u j t t' ts : ts !! j = Some t ->
  Zsum (map (weigh u) (<[j := t']> ts)) = Zsum (map (weigh u) ts) - weigh u t + weigh u t'.
Proof.
  intros Ht. rewrite <-(take_drop_middle ts j t Ht) at 2. rewrite (insert_take_drop ts j t') by (by eapply lookup_lt_Some).
  rewrite !Zsum_split. lia.
Qed.

Lemma Zsum_nonneg u ts : 0 <= u -> 0 <= Zsum (map (weigh u) ts).
Proof.
  intros Hu. induction ts as [|t ts IH]; [done|]. cbn [map]. rewrite Zsum_cons. pose proof (weigh_nonneg u t Hu). lia.
Qed.

Lemma tasks_loop_ends i p : tasks (loop_ends i p) = tasks p /\ waitGroup (loop_ends i p) = waitGroup p /\
  closed (loop_ends i p) = closed p.
Proof. unfold loop_ends. by destruct (_ && _). Qed.

Lemma tasks_finish_Close k p : tasks (finish_Close k p) = tasks p /\ waitGroup (finish_Close k p) = waitGroup p /\
  closed (finish_Close k p) = true.
Proof. unfold finish_Close. cbn [clientMode set_closers]. by destruct (clientMode p). Qed.

(** What is lost stays lost; the stores are closed only by a [Close] that
    found the count zero. *)
Lemma fire_surplus u e p p' : 0 <= u <= 1 -> fire e p = Some p' ->
  surplus u p <= surplus u p' /\ (closed p' = closed p \/ waitGroup p = 0 /\ tasks p' = tasks p).
Proof.
  intros Hu. unfold fire. destruct (ended p); [done|]. unfold surplus.
  destruct e as [m|i msg b|i|j|j| | |k|]; intros Hf.
  - destruct (if m then _ else _); [injection Hf as <-|done]. split; [done|by left].
  - apply bind_Some in Hf as (c & _ & Hf). destruct (_ && _); [|done]. unfold receive in Hf.
    destruct (connection_HandleMessage _ _) as [| |a]; injection Hf as <-; [split; [done|by left]| |].
    + destruct (tasks_loop_ends i p) as (-> & -> & ->). split; [done|by left].
    + cbn. rewrite map_app, Zsum_app. cbn [map]. rewrite Zsum_cons. cbn. change (Zsum []) with 0. split; [lia|by left].
  - apply bind_Some in Hf as (c & _ & Hf). destruct (_ && _); [injection Hf as <-|done].
    destruct (tasks_loop_ends i p) as (-> & -> & ->). split; [done|by left].
  - apply bind_Some in Hf as (t & Ht & Hf). destruct (t_stage t) eqn:Es; [injection Hf as <-|done]. cbn.
    rewrite (Zsum_insert _ _ _ _ _ Ht). unfold weigh at 3 4. rewrite Es. cbn. split; [destruct (t_readable t); lia|by left].
  - apply bind_Some in Hf as (t & Ht & Hf). destruct (t_stage t) eqn:Es; [done|injection Hf as <-]. unfold return_task.
    pose proof (Zsum_delete u _ _ _ Ht) as Hd. unfold weigh at 3 in Hd. rewrite Es in Hd.
    destruct (t_readable t); [cbn; rewrite Hd; split; [lia|by left]|].
    case_bool_decide; [destruct (tasks_loop_ends (t_conn t) (set_tasks (delete j (tasks p)) p)) as (-> & -> & ->)|];
      cbn; rewrite Hd; (split; [lia|by left]).
  - destruct (reloading p); [injection Hf as <-|done]. split; [done|by left].
  - destruct (signalled p); [done|injection Hf as <-]. split; [done|by left].
  - destruct (closers p !! k); [|done]. destruct (waitGroup p =? 0) eqn:Hw; [injection Hf as <-|done].
    destruct (tasks_finish_Close k p) as (-> & -> & _). split; [done|right; split; [by apply Z.eqb_eq|done]].
  - destruct (signal_Close_done p); [injection Hf as <-|done]. split; [done|by left].
Qed.

Lemma reachable_surplus u p : 0 <= u <= 1 -> reachable p -> 0 <= surplus u p.
Proof.
  intros Hu. induction 1 as [client m r d l ml p Hp|p p' _ IH [e He]].
  - unfold InitManager_channels in Hp. destruct (_ && _); [injection Hp as <-|]; done.
  - apply (fire_surplus u) in He as [He _]; [|done]. lia.
Qed.

(** [main] returns when the stores are closed. *)
Definition signal_inv (p : process) : Prop :=
  (signalled p = true -> BySignal ∈ closers p \/ closed p = true) /\ (ended p = true -> closed p = true).

Lemma signal_inv_keep p p' : signalled p' = signalled p -> ended p' = ended p -> closed p' = closed p ->
  closers p ⊆ closers p' -> signal_inv p -> signal_inv p'.
Proof. intros Es Ee Ec Hs [H1 H2]. split; rewrite ?Es, ?Ee, ?Ec; [|done]. intros H. destruct (H1 H); [left; by apply Hs|by right]. Qed.

Lemma signal_inv_loop_ends i p : signal_inv p -> signal_inv (loop_ends i p).
Proof.
  apply signal_inv_keep; unfold loop_ends; destruct (_ && _); try done. cbn. apply list_subseteq_app_l. done.
Qed.

Lemma fire_signal_inv e p p' : fire e p = Some p' -> signal_inv p -> signal_inv p'.
Proof.
  unfold fire. destruct (ended p) eqn:Ee; [done|]. intros Hf Hi.
  destruct e as [m|i msg b|i|j|j| | |k|].
  - destruct (if m then _ else _); [injection Hf as <-|done]. by revert Hi; apply signal_inv_keep.
  - apply bind_Some in Hf as (c & _ & Hf). destruct (_ && _); [|done]. unfold receive in Hf.
    destruct (connection_HandleMessage _ _) as [| |a]; injection Hf as <-; [done|by apply signal_inv_loop_ends|].
    by revert Hi; apply signal_inv_keep.
  - apply bind_Some in Hf as (c & _ & Hf). destruct (_ && _); [injection Hf as <-|done]. by apply signal_inv_loop_ends.
  - apply bind_Some in Hf as (t & _ & Hf). destruct (t_stage t); [injection Hf as <-|done]. by revert Hi; apply signal_inv_keep.
  - apply bind_Some in Hf as (t & _ & Hf). destruct (t_stage t); [done|injection Hf as <-]. unfold return_task.
    destruct (t_readable t); [by revert Hi; apply signal_inv_keep|].
    case_bool_decide; [apply signal_inv_loop_ends|]; by revert Hi; apply signal_inv_keep.
  - destruct (reloading p); [injection Hf as <-|done]. by revert Hi; apply signal_inv_keep.
  - destruct (signalled p); [done|injection Hf as <-]. split; [left; set_solver|apply Hi].
  - destruct (closers p !! k); [|done]. destruct (waitGroup p =? 0); [injection Hf as <-|done].
    destruct (tasks_finish_Close k p) as (_ & _ & Hc). by split; [right|].
  - destruct (signal_Close_done p) eqn:Hs; [injection Hf as <-|done]. unfold signal_Close_done in Hs.
    apply andb_true_iff in Hs as [Hs Hn%bool_decide_eq_true]. destruct (proj1 Hi Hs) as [|Hc]; [done|]. split; [by right|done].
Qed.

Lemma reachable_signal_inv p : reachable p -> signal_inv p.
Proof.
  induction 1 as [client m r d l ml p Hp|p p' _ IH [e He]]; [|by eapply fire_signal_inv].
  unfold InitManager_channels in Hp. destruct (_ && _); [injection Hp as <-|]; done.
Qed.

(** Handlers that return bring the count down to what is lost. *)
Lemma all_return n p : length (tasks p) = n -> ended p = false -> closers p <> [] ->
  exists p', rtc step p p' /\ waitGroup p' = lost p /\ ended p' = false /\ closers p' <> [].
Proof.
  revert p. induction n as [|n IH]; intros p Hn He Hc.
  { exists p. split; [done|]. apply nil_length_inv in Hn. unfold lost, surplus. rewrite Hn. cbn [map]. change (Zsum []) with 0. split; [lia|done]. }
  destruct (decide (Exists (fun t => weigh 0 t = 1) (tasks p))) as [Hx|Hx].
  - apply Exists_exists in Hx as (t & Ht & Hw). apply list_elem_of_lookup in Ht as [j Hj].
    set (p1 := DoneMsgTask (set_tasks (delete j (tasks p)) p)).
    assert (Hs : step p p1).
    { exists (E_return j). unfold fire. rewrite He, Hj. unfold weigh in Hw. cbn [mbind option_bind].
      destruct (t_stage t) eqn:Es; [done|]. destruct (t_readable t) eqn:Er; [|done]. unfold return_task. by rewrite Er. }
    destruct (IH p1) as (p' & H1 & H2 & H3); [|done..|].
    { cbn. rewrite length_delete by by eexists. lia. }
    exists p'. split; [by eapply rtc_l|]. split; [|done]. rewrite H2. unfold lost, surplus, p1. cbn.
    rewrite (Zsum_delete _ _ _ _ Hj), Hw. lia.
  - exists p. split; [done|]. split; [|done]. unfold lost, surplus. apply Forall_Exists_neg in Hx.
    assert (Zsum (map (weigh 0) (tasks p)) = 0) as ->; [|lia].
    clear -Hx. induction Hx as [|t ts Ht _ IH]; [done|]. cbn [map]. rewrite Zsum_cons, IH.
    unfold weigh in *. repeat case_match; done.
Qed.

Lemma rtc_reachable p p' : rtc step p p' -> reachable p -> reachable p'.
Proof. induction 1 as [|p p1 p' Hs _ IH]; [done|]. intros Hr. apply IH. by apply (reach_step p). Qed.

(** A step that closes the stores finds every count taken back. *)
Lemma closing_step p p' : reachable p -> step p p' -> closed p = false -> closed p' = true ->
  lost p = 0 /\ forall t, t ∈ tasks p -> t_stage t = Spawned.
Proof.
  intros Hr [e He] Ho Hc. pose proof (reachable_surplus 0 p ltac:(lia) Hr) as H0.
  pose proof (reachable_surplus 1 p ltac:(lia) Hr) as H1.
  apply (fire_surplus 0) in He as [_ [He|[Hw _]]]; [congruence| |lia]. unfold lost, surplus in *. rewrite Hw in *.
  pose proof (Zsum_nonneg 0 (tasks p) ltac:(lia)). split; [lia|]. intros t [l (r & E)]%list_elem_of_split.
  rewrite E, Zsum_split in H1. pose proof (Zsum_nonneg 1 (l ++ r) ltac:(lia)).
  unfold weigh in H1 at 2. destruct (t_stage t); [done|]. destruct (t_readable t); lia.
Qed.

Lemma closed_later p p' : rtc step p p' -> reachable p -> closed p = false -> closed p' = true -> lost p = 0.
Proof.
  induction 1 as [|p p1 p' Hs _ IH]; intros Hr Ho Hc; [congruence|].
  destruct (closed p1) eqn:Ho1; [by apply (closing_step p p1)|].
  assert (Hr1 : reachable p1) by (by apply (reach_step p)). specialize (IH Hr1 eq_refl Hc).
  pose proof (reachable_surplus 0 p ltac:(lia) Hr) as H0. destruct Hs as [e He].
  apply (fire_surplus 0) in He as [He _]; [|lia]. unfold lost in *. lia.
Qed.


(** ** What it does not wait for *)

(** A process in server mode, and one that dialled. *)
Definition server0 (reload : bool) : process :=
  mkProcess false true true [] 0 [] reload false [] false false.
Definition client0 : process := mkProcess true false true [mkConnection false true] 0 [] false false [] false false.
Lemma server0_reachable reload : reachable (server0 reload).
Proof. by apply (reach_start false true reload true true true). Qed.
Lemma client0_reachable : reachable client0.
Proof. by apply (reach_start true true false true true true). Qed.

(** A handler can start after the stores are closed: its goroutine counts
    itself only when it runs, and [Close] does not know of it before. *)
Lemma close_race : exists p, reachable p /\ closed p = true /\ tasks p = [mkTask 0 H_claim true Counted].
Proof.
  eexists. split; [|split; [|]].
  - eapply (fire_all_reachable [E_accept false; E_message 0 MsgClaim true; E_signal; E_close 0; E_count 0]);
      [apply (server0_reachable false)|vm_compute; reflexivity].
  - done.
  - done.
Qed.

(** [Close] closes the listener, not the connections: what arrives before
    the process ends is handled on closed stores; the server of the monitor is not
    closed at all. *)
Lemma served_after_close : exists p, reachable p /\ closed p = true /\ monitor_accepting p = true /\
  tasks p = [mkTask 0 H_query true Counted; mkTask 1 H_debug true Counted].
Proof.
  eexists. split_and!.
  - eapply (fire_all_reachable [E_accept false; E_signal; E_close 0; E_message 0 MsgQuery true; E_accept true;
      E_message 1 MsgDebug true; E_count 0; E_count 1]); [apply (server0_reachable false)|vm_compute; reflexivity].
  - done.
  - done.
  - done.
Qed.

(** The reload of IISS data is not counted: the stores are closed under it. *)
Lemma closed_under_reload : exists p, reachable p /\ closed p = true /\ reloading p = true.
Proof.
  eexists. split_and!.
  - eapply (fire_all_reachable [E_signal; E_close 0]); [apply (server0_reachable true)|vm_compute; reflexivity].
  - done.
  - done.
Qed.

(** In client mode the end of the connection closes the stores and leaves the
    process running, with the monitor still served, until a signal. *)
Lemma client_lingers : exists p, reachable p /\ closed p = true /\ ended p = false /\ signalled p = false /\
  tasks p = [mkTask 1 H_query true Counted] /\ fire E_exit p = None.
Proof.
  eexists. split_and!.
  - eapply (fire_all_reachable [E_read_error 0; E_close 0; E_accept true; E_message 1 MsgQuery true; E_count 0]);
      [apply client0_reachable|vm_compute; reflexivity].
  - done.
  - done.
  - done.
  - done.
  - done.
Qed.

