(* ===== verification/Main.v ===== *)
(** * The program [icon_rc] ([cmd/icon_rc/main.go], [RcConfig] of [core/manager.go])

    Its options, what it does for [-version] and [-gen], and the start of the
    manager: the state of [NewContext] with the channels of [Life]. *)

From Stdlib Require Strings.String.
From S2P Require Import Prelude Bytes HexInt HexText Flags Address Store Codec Account ClaimDB Management IISSData IScoreDB Context Dispatch Life.
Import String.StringSyntax.

Record RcConfig := mkRcConfig {
  IISSDataDir : bytes;
  DBDir : bytes;
  IpcNet : bytes;
  IpcAddr : bytes;
  ClientMode : bool;
  cfg_DBCount : Z;
  Monitor : bool;
  LogFile : bytes;
  LogMaxSize : Z;
  LogMaxBackups : Z;
  CalcDebugConf : bytes;
  FileName : bytes;
}.

Definition icon_rc_flags : FlagSet opts :=
  [String_flag (str "iissdata"); String_flag (str "db"); String_flag (str "ipc-net"); String_flag (str "ipc-addr");
   String_flag (str "config"); Bool_flag (str "client"); Bool_flag (str "monitor"); Int_flag (str "db-count");
   String_flag (str "log-file"); Int_flag (str "log-max-size"); Int_flag (str "log-max-backups"); Bool_flag (str "gen");
   Bool_flag (str "version"); String_flag (str "calculate-debug-conf")].

Definition cfg_of (o : opts) : RcConfig := {|
  IISSDataDir := get_string (str "iissdata") (str "./iissdata") o;
  DBDir := get_string (str "db") (str ".iscoredb") o;
  IpcNet := get_string (str "ipc-net") (str "unix") o;
  IpcAddr := get_string (str "ipc-addr") (str "/tmp/icon-rc.sock") o;
  ClientMode := get_bool (str "client") false o;
  cfg_DBCount := get_int (str "db-count") 2 o;
  Monitor := get_bool (str "monitor") false o;
  LogFile := get_string (str "log-file") (str "icon_rc.log") o;
  LogMaxSize := get_int (str "log-max-size") 10 o;
  LogMaxBackups := get_int (str "log-max-backups") 10 o;
  CalcDebugConf := get_string (str "calculate-debug-conf") (str "./calculation_debug.json") o;
  FileName := get_string (str "config") (str "rc_config.json") o;
|}.

(** What the options ask for: to write the configuration into a file, or to
    serve with it; a [-db-count] above the maximum is only printed.  [-version]
    ends the process. *)
Inductive asked :=
  | Generate (file : bytes) (cfg : RcConfig)
  | Serve (cfg : RcConfig) (too_large : bool).

Definition icon_rc_main (args : list bytes) : outcome exit asked :=
  let! o := ParseOrExit icon_rc_flags args ∅ in
  let cfg := cfg_of o in
  if get_bool (str "version") false o then Err (Exit 0)
  else if get_bool (str "gen") false o then
    Ok (Generate (match FileName cfg with [] => str "rc_config.json" | f => f end) cfg)
  else Ok (Serve cfg (MaxDBCount <? cfg_DBCount cfg)).

(** ** The manager *)

Section InitManager.
Context {D : Type} `{!LevelDB D}.
Context `{!Codec DBInfoData, !Codec DBInfoDataV1, !Codec GVData, !Codec PRepData, !Codec PRepCandidateData}.

(** What is on the disk in a directory, with its account DBs. *)
Record rc_disk := mkRcDisk {
  rd_management : D;
  rd_calcResult : D;
  rd_preCommit : D;
  rd_claim : D;
  rd_claimBackup : D;
  rd_files : gmap fname D;
}.

(** What the network answers: whether the peer can be dialled, and whether
    the two sockets can be listened on. *)
Record rc_net := mkRcNet { rn_dial : bool; rn_listen : bool; rn_listen_monitor : bool }.

(** [make] refuses a negative number of account DBs.  The reload of IISS data
    has been started, and runs beside the rest. *)
Definition InitManager_start (disks : bytes -> rc_disk) (net : rc_net) (cfg : RcConfig) (reload : bool)
    : outcome Empty_set (Context D * option process) :=
  let k := disks (DBDir cfg) in
  let! ctx := NewContext (rd_management k) (rd_calcResult k) (rd_preCommit k) (rd_claim k) (rd_claimBackup k)
                (rd_files k) (cfg_DBCount cfg) in
  if DBCount (info (DB ctx)) <? 0 then Panic
  else Ok (ctx, InitManager_channels (ClientMode cfg) (Monitor cfg) reload (rn_dial net) (rn_listen net) (rn_listen_monitor net)).

(** The manager looks at nothing else: in particular at no configuration
    file. *)
Lemma InitManager_start_options disks net cfg cfg' reload :
  DBDir cfg = DBDir cfg' -> cfg_DBCount cfg = cfg_DBCount cfg' -> ClientMode cfg = ClientMode cfg' -> Monitor cfg = Monitor cfg' ->
  InitManager_start disks net cfg reload = InitManager_start disks net cfg' reload.
Proof. intros Hd Hn Hc Hm. unfold InitManager_start. by rewrite Hd, Hn, Hc, Hm. Qed.
End InitManager.

Lemma icon_rc_flags_names : Forall (fun f => flag_name (f_Name f)) icon_rc_flags.
Proof. by apply (bool_decide_unpack _). Qed.

(** Options that spell some assignments. *)
Lemma icon_rc_line l args o : command_line icon_rc_flags l args -> assign_all icon_rc_flags l ∅ = Ok o ->
  get_bool (str "version") false o = false -> get_bool (str "gen") false o = false ->
  icon_rc_main args = Ok (Serve (cfg_of o) (MaxDBCount <? cfg_DBCount (cfg_of o))).
Proof.
  intros Hl Ha Hv Hg. unfold icon_rc_main. rewrite (ParseOrExit_line _ l _ _ o icon_rc_flags_names) by done.
  cbn [obind]. by rewrite Hv, Hg.
Qed.

(** Without options it serves on the default socket with two account DBs. *)
Example icon_rc_defaults :
  match icon_rc_main [] with
  | Ok (Serve cfg false) => IpcAddr cfg = str "/tmp/icon-rc.sock" /\ cfg_DBCount cfg = 2 /\ ClientMode cfg = false
  | _ => False
  end.
Proof. vm_compute. done. Qed.

(** The number of account DBs is not checked: one that is too large, zero or
    negative goes to the manager. *)
Example db_count_unchecked :
  match icon_rc_main [str "-db-count=0"], icon_rc_main [str "-db-count"; str "300"], icon_rc_main [str "-db-count=-1"] with
  | Ok (Serve c0 false), Ok (Serve c300 true), Ok (Serve c1 false) =>
      cfg_DBCount c0 = 0 /\ cfg_DBCount c300 = 300 /\ cfg_DBCount c1 = -1
  | _, _, _ => False
  end.
Proof. vm_compute. done. Qed.
