(* ===== verification/DBTest.v ===== *)
(** * The test data program ([cmd/dbtest])

    [dbtest DB COMMAND [options]] writes a database with random accounts, removes
    it, queries an account of it, or asks for a calculation, all under one directory.  The
    random bytes are a parameter. *)

From Stdlib Require Strings.String.
From S2P Require Import Prelude Bytes HexInt HexText Flags Address Store Codec Typed Account ClaimDB Management IISSData IScoreDB Context Reward Calculate DoCalculate Messages Main.
Import String.StringSyntax.

Definition NumDelegate : nat := 10.

(** [strconv.FormatInt(n, 16)]. *)
Fixpoint format16 (fuel : nat) (n : Z) (acc : bytes) : bytes :=
  match fuel with
  | O => acc
  | S fuel => let acc := hex_digit (n mod 16) :: acc in if n / 16 =? 0 then acc else format16 fuel (n / 16) acc
  end.

Section DBTest.
Context {D : Type} `{!LevelDB D}.
Context `{!Codec ClaimData, !Codec ClaimBackupInfo, !Codec PreCommitData, !Codec IScoreData, !Codec IISSTXData,
  !Codec IISSBlockProduceInfoData, !Codec CRData, !Codec DBInfoData, !Codec DBInfoDataV1, !Codec GVData, !Codec PRepData,
  !Codec PRepCandidateData, !Codec IISSHeader, !Codec IISSGVData}.
Context (shake256 : bytes -> bytes) (map_order : gmap bytes Z -> list (bytes * Z))
  (candidate_order : PRepCandidates -> list (Address * PRepCandidate)) (env : calc_env).
(** What [rand.Read] gives for an entry of an account DB. *)
Context (rand : nat -> nat -> bytes).

(** ** [create] *)

Definition createAddress (prefix random : bytes) : outcome addr_error Address :=
  let data := take (AddressIDBytes - length prefix) random in
  let buf := make_bytes AddressIDBytes in
  let buf := copy_at 0 prefix buf in
  NewAccountAddress (Some (copy_at (length prefix) data buf)).

(** A delegation to each of the P-Reps of the list, which may be nil. *)
Definition test_delegations (pRepList : list (option PRepCandidate)) : outcome addr_error (list (option DelegateData)) :=
  foldr (fun p r => match p with
                    | Some p => let! r := r in Ok (Some (mkDelegateData (pcd_Address p) MinDelegation) :: r)
                    | None => Panic
                    end) (Ok []) pRepList.

Definition createIScoreData (prefix random : bytes) (pRepList : list (option PRepCandidate)) : outcome addr_error IScoreAccount :=
  let! addr := createAddress prefix random in
  let! dgs := test_delegations pRepList in
  Ok (mkIScoreAccount addr (mkIScoreData 0 0 dgs)).

Definition first_candidates (ctx : Context D) : list (option PRepCandidate) :=
  let l := map (fun e => Some e.2) (take NumDelegate (candidate_order (ctx_PRepCandidates ctx))) in
  l ++ replicate (NumDelegate - length l) None.

Definition createData (index : nat) (bucket : D) (prefix : bytes) (count : nat) (ctx : Context D) : outcome addr_error D :=
  fold_left (fun bucket j =>
    let! bucket := bucket in
    let! data := createIScoreData prefix (rand index j) (first_candidates ctx) in
    Ok (bucket_Set PrefixIScore (ia_ID data) (ia_Bytes data) bucket)) (seq 0 count) (Ok bucket).

(** A goroutine for each account DB of the calculate side, which share
    nothing. *)
Definition createAccountDB (dbCount entryCount : Z) (ctx : Context D) : outcome addr_error (Context D) :=
  let dbEntryCount := Z.to_nat (entryCount / dbCount) in
  fold_left (fun r i =>
    let! ctx := r in
    let! f := nth_db (getCalcDBList (DB ctx)) i in
    let! d := createData i (db_at (DB ctx) f) (format16 16 (Z.of_nat i) []) dbEntryCount ctx in
    Ok (update_DB (db_update f d) ctx)) (seq 0 (Z.to_nat dbCount)) (Ok ctx).

Definition test_gv : GovernanceVariable := mkGV 0 (mkGVData 1 1 NumMainPRep NumSubPRep) 0 0.
(** [NewAccountAddress([]byte{byte(i+1)})]. *)
Definition test_address (i : nat) : outcome addr_error Address := NewAccountAddress (Some [Z.of_nat i + 1]).
Definition test_candidates : outcome addr_error (list PRepCandidate) :=
  foldr (fun i r => let! a := test_address i in let! l := r in Ok (mkPRepCandidate a (mkPRepCandidateData 0 0) :: l)) (Ok []) (seq 0 100).
Definition test_prep (candidates : list PRepCandidate) : PRep :=
  mkPRep 0 (mkPRepData 10000 (map (fun p => mkPRepDelegationInfo (pcd_Address p) 100) candidates)).

Definition test_records (candidates : list PRepCandidate) (mngDB : D) : D :=
  let mngDB := bucket_Set PrefixGovernanceVariable (gv_ID test_gv) (gv_Bytes test_gv) mngDB in
  let mngDB := fold_left (fun d p => bucket_Set PrefixPRepCandidate (pcd_ID p) (pcd_Bytes p) d) candidates mngDB in
  bucket_Set PrefixPRep (pr_ID (test_prep candidates)) (pr_Bytes (test_prep candidates)) mngDB.

Definition open_context {E} (k : rc_disk (D := D)) (dbCount : Z) : outcome E (Context D) :=
  NewContext (rd_management k) (rd_calcResult k) (rd_preCommit k) (rd_claim k) (rd_claimBackup k) (rd_files k) dbCount.
Definition disk_of (ctx : Context D) : rc_disk (D := D) :=
  let s := DB ctx in mkRcDisk (management s) (calcResult s) (preCommit s) (claim s) (claimBackup s) (files s).

Definition cli_create (k : rc_disk (D := D)) (dbCount entryCount : Z) : outcome addr_error (Context D) :=
  let! candidates := test_candidates in
  let mngDB := test_records candidates (rd_management k) in
  let k := mkRcDisk mngDB (rd_calcResult k) (rd_preCommit k) (rd_claim k) (rd_claimBackup k) (rd_files k) in
  let! ctx := open_context k dbCount in
  createAccountDB dbCount entryCount ctx.

(** ** The other commands *)

(** The count of account DBs is that of the database, or zero for a new one. *)
Definition dbtest_query (k : rc_disk (D := D)) (key txHash : bytes) : outcome addr_error (Context D * ResponseQuery) :=
  let! ctx := open_context k 0 in
  let! address := NewAddressFromString key in
  let! resp := DoQuery ctx (mkQuery address 0 [] txHash) in
  Ok (ctx, resp).

(** The IISS data are at the path [noiissdata]; the number of writes in a
    batch is not used. *)
Definition dbtest_calculate (k : rc_disk (D := D)) (noiissdata : D) (blockHeight : Z) : outcome addr_error (calc_result D) :=
  let! ctx := open_context k 0 in
  DoCalculate shake256 map_order env (channel (ctx_Cancel ctx)) ctx (mkCalculateRequest (str "noiissdata") blockHeight [])
    noiissdata false 0.

(** ** [Run] *)

Inductive dbtest_cmd := T_create | T_delete | T_query | T_calculate.
Definition dbtest_cmd_of (cmd : bytes) : option dbtest_cmd :=
  if bool_decide (cmd = str "create") then Some T_create
  else if bool_decide (cmd = str "delete") then Some T_delete
  else if bool_decide (cmd = str "query") then Some T_query
  else if bool_decide (cmd = str "calculate") then Some T_calculate
  else None.

Definition dbtest_flags (c : dbtest_cmd) : FlagSet opts :=
  match c with
  | T_create => [Int_flag (str "db"); Int_flag (str "account")]
  | T_delete => []
  | T_query => [String_flag (str "address"); String_flag (str "txHash")]
  | T_calculate => [Uint64_flag (str "block"); Uint64_flag (str "writebatch")]
  end.

(** The databases by their names. *)
Abbreviation dbs := (gmap bytes rc_disk).
Definition empty_disk : rc_disk (D := D) := mkRcDisk ldb_empty ldb_empty ldb_empty ldb_empty ldb_empty ∅.

Definition run_or_panic {A} (m : outcome addr_error A) : outcome exit A := match m with Ok a => Ok a | _ => Panic end.

Definition run_dbtest (c : dbtest_cmd) (o : opts) (dbName : bytes) (noiissdata : D) (ds : dbs)
    : outcome exit (dbs * option ResponseQuery) :=
  let k := default empty_disk (ds !! dbName) in
  match c with
  | T_create =>
      let createDBCount := get_int (str "db") 16 o in
      let createAccountCount := get_int (str "account") 10000 o in
      if (createDBCount <=? 0) || (createAccountCount <=? 0) then Err (Exit 1)
      else if 256 <? createDBCount then Err (Exit 1)
      else let! ctx := run_or_panic (cli_create k createDBCount createAccountCount) in Ok (<[dbName := disk_of ctx]> ds, None)
  | T_delete => Ok (delete dbName ds, None)
  | T_query =>
      match get_string (str "address") [] o with
      | [] => Err (Exit 1)
      | address =>
          match hex_DecodeString (get_string (str "txHash") [] o) with
          | None => Err (Exit 1)
          | Some txHash =>
              let! (ctx, resp) := run_or_panic (dbtest_query k address txHash) in Ok (<[dbName := disk_of ctx]> ds, Some resp)
          end
      end
  | T_calculate =>
      let! r := run_or_panic (dbtest_calculate k noiissdata (get_uint (str "block") 0 o)) in
      Ok (<[dbName := disk_of (res_ctx r)]> ds, None)
  end.

Definition dbtest_Run (args : list bytes) (noiissdata : D) (ds : dbs) : outcome exit (dbs * option ResponseQuery) :=
  match args with
  | dbName :: cmd :: options =>
      match dbtest_cmd_of cmd with
      | None => Err (Exit 1)
      | Some c => let! o := ParseOrExit (dbtest_flags c) options ∅ in run_dbtest c o dbName noiissdata ds
      end
  | _ => Err (Exit 1)
  end.
End DBTest.

(** ** What the data are good for *)

(** Where an address that begins with the text of an index is looked for. *)
Definition text_index (count : Z) (i : nat) : Z := Z.rem (default 0 (head (format16 16 (Z.of_nat i) []))) count.

Lemma copy_at_head (p : bytes) c bs : p <> [] -> (0 < length bs)%nat -> head (copy_at 0 (c :: p) bs) = Some c.
Proof. destruct bs; [cbn; lia|]. done. Qed.

Section Facts.
Context {D : Type} `{!LevelDB D, !LevelDBLaws D}.

(** The accounts of DB [i] begin with the digits of [i] as text: they are
    where they are looked for, for all account DBs, with a count that divides 48
    and is at most 10. *)
Lemma created_in_place count i : 0 < count <= 10 -> (count | 48) -> Z.of_nat i < count -> text_index count i = Z.of_nat i.
Proof.
  intros Hc [q Hq] Hi. unfold text_index. assert (Hd : format16 16 (Z.of_nat i) [] = [48 + Z.of_nat i]).
  { assert (i < 10)%nat as H by lia. do 10 (destruct i as [|i]; [done|]). lia. }
  rewrite Hd. change (Z.rem (48 + Z.of_nat i) count = Z.of_nat i). rewrite Z.rem_mod_nonneg by lia.
  replace (48 + Z.of_nat i) with (Z.of_nat i + q * count) by lia. rewrite Z.mod_add by lia. apply Z.mod_small. lia.
Qed.

(** With the default of 16 account DBs those of the last six are not. *)
Lemma created_elsewhere :
  map (text_index 16) (seq 0 16) = [0; 1; 2; 3; 4; 5; 6; 7; 8; 9; 1; 2; 3; 4; 5; 6].
Proof. done. Qed.

(** There are no IISS data at the path of [calculate]: it is refused, whatever
    was created. *)
Lemma calculate_refused `{!Codec IISSHeader, !Codec IISSGVData, !Codec PRepData} : LoadIISSData (ldb_empty : D) = None.
Proof. unfold LoadIISSData, loadIISSHeader, bucket_Get. by rewrite ldb_get_empty. Qed.
End Facts.
