(* ===== verification/ClaimLedger.v ===== *)
(** * The ledger of claims

    What the messages about claims promise together: the claimable I-Score a
    [CLAIM] request writes, its way through [COMMIT_CLAIM] and [COMMIT_BLOCK]
    into the claim DB, and the invariant that no address ever claims more than
    its I-Score. *)

From stdpp Require Import relations.
From S2P Require Import Prelude Bytes HexInt Address Store Codec Typed Account ClaimDB ClaimJournal Management IISSData IScoreDB Context Messages.

Section Ledger.
Context {D : Type} `{!LevelDB D, !LevelDBLaws D}.
Context `{!Codec ClaimData, !CodecLaws ClaimData, !Codec ClaimBackupInfo,
  !CodecLaws ClaimBackupInfo, !Codec PreCommitData, !CodecLaws PreCommitData}.
Context `{!Codec IScoreData, !Codec DBInfoData, !Codec GVData, !Codec PRepData}.
Implicit Type (ctx : Context D) (a : Address).

(** ** Accounts and claims of an address *)

Definition account ctx a : option IScoreAccount :=
  match getQueryDB (E := Empty_set) (DB ctx) a with
  | Ok f => match bucket_Get PrefixIScore (db_at (DB ctx) f) (Address_Bytes a) with
            | Some bs => NewIScoreAccountFromBytes bs
            | None => None
            end
  | _ => None
  end.

Definition earned ctx a : Z := match account ctx a with Some ia => ia_IScore ia | None => 0 end.

Definition opt_score (o : option ClaimData) : Z := match o with Some cd => cd_IScore cd | None => 0 end.
Definition claimed ctx a : Z := opt_score (claim_of (claim (DB ctx)) a).

Definition pre_commit_of (req : ClaimMessage) : PreCommit :=
  newPreCommit (cm_BlockHeight req) (cm_BlockHash req) (cm_TXIndex req) (cm_TXHash req) (cm_Address req).

(** The account is at the height of the last claim. *)
Definition at_claim_height ctx a : bool :=
  match account ctx a, claim_of (claim (DB ctx)) a with
  | Some ia, Some cd => ia_BlockHeight ia =? cd_BlockHeight cd
  | _, _ => false
  end.

Definition write_claim (req : ClaimMessage) (i : Z) ctx : Context D :=
  update_DB (set_preCommit (pc_write (pre_commit_of req) (Some i) (preCommit (DB ctx)))) ctx.

Lemma find_claim_of (cDB : D) a :
  find_claim cDB a = option_map (mkClaim zero_Address) (claim_of cDB a).
Proof.
  unfold find_claim, claim_of. rewrite bucket_Get_ldb. change (PrefixIScore ++ Address_Bytes a) with a.
  destruct (ldb_get cDB a); [|done]. unfold NewClaimFromBytes, c_SetBytes, unmarshal_new. cbn [c_Data zero_Claim].
  by destruct (unmarshal _ _) as [? []].
Qed.

(** What a request answers, by the account and the claims of its address. *)
Definition claim_answer ctx (req : ClaimMessage) : Context D * (Z * option Z) :=
  let a := cm_Address req in
  let rest := earned ctx a - claimed ctx a in
  if (pc_query (pre_commit_of req) (preCommit (DB ctx))).2
  then (ctx, (cm_BlockHeight req, None))
  else match account ctx a with
       | None => (ctx, (0, None))
       | Some ia =>
           if at_claim_height ctx a then (ctx, (ia_BlockHeight ia, None))
           else if rest <? 1000 then (ctx, (0, None))
           else (write_claim req (1000 * (rest / 1000)) ctx, (ia_BlockHeight ia, Some (1000 * (rest / 1000))))
       end.

Lemma pc_query_height (pc : PreCommit) (pcDB : D) : pc_BlockHeight (pc_query pc pcDB).1 = pc_BlockHeight pc.
Proof.
  unfold pc_query. destruct (bucket_Get _ _ _); [|done]. cbn. unfold pc_SetBytes. by destruct (unmarshal _ _).
Qed.

Lemma pc_query_missing (pc : PreCommit) (pcDB : D) : (pc_query pc pcDB).2 = false -> (pc_query pc pcDB).1 = pc.
Proof. unfold pc_query. by destruct (bucket_Get _ _ _). Qed.

Lemma DoClaim_answer {E : Type} ctx req f :
  getQueryDB (E := E) (DB ctx) (cm_Address req) = Ok f ->
  DoClaim (E := E) ctx req = Ok (claim_answer ctx req).
Proof.
  intros Hf. unfold DoClaim, claim_answer. fold (pre_commit_of req).
  pose proof (pc_query_height (pre_commit_of req) (preCommit (DB ctx))) as Hh.
  pose proof (pc_query_missing (pre_commit_of req) (preCommit (DB ctx))) as Hm.
  destruct (pc_query _ _) as [pc []] eqn:Hq; cbn [fst snd] in *; [by rewrite Hh|].
  rewrite (Hm eq_refl). rewrite find_claim_of, Hf. cbn [obind].
  unfold at_claim_height, earned, claimed, account.
  rewrite (proj1 (getQueryDB_any _ _ _) Hf).
  destruct (bucket_Get _ _ _) as [bs|]; [|done].
  destruct (NewIScoreAccountFromBytes bs) as [ia|]; [|done].
  unfold write_claim, BigIntClaimMinIScore, claimMinIScore, big_Mod. change (Z.abs 1000) with 1000.
  destruct (claim_of _ _) as [cd|]; cbn [option_map c_Data opt_score].
  - destruct (_ =? _); [done|]. destruct (_ <? _); [done|].
    rewrite (Z.mod_eq (ia_IScore ia - cd_IScore cd) 1000) by lia.
    by rewrite Z.sub_sub_distr, Z.sub_diag, Z.add_0_l.
  - rewrite Z.sub_0_r. destruct (_ <? _); [done|].
    rewrite (Z.mod_eq (ia_IScore ia) 1000) by lia.
    by rewrite Z.sub_sub_distr, Z.sub_diag, Z.add_0_l.
Qed.

(** ** Well-formed requests *)

Definition wf_hash (h : bytes) : Prop := length h = BlockHashSize /\ all_bytes h.

Definition wf_ClaimMessage (req : ClaimMessage) : Prop :=
  is_u64 (cm_BlockHeight req) /\ wf_hash (cm_BlockHash req) /\ is_u64 (cm_TXIndex req) /\
  wf_Address (cm_Address req).

Definition wf_CommitClaim (req : CommitClaim) : Prop :=
  is_u64 (cc_BlockHeight req) /\ wf_hash (cc_BlockHash req) /\ is_u64 (cc_TXIndex req) /\
  wf_Address (cc_Address req).

Lemma pre_commit_of_wf req : wf_ClaimMessage req ->
  wf_PreCommit (pre_commit_of req) /\ pc_BlockHash (pre_commit_of req) = cm_BlockHash req.
Proof. intros (? & [? ?] & ? & ?). by apply newPreCommit_wf. Qed.

(** The pre-commit a claim writes. *)
Definition claim_entry (req : ClaimMessage) (i : Z) : PreCommit :=
  pc_set_Claim_Data (mkClaimData (cm_BlockHeight req) i) (pre_commit_of req).

Lemma claim_entry_ok req i : wf_ClaimMessage req ->
  pc_entry (pc_ID (pre_commit_of req)) (pc_Bytes (claim_entry req i)) (claim_entry req i).
Proof.
  intros Hreq. destruct (pre_commit_of_wf req Hreq) as [(H1 & H2 & H3 & H4 & H5 & _) _].
  unfold claim_entry. by split_and!.
Qed.

Lemma write_claim_get req i ctx k :
  ldb_get (preCommit (DB (write_claim req i ctx))) k =
  if decide (pc_ID (pre_commit_of req) = k) then Some (pc_Bytes (claim_entry req i))
  else ldb_get (preCommit (DB ctx)) k.
Proof. apply bucket_get_set. Qed.

(** C11: a claim request is answered as specified, whatever the account: the
    part of the I-Score not claimed yet, rounded down to a multiple of 1000
    and at least 1000, is written as a pre-commit of the block and found
    there by the next request; in every other case nothing is written. *)
Theorem DoClaim_spec {E : Type} ctx req :
  accounts_ok (DB ctx) -> 1 <= DBCount (info (DB ctx)) -> wf_ClaimMessage req ->
  DoClaim (E := E) ctx req = Ok (claim_answer ctx req) /\
  match claim_answer ctx req with
  | (ctx', (h, Some i)) =>
      let rest := earned ctx (cm_Address req) - claimed ctx (cm_Address req) in
      (1000 | i) /\ 1000 <= i <= rest /\ rest < i + 1000 /\
      ctx' = set_DB (set_preCommit (preCommit (DB ctx')) (DB ctx)) ctx /\
      pc_query (pre_commit_of req) (preCommit (DB ctx')) = (claim_entry req i, true) /\
      claim_answer ctx' req = (ctx', (cm_BlockHeight req, None))
  | (ctx', (_, None)) => ctx' = ctx
  end.
Proof.
  intros Hok Hn Hreq. destruct (getQueryDB_ok (E := E) (DB ctx) (cm_Address req)) as (f & Hf & _); [done..|apply Hreq|].
  split; [by eapply DoClaim_answer|]. unfold claim_answer at 1. set (rest := earned _ _ - _).
  destruct (pc_query _ _).2; [done|]. destruct (account _ _) as [ia|]; [|done].
  destruct (at_claim_height _ _); [done|]. destruct (Z.ltb_spec rest 1000) as [|Hge]; [done|].
  pose proof (Z.div_mod rest 1000). pose proof (Z.mod_pos_bound rest 1000).
  assert (1 <= rest / 1000) by (apply Z.div_le_lower_bound; lia).
  set (i := 1000 * (rest / 1000)) in *.
  assert (Hq : pc_query (pre_commit_of req) (preCommit (DB (write_claim req i ctx))) = (claim_entry req i, true)).
  { destruct (claim_entry_ok req i Hreq) as (Hwf & E1 & _).
    rewrite (pc_query_entry _ _ (claim_entry req i)); [done..|].
    rewrite write_claim_get. by rewrite decide_True. }
  split_and!; [by exists (rest / 1000); unfold i; lia|lia..|done|done|].
  unfold claim_answer. by rewrite Hq.
Qed.

(** ** The claims of one block *)

Definition score_of (d : PreCommitData) : Z := cd_IScore (c_Data (pc_Claim d)).
Definition height_of (d : PreCommitData) : Z := cd_BlockHeight (c_Data (pc_Claim d)).
Definition address_of (d : PreCommitData) : Address := c_Address (pc_Claim d).

Lemma apply_at_same h a o d : height_of d = h ->
  (exists cd, o = Some cd /\ cd_BlockHeight cd = h) -> apply_at a o d = o.
Proof.
  intros Hd (cd & -> & Hcd). unfold apply_at, apply_claim. case_decide; [|done].
  destruct (_ || _); [done|]. unfold height_of in Hd. by rewrite Hd, Hcd, Z.leb_refl.
Qed.

Lemma apply_at_new h a o d : height_of d = h -> address_of d = a -> Confirmed d = true -> score_of d <> 0 ->
  (forall cd, o = Some cd -> cd_BlockHeight cd < h) ->
  apply_at a o d = Some (mkClaimData h (score_of d + opt_score o)).
Proof.
  unfold height_of, address_of, score_of, apply_at, apply_claim. intros Hd Ha Hc Hs Ho.
  rewrite decide_True, Hc by done. cbn [negb orb]. rewrite (proj2 (Z.eqb_neq _ _)) by done.
  destruct o as [cd|].
  - rewrite Hd, (proj2 (Z.leb_gt _ _)) by (by apply Ho). done.
  - destruct (c_Data (pc_Claim d)). cbn in *. by rewrite Hd, Z.add_0_r.
Qed.

Lemma fold_claims_same h a l o : Forall (fun d => height_of d = h) l ->
  (exists cd, o = Some cd /\ cd_BlockHeight cd = h) -> fold_left (apply_at a) l o = o.
Proof.
  intros Hl Ho. induction Hl as [|d l Hd _ IH]; [done|]. cbn [fold_left].
  by rewrite (apply_at_same h).
Qed.

(** Whatever the claims of a block, the total stays within a bound that
    holds for each of them. *)
Lemma fold_claims_bound h e a l o :
  Forall (fun d => height_of d = h /\ (address_of d = a -> score_of d + opt_score o <= e)) l ->
  opt_score o <= e -> (forall cd, o = Some cd -> cd_BlockHeight cd < h) ->
  opt_score (fold_left (apply_at a) l o) <= e /\
  forall cd, fold_left (apply_at a) l o = Some cd -> cd_BlockHeight cd <= h.
Proof.
  intros Hl He Ho. induction Hl as [|d l [Hd Hb] Hl IH]; cbn [fold_left].
  { split; [done|]. intros cd E. specialize (Ho cd E). lia. }
  destruct (decide (address_of d = a)) as [Ha|Hne].
  - destruct (decide (Confirmed d = true /\ score_of d <> 0)) as [[Hc Hs]|Hno].
    + rewrite (apply_at_new h) by done. rewrite (fold_claims_same h).
      * split; [by apply Hb|]. by intros cd [= <-].
      * eapply Forall_impl; [exact Hl|]. by intros ? [? _].
      * by eexists.
    + replace (apply_at a o d) with o; [done|]. unfold apply_at, apply_claim, score_of in *.
      case_decide; [|done]. destruct (Confirmed d); [|done].
      destruct (Z.eqb_spec (cd_IScore (c_Data (pc_Claim d))) 0); [done|]. by destruct Hno.
  - replace (apply_at a o d) with o; [done|]. unfold apply_at. rewrite decide_False; done.
Qed.

(** The one confirmed claim of an address counts exactly once. *)
Lemma fold_claims_one h a l o d : d ∈ l ->
  Forall (fun d' => height_of d' = h /\ (address_of d' = a -> d' = d)) l ->
  address_of d = a -> Confirmed d = true -> score_of d <> 0 ->
  (forall cd, o = Some cd -> cd_BlockHeight cd < h) ->
  fold_left (apply_at a) l o = Some (mkClaimData h (score_of d + opt_score o)).
Proof.
  intros Hin Hl Ha Hc Hs Ho. induction Hl as [|d' l [Hd Hu] Hl IH]; [by apply not_elem_of_nil in Hin|].
  cbn [fold_left]. destruct (decide (address_of d' = a)) as [Ha'|Hne].
  - rewrite (Hu Ha') in *. rewrite (apply_at_new h) by done. apply (fold_claims_same h); [|by eexists].
    eapply Forall_impl; [exact Hl|]. by intros ? [? _].
  - apply elem_of_cons in Hin as [->|Hin]; [done|].
    replace (apply_at a o d') with o; [by apply IH|]. unfold apply_at. by rewrite decide_False.
Qed.

(** ** The invariant *)

Definition claim_stores_ok (h : Z) (cDB cbDB : D) : Prop :=
  cdb_inv cDB /\
  (cbdb_keys 0 cbDB /\ ldb_get cbDB PrefixManagement = None \/
   exists first last, ldb_get cbDB PrefixManagement = Some (marshal (mkClaimBackupInfo first last)) /\
     1 <= first <= last /\ last < h /\ cbdb_keys last cbDB).

Lemma claim_stores_commit h hash (pcDB cDB cbDB : D) :
  claim_stores_ok h cDB cbDB -> pc_inv pcDB -> hash_ok hash -> is_u64 h -> 1 <= h ->
  exists cDB' cbDB',
    writePreCommitToClaimDB pcDB cDB cbDB h hash = Ok (flushPreCommit pcDB h None, cDB', cbDB') /\
    (forall h', h < h' -> claim_stores_ok h' cDB' cbDB') /\
    forall a, claim_of cDB' a = fold_left (apply_at a) (block_claims pcDB h hash) (claim_of cDB a).
Proof.
  intros [Hc Hj] Hpc Hhash Hh H1.
  assert (exists info, (ldb_get cbDB PrefixManagement = Some (marshal info) \/
    ldb_get cbDB PrefixManagement = None /\ info = mkClaimBackupInfo h h) /\ wf info /\
    1 <= FirstBlockHeight info <= h /\ 1 <= LastBlockHeight info <= h /\ cbdb_keys (h - 1) cbDB)
    as (info & Hm & Hwf & Hf & Hl & Hk).
  { destruct Hj as [[Hk Hm]|(first & last & Hm & Hr & Hlt & Hk)].
    - exists (mkClaimBackupInfo h h). split_and!; try (cbn; done || lia); [by right|].
      eapply cbdb_keys_mono; [done|lia].
    - exists (mkClaimBackupInfo first last). split_and!; try (cbn; lia); [by left| |].
      + unfold is_u64 in *. split; unfold is_u64; cbn; lia.
      + eapply cbdb_keys_mono; [done|lia]. }
  destruct (commit_core pcDB cDB cbDB h hash info) as (cDB' & cbDB' & E & Hc' & Hk' & Hm' & _ & _ & Hcl); try done.
  exists cDB', cbDB'. split_and!; [done| |done]. intros h' Hh'. split; [done|]. right.
  eexists _, h. split; [exact Hm'|]. split_and!; [|by unfold new_first, ClaimBackupPeriod; lia|lia|done].
  unfold new_first. lia.
Qed.

Record ledger (h : Z) ctx : Prop := {
  lg_height : is_u64 h /\ 1 <= h;
  lg_accounts : accounts_ok (DB ctx) /\ 1 <= DBCount (info (DB ctx));
  lg_pc : pc_inv (preCommit (DB ctx));
  lg_pending : forall pc, ldb_get (preCommit (DB ctx)) (pc_ID pc) = Some (pc_Bytes pc) -> wf_PreCommit pc ->
    pc_BlockHeight pc = h /\
    cd_IScore (pc_Claim_Data pc) + claimed ctx (pc_Address pc) <= earned ctx (pc_Address pc);
  lg_claimed : forall a, claimed ctx a <= earned ctx a;
  lg_below : forall a cd, claim_of (claim (DB ctx)) a = Some cd -> cd_BlockHeight cd < h;
  lg_stores : claim_stores_ok h (claim (DB ctx)) (claimBackup (DB ctx));
}.

(** Only the pre-commit DB changed. *)
Definition pre_commit_only ctx ctx' : Prop :=
  ctx' = set_DB (set_preCommit (preCommit (DB ctx')) (DB ctx)) ctx.

Lemma pre_commit_only_set ctx (d : D) : pre_commit_only ctx (update_DB (set_preCommit d) ctx).
Proof. done. Qed.

Lemma pre_commit_only_earned ctx ctx' a : pre_commit_only ctx ctx' ->
  earned ctx' a = earned ctx a /\ claimed ctx' a = claimed ctx a.
Proof. intros E. rewrite E. done. Qed.

(** Dropping pre-commits, or writing one within the bound, keeps it. *)
Lemma ledger_pre_commit h ctx ctx' : ledger h ctx -> pre_commit_only ctx ctx' ->
  pc_inv (preCommit (DB ctx')) ->
  (forall pc, ldb_get (preCommit (DB ctx')) (pc_ID pc) = Some (pc_Bytes pc) -> wf_PreCommit pc ->
     (exists pc', wf_PreCommit pc' /\ ldb_get (preCommit (DB ctx)) (pc_ID pc') = Some (pc_Bytes pc') /\
        pc_ID pc' = pc_ID pc /\ pc_Claim_Data pc' = pc_Claim_Data pc) \/
     pc_BlockHeight pc = h /\
     cd_IScore (pc_Claim_Data pc) + claimed ctx (pc_Address pc) <= earned ctx (pc_Address pc)) ->
  ledger h ctx'.
Proof.
  intros L Ho Hpc Hpend. split.
  - apply L.
  - rewrite Ho. destruct (lg_accounts h ctx L) as [[] ?]. by split.
  - done.
  - intros pc Hk Hwf. destruct (pre_commit_only_earned ctx ctx' (pc_Address pc) Ho) as [-> ->].
    destruct (Hpend pc Hk Hwf) as [(pc' & Hwf' & Hk' & E & <-)|?]; [|done].
    destruct (pc_ID_inj pc' pc Hwf' Hwf E) as (<- & _ & <-). by apply (lg_pending h ctx L).
  - intros a. destruct (pre_commit_only_earned ctx ctx' a Ho) as [-> ->]. apply (lg_claimed h ctx L).
  - rewrite Ho. apply (lg_below h ctx L).
  - rewrite Ho. apply (lg_stores h ctx L).
Qed.

(** ** The messages keep the invariant *)

Lemma ledger_claim {E : Type} h ctx req ctx' r : ledger h ctx ->
  wf_ClaimMessage req -> cm_BlockHeight req = h ->
  DoClaim (E := E) ctx req = Ok (ctx', r) -> ledger h ctx'.
Proof.
  intros L Hreq Hh H. destruct (lg_accounts h ctx L) as [Hok Hn].
  destruct (getQueryDB_ok (E := E) (DB ctx) (cm_Address req)) as (f & Hf & _); [done..|apply Hreq|].
  rewrite (DoClaim_answer ctx req f Hf) in H. injection H as H.
  unfold claim_answer in H. set (rest := earned _ _ - _) in *.
  destruct (pc_query _ _).2; [injection H as <- _; done|].
  destruct (account _ _) as [ia|]; [|injection H as <- _; done].
  destruct (at_claim_height _ _); [injection H as <- _; done|].
  destruct (Z.ltb_spec rest 1000); [injection H as <- _; done|].
  injection H as <- _. set (i := 1000 * (rest / 1000)).
  assert (i <= rest) by (pose proof (Z.mul_div_le rest 1000); lia).
  pose proof (claim_entry_ok req i Hreq) as He.
  apply (ledger_pre_commit h ctx); [done|done| |].
  - eapply pc_inv_set; [apply L|exact He].
  - intros pc. rewrite write_claim_get. case_decide as Ek; intros Hk Hwf.
    + right. injection Hk as Hk. destruct He as (Hwf' & _ & _).
      destruct (pc_ID_inj _ pc (proj1 (pre_commit_of_wf req Hreq)) Hwf Ek) as (E1 & _ & E3).
      apply marshal_inj in Hk; [|apply Hwf'|apply Hwf].
      split; [by rewrite <-E1|]. unfold pc_Claim_Data. rewrite <-Hk, <-E3.
      cbn [claim_entry pc_set_Claim_Data pc_set_Data pc_Data pc_Claim c_Data cd_IScore].
      change (pc_Address (pre_commit_of req)) with (cm_Address req). unfold rest in *. lia.
    + left. by exists pc.
Qed.

Lemma ledger_flush h ctx h' hash : ledger h ctx -> is_u64 h' -> hash_ok hash ->
  ledger h (update_DB (set_preCommit (flushPreCommit (preCommit (DB ctx)) h' hash)) ctx).
Proof.
  intros L Hh' Hhash. apply (ledger_pre_commit h ctx); [done|done|by apply pc_inv_deletePreCommit, L|].
  intros pc. cbn [DB update_DB set_DB preCommit set_preCommit]. unfold flushPreCommit.
  rewrite deletePreCommit_get by apply L. case_decide; [done|]. left. by exists pc.
Qed.

Lemma ledger_init h ctx h' ctx' : ledger h ctx -> DoInit ctx h' = Ok ctx' -> ledger h ctx'.
Proof.
  unfold DoInit. intros L H. case_match; [done|]. injection H as <-.
  apply (ledger_pre_commit h ctx); [done|done|by apply pc_inv_deletePreCommit, L|].
  intros pc. cbn [DB update_DB set_DB preCommit set_preCommit]. unfold initPreCommit.
  rewrite deletePreCommit_get by apply L. case_decide; [done|]. left. by exists pc.
Qed.

Lemma ledger_commit_claim h ctx req : ledger h ctx -> wf_CommitClaim req -> ledger h (DoCommitClaim ctx req).
Proof.
  intros L (H1 & [H2 H3] & H4 & H5). unfold DoCommitClaim.
  set (pc0 := newPreCommit _ _ _ _ _).
  assert (Hwf0 : wf_PreCommit pc0) by (by apply newPreCommit_wf).
  pose proof (lg_pc h ctx L) as Hinv.
  destruct (ldb_get (preCommit (DB ctx)) (pc_ID pc0)) as [v|] eqn:Hk.
  - destruct (Hinv _ _ Hk) as (pc' & He). pose proof He as (Hwf' & EID & -> & _).
    rewrite (pc_commit_entry _ pc0 pc') by done. rewrite (pc_revert_entry _ pc0 pc') by done.
    assert (Hset : ledger h (update_DB (set_preCommit (bucket_Set PrefixClaim (pc_ID pc0)
      (pc_Bytes (pc_confirm pc')) (preCommit (DB ctx)))) ctx)).
    { apply (ledger_pre_commit h ctx); [done|done| |].
      - eapply pc_inv_set; [done|]. by eapply pc_entry_confirm.
      - intros pc. cbn [DB update_DB set_DB preCommit set_preCommit]. rewrite bucket_get_set.
        change (PrefixClaim ++ pc_ID pc0) with (pc_ID pc0). case_decide as Ek; intros Hg Hwf; [|left; by exists pc].
        left. injection Hg as Hg. apply marshal_inj in Hg; [|apply Hwf'|apply Hwf].
        exists pc'. rewrite <-EID. split_and!; [done..|]. unfold pc_Claim_Data. by rewrite <-Hg. }
    assert (Hdel : ledger h (update_DB (set_preCommit (bucket_Delete PrefixClaim (pc_ID pc0) (preCommit (DB ctx)))) ctx)).
    { apply (ledger_pre_commit h ctx); [done|done| |].
      - eapply pc_inv_subset; [done|]. intros k w. cbn [DB update_DB set_DB preCommit set_preCommit].
        rewrite bucket_get_delete. by case_decide.
      - intros pc. cbn [DB update_DB set_DB preCommit set_preCommit]. rewrite bucket_get_delete.
        case_decide; [done|]. left. by exists pc. }
    assert (Hsame : ledger h (update_DB (set_preCommit (preCommit (DB ctx))) ctx)).
    { apply (ledger_pre_commit h ctx); [done..|]. intros pc ? ?. left. by exists pc. }
    by destruct (cc_Success req), (_ && _).
  - unfold pc_commit, pc_revert. rewrite pc_query_none by done. by destruct (cc_Success req).
Qed.

(** The block claims of a ledger: at its height, within the bounds. *)
Lemma block_claims_elem h ctx hash d : ledger h ctx -> hash_ok hash ->
  d ∈ block_claims (preCommit (DB ctx)) h hash <->
  exists pc, wf_PreCommit pc /\ ldb_get (preCommit (DB ctx)) (pc_ID pc) = Some (pc_Bytes pc) /\
    d = pc_Data pc /\ flush_prefix h hash `prefix_of` pc_ID pc.
Proof.
  intros L Hhash. destruct (lg_height h ctx L) as [Hh _].
  destruct (MakeIteratorPrefix_flush h hash Hh Hhash) as [_ Hb].
  unfold block_claims. rewrite list_elem_of_fmap. split.
  - intros ([k v] & -> & Hin). pose proof (iter_prefix_elem_1 _ _ _ _ Hin) as Hg.
    destruct (lg_pc h ctx L _ _ Hg) as (pc & Hwf & -> & -> & _). exists pc.
    destruct Hwf as (W1 & W2 & W3 & W4). cbn [snd].
    unfold pc_Bytes at 2. rewrite unmarshal_marshal by done. split_and!; try done.
    apply iter_prefix_elem in Hin as [_ ?]; [done..|]. by apply bytes_pc_ID.
  - intros (pc & Hwf & Hg & -> & Hp). exists (pc_ID pc, pc_Bytes pc). split.
    + cbn [snd]. unfold pc_Bytes. destruct Hwf as (_ & _ & _ & W). by rewrite unmarshal_marshal.
    + apply iter_prefix_elem; [done|by apply bytes_pc_ID|]. by split.
Qed.

Lemma commit_frame ctx p c cb h hash a : 
  let ctx' := set_DB (setCurrentBlockInfo h hash (set_claim_stores p c cb (DB ctx))) ctx in
  earned ctx' a = earned ctx a /\ (accounts_ok (DB ctx) -> accounts_ok (DB ctx')).
Proof. split; [done|]. intros []. by split. Qed.

(** A successful [COMMIT_BLOCK]: it does not fail, and opens any later
    block with no pre-commit left. *)
Lemma ledger_commit_block {E : Type} h ctx req : ledger h ctx ->
  cbk_Success req = true -> cbk_BlockHeight req = h -> hash_ok (cbk_BlockHash req) ->
  exists ctx', commitBlock (E := E) ctx req = Ok (ctx', req) /\
    (forall a, earned ctx' a = earned ctx a) /\
    (forall a, claim_of (claim (DB ctx')) a =
       fold_left (apply_at a) (block_claims (preCommit (DB ctx)) h (cbk_BlockHash req))
         (claim_of (claim (DB ctx)) a)) /\
    forall h', is_u64 h' -> h < h' -> ledger h' ctx'.
Proof.
  intros L Hs Hb Hhash. destruct (lg_height h ctx L) as [Hh H1].
  unfold commitBlock. rewrite Hs, Hb.
  destruct (claim_stores_commit h (cbk_BlockHash req) (preCommit (DB ctx)) (claim (DB ctx)) (claimBackup (DB ctx)))
    as (cDB' & cbDB' & -> & Hst & Hcl); [apply L|apply L|done..|].
  assert (Ereq : mkCommitBlock true h (cbk_BlockHash req) = req) by (destruct req; cbn in *; congruence).
  eexists. split; [cbn zeta; by rewrite Ereq|].
  set (ctx' := set_DB _ ctx). split_and!; [done|done|]. intros h' Hh' Hlt.
  assert (Hbound : forall a, claimed ctx' a <= earned ctx a /\
    forall cd, claim_of (claim (DB ctx')) a = Some cd -> cd_BlockHeight cd <= h).
  { intros a. unfold claimed. change (claim (DB ctx')) with cDB'. rewrite Hcl.
    apply fold_claims_bound; [|apply (lg_claimed h ctx L)|apply (lg_below h ctx L)].
    apply Forall_forall. intros d (pc & Hwf & Hg & -> & Hp)%(block_claims_elem h ctx); [|done..].
    destruct (lg_pending h ctx L pc Hg Hwf) as [E1 E2].
    destruct (lg_pc h ctx L _ _ Hg) as (pc' & Hwf' & EID & EB & Ebh).
    apply marshal_inj in EB; [|apply Hwf|apply Hwf'].
    destruct (pc_ID_inj pc pc' Hwf Hwf' EID) as (E3 & _ & _).
    split; [|intros <-; exact E2].
    unfold height_of. rewrite EB. unfold pc_Claim_Data in Ebh. congruence. }
  assert (Hnone : forall pc, wf_PreCommit pc -> ldb_get (preCommit (DB ctx')) (pc_ID pc) = Some (pc_Bytes pc) -> False).
  { intros pc Hwf Hg.
    change (preCommit (DB ctx')) with (flushPreCommit (preCommit (DB ctx)) h None) in Hg. unfold flushPreCommit in Hg.
    destruct (MakeIteratorPrefix_flush h None Hh ltac:(done)) as [Ep Hpb]. rewrite Ep in Hg.
    rewrite deletePreCommit_get in Hg by apply L. case_decide as Hr; [done|].
    destruct (lg_pending h ctx L pc Hg Hwf) as [E1 _]. apply Hr.
    apply (BytesPrefix_spec _ _ Hpb (bytes_pc_ID pc Hwf)).
    exists (pc_BlockHash pc ++ pc_Address pc). rewrite pc_ID_app by done. unfold flush_prefix.
    cbn [nonNilBytes default from_option]. by rewrite E1, app_nil_r. }
  split.
  - lia || (split; [done|lia]).
  - destruct (lg_accounts h ctx L) as [Hok Hn]. split; [|done]. by destruct Hok.
  - by apply pc_inv_deletePreCommit, L.
  - intros pc Hg Hwf. by destruct (Hnone pc Hwf).
  - intros a. apply Hbound.
  - intros a cd Hcd. destruct (Hbound a) as [_ Hle]. specialize (Hle cd Hcd). lia.
  - by apply Hst.
Qed.

(** ** Sequences of messages

    The messages a node sends around claims, with the height of the block
    being executed: claims belong to it, and a committed block is followed by
    a later one. *)
Inductive block_step : Z * Context D -> Z * Context D -> Prop :=
  | step_claim h ctx req ctx' resp :
      wf_ClaimMessage req -> cm_BlockHeight req = h ->
      handle_claim (E := Empty_set) ctx req = Ok (ctx', resp) ->
      block_step (h, ctx) (h, ctx')
  | step_commit_claim h ctx req :
      wf_CommitClaim req -> block_step (h, ctx) (h, DoCommitClaim ctx req)
  | step_start_block h ctx req :
      is_u64 (sb_BlockHeight req) -> hash_ok (sb_BlockHash req) ->
      block_step (h, ctx) (h, (startBlock ctx req).1)
  | step_abandon_block h ctx req ctx' resp :
      is_u64 (cbk_BlockHeight req) -> hash_ok (cbk_BlockHash req) -> cbk_Success req = false ->
      commitBlock (E := Empty_set) ctx req = Ok (ctx', resp) ->
      block_step (h, ctx) (h, ctx')
  | step_commit_block h ctx req ctx' resp h' :
      hash_ok (cbk_BlockHash req) -> cbk_Success req = true -> cbk_BlockHeight req = h ->
      commitBlock (E := Empty_set) ctx req = Ok (ctx', resp) -> is_u64 h' -> h < h' ->
      block_step (h, ctx) (h', ctx')
  | step_init h ctx bh :
      block_step (h, ctx) (h, (handle_init ctx bh).1).

Lemma block_step_ledger h ctx h' ctx' : block_step (h, ctx) (h', ctx') -> ledger h ctx ->
  ledger h' ctx' /\ forall a, earned ctx' a = earned ctx a.
Proof.
  intros Hs L. inversion Hs; subst.
  - unfold handle_claim in *. destruct (DoClaim _ _) as [[ctx1 [bh r]]| |] eqn:Hd; [|done..].
    match goal with H : obind _ _ = _ |- _ => cbn in H; injection H as <- _ end.
    split; [by eapply ledger_claim|]. intros a.
    destruct (lg_accounts _ ctx L) as [Hok Hn].
    destruct (getQueryDB_ok (E := Empty_set) (DB ctx) (cm_Address req)) as (f & Hf & _); [done..| |].
    { match goal with H : wf_ClaimMessage _ |- _ => apply H end. }
    rewrite (DoClaim_answer ctx req f Hf) in Hd. unfold claim_answer in Hd. repeat case_match; simplify_eq; done.
  - split; [by apply ledger_commit_claim|]. intros a. unfold DoCommitClaim. by repeat case_match.
  - split; [by apply ledger_flush|done].
  - match goal with H : commitBlock _ _ = _, H' : cbk_Success _ = false |- _ =>
      unfold commitBlock in H; rewrite H' in H; injection H as <- _ end.
    split; [by apply ledger_flush|done].
  - destruct (ledger_commit_block (E := Empty_set) _ ctx req L) as (ctx1 & E1 & He & _ & Hl); [done..|].
    rewrite E1 in *. simplify_eq. split; [by apply Hl|done].
  - unfold handle_init. destruct (DoInit ctx bh) as [ctx1| |] eqn:Hi; [|done..]. cbn [fst].
    split; [by eapply ledger_init|]. unfold DoInit in Hi. case_match; [done|]. by injection Hi as <-.
Qed.


Definition commit_of (req : ClaimMessage) : CommitClaim :=
  mkCommitClaim true (cm_Address req) (cm_BlockHeight req) (cm_BlockHash req) (cm_TXIndex req) (cm_TXHash req).

Lemma claim_confirmed h ctx req i : ledger h (write_claim req i ctx) -> wf_ClaimMessage req ->
  let ctx' := DoCommitClaim (write_claim req i ctx) (commit_of req) in
  ledger h ctx' /\ (forall a, claimed ctx' a = claimed ctx a /\ earned ctx' a = earned ctx a) /\
  ldb_get (preCommit (DB ctx')) (pc_ID (pre_commit_of req)) = Some (pc_Bytes (pc_confirm (claim_entry req i))).
Proof.
  intros L Hreq. cbn zeta. split; [by apply ledger_commit_claim|].
  destruct (pre_commit_of_wf req Hreq) as [Hwf _]. unfold DoCommitClaim.
  change (newPreCommit _ _ _ _ _) with (pre_commit_of req).
  change (cc_Success (commit_of req)) with true. cbn match.
  pose proof (claim_entry_ok req i Hreq) as He. rewrite (pc_commit_entry _ (pre_commit_of req) (claim_entry req i)).
  2,3: done.
  2: { rewrite write_claim_get. by rewrite decide_True. }
  change (pc_TXIndex (claim_entry req i)) with (pc_TXIndex (pre_commit_of req)). rewrite Z.eqb_refl.
  cbn [andb negb pc_Confirmed claim_entry pc_set_Claim_Data pc_set_Data pc_Data Confirmed pre_commit_of newPreCommit].
  split; [done|]. cbn [DB update_DB set_DB preCommit set_preCommit]. rewrite bucket_get_set.
  by rewrite decide_True.
Qed.

(** A claim goes through: once its transaction and its block are
    committed, the total claimed by the address has grown by exactly the
    I-Score that was answered, and less than 1000 is left to claim. *)
Lemma claim_flow {E : Type} h ctx req ctx1 bh i :
  ledger h ctx -> wf_ClaimMessage req -> cm_BlockHeight req = h ->
  DoClaim (E := E) ctx req = Ok (ctx1, (bh, Some i)) ->
  let block := mkCommitBlock true h (Some (cm_BlockHash req)) in
  let a := cm_Address req in
  exists ctx3, commitBlock (E := E) (DoCommitClaim ctx1 (commit_of req)) block = Ok (ctx3, block) /\
    claimed ctx3 a = claimed ctx a + i /\ earned ctx3 a = earned ctx a /\
    0 <= earned ctx3 a - claimed ctx3 a < 1000.
Proof.
  intros L Hreq Hh H block a. destruct (lg_accounts h ctx L) as [Hok Hn].
  assert (L1 : ledger h ctx1) by (by eapply ledger_claim).
  destruct (getQueryDB_ok (E := E) (DB ctx) a) as (f & Hf & _); [done..|apply Hreq|].
  rewrite (DoClaim_answer ctx req f Hf) in H. injection H as H. unfold claim_answer in H. fold a in H.
  set (rest := earned ctx a - _) in *.
  destruct (pc_query _ _).2; [done|]. destruct (account _ _) as [ia|]; [|done].
  destruct (at_claim_height _ _); [done|]. destruct (Z.ltb_spec rest 1000) as [|Hge]; [done|].
  injection H as <- _ <-. set (i := 1000 * (rest / 1000)) in *.
  pose proof (Z.div_mod rest 1000). pose proof (Z.mod_pos_bound rest 1000).
  assert (1 <= rest / 1000) by (apply Z.div_le_lower_bound; lia).
  destruct (claim_confirmed h ctx req i L1 Hreq) as (L2 & Hsame & Hk).
  set (ctx2 := DoCommitClaim _ _) in *. destruct (Hsame a) as [Hc2 He2].
  destruct (pre_commit_of_wf req Hreq) as [Hwf Ehash].
  set (pc := pc_confirm (claim_entry req i)) in *.
  assert (Hblock : hash_ok (cbk_BlockHash block)) by (intros b [= <-]; apply Hreq).
  destruct (ledger_commit_block (E := E) h ctx2 block L2) as (ctx3 & -> & He & Hcl & _); [done..|].
  exists ctx3. split; [done|]. rewrite He, He2.
  assert (claimed ctx3 a = claimed ctx a + i) as ->; [|unfold rest in *; lia].
  unfold claimed at 1. rewrite Hcl. pose proof (claim_entry_ok req i Hreq) as (Hwfe & EID & _).
  rewrite (fold_claims_one h a _ _ (pc_Data pc)); try done.
  - cbn [opt_score cd_IScore]. rewrite Z.add_comm. f_equal. exact Hc2.
  - apply (block_claims_elem h ctx2); [done..|]. exists pc. split_and!; [done|exact Hk|done|].
    change (pc_ID pc) with (pc_ID (pre_commit_of req)). rewrite pc_ID_app by done. rewrite Ehash.
    unfold flush_prefix. cbn. rewrite Hh, app_assoc. by eexists.
  - apply Forall_forall. intros d (pc' & Hwf' & Hg & -> & [r Hp])%(block_claims_elem h ctx2); [|done..].
    destruct (lg_pending h ctx2 L2 pc' Hg Hwf') as [E1 _].
    destruct (lg_pc h ctx2 L2 _ _ Hg) as (pc2 & Hwf2 & EID2 & EB & Ebh).
    apply marshal_inj in EB; [|apply Hwf'|apply Hwf2].
    destruct (pc_ID_inj pc' pc2 Hwf' Hwf2 EID2) as (E3 & _ & _). split.
    { unfold height_of. rewrite EB. unfold pc_Claim_Data in Ebh. congruence. }
    intros Ha. assert (Ekey : pc_ID pc' = pc_ID (pre_commit_of req)).
    { rewrite !pc_ID_app in * by done. unfold flush_prefix in Hp. cbn in Hp. rewrite <-app_assoc in Hp.
      apply app_inj_1 in Hp as [_ Hp]; [|by rewrite !length_be64].
      apply app_inj_1 in Hp as [Hp _]; [|rewrite (proj1 (proj2 Hwf')); symmetry; apply Hreq].
      rewrite E1, Hp, Ehash. f_equal; [by rewrite <-Hh|]. f_equal. exact Ha. }
    rewrite Ekey, Hk in Hg. injection Hg as Hg. symmetry. by apply marshal_inj in Hg; [|apply Hwfe|apply Hwf'].
  - apply Z.neq_sym, Z.lt_neq. unfold score_of. cbn. lia.
  - intros cd Hcd. by apply (lg_below h ctx2 L2 a).
Qed.

(** ** Queries *)

(** What is left to claim, at the height of the account. *)
Definition query_answer ctx a : ResponseQuery :=
  match account ctx a with
  | Some ia => mkResponseQuery a (earned ctx a - claimed ctx a) (ia_BlockHeight ia)
  | None => mkResponseQuery a 0 0
  end.

(** A stored account decodes. *)
Definition account_readable ctx a : Prop :=
  forall f bs, getQueryDB (E := Empty_set) (DB ctx) a = Ok f ->
    bucket_Get PrefixIScore (db_at (DB ctx) f) (Address_Bytes a) = Some bs -> is_Some (NewIScoreAccountFromBytes bs).

Lemma query_account {E : Type} ctx a : accounts_ok (DB ctx) -> 1 <= DBCount (info (DB ctx)) ->
  wf_Address a -> account_readable ctx a ->
  (let! f := getQueryDB (E := E) (DB ctx) a in
   match bucket_Get PrefixIScore (db_at (DB ctx) f) (Address_Bytes a) with
   | None => Ok (mkResponseQuery a 0 0)
   | Some bs =>
       match NewIScoreAccountFromBytes bs with
       | None => Panic
       | Some ia =>
           let iScore := match find_claim (claim (DB ctx)) a with
                         | Some c => ia_IScore ia - cd_IScore (c_Data c)
                         | None => ia_IScore ia
                         end in
           Ok (mkResponseQuery a iScore (ia_BlockHeight ia))
       end
   end) = Ok (query_answer ctx a).
Proof.
  intros Hok Hn Ha Hr. destruct (getQueryDB_ok (E := E) (DB ctx) a) as (f & Hf & _); [done..|].
  unfold query_answer, earned, claimed, account. pose proof (proj1 (getQueryDB_any (E' := Empty_set) _ _ _) Hf) as Hf0.
  specialize (Hr f). rewrite Hf, Hf0. cbn [obind]. rewrite find_claim_of.
  destruct (bucket_Get _ _ _) as [bs|]; [|done]. destruct (Hr bs Hf0 eq_refl) as [ia ->].
  destruct (claim_of _ _) as [cd|]; cbn; [done|]. by rewrite Z.sub_0_r.
Qed.

(** The key of a pre-commit read back into a receiver. *)
Lemma pc_SetID_own {E : Type} pc0 pc1 : wf_PreCommit pc0 -> wf_Address (pc_Address pc1) ->
  exists pc, pc_SetID (E := E) (pc_ID pc0) pc1 = Ok pc /\ pc_BlockHeight pc = pc_BlockHeight pc0 /\
    TXHash (pc_Data pc) = TXHash (pc_Data pc1) /\ pc_Claim_Data pc = pc_Claim_Data pc1.
Proof.
  intros Hwf Ha. unfold pc_SetID. pose proof (length_pc_ID pc0 Hwf) as Hl. rewrite decide_False.
  2: { rewrite Hl. unfold PreCommitIDSize. lia. }
  rewrite pc_ID_app by done. pose proof (wf_PreCommit_address pc0 Hwf) as Ha0.
  destruct Hwf as (Hh & Hhl & _).
  rewrite take_app_length' by (by rewrite length_be64).
  rewrite (app_assoc (be64 _)), (drop_app_length' (_ ++ _)) by (by rewrite length_app, length_be64, Hhl).
  change (pc_Address pc0) with (Address_Bytes (pc_Address pc0)).
  rewrite Address_SetBytes_Bytes by (try done; by apply length_wf_Address). cbn [or_unchanged].
  eexists. split; [done|]. cbn. split_and!; [|done..]. by apply BytesToUint64_be64.
Qed.

End Ledger.
