(* ===== verification/Rollback.v ===== *)
(** * The effect of ROLLBACK

    [DoRollBack] of [core/msg_rollback.go] as a whole: when it is refused, and
    what the claim DB, the account DBs, the block heights and the records of
    the management DB are after it. *)

From S2P Require Import Prelude Bytes HexInt Address Store Codec Typed Account ClaimDB ClaimJournal Management IISSData IScoreDB Context Mirror Messages.

Section Rollback.
Context {D : Type} `{!LevelDB D, !LevelDBLaws D}.
Context `{!Codec ClaimData, !CodecLaws ClaimData, !Codec ClaimBackupInfo,
  !CodecLaws ClaimBackupInfo, !Codec PreCommitData, !CodecLaws PreCommitData}.
Context `{!Codec DBInfoData, !CodecLaws DBInfoData, !Codec DBInfoDataV1, !Codec GVData, !CodecLaws GVData,
  !Codec PRepData, !CodecLaws PRepData, !Codec PRepCandidateData, !CodecLaws PRepCandidateData,
  !Codec IISSTXData, !CodecLaws IISSTXData, !Codec IScoreData}.
Implicit Type (ctx : Context D) (s : IScoreDB D).

(** ** The account DBs next to the claim stores *)

(** Two states with the same account DBs, calculation heights and results. *)
Definition same_accounts s s' : Prop :=
  info s' = set_Current (Current (info s')) (info s) /\ calcResult s' = calcResult s /\
  Account0 s' = Account0 s /\ Account1 s' = Account1 s /\ files s' = files s.

Lemma toggle_same s s' h : same_accounts s s' -> same_accounts (toggleAccountDB h s) (toggleAccountDB h s').
Proof.
  intros (Hi & Hr & H0 & H1 & Hf). unfold toggleAccountDB.
  rewrite Hi. cbn [ToggleBH set_Current]. destruct (_ =? h); [by split_and!|]. cbn. by split_and!.
Qed.

Lemma rollbackAccountDB_same s s' h : same_accounts s s' ->
  (rollbackAccountDB h s').2 = (rollbackAccountDB h s).2 /\
  same_accounts (rollbackAccountDB h s).1 (rollbackAccountDB h s').1.
Proof.
  intros (Hi & Hr & H0 & H1 & Hf). unfold rollbackAccountDB. cbn [info files CloseAccountDB set_accounts].
  rewrite Hf, Hi. cbn [QueryDBIsZero DBCount set_Current].
  destruct (rollback_backups _ _ _ _) as [fs []]; cbn [negb].
  - split; [done|]. cbn [fst].
    assert (Hopen : same_accounts (OpenAccountDB (set_files fs (CloseAccountDB s)))
                      (OpenAccountDB (set_files fs (CloseAccountDB s')))).
    { unfold OpenAccountDB. cbn. rewrite Hi. cbn. by split_and!. }
    apply (toggle_same _ _ h) in Hopen. destruct Hopen as (Hi' & Hr' & H0' & H1' & Hf').
    unfold rollbackAccountDBBlockInfo, writeToDB, same_accounts, getCalcDoneBH. cbn.
    rewrite H0', H1', Hf', Hr', Hi'. cbn. by split_and!.
  - split; [done|]. by split_and!.
Qed.

(** ** The whole request *)

Lemma rollbackAccountDB_saved s s' h : info_saved s s' -> is_u64 h ->
  info_saved s (rollbackAccountDB h s').1.
Proof.
  intros Hs Hh. unfold rollbackAccountDB. destruct (rollback_backups _ _ _ _) as [fs []]; cbn [negb fst].
  - set (s1 := OpenAccountDB _). assert (H1 : info_saved s s1) by (by eapply info_saved_same).
    pose proof (info_saved_toggle s s1 h H1 Hh) as H2. set (s2 := toggleAccountDB h s1) in *.
    assert (H3 : info_saved s (set_calcResult (DeleteCalculationResult (getCalcDoneBH s2) (calcResult s2)) s2))
      by (by eapply info_saved_same).
    unfold rollbackAccountDBBlockInfo. apply info_saved_write; [exact H3|].
    destruct (is_wf _ _ H2) as (? & ? & ? & ? & ? & ? & ?). by split_and!.
  - by eapply info_saved_same.
Qed.

Lemma rollbackAccountDB_frame h s : claim (rollbackAccountDB h s).1 = claim s /\
  Current (info (rollbackAccountDB h s).1) = Current (info s).
Proof.
  unfold rollbackAccountDB. destruct (rollback_backups _ _ _ _) as [fs []]; cbn [negb fst]; [|done].
  unfold toggleAccountDB. by destruct (_ =? h).
Qed.

(** The account part of a state is the same after [RollbackManagementDB]. *)
Lemma RollbackManagementDB_DB ctx h : let ctx' := RollbackManagementDB h ctx in
  claim (DB ctx') = claim (DB ctx) /\ info (DB ctx') = info (DB ctx) /\
  same_accounts (DB ctx) (DB ctx') /\ ctx_Cancel ctx' = ctx_Cancel ctx.
Proof.
  unfold RollbackManagementDB. destruct (rollback_records _ _ _ _ _ _ _) as [d1 gvs].
  destruct (rollback_records _ _ _ _ _ _ d1) as [d2 preps]. split_and!; try done.
  unfold same_accounts. cbn. split_and!; try done. by destruct (info (DB ctx)).
Qed.

Lemma same_accounts_trans s1 s2 s3 : same_accounts s1 s2 -> same_accounts s2 s3 -> same_accounts s1 s3.
Proof.
  intros (H1 & H2 & H3 & H4 & H5) (K1 & K2 & K3 & K4 & K5).
  split_and!; try congruence. rewrite K1, H1. done.
Qed.

(** The claim DBs after a rollback to a block that the journal covers. *)
Lemma rollbackClaimDB_spec ctx hist first last to hash :
  journal (claim (DB ctx)) (claimBackup (DB ctx)) hist first last -> first <= to -> is_u64 to ->
  exists ctx', rollbackClaimDB ctx to hash = Ok ctx' /\
    ctx' = set_DB (DB ctx') ctx /\ same_accounts (DB ctx) (DB ctx') /\
    (forall s, info_saved s (DB ctx) -> info_saved s (DB ctx')) /\
    Current (info (DB ctx')) = (if to <? last then BlockInfo_set (Current (info (DB ctx))) to hash
                                else Current (info (DB ctx))) /\
    (forall a, wf_Address a -> ldb_get (claim (DB ctx')) a = hist (Z.min to last) a) /\
    journal (claim (DB ctx')) (claimBackup (DB ctx')) hist first (Z.min to last).
Proof.
  intros J Hto Hu. unfold rollbackClaimDB. destruct (Z.ltb_spec to last) as [Hlt|Hge].
  - rewrite Z.min_l by lia.
    destruct (rollbackClaimDB_restores _ _ _ _ _ to J) as (c & cb & -> & Hd & J'); [lia|].
    eexists. split; [done|]. cbn [obind fst snd]. split_and!; try done.
    intros s Hs. unfold rollbackCurrentBlockInfo.
    assert (H1 : info_saved s (setCurrentBlockInfo to hash (set_claims c cb (DB ctx)))).
    { apply info_saved_current; [by eapply info_saved_same|done]. }
    by apply info_saved_writeToDB.
  - rewrite Z.min_r by lia. pose proof (journal_info _ _ _ _ _ J) as Hwf.
    unfold rollbackClaimDB_stores. rewrite bucket_Get_ldb. unfold cb_ID.
    rewrite app_nil_r, (j_info _ _ _ _ _ J). unfold cb_SetBytes. cbn [nonNilBytes default from_option id].
    rewrite unmarshal_marshal by done. cbn [fst]. unfold checkClaimDBRollback. cbn [FirstBlockHeight LastBlockHeight].
    rewrite (proj2 (Z.ltb_ge to first)), (proj2 (Z.leb_le last to)) by lia. cbn [obind negb].
    eexists. split; [done|]. split_and!; try done.
    { unfold same_accounts. cbn. split_and!; try done. by destruct (info (DB ctx)). }
    { intros s Hs. by eapply info_saved_same. }
    intros a Ha. symmetry. by apply (j_now _ _ _ _ _ J).
Qed.


(** C26: a rollback to a block that a calculation or the claim journal does not
    reach back to is refused and changes no store; but in the second case a
    running calculation has been told to stop already. *)
Theorem DoRollBack_refused {E : Type} ctx req hist first last :
  journal (claim (DB ctx)) (claimBackup (DB ctx)) hist first last ->
  rb_BlockHeight req <= PrevCalcDone (info (DB ctx)) \/ rb_BlockHeight req < first ->
  DoRollBack (E := E) ctx req = Ok (
    if rb_BlockHeight req <=? PrevCalcDone (info (DB ctx)) then ctx
    else set_Cancel (mkCancel (S (channel (ctx_Cancel ctx))) CancelRollback) ctx, false).
Proof.
  intros J Hr. unfold DoRollBack, checkRollback, getPrevCalcDoneBH.
  destruct (Z.leb_spec (rb_BlockHeight req) (PrevCalcDone (info (DB ctx)))) as [|Hgt]; [done|].
  destruct Hr as [|Hr]; [lia|]. pose proof (journal_info _ _ _ _ _ J) as Hwf.
  unfold rollbackClaimDB, rollbackClaimDB_stores. rewrite bucket_Get_ldb. unfold cb_ID. cbn [DB set_Cancel].
  rewrite app_nil_r, (j_info _ _ _ _ _ J). unfold cb_SetBytes. cbn [nonNilBytes default from_option id].
  rewrite unmarshal_marshal by done. cbn [fst]. unfold checkClaimDBRollback. cbn [FirstBlockHeight].
  by rewrite (proj2 (Z.ltb_lt _ _)).
Qed.
End Rollback.
