(* ===== verification/SameStores.v ===== *)
(** * States with the same content

    Two runs of the process that write the same entries in different steps
    leave stores that answer every read alike without being the same value.
    [same_stores] is that equivalence, [same_calc] the one of the contexts the
    reward functions of [core/msg_calculate.go] work on; the reward functions
    respect it: they return the same numbers and hashes and leave states that
    are again the same. *)

From S2P Require Import Prelude Bytes HexInt Address Store Codec Typed Account ClaimDB Management IISSData IScoreDB Context Reward Calculate AccountDBs DoCalculate AccountPass.

(** ** Stores *)

Section SameDB.
Context {D : Type} `{!LevelDB D, !LevelDBLaws D}.

(** Two databases with the same entries. *)
Definition same_db (d d' : D) : Prop := forall k, ldb_get d k = ldb_get d' k.

#[global] Instance same_db_equivalence : Equivalence same_db.
Proof.
  split; [by intros d k|by intros d d' H k|]. intros d1 d2 d3 H1 H2 k. by rewrite H1.
Qed.

#[global] Instance bucket_Get_same id : Proper (same_db ==> eq ==> eq) (bucket_Get id).
Proof. intros d d' Hd k _ <-. by rewrite !bucket_Get_ldb, Hd. Qed.

#[global] Instance bucket_Set_same id k v : Proper (same_db ==> same_db) (bucket_Set id k v).
Proof. intros d d' Hd k'. by rewrite !bucket_get_set, Hd. Qed.

#[global] Instance bucket_Delete_same id k : Proper (same_db ==> same_db) (bucket_Delete id k).
Proof. intros d d' Hd k'. by rewrite !bucket_get_delete, Hd. Qed.

(** Writing what is there. *)
Lemma bucket_Set_id id k v d : ldb_get d (id ++ k) = Some v -> same_db (bucket_Set id k v d) d.
Proof. intros Hk k'. rewrite bucket_get_set. case_decide; [by subst|done]. Qed.

(** The entries of the account DBs and the management DB are the same, and so
    is everything else. *)
Record same_stores (s s' : IScoreDB D) : Prop := {
  ss_info : info s' = info s;
  ss_rest : s' = set_info (info s') (set_management (management s') (set_files (files s') s));
  ss_management : same_db (management s) (management s');
  ss_files : forall f, same_db (db_at s f) (db_at s' f);
}.

Lemma same_stores_rest s s' : same_stores s s' ->
  calcResult s' = calcResult s /\ preCommit s' = preCommit s /\ claim s' = claim s /\
  claimBackup s' = claimBackup s /\ Account0 s' = Account0 s /\ Account1 s' = Account1 s.
Proof. intros [_ H _ _]. rewrite H. done. Qed.

Lemma same_stores_intro s s' : info s' = info s ->
  (calcResult s' = calcResult s /\ preCommit s' = preCommit s /\ claim s' = claim s /\
   claimBackup s' = claimBackup s /\ Account0 s' = Account0 s /\ Account1 s' = Account1 s) ->
  same_db (management s) (management s') -> (forall f, same_db (db_at s f) (db_at s' f)) -> same_stores s s'.
Proof.
  intros Hi (E1 & E2 & E3 & E4 & E5 & E6) Hm Hf. split; [done| |done|done]. destruct s, s'. cbn in *. by subst.
Qed.

#[global] Instance same_stores_equivalence : Equivalence same_stores.
Proof.
  split.
  - intros s. by apply same_stores_intro.
  - intros s s' H. destruct (same_stores_rest _ _ H) as (? & ? & ? & ? & ? & ?). destruct H as [Hi _ Hm Hf].
    apply same_stores_intro; [done|by split_and!|by symmetry|intros f; symmetry; apply Hf].
  - intros s1 s2 s3 H1 H2. destruct (same_stores_rest _ _ H1) as (? & ? & ? & ? & ? & ?).
    destruct (same_stores_rest _ _ H2) as (? & ? & ? & ? & ? & ?). destruct H1 as [I1 _ M1 F1], H2 as [I2 _ M2 F2].
    apply same_stores_intro; [congruence|split_and!; congruence|by etransitivity|intros f; etransitivity; [apply F1|apply F2]].
Qed.

Lemma same_stores_lists s s' : same_stores s s' ->
  getQueryDBList s' = getQueryDBList s /\ getCalcDBList s' = getCalcDBList s.
Proof.
  intros H. destruct (same_stores_rest _ _ H) as (_ & _ & _ & _ & E0 & E1). destruct H as [Hi _ _ _].
  unfold getQueryDBList, getCalcDBList. by rewrite Hi, E0, E1.
Qed.

Lemma same_stores_update f d d' s s' : same_stores s s' -> same_db d d' ->
  same_stores (db_update f d s) (db_update f d' s').
Proof.
  intros H Hd. apply same_stores_intro; [apply H|apply (same_stores_rest _ _ H)|apply H|].
  intros f'. rewrite !db_at_update. case_decide; [done|]. apply H.
Qed.

Lemma same_stores_calcResult s s' f : same_stores s s' ->
  same_stores (set_calcResult (f (calcResult s)) s) (set_calcResult (f (calcResult s')) s').
Proof.
  intros H. destruct (same_stores_rest _ _ H) as (E & ? & ? & ? & ? & ?).
  apply same_stores_intro; [apply H|cbn; rewrite E; by split_and!|apply H|apply H].
Qed.
End SameDB.

(** ** Accounts *)

Section SameAccounts.
Context {D : Type} `{!LevelDB D, !LevelDBLaws D}.
Context `{!Codec IScoreData, !Codec DBInfoData}.
Implicit Type (s : IScoreDB D).

#[global] Instance getCalculateDB_same {E : Type} : Proper (same_stores ==> eq ==> eq) (getCalculateDB (D := D) (E := E)).
Proof.
  intros s s' Hs a _ <-. unfold getCalculateDB, getAccountDBIndex.
  by rewrite (ss_info _ _ Hs), (proj2 (same_stores_lists _ _ Hs)).
Qed.

#[global] Instance get_account_same : Proper (same_stores ==> eq ==> eq ==> eq) (get_account (D := D)).
Proof. intros s s' Hs f _ <- a _ <-. unfold get_account. by rewrite (ss_files _ _ Hs f). Qed.

#[global] Instance put_account_same f ia : Proper (same_stores ==> same_stores) (put_account (D := D) f ia).
Proof. intros s s' Hs. unfold put_account. apply same_stores_update; [done|]. by rewrite (ss_files _ _ Hs f). Qed.

#[global] Instance calc_account_same : Proper (same_stores ==> eq ==> eq) (calc_account (D := D)).
Proof.
  intros s s' Hs a _ <-. unfold calc_account. rewrite <-Hs. destruct (getCalculateDB s a); [|done..]. by rewrite Hs.
Qed.

#[global] Instance writeToDB_same : Proper (same_stores ==> same_stores) (writeToDB (D := D)).
Proof.
  intros s s' Hs. apply same_stores_intro; [apply Hs|apply (same_stores_rest _ _ Hs)| |apply Hs].
  cbn. rewrite (ss_info _ _ Hs). by rewrite (ss_management _ _ Hs).
Qed.

Lemma same_stores_info i s s' : same_stores s s' -> same_stores (set_info i s) (set_info i s').
Proof. intros Hs. apply same_stores_intro; [done|apply (same_stores_rest _ _ Hs)|apply Hs|apply Hs]. Qed.

#[global] Instance setCalcDoneBH_same bh : Proper (same_stores ==> same_stores) (setCalcDoneBH (D := D) bh).
Proof.
  intros s s' Hs. unfold setCalcDoneBH. apply writeToDB_same. rewrite (ss_info _ _ Hs). by apply same_stores_info.
Qed.
End SameAccounts.

(** ** The reward functions *)

Section SameRewards.
Context {D : Type} `{!LevelDB D, !LevelDBLaws D}.
Context `{!Codec IScoreData, !Codec IISSTXData, !Codec IISSBlockProduceInfoData, !Codec CRData,
  !Codec DBInfoData, !Codec GVData, !Codec PRepData, !Codec PRepCandidateData,
  !Codec IISSHeader, !Codec IISSGVData}.
Context (shake256 : bytes -> bytes).
Context (map_order : gmap bytes Z -> list (bytes * Z)).
Implicit Type (s : IScoreDB D) (ctx : Context D).

(** What is accumulated is equal, the stores are the same. *)
Definition same_acc (a a' : @reward_acc D) : Prop :=
  same_stores (acc_idb a) (acc_idb a') /\ acc_new a' = acc_new a /\ acc_reward a' = acc_reward a /\
  acc_hash a' = acc_hash a.

Lemma same_acc_put f ia a a' n r h : same_acc a a' ->
  same_acc (mkAcc (put_account f ia (acc_idb a)) n r h) (mkAcc (put_account f ia (acc_idb a')) n r h).
Proof. intros (Hs & _). split; [|done]. by apply put_account_same. Qed.

Lemma outcome_eq_refl {E A} (m : outcome E A) : outcome_rel eq m m.
Proof. by destruct m. Qed.

Lemma delegate_tx_same {E : Type} gvs cands bh tx a a' : same_acc a a' ->
  outcome_rel same_acc (delegate_tx (E := E) gvs cands bh tx a) (delegate_tx (E := E) gvs cands bh tx a').
Proof.
  intros Ha. pose proof Ha as (Hs & En & Er & Eh). unfold delegate_tx. rewrite En, Er, Eh, <-Hs.
  apply (outcome_rel_bind eq); [apply outcome_eq_refl|]. intros f _ <-.
  apply (outcome_rel_bind eq); [apply outcome_eq_refl|]. intros o _ <-. rewrite <-Hs.
  assert (Hfin : forall newIA n st, outcome_rel same_acc
    (let! (newIA, reward) := calculateIScore (E := E) gvs cands newIA bh in
     Ok (mkAcc (put_account f newIA (acc_idb a)) n (match reward with Some r => st + r | None => st end)
       (acc_hash a ++ ia_BytesForHash newIA)))
    (let! (newIA, reward) := calculateIScore (E := E) gvs cands newIA bh in
     Ok (mkAcc (put_account f newIA (acc_idb a')) n (match reward with Some r => st + r | None => st end)
       (acc_hash a ++ ia_BytesForHash newIA)))).
  { intros newIA n st. apply (outcome_rel_bind eq); [apply outcome_eq_refl|]. intros [ia r] _ <-. by apply same_acc_put. }
  destruct (get_account (acc_idb a) f _) as [data|]; [|destruct o; [apply Hfin|done]].
  destruct (NewIScoreAccountFromBytes data) as [ia|]; [|done]. destruct (negb _); [done|]. destruct o; [|done].
  apply (outcome_rel_bind eq); [apply outcome_eq_refl|]. intros [ia' r] _ <-. apply Hfin.
Qed.

Lemma tx_loop_same {E : Type} gvs cands bh tx l a a' : same_acc a a' ->
  outcome_rel same_acc (tx_loop (E := E) gvs cands bh tx l a) (tx_loop (E := E) gvs cands bh tx l a').
Proof.
  revert tx a a'. induction l as [|[k v] l IH]; intros tx a a' Ha; cbn [tx_loop]; [done|].
  destruct (tx_SetBytes v tx) as [tx' []]; cbn [negb]; [|by apply IH].
  apply (outcome_rel_bind same_acc); [|intros b b' Hb; by apply IH].
  destruct (_ =? _); [by apply delegate_tx_same|done].
Qed.

Lemma bp_write_loop_same {E : Type} bh l s s' n t ias : same_stores s s' ->
  outcome_rel (fun r r' => same_stores r.1.1.1 r'.1.1.1 /\ r'.1.1.2 = r.1.1.2 /\ r'.1.2 = r.1.2 /\ r'.2 = r.2)
    (bp_write_loop (E := E) bh l s n t ias) (bp_write_loop (E := E) bh l s' n t ias).
Proof.
  revert s s' n t ias. induction l as [|[a v] l IH]; intros s s' n t ias Hs; cbn [bp_write_loop]; [done|].
  rewrite <-Hs. apply (outcome_rel_bind eq); [apply outcome_eq_refl|]. intros f _ <-. rewrite <-Hs.
  destruct (get_account s f a) as [data|]; [|apply IH; by apply put_account_same].
  destruct (NewIScoreAccountFromBytes data); [|done]. apply IH. by apply put_account_same.
Qed.

Lemma prep_write_loop_same {E : Type} rev e bh l a a' : same_acc a a' ->
  outcome_rel same_acc (prep_write_loop (E := E) rev e bh l a) (prep_write_loop (E := E) rev e bh l a').
Proof.
  revert a a'. induction l as [|[di [i r]] l IH]; intros a a' Ha; cbn [prep_write_loop]; [done|].
  pose proof Ha as (Hs & En & Er & Eh). rewrite <-Hs. apply (outcome_rel_bind eq); [apply outcome_eq_refl|].
  intros f _ <-. rewrite <-Hs, En, Er, Eh.
  destruct (get_account (acc_idb a) f _) as [data|]; [|by apply IH, same_acc_put].
  destruct (NewIScoreAccountFromBytes data); [|done]. by apply IH, same_acc_put.
Qed.

(** Contexts the reward functions do not tell apart; the P-Rep lists are
    compared where they are used. *)
Record same_calc ctx ctx' : Prop := {
  sc_DB : same_stores (DB ctx) (DB ctx');
  sc_GV : GV ctx' = GV ctx;
  sc_candidates : ctx_PRepCandidates ctx' = ctx_PRepCandidates ctx;
  sc_Revision : Revision ctx' = Revision ctx;
}.

Lemma same_calc_set s s' ctx ctx' : same_calc ctx ctx' -> same_stores s s' -> same_calc (set_DB s ctx) (set_DB s' ctx').
Proof. intros [H1 H2 H3 H4] Hs. by split. Qed.

(** A reward function: the same numbers, and P-Rep lists that do not change. *)
Definition same_reward {R : Type} (preps preps' : list PRep) (r r' : Context D * R) : Prop :=
  same_calc r.1 r'.1 /\ ctx_PRep r.1 = preps /\ ctx_PRep r'.1 = preps' /\ r'.2 = r.2.

Lemma calculateIISSTX_same {E : Type} ctx ctx' iiss bh : same_calc ctx ctx' ->
  outcome_rel (same_reward (ctx_PRep ctx) (ctx_PRep ctx'))
    (calculateIISSTX (E := E) shake256 ctx iiss bh) (calculateIISSTX (E := E) shake256 ctx' iiss bh).
Proof.
  intros Hc. pose proof Hc as [Hs Eg Ec _]. unfold calculateIISSTX. rewrite Eg, Ec.
  apply (outcome_rel_bind same_acc); [by apply tx_loop_same|]. intros a a' (Ha & En & Er & Eh).
  split_and!; [by apply same_calc_set|done|done|]. cbn. by rewrite En, Er, Eh.
Qed.

Lemma bp_loop_same ctx ctx' bp l m : same_calc ctx ctx' -> bp_loop ctx' bp l m = bp_loop ctx bp l m.
Proof.
  intros [_ Eg _ _]. revert bp m. induction l as [|[k v] l IH]; intros bp m; cbn [bp_loop]; [done|].
  destruct (bp_SetBytes v bp) as [bp' []]; cbn [negb]; [|done]. unfold getGVByBlockHeight. rewrite Eg.
  destruct (head _); apply IH.
Qed.

Lemma calculateIISSBlockProduce_same {E : Type} ctx ctx' iiss bh : same_calc ctx ctx' ->
  outcome_rel (same_reward (ctx_PRep ctx) (ctx_PRep ctx'))
    (calculateIISSBlockProduce (E := E) shake256 map_order ctx iiss bh)
    (calculateIISSBlockProduce (E := E) shake256 map_order ctx' iiss bh).
Proof.
  intros Hc. unfold calculateIISSBlockProduce. rewrite (bp_loop_same ctx ctx') by done.
  eapply outcome_rel_bind; [by apply bp_write_loop_same, Hc|].
  intros [[[s n] t] ias] [[[s' n'] t'] ias'] (Hs & En & Er & Ei). cbn in *. subst.
  split_and!; [by apply same_calc_set|done|done|done].
Qed.

Lemma setPRepReward_same {E : Type} ctx ctx' start end_ prep bh : same_calc ctx ctx' ->
  outcome_rel (same_reward (ctx_PRep ctx) (ctx_PRep ctx'))
    (setPRepReward (E := E) shake256 ctx start end_ prep bh) (setPRepReward (E := E) shake256 ctx' start end_ prep bh).
Proof.
  intros Hc. pose proof Hc as [Hs Eg _ Ev]. unfold setPRepReward. rewrite Eg, Ev.
  apply (outcome_rel_bind same_acc); [by apply prep_write_loop_same|]. intros a a' (Ha & En & Er & Eh).
  split_and!; [by apply same_calc_set|done|done|]. cbn. by rewrite En, Er, Eh.
Qed.

Lemma prep_loop_same {E : Type} start to preps ctx ctx' n t h : same_calc ctx ctx' ->
  outcome_rel (same_reward (ctx_PRep ctx) (ctx_PRep ctx'))
    (prep_loop (E := E) shake256 start to preps ctx n t h) (prep_loop (E := E) shake256 start to preps ctx' n t h).
Proof.
  revert ctx ctx' n t h. induction preps as [|p preps IH]; intros ctx ctx' n t h Hc; cbn [prep_loop]; [done|].
  destruct (_ =? 0); [by apply IH|]. destruct (prep_period start to p (head preps)) as [s e].
  destruct (e <=? s); [by apply IH|].
  eapply outcome_rel_bind; [by apply setPRepReward_same|].
  intros [c [[n1 t1] h1]] [c' r'] (Hc' & E1 & E2 & E3). cbn in E1, E2, E3. rewrite E3, <-E1, <-E2. by apply IH.
Qed.

(** The last list twice, as a restart leaves it: the first copy has no blocks
    of its own. *)
Definition last_doubled (preps preps' : list PRep) : Prop :=
  preps' = preps \/ exists l p, preps = l ++ [p] /\ preps' = l ++ [p; p].

Lemma prep_loop_doubled {E : Type} start to l p ctx n t h :
  prep_loop (E := E) shake256 start to (l ++ [p; p]) ctx n t h =
  prep_loop (E := E) shake256 start to (l ++ [p]) ctx n t h.
Proof.
  revert ctx n t h. induction l as [|q l IH]; intros ctx n t h.
  - cbn [app]. cbn [prep_loop]. destruct (_ =? 0) eqn:Ht; [done|].
    cbn [head]. destruct (prep_period start to p None) as [s e] eqn:Ep.
    unfold prep_period at 1. destruct (Z.leb_spec (if pr_BlockHeight p <? to then pr_BlockHeight p else to)
      (if start <? pr_BlockHeight p then pr_BlockHeight p else start)) as [|Hlt]; [done|]. exfalso.
    destruct (Z.ltb_spec (pr_BlockHeight p) to), (Z.ltb_spec start (pr_BlockHeight p)); lia.
  - cbn [app prep_loop]. destruct (_ =? 0); [apply IH|].
    assert (head (l ++ [p; p]) = head (l ++ [p])) as -> by (by destruct l).
    destruct (prep_period start to q _) as [s e]. destruct (e <=? s); [apply IH|].
    destruct (setPRepReward shake256 ctx s e q to) as [[c [[? ?] ?]]| |]; cbn [obind]; [apply IH|done..].
Qed.

Lemma calculatePRepReward_same {E : Type} ctx ctx' to : same_calc ctx ctx' ->
  last_doubled (ctx_PRep ctx) (ctx_PRep ctx') ->
  outcome_rel (same_reward (ctx_PRep ctx) (ctx_PRep ctx'))
    (calculatePRepReward (E := E) shake256 ctx to) (calculatePRepReward (E := E) shake256 ctx' to).
Proof.
  intros Hc Hp. unfold calculatePRepReward.
  assert (forall n t h, prep_loop (E := E) shake256 (getCalcDoneBH (DB ctx')) to (ctx_PRep ctx') ctx' n t h =
    prep_loop (E := E) shake256 (getCalcDoneBH (DB ctx)) to (ctx_PRep ctx) ctx' n t h) as ->.
  { intros n t h. unfold getCalcDoneBH. rewrite (ss_info _ _ (sc_DB _ _ Hc)).
    destruct Hp as [-> |(l & p & -> & ->)]; [done|apply prep_loop_doubled]. }
  eapply outcome_rel_bind; [by apply prep_loop_same|].
  intros [c [[n1 t1] h1]] [c' r'] (Hc' & E1 & E2 & E3). cbn in E1, E2, E3. rewrite E3. by split_and!.
Qed.

(** ** The end of a calculation *)

(** Two results of a calculation that a client and the next requests do not
    tell apart. *)
Record same_result (preps preps' : list PRep) (r r' : calc_result D) : Prop := {
  sr_ctx : same_calc (res_ctx r) (res_ctx r');
  sr_preps : ctx_PRep (res_ctx r) = preps /\ ctx_PRep (res_ctx r') = preps';
  sr_stats : ctx_stats (res_ctx r') = ctx_stats (res_ctx r) /\ res_stats r' = res_stats r;
  sr_hash : res_stateHash r' = res_stateHash r;
  sr_done : res_err r = None /\ res_err r' = None;
}.

Lemma finish_calculation_same {E : Type} iiss bh ctx ctx' st hs acks acks' : same_calc ctx ctx' ->
  last_doubled (ctx_PRep ctx) (ctx_PRep ctx') ->
  outcome_rel (same_result (ctx_PRep ctx) (ctx_PRep ctx'))
    (finish_calculation (E := E) shake256 map_order iiss bh ctx st hs acks)
    (finish_calculation (E := E) shake256 map_order iiss bh ctx' st hs acks').
Proof.
  intros Hc Hp. unfold finish_calculation.
  eapply outcome_rel_bind; [by apply calculateIISSTX_same|].
  intros [c1 [[n1 t1] h1]] [c1' r1] (Hc1 & P1 & P1' & E1). cbn in Hc1, P1, P1', E1. rewrite E1. clear E1 r1 Hc.
  rewrite <-P1, <-P1' in *. clear ctx ctx' P1 P1'.
  eapply outcome_rel_bind; [by apply calculateIISSBlockProduce_same|].
  intros [c2 [[n2 t2] h2]] [c2' r2] (Hc2 & P2 & P2' & E2). cbn in Hc2, P2, P2', E2. rewrite E2. clear E2 r2 Hc1.
  rewrite <-P2, <-P2' in *. clear c1 c1' P2 P2'.
  eapply outcome_rel_bind; [by apply calculatePRepReward_same|].
  intros [c3 [[n3 t3] h3]] [c3' r3] (Hc3 & P3 & P3' & E3). cbn in Hc3, P3, P3', E3. rewrite E3. clear E3 r3 Hc2.
  rewrite <-P3, <-P3' in *. clear c2 c2' P3 P3'.
  destruct Hc3 as [Hs Hg Hcd Hv]. split; [|done..]. split; [|done..].
  pose proof (setCalcDoneBH_same bh _ _ Hs) as Hd.
  exact (same_stores_calcResult _ _ (fun d => WriteCalculationResult d bh _ _) Hd).
Qed.
End SameRewards.
