(* ===== verification/Interrupted.v ===== *)
(** * Passes that were interrupted

    A pass over the account DBs that stops early ([calculateDB] of
    [core/msg_calculate.go] returns when the quit channel is closed, and loses
    the batch it was filling) has written some of the accounts a whole pass
    writes, with the same values.  A second pass over the same query DBs
    completes it: the account DBs, the statistics and the state hashes are
    those of one pass that ran through. *)

From S2P Require Import Prelude Bytes HexInt Address Store Codec Typed Account ClaimDB Management IISSData IScoreDB Context Reward Calculate AccountDBs DoCalculate AccountPass CalcState SameStores.

Section Interrupted.
Context {D : Type} `{!LevelDB D, !LevelDBLaws D}.
Context `{!Codec IScoreData, !CodecLaws IScoreData, !Codec DBInfoData}.
Context (shake256 : bytes -> bytes).
Context (gvs : list GovernanceVariable) (candidates : PRepCandidates).
Implicit Type (s : IScoreDB D) (d : D).

(** ** One account DB *)

(** [d] is [w] with some entries of [W] written over it. *)
Definition grown (W : bytes -> bytes -> Prop) (w d : D) : Prop :=
  forall k, ldb_get d k = ldb_get w k \/ exists v, ldb_get d k = Some v /\ W k v.

Definition put_of (W : bytes -> bytes -> Prop) (o : batch_op) : Prop :=
  match o with BatchPut k v => W k v | BatchDelete _ => False end.

Lemma grown_refl W d : grown W d d.
Proof. by left. Qed.

Lemma grown_put W w d k v : grown W w d -> W k v -> grown W w (ldb_put k v d).
Proof. intros Hd Hk k'. rewrite ldb_get_put. case_decide; [subst; right; by exists v|apply Hd]. Qed.

Lemma grown_batch W w d b : grown W w d -> Forall (put_of W) b -> grown W w (batch_Write b d).
Proof.
  intros Hd Hb. unfold batch_Write. revert d Hd.
  induction Hb as [|[k v|k] b Ho _ IH]; intros d Hd; cbn [fold_left batch_apply]; [done| |done].
  apply IH. by apply grown_put.
Qed.

(** What a pass writes: the accounts below the height, calculated. *)
Definition pass_writes (bh : Z) (readDB : D) (k v : bytes) : Prop :=
  exists v0, ldb_get readDB k = Some v0 /\ is_due bh (k, v0) = true /\
    v = ia_Bytes (advanced gvs candidates bh (k, v0)).

Lemma store_account_grown W w bc k ia r (st : calc_state D) : W k (ia_Bytes ia) ->
  grown W w (calc_db st) -> Forall (put_of W) (calc_batch st) ->
  let st' := store_account bc k (drop (length PrefixIScore) k) ia r st in
  grown W w (calc_db st') /\ Forall (put_of W) (calc_batch st').
Proof.
  intros Hk Hd Hb. unfold store_account, batch_Set.
  assert (Hb' : Forall (put_of W) (calc_batch st ++ [BatchPut k (ia_Bytes ia)])).
  { apply Forall_app. split; [done|]. by constructor. }
  destruct (0 <? bc); [destruct (_ =? bc)|]; cbn [calc_db calc_batch].
  - split; [by apply grown_batch|apply Forall_nil_2].
  - done.
  - split; [|done]. unfold bucket_Set. rewrite internalKey_app. by apply grown_put.
Qed.

Lemma calc_loop_grown {E : Type} intr n bh bc readDB w l (st st' : calc_state D) e : bh <> 0 ->
  account_inv readDB -> Forall (fun x => ldb_get readDB x.1 = Some x.2) l ->
  grown (pass_writes bh readDB) w (calc_db st) -> Forall (put_of (pass_writes bh readDB)) (calc_batch st) ->
  calc_loop (E := E) gvs candidates intr n bh bc l st = Ok (st', e) ->
  grown (pass_writes bh readDB) w (calc_db st') /\ Forall (put_of (pass_writes bh readDB)) (calc_batch st').
Proof.
  intros Hb0 Hr Hl. revert n st.
  induction Hl as [|[k v] l Hkv _ IH]; intros n st Hd Hbt; cbn [calc_loop]; [by intros [= <- _]|].
  cbn [fst snd] in Hkv. destruct (Hr _ _ Hkv) as (Hk & x & [Ev Hx]%account_value_good). subst v.
  destruct (intr n); [by intros [= <- _]|].
  rewrite NewIScoreAccountFromBytes_marshal by apply Hx.
  change (drop (length PrefixIScore) k) with k.
  change (NewAddress (Some k)) with (NewAddress (Some (Address_Bytes k))). rewrite NewAddress_Bytes by done.
  rewrite calculateIScore_spec by (assumption || apply Hx).
  destruct (Z.leb_spec bh (ia_BlockHeight (ia_set_Address k (mkIScoreAccount zero_Address x)))) as [|Hlt];
    cbn [obind]; [by apply IH|].
  match goal with |- context [store_account _ _ _ ?ia ?r ?s1] =>
    destruct (store_account_grown (pass_writes bh readDB) w bc k ia r s1) as [H1 H2]; [|done|done|] end.
  - exists (marshal x). unfold is_due, advanced. cbn [fst snd]. rewrite decode_account_marshal by apply Hx.
    split_and!; [done|by apply Z.ltb_lt|done].
  - by apply IH.
Qed.

Lemma calculateDB_grown {E : Type} intr readDB writeDB bh bc d r : bh <> 0 -> account_inv readDB ->
  calculateDB (E := E) shake256 gvs candidates intr readDB writeDB bh bc = Ok (d, r) ->
  grown (pass_writes bh readDB) writeDB d.
Proof.
  intros Hb0 Hr. unfold calculateDB. change (iter_New None None readDB) with (ldb_iter None readDB).
  intros ([st e] & Hl & H)%obind_ok.
  destruct (calc_loop_grown (E := E) intr 0 bh bc readDB writeDB (ldb_iter None readDB)
    (mkCalcState writeDB batch_New 0 0 [] zero_Statistics) st e) as [H1 H2]; [done|done| |apply grown_refl|apply Forall_nil_2|done|].
  { apply Forall_forall. intros [k v] [Hk _]%ldb_iter_elem. done. }
  destruct e; injection H as <- _; [|done|done]. destruct (0 <? bc); [by apply grown_batch|done].
Qed.

(** ** All account DBs *)

(** The stores after a pass that may have stopped early: some accounts of the
    calculate DBs are written, everything else is untouched. *)
Record partly_passed (bh : Z) s s1 : Prop := {
  pp_files : files_only s s1;
  pp_inv : accounts_inv s1;
  pp_other : forall f, (forall j, j ∈ seqZ 1 (DBCount (info s)) -> f <> calc_name s j) ->
    files s1 !! f = files s !! f;
  pp_calc : forall j, j ∈ seqZ 1 (DBCount (info s)) ->
    grown (pass_writes bh (db_at s (query_name s j))) (db_at s (calc_name s j)) (db_at s1 (calc_name s j));
}.

Lemma calc_account_dbs_grown {E : Type} env bh s0 js i s st hs s' st' hs' : bh <> 0 -> NoDup js ->
  accounts_inv s0 ->
  (forall j, j ∈ js -> db_at s (query_name s0 j) = db_at s0 (query_name s0 j) /\
     db_at s (calc_name s0 j) = db_at s0 (calc_name s0 j)) ->
  calc_account_dbs (E := E) shake256 gvs candidates env bh i (map (query_name s0) js) (map (calc_name s0) js) s st hs
    = Ok (s', st', hs') ->
  (forall f, (forall j, j ∈ js -> f <> calc_name s0 j) -> files s' !! f = files s !! f) /\
  (forall j, j ∈ js ->
    grown (pass_writes bh (db_at s0 (query_name s0 j))) (db_at s0 (calc_name s0 j)) (db_at s' (calc_name s0 j))).
Proof.
  intros Hb0 Hnd Hs. revert i s st hs.
  induction Hnd as [|j js Hn _ IH]; intros i s st hs Heq; cbn [map calc_account_dbs].
  { intros [= <- _ _]. split; [done|]. intros j []%not_elem_of_nil. }
  intros ([d [[c t] h]] & Hd & H)%obind_ok. destruct (Heq j) as [Hqj Hcj]; [by left|].
  rewrite Hqj, Hcj in Hd. apply calculateDB_grown in Hd; [|done|by apply db_at_inv].
  apply IH in H as [H1 H2].
  - split.
    + intros f Hf. rewrite H1 by (intros j' Hj'; apply Hf; by right). cbn [files db_update set_files].
      apply lookup_insert_ne. intros <-. by apply (Hf j); [left|].
    + intros j' [->|Hj']%elem_of_cons; [|by apply H2].
      assert (db_at s' (calc_name s0 j) = d) as ->; [|done].
      unfold db_at. rewrite H1 by (intros j1 Hj1 ->%calc_name_inj; done).
      cbn [files db_update set_files]. by rewrite lookup_insert_eq.
  - intros j' Hj'. rewrite !db_at_update. rewrite decide_False by apply calc_query_name.
    rewrite decide_False by (intros ->%calc_name_inj; done). apply Heq. by right.
Qed.

(** A pass over the account DBs, stopped or not, writes only accounts of a
    whole pass. *)
Lemma partial_pass {E : Type} env bh s : bh <> 0 -> is_u64 bh -> accounts_inv s ->
  exists s1 st hs, calc_account_dbs (E := E) shake256 gvs candidates env bh 0 (getQueryDBList s) (getCalcDBList s) s [] []
      = Ok (s1, st, hs) /\ partly_passed bh s s1.
Proof.
  intros Hb0 Hb Hs. rewrite query_names, calc_names by done.
  destruct (calc_account_dbs_ok (E := E) shake256 gvs candidates env bh s (seqZ 1 (DBCount (info s))) 0 s [] [] Hb0 Hb Hs)
    as (s1 & st & hs & E1 & F & I); [reflexivity|].
  exists s1, st, hs. split; [done|].
  destruct (calc_account_dbs_grown (E := E) env bh s (seqZ 1 (DBCount (info s))) 0 s [] [] s1 st hs Hb0 (NoDup_seqZ _ _) Hs) as [H1 H2]; [done|done|].
  by split.
Qed.

Lemma db_at_files s s' f : files s' !! f = files s !! f -> db_at s' f = db_at s f.
Proof. unfold db_at. by intros ->. Qed.

(** Writing over what was written gives what one pass writes. *)
Lemma grown_pass_db bh s s1 j k : grown (pass_writes bh (db_at s (query_name s j))) (db_at s (calc_name s j)) (db_at s1 (calc_name s j)) ->
  info s1 = info s -> db_at s1 (query_name s j) = db_at s (query_name s j) ->
  pass_db gvs candidates bh s1 j k = pass_db gvs candidates bh s j k.
Proof.
  intros Hg Hi Hq. unfold pass_db.
  assert (query_name s1 j = query_name s j /\ calc_name s1 j = calc_name s j) as [-> ->].
  { unfold query_name, calc_name, query_postfix, calc_postfix. by rewrite Hi. }
  rewrite Hq. destruct (Hg k) as [-> |(v & Hv & v0 & Hv0 & Hd & ->)]; [done|]. by rewrite Hv0, Hd.
Qed.

(** A whole pass after one that may have stopped early is a whole pass: the
    stores are the same, the statistics and state hashes equal.  The second
    one may start from stores whose management DB was written meanwhile. *)
Lemma resumed_pass {E : Type} env bh s s1 m : uninterrupted env -> bh <> 0 -> is_u64 bh -> accounts_inv s ->
  partly_passed bh s s1 -> same_db (management s1) m ->
  let s2 := set_management m s1 in
  exists t t2 st hs,
    calc_account_dbs (E := E) shake256 gvs candidates env bh 0 (getQueryDBList s) (getCalcDBList s) s [] [] = Ok (t, st, hs) /\
    calc_account_dbs (E := E) shake256 gvs candidates env bh 0 (getQueryDBList s2) (getCalcDBList s2) s2 [] [] = Ok (t2, st, hs) /\
    same_stores t t2 /\ files_only s t /\ accounts_inv t.
Proof.
  intros Hq Hb0 Hb Hs [Hf Hs1 Ho Hg] Hm s2. destruct (files_only_info _ _ Hf) as (Hi & Em & _).
  assert (Hs2 : accounts_inv s2) by (destruct Hs1 as [[A B C] F G H1 H2]; split; [split|..]; done).
  assert (Hn : forall j, query_name s2 j = query_name s j /\ calc_name s2 j = calc_name s j).
  { intros j. unfold query_name, calc_name, query_postfix, calc_postfix, s2. cbn [info set_management]. by rewrite Hi. }
  set (js := seqZ 1 (DBCount (info s))) in *.
  assert (Eq2 : forall j, db_at s2 (query_name s j) = db_at s (query_name s j)).
  { intros j. change (db_at s2 (query_name s j)) with (db_at s1 (query_name s j)).
    apply db_at_files, Ho. intros j' _ E'. by apply (calc_query_name s j' j). }
  destruct (quiet_pass (E := E) shake256 gvs candidates env bh s js 0 s [] [] Hq Hb0 Hb (NoDup_seqZ _ _) Hs)
    as (t & E1 & A1 & A2 & A3 & A4); [reflexivity|done|].
  destruct (quiet_pass (E := E) shake256 gvs candidates env bh s2 js 0 s2 [] [] Hq Hb0 Hb (NoDup_seqZ _ _) Hs2)
    as (t2 & E2 & B1 & B2 & B3 & _); [reflexivity|done|].
  exists t, t2. rewrite (query_names s), (calc_names s), (query_names s2), (calc_names s2) by done.
  assert (DBCount (info s2) = DBCount (info s)) as -> by (unfold s2; cbn [info set_management]; by rewrite Hi).
  fold js. rewrite E1, E2. eexists _, _. split; [done|]. split.
  { do 2 f_equal; [f_equal|]; cbn [app]; apply map_ext; intros j.
    - by rewrite (proj1 (Hn j)), Eq2.
    - unfold pass_hash. by rewrite (proj1 (Hn j)), Eq2. }
  split; [|done]. destruct (files_only_info _ _ A3) as (It & Mt & _), (files_only_info _ _ B3) as (I2 & M2 & _).
  apply same_stores_intro.
  - rewrite It, I2. exact Hi.
  - rewrite A3, B3. unfold s2. rewrite Hf. done.
  - rewrite Mt, M2, <-Em. exact Hm.
  - intros f. destruct (decide (f ∈ map (calc_name s) js)) as [(j & -> & Hj)%list_elem_of_fmap|Hno].
    + intros k. rewrite A1 by done. rewrite <-(proj2 (Hn j)), B1 by done. symmetry.
      apply (grown_pass_db bh s s2); [by apply Hg|done|apply Eq2].
    + assert (Hno' : forall j, j ∈ js -> f <> calc_name s j) by (intros j Hj ->; apply Hno, list_elem_of_fmap; by exists j).
      rewrite A2 by done. rewrite B2 by (intros j Hj; rewrite (proj2 (Hn j)); by apply Hno').
      change (db_at s2 f) with (db_at s1 f). rewrite (db_at_files s s1); [done|]. by apply Ho.
Qed.
End Interrupted.
