(* ===== verification/Reapply.v ===== *)
(** * The updates before a calculation, applied again

    [DoCalculate] writes the height it calculates, exchanges the account DBs
    and updates the management records before the passes over the accounts.
    When the process stops during the passes, [reloadIISSData] does all of it
    a second time, on what the first run stored.  The second run changes
    nothing but the P-Rep lists in memory: [UpdatePRep] of [core/context.go]
    adds the lists of the IISS data behind those that were read back. *)

From S2P Require Import Prelude Bytes HexInt Address Store Codec Typed Account ClaimDB Management IISSData IScoreDB Context Mirror Reward Calculate AccountDBs BlockProduce Delegation PRepReward DoCalculate AccountPass CalcState CalcTotal SameStores.

(** ** Records kept by height *)

Section DropOld.
Context {D A : Type} `{!LevelDB D}.
Context (prefix : BucketID) (ID : A -> bytes) (height : A -> Z).

(** Nothing to drop: at most the first record is at or below the height. *)
Definition kept (prev : Z) (l : list A) : Prop := Forall (fun a => prev < height a) (tail l).

Lemma delete_old_new prev l r (d : D) : Forall (fun x => prev < height x.2) l ->
  delete_old prefix ID height prev (l ++ r) None d = delete_old prefix ID height prev r None d.
Proof.
  induction 1 as [|[i a] l Ha _ IH]; cbn [app delete_old]; [done|]. cbn in Ha.
  by rewrite (proj2 (Z.leb_gt _ _)).
Qed.

Lemma drop_old_kept prev l (d : D) : kept prev l -> drop_old prefix ID height prev l d = (d, l).
Proof.
  unfold kept, drop_old. destruct l as [|a l]; cbn [tl]; intros Hl; [done|].
  cbn [imap]. rewrite reverse_cons, delete_old_new.
  - cbn [delete_old]. by destruct (_ <=? _).
  - apply Forall_reverse, Forall_forall. intros [i b] (j & y & E & Hy)%elem_of_lookup_imap.
    injection E as _ ->. rewrite Forall_forall in Hl. apply Hl. by eapply list_elem_of_lookup_2.
Qed.

Lemma kept_app prev l l' : kept prev l -> Forall (fun a => prev < height a) l' -> kept prev (l ++ l').
Proof.
  unfold kept. destruct l as [|a l]; cbn [app tail]; intros H1 H2; [|by apply Forall_app].
  destruct H2; [by constructor|done].
Qed.

Lemma drop_old_result prev l (d : D) : heights_sorted height l ->
  let l' := (drop_old prefix ID height prev l d).2 in kept prev l' /\ last l' = last l.
Proof.
  intros Hs. destruct (drop_old_spec prefix ID height prev l d Hs) as [[-> Hl]|(l1 & a & l2 & -> & _ & Hl & ->)].
  - split; [|done]. destruct Hl; [by constructor|done].
  - split; [done|]. by rewrite last_app_cons.
Qed.
End DropOld.

(** ** Governance variables *)

Section Reapply.
Context {D : Type} `{!LevelDB D, !LevelDBLaws D}.
Context `{!Codec IScoreData, !CodecLaws IScoreData, !Codec IISSTXData, !CodecLaws IISSTXData,
  !Codec DBInfoData, !CodecLaws DBInfoData, !Codec DBInfoDataV1, !Codec GVData, !CodecLaws GVData,
  !Codec PRepData, !CodecLaws PRepData, !Codec PRepCandidateData, !CodecLaws PRepCandidateData}.
Implicit Type (ctx : Context D).

Definition absorbed (gvList : list IISSGovernanceVariable) (l : list GovernanceVariable) : Prop :=
  Forall (fun g => exists x, last l = Some x /\ ig_BlockHeight g <= gv_BlockHeight x) gvList.

Lemma add_gv_absorbed gvList l (d : D) : absorbed gvList l -> add_gv gvList l d = (d, l).
Proof.
  induction 1 as [|g gvList (x & Hx & Hle) _ IH]; cbn [add_gv]; [done|].
  by rewrite Hx, (proj2 (Z.ltb_ge _ _)).
Qed.

Lemma add_gv_last gvList l (d : D) : let l' := (add_gv gvList l d).2 in
  absorbed gvList l' /\ forall x, last l = Some x -> exists y, last l' = Some y /\ gv_BlockHeight x <= gv_BlockHeight y.
Proof.
  revert l d. induction gvList as [|g gvList IH]; intros l d; cbn [add_gv].
  { split; [constructor|]. intros x Hx. by exists x. }
  destruct (match last l with None => true | Some x => _ end) eqn:Hl.
  - set (gv := NewGVFromIISS g).
    destruct (IH (l ++ [gv]) (bucket_Set PrefixGovernanceVariable (gv_ID gv) (gv_Bytes gv) d)) as [H1 H2].
    destruct (H2 gv) as (y & Hy & Hle); [by apply last_snoc|]. split.
    + constructor; [|done]. by exists y.
    + intros x Hx. rewrite Hx in Hl. apply Z.ltb_lt in Hl. exists y. split; [done|].
      change (gv_BlockHeight gv) with (ig_BlockHeight g) in Hle. lia.
  - destruct (last l) as [x|] eqn:Hx; [|done]. apply Z.ltb_ge in Hl. destruct (IH l d) as [H1 H2].
    destruct (H2 x Hx) as (y & Hy & Hle). split.
    + constructor; [|done]. exists y. split; [done|lia].
    + intros ? [= <-]. by exists y.
Qed.

Lemma UpdateGovernanceVariable_absorbed gvList ctx : absorbed gvList (GV ctx) ->
  kept gv_BlockHeight (getPrevCalcDoneBH (DB ctx)) (GV ctx) -> UpdateGovernanceVariable gvList ctx = ctx.
Proof.
  intros Ha Hk. unfold UpdateGovernanceVariable. rewrite add_gv_absorbed, drop_old_kept by done. by destruct ctx as [[]].
Qed.

Lemma UpdateGovernanceVariable_absorbs gvList ctx : ctx_mirror ctx ->
  Forall (fun g => is_u64 (ig_BlockHeight g)) gvList ->
  absorbed gvList (GV (UpdateGovernanceVariable gvList ctx)) /\
  kept gv_BlockHeight (getPrevCalcDoneBH (DB ctx)) (GV (UpdateGovernanceVariable gvList ctx)).
Proof.
  intros Hm Hg. unfold UpdateGovernanceVariable.
  pose proof (add_gv_mirror gvList (GV ctx) (ctx_management ctx) Hg (ctx_gv _ Hm)) as Ha.
  destruct (add_gv_last gvList (GV ctx) (ctx_management ctx)) as [Hl _].
  destruct (add_gv gvList _ _) as [d l]. destruct Ha as ([Hs _] & _ & _). cbn [snd] in Hl.
  destruct (drop_old_result PrefixGovernanceVariable gv_ID gv_BlockHeight (getPrevCalcDoneBH (DB ctx)) l d (m_sorted _ _ _ _ _ Hs))
    as [Hk Hlast].
  destruct (drop_old _ _ _ _ _ _) as [d' l']. cbn in *. split; [|done]. eapply Forall_impl; [exact Hl|].
  intros g. by rewrite Hlast.
Qed.

(** ** P-Rep lists *)

(** Lists that are stored are written again with the same content. *)
Lemma add_prep_stored preps l l0 (d : D) : prep_mirror d l0 -> (forall p, p ∈ preps -> p ∈ l0) ->
  let '(d', l') := add_prep preps l d in same_db d d' /\ l' = l ++ preps.
Proof.
  revert l d. induction preps as [|p preps IH]; intros l d Hm Hin; cbn [add_prep].
  { split; [done|]. by rewrite app_nil_r. }
  assert (Hp : same_db (bucket_Set PrefixPRep (pr_ID p) (pr_Bytes p) d) d).
  { apply bucket_Set_id. destruct Hm as [Hm _]. apply (m_keys _ _ _ _ _ Hm); [by exists (pr_ID p)|].
    exists p. assert (p ∈ l0) as Hp by (apply Hin; by left). split_and!; [done| |done].
    rewrite pr_ID_be64; [done|]. pose proof (m_u64 _ _ _ _ _ Hm) as Hu. rewrite Forall_forall in Hu. by apply Hu. }
  specialize (IH (l ++ [p]) (bucket_Set PrefixPRep (pr_ID p) (pr_Bytes p) d)).
  destruct (add_prep preps _ _) as [d' l']. destruct IH as [H1 H2].
  - destruct Hm as [Hm Hw]. split; [|done]. eapply mirror_other; [done|]. intros k _. apply Hp.
  - intros q Hq. apply Hin. by right.
  - split; [by rewrite <-H1, Hp|]. by rewrite H2, <-app_assoc.
Qed.

Lemma UpdatePRep_again preps ctx : ctx_mirror ctx -> kept pr_BlockHeight (getPrevCalcDoneBH (DB ctx)) (ctx_PRep ctx) ->
  Forall (fun p => getPrevCalcDoneBH (DB ctx) < pr_BlockHeight p) preps ->
  (forall p, p ∈ preps -> p ∈ ctx_PRep ctx) ->
  exists d, UpdatePRep preps ctx = set_PRep (ctx_PRep ctx ++ preps) (set_ctx_management d ctx) /\
    same_db (ctx_management ctx) d.
Proof.
  intros Hm Hk Hnew Hin. unfold UpdatePRep.
  pose proof (add_prep_stored preps (ctx_PRep ctx) (ctx_PRep ctx) (ctx_management ctx) (ctx_prep _ Hm) Hin) as Ha.
  destruct (add_prep preps _ _) as [d l]. destruct Ha as [Hd ->].
  rewrite drop_old_kept by by apply kept_app. by exists d.
Qed.

Lemma UpdatePRep_keeps_new preps ctx : ctx_mirror ctx -> heights_sorted pr_BlockHeight (ctx_PRep ctx ++ preps) ->
  preps_ok preps -> Forall (fun p => getPrevCalcDoneBH (DB ctx) < pr_BlockHeight p) preps ->
  kept pr_BlockHeight (getPrevCalcDoneBH (DB ctx)) (ctx_PRep (UpdatePRep preps ctx)) /\
  exists l, ctx_PRep (UpdatePRep preps ctx) = l ++ preps.
Proof.
  intros Hm Hs Hp Hnew. unfold UpdatePRep.
  pose proof (add_prep_mirror preps (ctx_PRep ctx) (ctx_management ctx) (ctx_prep _ Hm) Hs Hp) as Ha.
  destruct (add_prep preps _ _) as [d l]. destruct Ha as (_ & _ & ->).
  set (prev := getPrevCalcDoneBH (DB ctx)) in *.
  destruct (drop_old_result PrefixPRep pr_ID pr_BlockHeight prev (ctx_PRep ctx ++ preps) d Hs) as [Hk _].
  destruct (drop_old_spec PrefixPRep pr_ID pr_BlockHeight prev (ctx_PRep ctx ++ preps) d Hs)
    as [[E _]|(l1 & a & l2 & E1 & Hle & _ & E)]; rewrite E in *; (split; [exact Hk|]).
  - by exists (ctx_PRep ctx).
  - assert (exists l0, l2 = l0 ++ preps) as [l0 ->]; [|by exists (a :: l0)].
    rewrite Forall_forall in Hnew.
    assert (Ha : a ∉ preps) by (intros Ha%Hnew; lia).
    apply app_eq_inv in E1 as [([|b k] & E1 & E2)|(k & _ & E2)].
    + cbn in E2. rewrite <-E2 in Ha. destruct Ha. by left.
    + injection E2 as <- E2. by exists k.
    + rewrite E2 in Ha. destruct Ha. apply elem_of_app. right. by left.
Qed.

(** ** Candidates *)

(** No address is unregistered before it was registered. *)
Fixpoint registered_first (m : PRepCandidates) (l : list IISSTXData) : Prop :=
  match l with
  | [] => True
  | tx :: l =>
      (tx_DataType tx = TXDataTypePrepUnReg -> is_Some (m !! tx_Address tx)) /\
      registered_first (candidate_step tx m) l
  end.

(** A transaction that has been applied. *)
Definition settled (m : PRepCandidates) (tx : IISSTXData) : Prop :=
  (tx_DataType tx = TXDataTypePrepReg -> is_Some (m !! tx_Address tx)) /\
  (tx_DataType tx = TXDataTypePrepUnReg -> exists p, m !! tx_Address tx = Some p /\
     (pc_End (pcd_Data p) = 0 -> tx_BlockHeight tx = 0)).

Lemma settled_step m tx : settled m tx -> candidate_step tx m = m.
Proof.
  intros [Hr Hu]. unfold candidate_step. destruct (Z.eqb_spec (tx_DataType tx) TXDataTypePrepReg) as [Er|_].
  { by destruct (Hr Er) as [p ->]. }
  destruct (Z.eqb_spec (tx_DataType tx) TXDataTypePrepUnReg) as [Eu|_]; [|done].
  destruct (Hu Eu) as (p & Hp & H0). rewrite Hp. destruct (Z.eqb_spec (pc_End (pcd_Data p)) 0) as [E0|]; [|done].
  apply insert_id. rewrite Hp, (H0 E0), <-E0. by destruct p as [? []].
Qed.

Lemma step_settles m tx : (tx_DataType tx = TXDataTypePrepUnReg -> is_Some (m !! tx_Address tx)) ->
  settled (candidate_step tx m) tx.
Proof.
  intros Hk. unfold candidate_step. destruct (Z.eqb_spec (tx_DataType tx) TXDataTypePrepReg) as [Er|Er].
  { split; [|rewrite Er; by intros [=]]. intros _. destruct (m !! tx_Address tx) eqn:Em; [by rewrite Em|].
    by rewrite lookup_insert_eq. }
  destruct (Z.eqb_spec (tx_DataType tx) TXDataTypePrepUnReg) as [Eu|Eu]; [|by split].
  split; [done|]. intros _. destruct (Hk Eu) as [p Hp]. rewrite Hp.
  destruct (Z.eqb_spec (pc_End (pcd_Data p)) 0); [|by exists p]. eexists. by rewrite lookup_insert_eq.
Qed.

Lemma settled_keeps m tx tx' : settled m tx -> settled (candidate_step tx' m) tx.
Proof.
  intros [Hr Hu]. unfold candidate_step.
  destruct (_ =? TXDataTypePrepReg); [|destruct (_ =? TXDataTypePrepUnReg); [|done]];
    destruct (m !! tx_Address tx') as [q|] eqn:Eq; try done; [|destruct (Z.eqb_spec (pc_End (pcd_Data q)) 0) as [E0|]; [|done]].
  - split; intros E; rewrite lookup_insert; case_decide as Ea.
    + by eexists.
    + by apply Hr.
    + destruct (Hu E) as (p & Hp & _). congruence.
    + by apply Hu.
  - split; intros E; rewrite lookup_insert; case_decide as Ea.
    + by eexists.
    + by apply Hr.
    + destruct (Hu E) as (p & Hp & H0). eexists. split; [done|]. cbn. intros _. rewrite Ea, Hp in Eq.
      injection Eq as ->. by apply H0.
    + by apply Hu.
Qed.

Lemma candidate_steps_settle m l : registered_first m l -> Forall (settled (foldl (flip candidate_step) m l)) l.
Proof.
  assert (Hkeep : forall l m tx, settled m tx -> settled (foldl (flip candidate_step) m l) tx).
  { clear. induction l as [|tx' l IH]; intros m tx Hs; [done|]. cbn [foldl]. apply IH. by apply settled_keeps. }
  revert m. induction l as [|tx l IH]; intros m; [constructor|]. intros [H1 H2]. cbn [foldl].
  constructor; [|by apply IH]. by apply Hkeep, step_settles.
Qed.

(** The transactions, applied to the candidates they led to. *)
Lemma candidate_steps_again m l : registered_first m l ->
  let m' := foldl (flip candidate_step) m l in foldl (flip candidate_step) m' l = m'.
Proof.
  intros Hl m'. pose proof (candidate_steps_settle m l Hl) as Hs. fold m' in Hs. clearbody m'. clear Hl m.
  induction Hs as [|tx l Htx _ IH]; [done|]. cbn [foldl]. unfold flip at 2. by rewrite settled_step.
Qed.

(** Two stores of the same candidates that agree elsewhere. *)
Lemma candidate_mirror_unique (d d' : D) m : candidate_mirror d m -> candidate_mirror d' m ->
  changes_only PrefixPRepCandidate d d' -> same_db d d'.
Proof.
  intros [_ H1] [_ H2] [Hc _] k. destruct (decide (PrefixPRepCandidate `prefix_of` k)) as [Hp|Hp]; [|by rewrite Hc].
  apply option_eq. intros v. by rewrite H1, H2.
Qed.

Lemma UpdatePRepCandidate_again iissDB ctx : candidate_mirror (ctx_management ctx) (ctx_PRepCandidates ctx) ->
  iiss_txs_ok iissDB -> foldl (flip candidate_step) (ctx_PRepCandidates ctx) (iiss_txs iissDB) = ctx_PRepCandidates ctx ->
  exists d, UpdatePRepCandidate iissDB ctx = set_ctx_management d ctx /\ same_db (ctx_management ctx) d.
Proof.
  intros Hm Htx Hset. unfold UpdatePRepCandidate.
  pose proof (candidate_loop_mirror zero_IISSTX _ (ctx_PRepCandidates ctx) (ctx_management ctx) Hm Htx) as H1.
  destruct (candidate_loop _ _ _ _) as [m d]. destruct H1 as (H1 & H2 & H3).
  change (m = foldl (flip candidate_step) (ctx_PRepCandidates ctx) (iiss_txs iissDB)) in H3.
  rewrite Hset in H3. subst m. exists d. split; [by destruct ctx|]. by apply (candidate_mirror_unique _ _ (ctx_PRepCandidates ctx)).
Qed.
End Reapply.
