(* ===== verification/Resume.v ===== *)
(** * Resuming a calculation after an exit

    [Close] of [core/manager.go] cancels a running calculation; the next start
    of the process, [InitManager], reads the stores back and calculates again
    what was interrupted, with [reloadIISSData].  The accounts, heights and
    results are then those of a calculation that was not interrupted, when
    the IISS data has at most one P-Rep list: of several, [UpdatePRep] makes
    [reloadIISSData] pay some twice (see [ResumeExamples]). *)

From S2P Require Import Prelude Bytes HexInt Address Store Codec Typed Account ClaimDB Management IISSData IScoreDB Context Mirror Reward Calculate AccountDBs BlockProduce Delegation PRepReward DoCalculate AccountPass CalcState CalcTotal SameStores Interrupted Reapply.

(** ** Start of the process *)

Section InitManager.
Context {D : Type} `{!LevelDB D}.
Context `{!Codec IScoreData, !Codec IISSTXData, !Codec IISSBlockProduceInfoData, !Codec CRData,
  !Codec DBInfoData, !Codec DBInfoDataV1, !Codec GVData, !Codec PRepData, !Codec PRepCandidateData,
  !Codec IISSHeader, !Codec IISSGVData}.
Context (shake256 : bytes -> bytes).
Context (map_order : gmap bytes Z -> list (bytes * Z)).

(** A new process on the stores of an old one. *)
Definition restart {E : Type} (ctx : Context D) (dbCount : Z) : outcome E (Context D) :=
  let s := DB ctx in
  NewContext (management s) (calcResult s) (preCommit s) (claim s) (claimBackup s) (files s) dbCount.

(** The state that [InitManager] makes: the context, and the reload of the
    IISS data, which runs beside the server and refuses calculations until it
    is done.  [open_iiss] gives the IISS data of a block height. *)
Definition InitManager {E : Type} (env : calc_env) (ctx : Context D) (dbCount : Z) (open_iiss : Z -> D)
    : outcome E (Context D) :=
  let! ctx := restart ctx dbCount in
  reloadIISSData shake256 map_order env ctx open_iiss.
End InitManager.

(** ** Stores that are in place *)

Section Again.
Context {D : Type} `{!LevelDB D, !LevelDBLaws D, !Codec DBInfoData}.
Implicit Type (s : IScoreDB D) (fs : gmap fname D).

Lemma OpenAccountDB_reopen s : accounts_ok s -> OpenAccountDB (set_accounts [] [] s) = s.
Proof.
  intros Hs. unfold OpenAccountDB. cbn [info files set_accounts].
  assert (Hopen : forall p, p = 0 \/ p = 1 -> Forall (fun f => is_Some (files s !! f)) (account_names (DBCount (info s)) p)).
  { intros p Hp. apply Forall_forall. intros f (i & Hi & ->)%elem_of_account_names. by apply (ao_files _ Hs). }
  rewrite (foldl_db_Open_id (account_names _ 0)) by auto. rewrite foldl_db_Open_id by auto.
  pose proof (ao_0 _ Hs) as E0. pose proof (ao_1 _ Hs) as E1. destruct s. cbn in *. by subst.
Qed.

Lemma reset_loop_again bh count p l i fs :
  (forall j, i < j <= i + Z.of_nat (length l) ->
     is_Some (fs !! BackupName bh j) /\ is_Some (fs !! AccountName j count p)) ->
  reset_loop bh count p i l fs = (fs, true).
Proof.
  revert i. induction l as [|x l IH]; intros i Hj; cbn [reset_loop]; [done|]. cbn [length] in Hj.
  destruct (Hj (i + 1)) as [[d Hd] Ha]; [lia|]. rewrite Hd, db_Open_id by done. apply IH. intros j Hi. apply Hj. lia.
Qed.

(** The DBs are exchanged and the old ones backed up. *)
Record exchanged (bh : Z) s : Prop := {
  ex_ok : accounts_ok s;
  ex_count : 0 <= DBCount (info s);
  ex_only : only_backups (files s) bh;
  ex_backups : forall i, 1 <= i <= DBCount (info s) -> is_Some (files s !! BackupName bh i);
  ex_toggle : ToggleBH (info s) = bh +u 1;
  ex_new : CalcDone (info s) <> bh;
}.

Lemma resetAccountDB_again bh s : exchanged bh s -> resetAccountDB bh (getCalcDoneBH s) s = s.
Proof.
  intros [Hok Hn Ho Hb _ Hne]. unfold resetAccountDB.
  assert (Glob_backup (Some (getCalcDoneBH s)) (files s) = []) as ->.
  { apply elem_of_nil_inv. intros f [Hm Hs]%Glob_backup_elem. destruct f as [|b i]; [done|]. cbn in Hm.
    apply Z.eqb_eq in Hm. by rewrite (Ho b i Hs) in Hm. }
  cbn [foldl]. rewrite (calc_list s Hok). fold (calc_postfix s).
  rewrite reset_loop_again.
  - cbn [negb info set_files]. rewrite length_account_names by done.
    change (map (fun i => AccountName i (DBCount (info s)) (calc_postfix s)) (seqZ 1 (DBCount (info s))))
      with (account_names (DBCount (info s)) (calc_postfix s)).
    unfold calc_postfix. pose proof (ao_0 _ Hok) as E0. pose proof (ao_1 _ Hok) as E1.
    destruct s as [i ? ? ? ? ? ? ? ?]. cbn in *. subst. by destruct (QueryDBIsZero i).
  - intros j Hj. rewrite length_account_names in Hj by done. split; [apply Hb; lia|].
    apply (ao_files _ Hok); [lia|]. destruct (postfix_cases s) as [[-> _]|[-> _]]; auto.
Qed.

Lemma begin_again bh s : exchanged bh s -> begin_calculation bh s = s.
Proof.
  intros Hs. unfold begin_calculation, toggleAccountDB. rewrite (ex_toggle _ _ Hs), Z.eqb_refl.
  by apply resetAccountDB_again.
Qed.

Lemma begin_exchanged bh s : accounts_ok s -> 0 <= DBCount (info s) -> only_backups (files s) (CalcDone (info s)) ->
  CalcDone (info s) <> bh -> ToggleBH (info s) <> bh +u 1 -> exchanged bh (begin_calculation bh s).
Proof.
  intros Hok Hn Hold Hne Ht. unfold begin_calculation.
  destruct (toggle_other (bh +u 1) s Ht) as (_ & T2 & T3 & T4 & _ & _ & _ & T8).
  pose proof (toggle_ok (bh +u 1) s Hok) as Hok1. set (st := toggleAccountDB (bh +u 1) s) in *.
  destruct (resetAccountDB_spec st bh) as (R1 & R2 & R3 & R4 & _);
    [done|by rewrite T3|by rewrite T8, T4|by rewrite T4|].
  split; rewrite ?R2, ?T2, ?T3, ?T4; try done. intros i Hi. apply R4. by rewrite T3.
Qed.

(** The passes over the accounts do not touch the backups. *)
Lemma exchanged_files bh s s' : exchanged bh s -> accounts_ok s' -> info s' = info s ->
  (forall b i, files s' !! BackupName b i = files s !! BackupName b i) -> exchanged bh s'.
Proof.
  intros [? ? Ho Hb ? ?] Hok Hi Hf. split; rewrite ?Hi; try done.
  - intros b i. rewrite Hf. apply Ho.
  - intros i. rewrite Hf. apply Hb.
Qed.
End Again.

Section Resume.
Context {D : Type} `{!LevelDB D, !LevelDBLaws D}.
Context `{!Codec IScoreData, !CodecLaws IScoreData, !Codec IISSTXData, !CodecLaws IISSTXData,
  !Codec IISSBlockProduceInfoData, !CodecLaws IISSBlockProduceInfoData, !Codec CRData,
  !Codec DBInfoData, !CodecLaws DBInfoData, !Codec DBInfoDataV1, !Codec GVData, !CodecLaws GVData,
  !Codec PRepData, !CodecLaws PRepData, !Codec PRepCandidateData, !CodecLaws PRepCandidateData,
  !Codec IISSHeader, !Codec IISSGVData}.
Context (shake256 : bytes -> bytes).
Context (map_order : gmap bytes Z -> list (bytes * Z)).
Hypothesis map_order_perm : forall m, Permutation (map_order m) (map_to_list m).
Implicit Type (ctx : Context D).

(** ** The updates, once and again *)

(** The updates before the passes have been made. *)
Record begun (bh : Z) (gvList : list IISSGovernanceVariable) (prepList : list PRep) (iissDB : D) ctx : Prop := {
  bg_mirror : ctx_mirror ctx;
  bg_calculating : Calculating (info (DB ctx)) = bh;
  bg_exchanged : exchanged bh (DB ctx);
  bg_gvs : absorbed gvList (GV ctx) /\ kept gv_BlockHeight (getPrevCalcDoneBH (DB ctx)) (GV ctx);
  bg_preps : kept pr_BlockHeight (getPrevCalcDoneBH (DB ctx)) (ctx_PRep ctx);
  bg_lists : (exists l, ctx_PRep ctx = l ++ prepList) /\
    Forall (fun p => getPrevCalcDoneBH (DB ctx) < pr_BlockHeight p) prepList;
  bg_txs : iiss_txs_ok iissDB /\
    foldl (flip candidate_step) (ctx_PRepCandidates ctx) (iiss_txs iissDB) = ctx_PRepCandidates ctx;
}.

Lemma ctx_mirror_same_db ctx d : ctx_mirror ctx -> same_db (ctx_management ctx) d -> ctx_mirror (set_ctx_management d ctx).
Proof.
  intros [Hb [Hgv Hgo] [Hpr Hpw] Hc Hi Hiw] Hd. split; cbn; try done.
  - intros k v. rewrite <-Hd. apply Hb.
  - split; [|done]. eapply mirror_other; [done|]. intros k _. by rewrite Hd.
  - split; [|done]. eapply mirror_other; [done|]. intros k _. by rewrite Hd.
  - eapply candidate_mirror_other; [done|]. intros k _. by rewrite Hd.
  - by rewrite <-Hd.
Qed.

Lemma setCalculatingBH_again bh ctx : ctx_mirror ctx -> Calculating (info (DB ctx)) = bh ->
  exists d, update_DB (setCalculatingBH bh) ctx = set_ctx_management d ctx /\ same_db (ctx_management ctx) d.
Proof.
  intros Hm Hc. exists (bucket_Set PrefixManagement dbi_ID (dbi_Bytes (info (DB ctx))) (ctx_management ctx)). split.
  - unfold setCalculatingBH, update_DB, set_ctx_management.
    assert (set_info (set_Calculating bh (info (DB ctx))) (DB ctx) = DB ctx) as ->; [|done].
    subst bh. by destruct ctx as [[[]]].
  - symmetry. apply bucket_Set_id. exact (ctx_info _ Hm).
Qed.

(** Made again, they add the P-Rep lists in memory and nothing else. *)
Lemma prepared_again bh rev gvList prepList iissDB ctx : begun bh gvList prepList iissDB ctx ->
  exists d, same_db (ctx_management ctx) d /\
    prepared bh rev gvList prepList iissDB (update_DB (setCalculatingBH bh) ctx) =
    set_ctx_management d (set_PRep (ctx_PRep ctx ++ prepList) (set_Revision rev ctx)).
Proof.
  intros [Hm Hc Hx [Hga Hgk] Hpk [[l Hl] Hpn] [Htx Hcs]].
  destruct (setCalculatingBH_again bh ctx Hm Hc) as (d1 & -> & S1).
  pose proof (ctx_mirror_same_db ctx d1 Hm S1) as Hm1. unfold prepared.
  assert (update_DB (begin_calculation bh) (set_ctx_management d1 ctx) = set_ctx_management d1 ctx) as ->.
  { unfold update_DB. rewrite begin_again; [by destruct ctx|]. apply (exchanged_files bh (DB ctx)); [done| |done|done].
    destruct (ex_ok _ _ Hx) as [A B C]. by split. }
  rewrite UpdateGovernanceVariable_absorbed by done.
  set (c1 := set_Revision rev (set_ctx_management d1 ctx)).
  assert (Hc1 : ctx_mirror c1) by by apply set_Revision_mirror.
  destruct (UpdatePRep_again prepList c1 Hc1) as (d2 & -> & S2); [done|done| |].
  { intros p Hp. change (ctx_PRep c1) with (ctx_PRep ctx). rewrite Hl. apply elem_of_app. by right. }
  set (c2 := set_PRep _ _).
  destruct (UpdatePRepCandidate_again iissDB c2) as (d3 & -> & S3); [|done|done|].
  { eapply candidate_mirror_other; [apply (ctx_candidates _ Hc1)|]. intros k _. symmetry. apply S2. }
  exists d3. split; [|by destruct ctx]. etransitivity; [exact S1|]. etransitivity; [exact S2|]. exact S3.
Qed.

Lemma begin_heights bh ctx : heights_kept ctx (update_DB (begin_calculation bh) ctx).
Proof.
  etransitivity; [apply (toggle_heights (bh +u 1))|]. exact (reset_heights bh (update_DB (toggleAccountDB (bh +u 1)) ctx)).
Qed.

(** What each update leaves alone. *)
Lemma UpdateGovernanceVariable_other gvList ctx : let c := UpdateGovernanceVariable gvList ctx in
  ctx_PRep c = ctx_PRep ctx /\ ctx_PRepCandidates c = ctx_PRepCandidates ctx /\ info (DB c) = info (DB ctx).
Proof. unfold UpdateGovernanceVariable. destruct (add_gv _ _ _). by destruct (drop_old _ _ _ _ _ _). Qed.

Lemma UpdatePRep_other prepList ctx : let c := UpdatePRep prepList ctx in
  GV c = GV ctx /\ ctx_PRepCandidates c = ctx_PRepCandidates ctx /\ info (DB c) = info (DB ctx).
Proof. unfold UpdatePRep. destruct (add_prep _ _ _). by destruct (drop_old _ _ _ _ _ _). Qed.

Lemma UpdatePRepCandidate_other iissDB ctx : let c := UpdatePRepCandidate iissDB ctx in
  GV c = GV ctx /\ ctx_PRep c = ctx_PRep ctx /\ info (DB c) = info (DB ctx).
Proof. unfold UpdatePRepCandidate. by destruct (candidate_loop _ _ _ _). Qed.

(** The first time. *)
Lemma prepared_begun bh rev gvList prepList iissDB ctx : calc_ready ctx ->
  Forall (fun g => is_u64 (ig_BlockHeight g)) gvList -> preps_ok prepList ->
  heights_sorted pr_BlockHeight (ctx_PRep ctx ++ prepList) -> txs_ok (iter_prefix PrefixIISSTX iissDB) ->
  Forall (fun p => PrevCalcDone (info (DB ctx)) < pr_BlockHeight p) prepList ->
  registered_first (ctx_PRepCandidates ctx) (iiss_txs iissDB) ->
  only_backups (files (DB ctx)) (CalcDone (info (DB ctx))) -> CalcDone (info (DB ctx)) <> bh ->
  ToggleBH (info (DB ctx)) <> bh +u 1 -> Calculating (info (DB ctx)) = bh ->
  begun bh gvList prepList iissDB (prepared bh rev gvList prepList iissDB ctx).
Proof.
  intros Hr Hg Hp Hsort Htx Hnew Hreg Hold Hne Ht Hcalc.
  destruct (prepared_ready bh rev gvList prepList iissDB ctx Hr Hg Hp Hsort Htx) as [[Hm Hs] _].
  pose proof (prepared_DB bh rev gvList prepList iissDB ctx) as Edb. unfold prepared in *.
  set (c1 := set_Revision rev (update_DB (begin_calculation bh) ctx)) in *.
  assert (Hm1 : ctx_mirror c1) by by apply set_Revision_mirror, begin_mirror, cr_mirror.
  destruct (begin_heights bh ctx : heights_kept ctx c1) as (K1 & K2 & K3 & _).
  destruct (UpdateGovernanceVariable_steps c1 gvList Hm1 Hg) as (Hm2 & _ & _).
  destruct (UpdateGovernanceVariable_absorbs gvList c1 Hm1 Hg) as [Ga Gk].
  destruct (UpdateGovernanceVariable_other gvList c1) as (P2 & C2 & I2).
  set (c2 := UpdateGovernanceVariable gvList c1) in *.
  change (ctx_PRep c1) with (ctx_PRep ctx) in P2. change (ctx_PRepCandidates c1) with (ctx_PRepCandidates ctx) in C2.
  assert (Hnew2 : Forall (fun p => getPrevCalcDoneBH (DB c2) < pr_BlockHeight p) prepList).
  { unfold getPrevCalcDoneBH. by rewrite I2, K2. }
  destruct (UpdatePRep_keeps_new prepList c2 Hm2) as [Pk Pl]; [by rewrite P2|done|done|].
  destruct (UpdatePRep_steps c2 prepList Hm2) as (Hm3 & _ & _); [by rewrite P2|done|].
  destruct (UpdatePRep_other prepList c2) as (G3 & C3 & I3). set (c3 := UpdatePRep prepList c2) in *. pose proof (txs_ok_iiss _ Htx) as Htx'.
  destruct (UpdatePRepCandidate_mirror c3 iissDB Hm3 Htx') as [_ C4].
  destruct (UpdatePRepCandidate_other iissDB c3) as (G4 & P4 & I4). set (c4 := UpdatePRepCandidate iissDB c3) in *.
  assert (I : info (DB c4) = info (DB c1)) by congruence.
  split.
  - done.
  - by rewrite I, K3.
  - apply (exchanged_files bh (begin_calculation bh (DB ctx))); [|apply Hs|by rewrite Edb|by rewrite Edb].
    apply begin_exchanged; [apply (cr_accounts _ Hr)|pose proof (ai_count _ (cr_accounts _ Hr)); lia|done..].
  - unfold getPrevCalcDoneBH in *. rewrite G4, G3, I. done.
  - unfold getPrevCalcDoneBH in *. by rewrite P4, I, <-I2.
  - unfold getPrevCalcDoneBH in *. rewrite P4, I, <-I2. done.
  - split; [done|]. rewrite C4, C3, C2. by apply candidate_steps_again.
Qed.

(** ** The calculation, stopped and run through *)

(** What is done after the updates. *)
Definition after_updates {E : Type} (env : calc_env) (quit : nat) (acks : list (Z * CalculateResponse))
    (iissDB : D) (bh : Z) ctx : outcome E (calc_result D) :=
  let! (idb, statsList, hashes) :=
    calc_account_dbs shake256 (GV ctx) (ctx_PRepCandidates ctx) env bh 0 (getQueryDBList (DB ctx))
      (getCalcDBList (DB ctx)) (DB ctx) [] [] in
  let ctx := set_DB idb ctx in
  let ctx := set_Cancel (cancel_during env (ctx_Cancel ctx)) ctx in
  if negb (quit =? channel (ctx_Cancel ctx))%nat then
    let code := cancelCode (ctx_Cancel ctx) in
    let err := if code =? CancelExit then Some (CalcCancelByExit bh)
               else if code =? CancelRollback then Some (CalcCancelByRollbackError bh)
               else None in
    Ok (mkCalcResult (set_Cancel (mkCancel (channel (ctx_Cancel ctx)) CancelNone) ctx) acks err bh None None)
  else
    finish_calculation shake256 map_order iissDB bh ctx (foldl add_account_stats zero_Statistics statsList)
      hashes acks.

Lemma run_calculation_updates {E : Type} env quit conn id ctx iissDB bh header gvList prepList :
  run_calculation (E := E) shake256 map_order env quit conn id ctx iissDB bh header gvList prepList =
  after_updates env quit (sendCalculateACK conn id CalcRespStatusOK bh) iissDB bh
    (prepared bh (ih_Revision header) gvList prepList iissDB ctx).
Proof. done. Qed.

(** A calculation that was cancelled leaves the stores of a pass that may have
    stopped early. *)
Lemma after_updates_exit {E : Type} env quit acks iissDB bh ctx r e : bh <> 0 -> is_u64 bh -> calc_ready ctx ->
  after_updates (E := E) env quit acks iissDB bh ctx = Ok r -> res_err r = Some e ->
  res_BlockHeight r = bh /\
  exists s1 c, res_ctx r = set_Cancel c (set_DB s1 ctx) /\
    partly_passed (GV ctx) (ctx_PRepCandidates ctx) bh (DB ctx) s1.
Proof.
  intros Hb0 Hb [Hm Hs]. unfold after_updates.
  destruct (partial_pass (E := E) shake256 (GV ctx) (ctx_PRepCandidates ctx) env bh (DB ctx) Hb0 Hb Hs)
    as (s1 & st & hs & -> & Hp). cbn [obind].
  match goal with |- context [negb ?b] => destruct (negb b) end.
  - intros [= <-] _. split; [done|]. eexists s1, _. by split.
  - intros Hf He. apply finish_done in Hf as (st' & h & E1 & _). rewrite E1 in He. done.
Qed.

(** A calculation on the stores of one that stopped, after the updates were
    made again, is one that ran through. *)
Lemma after_updates_resumed {E : Type} env quit quit2 acks acks2 iissDB bh ctx ctx2 s1 d :
  bh <> 0 -> is_u64 bh -> calc_ready ctx -> uninterrupted env -> (forall c, cancel_during env c = c) ->
  txs_ok (iter_prefix PrefixIISSTX iissDB) -> bps_ok (iter_prefix PrefixIISSBPInfo iissDB) ->
  quit = channel (ctx_Cancel ctx) -> quit2 = channel (ctx_Cancel ctx2) ->
  partly_passed (GV ctx) (ctx_PRepCandidates ctx) bh (DB ctx) s1 -> same_db (management s1) d ->
  DB ctx2 = set_management d s1 -> GV ctx2 = GV ctx -> ctx_PRepCandidates ctx2 = ctx_PRepCandidates ctx ->
  Revision ctx2 = Revision ctx -> last_doubled (ctx_PRep ctx) (ctx_PRep ctx2) ->
  exists r r2, after_updates (E := E) env quit acks iissDB bh ctx = Ok r /\
    after_updates (E := E) env quit2 acks2 iissDB bh ctx2 = Ok r2 /\
    same_result (ctx_PRep ctx) (ctx_PRep ctx2) r r2.
Proof.
  intros Hb0 Hb [Hm Hs] Hq Hc Htx Hbp -> -> Hp Hd Edb Eg Ec Ev Hpr.
  destruct (resumed_pass (E := E) shake256 (GV ctx) (ctx_PRepCandidates ctx) env bh (DB ctx) s1 d Hq Hb0 Hb Hs Hp Hd)
    as (t & t2 & st & hs & E1 & E2 & Hst & Ft & It).
  unfold after_updates. rewrite Edb, Eg, Ec, E1, E2. cbn [obind ctx_Cancel set_DB]. rewrite !Hc.
  cbn [ctx_Cancel set_Cancel]. rewrite !Nat.eqb_refl. cbn [negb].
  set (cA := set_Cancel _ (set_DB t ctx)). set (cB := set_Cancel _ (set_DB t2 ctx2)).
  assert (Hm' : ctx_mirror (set_DB t ctx)) by (eapply ctx_mirror_accounts; [exact Hm|by apply accounts_only_set]).
  destruct (finish_total (E := E) shake256 map_order map_order_perm iissDB bh cA (foldl add_account_stats zero_Statistics st) hs acks)
    as (r & st' & Er & _); [split; [by apply set_Cancel_mirror|done]|done..|].
  destruct (outcome_rel_ok _ _ _ r (finish_calculation_same (E := E) shake256 map_order iissDB bh cA cB
    (foldl add_account_stats zero_Statistics st) hs acks acks2 ltac:(by split) Hpr) Er) as (r2 & Er2 & Hr).
  exists r, r2. by split_and!.
Qed.

(** ** Requests that are accepted *)

Definition request_height ctx (header : IISSHeader) : Z :=
  if ih_BlockHeight header =? 0 then getCalcDoneBH (DB ctx) +u 1 else ih_BlockHeight header.

Definition accepted ctx (req : CalculateRequest) (id : Z) (header : IISSHeader) : Prop :=
  (isReloadRequest (req_BlockHeight req) id = true \/ isCalculating (DB ctx) = false) /\
  CalcDone (info (DB ctx)) < request_height ctx header.

Lemma DoCalculate_accepted {E : Type} env quit ctx req iissDB conn id header gvList prepList :
  LoadIISSData iissDB = Some (header, gvList, prepList) -> accepted ctx req id header ->
  let bh := request_height ctx header in
  DoCalculate (E := E) shake256 map_order env quit ctx req iissDB conn id =
  after_updates env quit (sendCalculateACK conn id CalcRespStatusOK bh) iissDB bh
    (prepared bh (ih_Revision header) gvList prepList iissDB (update_DB (setCalculatingBH bh) ctx)).
Proof.
  intros Hl [Hc Hh] bh. unfold DoCalculate. rewrite Hl. fold (request_height ctx header). fold bh.
  assert (negb (isReloadRequest (req_BlockHeight req) id) && isCalculating (DB ctx) = false) as ->.
  { destruct Hc as [-> | ->]; [done|apply andb_false_r]. }
  change (getCalcDoneBH (DB (update_DB (setCalculatingBH bh) ctx))) with (CalcDone (info (DB ctx))).
  rewrite (proj2 (Z.eqb_neq _ _)), (proj2 (Z.ltb_ge _ _)) by lia. apply run_calculation_updates.
Qed.

Lemma DoCalculate_not_refused {E : Type} env quit ctx req iissDB conn id header gvList prepList r :
  LoadIISSData iissDB = Some (header, gvList, prepList) ->
  DoCalculate (E := E) shake256 map_order env quit ctx req iissDB conn id = Ok r ->
  (forall e, res_err r = Some e -> ~ refused e) -> accepted ctx req id header.
Proof.
  intros Hl. unfold DoCalculate, accepted. rewrite Hl. fold (request_height ctx header).
  set (bh := request_height ctx header).
  change (getCalcDoneBH (DB (update_DB (setCalculatingBH bh) ctx))) with (CalcDone (info (DB ctx))).
  destruct (negb _ && _) eqn:Hb; [intros [= <-] Hno; destruct (Hno ErrCalculating eq_refl); by left|].
  destruct (Z.eqb_spec bh (CalcDone (info (DB ctx)))); [intros [= <-] Hno; destruct (Hno ErrDuplicateBH eq_refl); by do 2 right; left|].
  destruct (Z.ltb_spec bh (CalcDone (info (DB ctx)))); [intros [= <-] Hno; destruct (Hno ErrTooLowBH eq_refl); by do 3 right|].
  intros _ _. split; [|lia]. apply andb_false_iff in Hb as [Hb|Hb]; [left; by apply negb_false_iff|by right].
Qed.

(** ** The restart *)

Lemma restart_mirror {E : Type} ctx dbCount : ctx_mirror ctx -> accounts_ok (DB ctx) ->
  restart (E := E) ctx dbCount =
  Ok (mkContext (DB ctx) 0 (ctx_PRep ctx) (ctx_PRepCandidates ctx) (GV ctx) None NewCancel).
Proof. intros Hm Hs. unfold restart. rewrite NewContext_mirror by done. by rewrite OpenAccountDB_reopen. Qed.

(** The context a new process has after a calculation was cancelled. *)
Definition restarted s1 ctx : Context D :=
  mkContext s1 0 (ctx_PRep ctx) (ctx_PRepCandidates ctx) (GV ctx) None NewCancel.

Lemma begun_restarted bh gvList prepList iissDB ctx s1 : begun bh gvList prepList iissDB ctx ->
  partly_passed (GV ctx) (ctx_PRepCandidates ctx) bh (DB ctx) s1 ->
  begun bh gvList prepList iissDB (restarted s1 ctx).
Proof.
  intros [Hm Hc Hx Hg Hp Hl Ht] [Hf Hs Ho _]. destruct (files_only_info _ _ Hf) as (Hi & _ & _).
  assert (Hm' : ctx_mirror (set_DB s1 ctx)) by (eapply ctx_mirror_accounts; [exact Hm|by apply accounts_only_set]).
  split; unfold getPrevCalcDoneBH in *; cbn [DB restarted GV ctx_PRep ctx_PRepCandidates]; rewrite ?Hi;
    [by destruct Hm'|done| |done..].
  apply (exchanged_files bh (DB ctx)); [done|apply Hs|done|]. intros b i. by apply Ho.
Qed.

Lemma prepared_other bh rev gvList prepList iissDB ctx : let c := prepared bh rev gvList prepList iissDB ctx in
  Revision c = rev /\ ctx_Cancel c = ctx_Cancel ctx /\ CalcDone (info (DB c)) = CalcDone (info (DB ctx)).
Proof.
  cbv zeta. split_and!; [..|rewrite prepared_DB; exact (proj1 (begin_heights bh ctx))];
    unfold prepared, UpdatePRepCandidate, UpdatePRep, UpdateGovernanceVariable;
    destruct (add_gv _ _ _); destruct (drop_old _ _ _ _ _ _); destruct (add_prep _ _ _);
    destruct (drop_old _ _ _ _ _ _); by destruct (candidate_loop _ _ _ _).
Qed.

(** The reload of a new process makes the updates again and runs the passes
    on what the old one left. *)
Lemma reload_restarted {E : Type} env header gvList prepList iissDB open_iiss ctx s1 :
  LoadIISSData iissDB = Some (header, gvList, prepList) ->
  let bh := Calculating (info s1) in
  begun bh gvList prepList iissDB (restarted s1 ctx) -> request_height (restarted s1 ctx) header = bh ->
  CalcDone (info s1) < bh -> open_iiss bh = iissDB ->
  exists d, same_db (management s1) d /\
    let ctx2 := set_ctx_management d (set_PRep (ctx_PRep ctx ++ prepList) (set_Revision (ih_Revision header) (restarted s1 ctx))) in
    reloadIISSData (E := E) shake256 map_order env (restarted s1 ctx) open_iiss =
    (let! r := after_updates env 0 [] iissDB bh ctx2 in Ok (res_ctx r)).
Proof.
  intros Hl bh Hbg Hrq Hlt Hopen. destruct (prepared_again bh (ih_Revision header) gvList prepList iissDB _ Hbg) as (d & Hd & Ep).
  exists d. split; [done|]. cbv zeta. unfold reloadIISSData, needIISSDataReload.
  change (getCalcDoneBH (DB (restarted s1 ctx))) with (CalcDone (info s1)).
  change (getCalculatingBH (DB (restarted s1 ctx))) with bh. rewrite (proj2 (Z.eqb_neq _ _)) by lia. cbn [negb].
  rewrite Hopen, (DoCalculate_accepted (E := E) env _ _ _ iissDB false reloadMsgID header gvList prepList) by
    (first [done|split; [by left|rewrite Hrq; exact Hlt]]).
  rewrite Hrq, Ep. done.
Qed.

(** What a calculation and the start of the process after its cancellation
    rely on: well-formed state and IISS data, at most one P-Rep list in it,
    candidates registered before they are unregistered, and no backups but
    those of the last calculation. *)
Record resumable ctx (iissDB : D) (prepList : list PRep) (bh : Z) : Prop := {
  rs_ready : calc_ready ctx;
  rs_iiss : iiss_ok ctx iissDB;
  rs_one : (length prepList <= 1)%nat;
  rs_new : Forall (fun p => PrevCalcDone (info (DB ctx)) < pr_BlockHeight p) prepList;
  rs_registered : registered_first (ctx_PRepCandidates ctx) (iiss_txs iissDB);
  rs_backups : only_backups (files (DB ctx)) (CalcDone (info (DB ctx)));
  rs_toggle : ToggleBH (info (DB ctx)) <> bh +u 1;
}.

(** The state a process reaches that was stopped while it calculated, started
    again and left to reload, and the state of one that was not stopped. *)
Definition same_state (prepList : list PRep) ctx ctx2 : Prop :=
  same_calc ctx ctx2 /\ ctx_stats ctx2 = ctx_stats ctx /\ ctx_PRep ctx2 = ctx_PRep ctx ++ prepList.

(** The updates of an accepted request, and that it is what follows them. *)
Lemma accepted_updates {E : Type} ctx req iissDB id header gvList prepList bh :
  LoadIISSData iissDB = Some (header, gvList, prepList) -> resumable ctx iissDB prepList bh ->
  accepted ctx req id header -> request_height ctx header = bh ->
  exists ctx1, calc_ready ctx1 /\ begun bh gvList prepList iissDB ctx1 /\ is_u64 bh /\ bh <> 0 /\
    Revision ctx1 = ih_Revision header /\ ctx_Cancel ctx1 = ctx_Cancel ctx /\
    CalcDone (info (DB ctx1)) = CalcDone (info (DB ctx)) /\
    forall env quit conn, DoCalculate (E := E) shake256 map_order env quit ctx req iissDB conn id =
      after_updates env quit (sendCalculateACK conn id CalcRespStatusOK bh) iissDB bh ctx1.
Proof.
  intros Hl [Hr Hi Hone Hnew Hreg Hbk Ht] Hacc Ebh. pose proof Hacc as [_ Hgt].
  destruct (ctx_heights _ (cr_mirror _ Hr)) as (_ & _ & Hd).
  destruct (io_load _ _ Hi _ _ _ Hl) as (Hh & Hg & Hp & Hsort).
  assert (Hb : is_u64 bh) by (rewrite <-Ebh; unfold request_height; destruct (_ =? _); [apply u64_range|done]).
  rewrite Ebh in Hgt. pose proof (calculating_ready bh ctx Hr Hb) as Hr1.
  pose proof (fun env quit conn => DoCalculate_accepted (E := E) env quit ctx req iissDB conn id header gvList prepList Hl Hacc) as Hrun.
  cbv zeta in Hrun. rewrite Ebh in Hrun. set (c1 := update_DB (setCalculatingBH bh) ctx) in *.
  destruct (prepared_ready bh (ih_Revision header) gvList prepList iissDB c1 Hr1 Hg Hp Hsort (io_txs _ _ Hi)) as [Hr4 _].
  destruct (prepared_other bh (ih_Revision header) gvList prepList iissDB c1) as (Ev & Ecan & Edn).
  exists (prepared bh (ih_Revision header) gvList prepList iissDB c1). split_and!; try done; [|zlia].
  apply prepared_begun; try done; [by destruct Hi|].
  change (CalcDone (info (DB c1))) with (CalcDone (info (DB ctx))). lia.
Qed.

(** C8: a calculation that is cancelled because the process exits, wherever
    the passes over the accounts stopped, is completed by the next start: the
    accounts, the heights, the stored result and everything else in memory
    and stores are those of a calculation of the same request that was not
    cancelled; only the last P-Rep list is in memory twice. *)
Theorem InitManager_resumes {E : Type} env env' ctx req iissDB conn id r1 bh header gvList prepList open_iiss dbCount :
  LoadIISSData iissDB = Some (header, gvList, prepList) -> resumable ctx iissDB prepList bh ->
  uninterrupted env -> (forall c, cancel_during env c = c) ->
  DoCalculate (E := E) shake256 map_order env' (channel (ctx_Cancel ctx)) ctx req iissDB conn id = Ok r1 ->
  res_err r1 = Some (CalcCancelByExit bh) -> request_height ctx header = bh -> open_iiss bh = iissDB ->
  exists r0 ctx2,
    DoCalculate (E := E) shake256 map_order env (channel (ctx_Cancel ctx)) ctx req iissDB conn id = Ok r0 /\
    res_err r0 = None /\
    InitManager (E := E) shake256 map_order env (res_ctx r1) dbCount open_iiss = Ok ctx2 /\
    same_state prepList (res_ctx r0) ctx2.
Proof.
  intros Hl Hres Hq Hc Hrun He Hbh Hopen. pose proof (rs_iiss _ _ _ _ Hres) as Hi.
  assert (Hacc : accepted ctx req id header).
  { eapply DoCalculate_not_refused; [done..|]. rewrite He. intros ? [= <-] [|[|[|]]]; done. }
  destruct (accepted_updates (E := E) ctx req iissDB id header gvList prepList bh Hl Hres Hacc Hbh)
    as (c4 & Hr4 & Hbg & Hb & Hb0 & Ev & Ecan & Edn & Hdo).
  rewrite Hdo in Hrun |- *. destruct Hacc as [_ Hgt]. rewrite Hbh in Hgt.
  destruct (after_updates_exit (E := E) _ _ _ _ _ _ _ _ Hb0 Hb Hr4 Hrun He) as (_ & s1 & c & Ectx & Hpp).
  pose proof (begun_restarted _ _ _ _ _ _ Hbg Hpp) as Hbg1. pose proof (bg_calculating _ _ _ _ _ Hbg1) as Ecalc.
  cbn [DB restarted] in Ecalc.
  destruct (files_only_info _ _ (pp_files _ _ _ _ _ Hpp)) as (Ei & _ & _).
  unfold InitManager. rewrite restart_mirror.
  - cbn [obind]. rewrite Ectx. change (mkContext _ _ _ _ _ _ _) with (restarted s1 c4).
    destruct (reload_restarted (E := E) env header gvList prepList iissDB open_iiss c4 s1 Hl) as (d & Hd2 & ->);
      rewrite ?Ecalc; [done| |rewrite Ei, Edn; exact Hgt|done|].
    { unfold request_height, getCalcDoneBH. cbn [DB restarted]. by rewrite Ei, Edn. }
    destruct (bg_lists _ _ _ _ _ Hbg) as [[l Hlist] _].
    match goal with |- context [after_updates env 0 [] iissDB bh ?c2] =>
      destruct (after_updates_resumed (E := E) env (channel (ctx_Cancel ctx)) 0 (sendCalculateACK conn id CalcRespStatusOK bh) []
        iissDB bh c4 c2 s1 d Hb0 Hb Hr4 Hq Hc (io_txs _ _ Hi) (io_bps _ _ Hi)) as (r0 & r2 & -> & -> & [S1 [S2 S2'] [S3 _] _ [S4 _]]) end;
      [by rewrite Ecan|done|done|done|done|done|done|done| |].
    { cbn [ctx_PRep set_ctx_management update_DB set_DB set_PRep]. pose proof (rs_one _ _ _ _ Hres) as Hone. rewrite Hlist.
      destruct prepList as [|p [|]]; [left; by rewrite !app_nil_r|right; exists l, p; by rewrite <-app_assoc|cbn in Hone; lia]. }
    exists r0, (res_ctx r2). split_and!; [done|done|done|]. split_and!; [done|done|]. by rewrite S2', S2.
  - rewrite Ectx. eapply set_Cancel_mirror, ctx_mirror_accounts; [apply (cr_mirror _ Hr4)|].
    apply accounts_only_set, (pp_files _ _ _ _ _ Hpp).
  - rewrite Ectx. apply (pp_inv _ _ _ _ _ Hpp).
Qed.
End Resume.
