(* ===== verification/Ipc.v ===== *)
(** * Connections ([common/ipc/connection.go], [common/ipc/server.go])

    A message is a number, an id and its data, which is encoded a second time
    inside the message and read as raw bytes.  A connection is a byte stream in each
    direction; the server's loop reads messages from it until one fails.
    [Framing] is what [codec.MP] does at the two message types. *)

From S2P Require Import Prelude Bytes HexInt Codec Dispatch.

(** ** Messages on a stream *)

(** [messageToSend] and [messageToReceive]; the id is an [uint32]. *)
Record message := mkMessage { m_Msg : Z; m_Id : Z; m_Data : bytes }.

Definition is_u32 (z : Z) : Prop := 0 <= z < 2 ^ 32.
Definition u32 (z : Z) : Z := z mod 2 ^ 32.
#[global] Instance is_u32_dec z : Decision (is_u32 z).
Proof. unfold is_u32. apply _. Defined.

Lemma u32_range z : is_u32 (u32 z).
Proof. unfold is_u32, u32. apply Z.mod_pos_bound. lia. Qed.
#[export] Hint Resolve u32_range : rc.

(** [frame] writes a message, [unframe] reads one and leaves the rest of the
    stream; it has no result when the stream ends before the message does.
    [valid_data] holds of the encodings of values, [nil_data] is that of nil. *)
Class Framing := {
  frame : message -> bytes;
  unframe : bytes -> option (message * bytes);
  valid_data : bytes -> Prop;
  nil_data : bytes;
}.

Definition wf_message `{Framing} (m : message) : Prop :=
  is_u64 (m_Msg m) /\ is_u32 (m_Id m) /\ valid_data (m_Data m).

(** A message is read back, whatever follows it, and reading takes something
    from the stream. *)
Class FramingLaws `{Framing} : Prop := {
  unframe_frame m rest : wf_message m -> unframe (frame m ++ rest) = Some (m, rest);
  unframe_shorter bs m rest : unframe bs = Some (m, rest) -> (length rest < length bs)%nat;
  valid_nil : valid_data nil_data;
}.

Section Streams.
Context `{Framing}.

Definition frames (ms : list message) : bytes := concat (map frame ms).

Lemma frames_cons m ms : frames (m :: ms) = frame m ++ frames ms.
Proof. done. Qed.
Lemma frames_app ms ms' : frames (ms ++ ms') = frames ms ++ frames ms'.
Proof. unfold frames. by rewrite map_app, concat_app. Qed.

(** ** [connection.go] *)

(** The fields of a Go variable that was not written: [Receive] returns the
    number and id of the message even when its data cannot be decoded. *)
Definition connection_Receive {A} `{!Codec A} (buffer : A) (stream : bytes) : bytes * (Z * Z * A * bool) :=
  match unframe stream with
  | None => (stream, (0, 0, buffer, false))
  | Some (m, rest) =>
      let '(buffer, ok) := unmarshal (m_Data m) buffer in (rest, (m_Msg m, m_Id m, buffer, ok))
  end.

Section Loop.
(** What the message handler does: the state, what it sends, and whether it
    returned no error; [Panic] ends the process. *)
Context {S : Type} (mh_HandleMessage : S -> message -> outcome Empty_set (S * list message * bool)).

(** [connection.HandleMessage] with a message read; one without a handler is
    dropped. *)
Definition handle_read (c : handlers) (s : S) (m : message) : outcome Empty_set (S * list message * bool) :=
  if bool_decide (m_Msg m ∈ c) then mh_HandleMessage s m else Ok (s, [], true).

(** The loop of [handleConnection] on the bytes that have arrived: the state,
    the bytes sent, the bytes left and whether the connection is open.  Each
    round reads something, so that the number of bytes bounds the rounds. *)
Fixpoint connection_loop (fuel : nat) (c : handlers) (s : S) (stream : bytes)
    : outcome Empty_set (S * bytes * bytes * bool) :=
  match fuel with
  | O => Ok (s, [], stream, true)
  | Datatypes.S fuel =>
      match unframe stream with
      | None => Ok (s, [], stream, true)
      | Some (m, rest) =>
          let! (s, sent, ok) := handle_read c s m in
          if ok : bool then
            let! (s, out, rest, open) := connection_loop fuel c s rest in Ok (s, frames sent ++ out, rest, open)
          else Ok (s, frames sent, rest, false)
      end
  end.

(** Handling a list of messages in order. *)
Fixpoint handle_all (c : handlers) (s : S) (ms : list message) : outcome Empty_set (S * list message * bool) :=
  match ms with
  | [] => Ok (s, [], true)
  | m :: ms =>
      let! (s, sent, ok) := handle_read c s m in
      if ok : bool then let! (s, out, ok) := handle_all c s ms in Ok (s, sent ++ out, ok) else Ok (s, sent, false)
  end.

Context `{!FramingLaws}.

(** The loop handles the messages of a stream one by one, in their order, and
    leaves the start of a message that is not complete. *)
Lemma connection_loop_spec c s ms rest s' sent :
  Forall wf_message ms -> unframe rest = None ->
  handle_all c s ms = Ok (s', sent, true) ->
  forall fuel, (length (frames ms ++ rest) <= fuel)%nat ->
  connection_loop fuel c s (frames ms ++ rest) = Ok (s', frames sent, rest, true).
Proof.
  intros Hms Hrest. revert s s' sent. induction Hms as [|m ms Hm _ IH]; intros s s' sent Hall fuel Hf.
  - injection Hall as <- <-. destruct fuel; cbn; [done|]. by rewrite Hrest.
  - cbn [handle_all] in Hall. apply obind_ok in Hall as ([[s1 sent1] ok] & H1 & Hall).
    destruct ok; [|done]. apply obind_ok in Hall as ([[s2 sent2] ok2] & H2 & Hall). injection Hall as <- <- ->.
    rewrite frames_cons, <-app_assoc in *. pose proof (unframe_frame m (frames ms ++ rest) Hm) as Hu.
    pose proof (unframe_shorter _ _ _ Hu) as Hlt. destruct fuel as [|fuel]; [lia|].
    cbn [connection_loop]. rewrite Hu. rewrite H1. cbn [obind].
    rewrite (IH _ _ _ H2 fuel) by lia. cbn [obind]. by rewrite frames_app.
Qed.
End Loop.
End Streams.

(** ** The other end of a connection

    [peer_feed p bs]: the peer receives bytes and sends some back. *)
Class Peer (P : Type) := peer_feed : P -> bytes -> P * bytes.

(** A server's side of a connection: the state behind it, the bytes received
    and not read, the handlers, and whether the loop still runs. *)
Record endpoint (S : Type) := mkEndpoint { ep_state : S; ep_unread : bytes; ep_handlers : handlers; ep_open : bool }.
Arguments mkEndpoint {S}. Arguments ep_state {S}. Arguments ep_unread {S}. Arguments ep_handlers {S}. Arguments ep_open {S}.

Section Endpoint.
Context `{Framing} {S : Type} (mh_HandleMessage : S -> message -> outcome Empty_set (S * list message * bool)).

(** [server.handleConnection] on more bytes; a panic takes the process down. *)
Definition handleConnection (e : endpoint S) (bs : bytes) : endpoint S * bytes :=
  if ep_open e then
    let stream := ep_unread e ++ bs in
    match connection_loop mh_HandleMessage (length stream) (ep_handlers e) (ep_state e) stream with
    | Ok (s, out, rest, open) => (mkEndpoint s rest (ep_handlers e) open, out)
    | _ => (mkEndpoint (ep_state e) [] (ep_handlers e) false, [])
    end
  else (e, []).

Definition endpoint_peer : Peer (endpoint S) := handleConnection.
End Endpoint.
