(* ===== verification/Server.v ===== *)
(** * The server: whole message handlers ([core/msg.go], [core/msg_claim.go],
    [core/msg_calculate.go], [core/msg_rollback.go], [core/msg_debug.go])

    A handler counts itself, decodes the data of its message, does the work and
    sends the response under the number and id of the request.  A request that
    does not decode leaves the handler without a response and without taking
    its count back.  The handlers run one after the other here; the work itself
    is in [Messages], [DoCalculate] and [MsgDebug]. *)

From Stdlib Require Strings.String.
From S2P Require Import Prelude Bytes HexInt Address Store Codec Typed Account ClaimDB Management IISSData IScoreDB Context Reward CalcDebug MsgDebug Calculate DoCalculate Messages Dispatch Ipc.
Import String.StringSyntax.

(** ** The types on the wire *)

Record QueryCalculateStatusResponse := mkQueryStatus { qs_Status : Z; qs_BlockHeight : Z }.

(** The encodings of requests and responses, [uint64] among them. *)
Class ProtocolCodecs := {
  codec_uint64 :: Codec Z;
  codec_ResponseVersion :: Codec ResponseVersion;
  codec_ClaimMessage :: Codec ClaimMessage;
  codec_ResponseClaim :: Codec ResponseClaim;
  codec_Query :: Codec Query;
  codec_ResponseQuery :: Codec ResponseQuery;
  codec_CalculateRequest :: Codec CalculateRequest;
  codec_CalculateResponse :: Codec CalculateResponse;
  codec_CalculateDone :: Codec CalculateDone;
  codec_StartBlock :: Codec StartBlock;
  codec_CommitBlock :: Codec CommitBlock;
  codec_CommitClaim :: Codec CommitClaim;
  codec_QueryStatus :: Codec QueryCalculateStatusResponse;
  codec_QueryResult :: Codec QueryCalculateResultResponse;
  codec_RollBackRequest :: Codec RollBackRequest;
  codec_RollBackResponse :: Codec RollBackResponse;
  codec_ResponseInit :: Codec ResponseInit;
  codec_DebugMessage :: Codec DebugMessage;
  codec_debug_response :: Codec debug_response;
}.

Definition zero_ClaimMessage : ClaimMessage := mkClaimMessage zero_Address 0 [] 0 [].
Definition zero_Query : Query := mkQuery zero_Address 0 [] [].
Definition zero_CalculateRequest : CalculateRequest := mkCalculateRequest [] 0 [].
Definition zero_StartBlock : StartBlock := mkStartBlock 0 None.
Definition zero_CommitBlock : CommitBlock := mkCommitBlock false 0 None.
Definition zero_CommitClaim : CommitClaim := mkCommitClaim false zero_Address 0 [] 0 [].
Definition zero_RollBackRequest : RollBackRequest := mkRollBackRequest 0 [].

(** ** The manager *)

(** The context with its debug output and the store of that, the wait group,
    and the directories of IISS data that were removed. *)
Record manager (D : Type) := mkManager {
  mg_ctx : Context D;
  mg_dbg : CalcDebug;
  mg_debugDB : D;
  mg_waitGroup : Z;
  mg_removed : list bytes;
}.
Arguments mkManager {D}. Arguments mg_ctx {D}. Arguments mg_dbg {D}. Arguments mg_debugDB {D}.
Arguments mg_waitGroup {D}. Arguments mg_removed {D}.

Section Manager.
Context {D : Type}.
Definition set_ctx (ctx : Context D) (m : manager D) : manager D :=
  mkManager ctx (mg_dbg m) (mg_debugDB m) (mg_waitGroup m) (mg_removed m).
Definition set_dbg (dbg : CalcDebug) (m : manager D) : manager D :=
  mkManager (mg_ctx m) dbg (mg_debugDB m) (mg_waitGroup m) (mg_removed m).
Definition add_removed (l : list bytes) (m : manager D) : manager D :=
  mkManager (mg_ctx m) (mg_dbg m) (mg_debugDB m) (mg_waitGroup m) (mg_removed m ++ l).
Definition mgr_AddMsgTask (m : manager D) : manager D :=
  mkManager (mg_ctx m) (mg_dbg m) (mg_debugDB m) (mg_waitGroup m + 1) (mg_removed m).
Definition mgr_DoneMsgTask (m : manager D) : manager D :=
  mkManager (mg_ctx m) (mg_dbg m) (mg_debugDB m) (mg_waitGroup m - 1) (mg_removed m).
End Manager.

(** ** Handlers *)

(** What a calculation finds around it: the other goroutines, the store at a
    path, and the directory a path is in with its last element. *)
Record calc_world (D : Type) := mkWorld {
  w_env : calc_env;
  w_open : bytes -> D;
  w_dir : bytes -> list (bytes * bool) * bytes;
}.
Arguments mkWorld {D}. Arguments w_env {D}. Arguments w_open {D}. Arguments w_dir {D}.

Section Handlers.
Context {D : Type} `{!LevelDB D}.
Context `{!Codec ClaimData, !Codec ClaimBackupInfo, !Codec PreCommitData}.
Context `{!Codec IScoreData, !Codec IISSTXData, !Codec IISSBlockProduceInfoData, !Codec CRData,
  !Codec DBInfoData, !Codec GVData, !Codec PRepData, !Codec PRepCandidateData,
  !Codec IISSHeader, !Codec IISSGVData, !Codec CalcDebugData, !ProtocolCodecs, !Framing}.
Context (shake256 : bytes -> bytes) (map_order : gmap bytes Z -> list (bytes * Z))
  (candidate_order : PRepCandidates -> list (Address * PRepCandidate)) (world : calc_world D).

(** The manager afterwards and what was sent. *)
Definition handled : Type := outcome Empty_set (manager D * list message).

Definition Send {A} `{!Codec A} (msg id : Z) (data : A) : list message := [mkMessage msg id (marshal data)].

(** The common frame: the count, and the request. *)
Definition with_request {A} `{!Codec A} (zero : A) (data : bytes) (m : manager D)
    (work : A -> manager D -> handled) : handled :=
  let m := mgr_AddMsgTask m in
  match unmarshal_new zero data with
  | None => Ok (m, [])
  | Some req => let! (m, sent) := work req m in Ok (mgr_DoneMsgTask m, sent)
  end.

Definition mh_version (id : Z) (m : manager D) : handled :=
  Ok (mgr_DoneMsgTask (mgr_AddMsgTask m), Send MsgVersion id (version (mg_ctx m))).

Definition mh_query (id : Z) (data : bytes) (m : manager D) : handled :=
  with_request zero_Query data m (fun req m =>
    let! resp := DoQuery (mg_ctx m) req in Ok (m, Send MsgQuery id resp)).

Definition mh_init (id : Z) (data : bytes) (m : manager D) : handled :=
  with_request 0 data m (fun blockHeight m =>
    let '(ctx, resp) := handle_init (mg_ctx m) blockHeight in Ok (set_ctx ctx m, Send MsgINIT id resp)).

Definition mh_claim (id : Z) (data : bytes) (m : manager D) : handled :=
  with_request zero_ClaimMessage data m (fun req m =>
    let! (ctx, resp) := handle_claim (mg_ctx m) req in Ok (set_ctx ctx m, Send MsgClaim id resp)).

(** The acknowledgement has no data. *)
Definition mh_commitClaim (id : Z) (data : bytes) (m : manager D) : handled :=
  with_request zero_CommitClaim data m (fun req m =>
    Ok (set_ctx (DoCommitClaim (mg_ctx m) req) m, [mkMessage MsgCommitClaim id nil_data])).

Definition mh_startBlock (id : Z) (data : bytes) (m : manager D) : handled :=
  with_request zero_StartBlock data m (fun req m =>
    let '(ctx, resp) := startBlock (mg_ctx m) req in Ok (set_ctx ctx m, Send MsgStartBlock id resp)).

Definition mh_commitBlock (id : Z) (data : bytes) (m : manager D) : handled :=
  with_request zero_CommitBlock data m (fun req m =>
    let! (ctx, resp) := commitBlock (mg_ctx m) req in Ok (set_ctx ctx m, Send MsgCommitBlock id resp)).

(** [rollback] runs in the loop of the connection: its error ends the loop. *)
Definition mh_rollback (id : Z) (data : bytes) (m : manager D) : handled :=
  with_request zero_RollBackRequest data m (fun req m =>
    let! (ctx, resp) := rollback (mg_ctx m) req in Ok (set_ctx ctx m, Send MsgRollBack id resp)).

(** The acknowledgements of [DoCalculate], then CALCULATE_DONE under id 0. *)
Definition mh_calculate (id : Z) (data : bytes) (m : manager D) : handled :=
  with_request zero_CalculateRequest data m (fun req m =>
    let '(dir, name) := w_dir world (req_Path req) in
    let! (r, done, removed) :=
      calculate shake256 map_order (w_env world) (mg_ctx m) req (w_open world (req_Path req)) id dir name in
    Ok (add_removed removed (set_ctx (res_ctx r) m),
        concat (map (fun ack => Send MsgCalculate ack.1 ack.2) (res_acks r)) ++ Send MsgCalculateDone 0 done)).

Definition mh_queryCalculateStatus (id : Z) (m : manager D) : handled :=
  let '(status, blockHeight) := DoQueryCalculateStatus (mg_ctx m) in
  Ok (mgr_DoneMsgTask (mgr_AddMsgTask m), Send MsgQueryCalculateStatus id (mkQueryStatus status blockHeight)).

Definition mh_queryCalculateResult (id : Z) (data : bytes) (m : manager D) : handled :=
  with_request 0 data m (fun blockHeight m =>
    let! resp := DoQueryCalculateResult (mg_ctx m) blockHeight in Ok (m, Send MsgQueryCalculateResult id resp)).

(** An error of a command leaves after [DoneMsgTask], unless its request does
    not decode. *)
Definition mh_debug (id : Z) (data : bytes) (m : manager D) : handled :=
  with_request zero_DebugMessage data m (fun req m =>
    match run_debug candidate_order (mg_ctx m) (mg_debugDB m) req (mg_dbg m) with
    | Ok (dbg, resp) =>
        Ok (set_dbg dbg m, match resp with Some r => Send MsgDebug id r | None => [] end)
    | Err _ => Ok (m, [])
    | Panic => Panic
    end).

Definition run_handler (h : handler) (id : Z) (data : bytes) (m : manager D) : handled :=
  match h with
  | H_version => mh_version id m
  | H_claim => mh_claim id data m
  | H_query => mh_query id data m
  | H_calculate => mh_calculate id data m
  | H_startBlock => mh_startBlock id data m
  | H_commitBlock => mh_commitBlock id data m
  | H_debug => mh_debug id data m
  | H_commitClaim => mh_commitClaim id data m
  | H_queryCalculateStatus => mh_queryCalculateStatus id m
  | H_queryCalculateResult => mh_queryCalculateResult id data m
  | H_rollback => mh_rollback id data m
  | H_init => mh_init id data m
  end.

(** [msgHandler.HandleMessage]: the errors of a handler in a goroutine are
    lost; a ROLLBACK that does not decode and an unknown message are errors. *)
Definition mh_HandleMessage (m : manager D) (msg : message) : outcome Empty_set (manager D * list message * bool) :=
  match HandleMessage (m_Msg msg) with
  | None => Ok (m, [], false)
  | Some (Go h) => let! (m, sent) := run_handler h (m_Id msg) (m_Data msg) m in Ok (m, sent, true)
  | Some (Call h) =>
      let! (m, sent) := run_handler h (m_Id msg) (m_Data msg) m in
      Ok (m, sent, bool_decide (is_Some (unmarshal_new zero_RollBackRequest (m_Data msg))))
  end.

(** [newConnection]: the handlers, and READY. *)
Definition accept (monitorMode : bool) (m : manager D) : endpoint (manager D) * bytes :=
  (mkEndpoint m [] (newConnection monitorMode) true,
   frames (Send MsgReady 0 (version (mg_ctx m)))).

(** ** Replies *)

(** Whether the data of a message decodes as its handler's request. *)
Definition decodes {A} `{!Codec A} (zero : A) (data : bytes) : bool := bool_decide (is_Some (unmarshal_new zero data)).
Definition readable (h : handler) (data : bytes) : bool :=
  match h with
  | H_version | H_queryCalculateStatus => true
  | H_claim => decodes zero_ClaimMessage data
  | H_query => decodes zero_Query data
  | H_calculate => decodes zero_CalculateRequest data
  | H_startBlock => decodes zero_StartBlock data
  | H_commitBlock => decodes zero_CommitBlock data
  | H_debug => decodes zero_DebugMessage data
  | H_commitClaim => decodes zero_CommitClaim data
  | H_queryCalculateResult | H_init => decodes 0 data
  | H_rollback => decodes zero_RollBackRequest data
  end.

(** The numbers and ids of the replies to a message that decodes. *)
Definition reply_heads (h : handler) (msg id : Z) (heads : list (Z * Z)) : Prop :=
  match h with
  | H_calculate => heads = [(msg, id); (MsgCalculateDone, 0)]
  | H_debug => heads = [(msg, id)] \/ heads = []
  | _ => heads = [(msg, id)]
  end.

(** The message a handler is for. *)
Definition msg_of (h : handler) : Z :=
  match h with
  | H_version => MsgVersion | H_claim => MsgClaim | H_query => MsgQuery | H_calculate => MsgCalculate
  | H_startBlock => MsgStartBlock | H_commitBlock => MsgCommitBlock | H_debug => MsgDebug
  | H_commitClaim => MsgCommitClaim | H_queryCalculateStatus => MsgQueryCalculateStatus
  | H_queryCalculateResult => MsgQueryCalculateResult | H_rollback => MsgRollBack | H_init => MsgINIT
  end.

Lemma HandleMessage_cases msg a : HandleMessage msg = Some a ->
  msg = msg_of (handler_of a) /\ a = if bool_decide (handler_of a = H_rollback) then Call (handler_of a) else Go (handler_of a).
Proof. unfold HandleMessage. repeat case_match; intros [= <-]; by bool_to_Z. Qed.

Lemma HandleMessage_msg msg a : HandleMessage msg = Some a -> msg = msg_of (handler_of a).
Proof. by intros [? _]%HandleMessage_cases. Qed.
Lemma HandleMessage_go msg : HandleMessage msg <> Some (Go H_rollback).
Proof. by intros [_ ?]%HandleMessage_cases. Qed.
Lemma HandleMessage_call msg h : HandleMessage msg = Some (Call h) -> h = H_rollback.
Proof. intros [_ Hc]%HandleMessage_cases. cbn in Hc. by case_bool_decide. Qed.

Definition head_of (r : message) : Z * Z := (m_Msg r, m_Id r).

Lemma DoCalculate_ack {E} env quit ctx req iissDB id (r : calc_result D) :
  DoCalculate (E := E) shake256 map_order env quit ctx req iissDB true id = Ok r ->
  exists resp, res_acks r = [(id, resp)].
Proof.
  unfold DoCalculate, refuse, sendCalculateACK. case_match; [by intros [= <-]; eexists|].
  destruct (LoadIISSData iissDB) as [[[header gvs] preps]|]; [|by intros [= <-]; eexists].
  set (bh := if ih_BlockHeight header =? 0 then _ else _).
  destruct (bh =? _); [by intros [= <-]; eexists|]. destruct (bh <? _); [by intros [= <-]; eexists|].
  unfold run_calculation. intros ([[s l] h] & _ & Hr)%obind_ok. revert Hr. case_match; [by intros [= <-]; eexists|].
  unfold finish_calculation. intros ([c1 [[n1 r1] h1]] & _ & Hr)%obind_ok.
  apply obind_ok in Hr as ([c2 [[n2 r2] h2]] & _ & Hr). apply obind_ok in Hr as ([c3 [[n3 r3] h3]] & _ & Hr).
  injection Hr as <-. by eexists.
Qed.

Lemma with_request_spec {A} `{!Codec A} (zero : A) data m work (P : list (Z * Z) -> Prop) r :
  (forall req m m' sent, work req m = Ok (m', sent) -> mg_waitGroup m' = mg_waitGroup m /\ P (map head_of sent)) ->
  with_request zero data m work = Ok r ->
  if decodes zero data then mg_waitGroup r.1 = mg_waitGroup m /\ P (map head_of r.2)
  else r = (mgr_AddMsgTask m, []).
Proof.
  intros Hw. unfold with_request, decodes. destruct (unmarshal_new zero data) as [req|].
  - rewrite bool_decide_eq_true_2 by done. intros ([m' sent] & H1 & [= <-])%obind_ok.
    apply Hw in H1 as [H1 H2]. cbn in *. split; [lia|done].
  - rewrite bool_decide_eq_false_2 by (by intros []). by intros [= <-].
Qed.

Lemma mh_calculate_work id req m m' sent :
  (let '(dir, name) := w_dir world (req_Path req) in
   let! (r, done, removed) :=
     calculate (E := Empty_set) shake256 map_order (w_env world) (mg_ctx m) req (w_open world (req_Path req)) id dir name in
   Ok (add_removed removed (set_ctx (res_ctx r) m),
       concat (map (fun ack => Send MsgCalculate ack.1 ack.2) (res_acks r)) ++ Send MsgCalculateDone 0 done))
    = Ok (m', sent) ->
  mg_waitGroup m' = mg_waitGroup m /\ reply_heads H_calculate MsgCalculate id (map head_of sent).
Proof.
  destruct (w_dir world (req_Path req)) as [dir name]. unfold calculate.
  intros ([[r d] l] & (r' & Hr & [= -> <- <-])%obind_ok & [= <- <-])%obind_ok. split; [done|].
  apply DoCalculate_ack in Hr as [resp ->]. done.
Qed.

Lemma run_handler_replies h id data m r :
  run_handler h id data m = Ok r ->
  if readable h data then mg_waitGroup r.1 = mg_waitGroup m /\ reply_heads h (msg_of h) id (map head_of r.2)
  else r = (mgr_AddMsgTask m, []).
Proof.
  destruct h; intros Hr; cbn [readable].
  - injection Hr as <-. cbn. split; [lia|done].
  - revert Hr. apply with_request_spec. intros req m1 m2 sent.
    intros ([ctx resp] & _ & [= <- <-])%obind_ok. done.
  - revert Hr. apply with_request_spec. intros req m1 m2 sent.
    intros (resp & _ & [= <- <-])%obind_ok. done.
  - revert Hr. apply with_request_spec. intros req m1 m2 sent. apply mh_calculate_work.
  - revert Hr. by apply with_request_spec; intros req m1 m2 sent [= <- <-].
  - revert Hr. apply with_request_spec. intros req m1 m2 sent.
    intros ([ctx resp] & _ & [= <- <-])%obind_ok. done.
  - revert Hr. apply with_request_spec. intros req m1 m2 sent.
    destruct (run_debug _ _ _ _ _) as [[dbg [resp|]]| |]; [..|done]; intros [= <- <-]; cbn; (split; [done|]); auto.
  - revert Hr. by apply with_request_spec; intros req m1 m2 sent [= <- <-].
  - cbn [run_handler] in Hr. unfold mh_queryCalculateStatus in Hr.
    destruct (DoQueryCalculateStatus (mg_ctx m)) as [st bh]. injection Hr as <-. cbn. split; [lia|done].
  - revert Hr. apply with_request_spec. intros req m1 m2 sent.
    intros (resp & _ & [= <- <-])%obind_ok. done.
  - revert Hr. apply with_request_spec. intros req m1 m2 sent.
    intros ([ctx resp] & _ & [= <- <-])%obind_ok. done.
  - revert Hr. apply with_request_spec. intros req m1 m2 sent.
    destruct (handle_init (mg_ctx m1) req) as [ctx resp]. by intros [= <- <-].
Qed.


End Handlers.
