(* ===== verification/ClaimTypes.v ===== *)
(** * Well-typed claim stores

    What the claim DB and its backup must look like for [core/db_claim.go] to
    run without a panic, whatever the heights of the blocks that are committed
    and rolled back: every value decodes.  Committing a block and rolling back
    return, and keep it so. *)

From S2P Require Import Prelude Bytes HexInt Address Store Codec ClaimDB ClaimJournal.

Section ClaimTypes.
Context {D : Type} `{!LevelDB D, !LevelDBLaws D}.
Context `{!Codec ClaimData, !CodecLaws ClaimData, !Codec ClaimBackupInfo, !CodecLaws ClaimBackupInfo,
  !Codec PreCommitData, !CodecLaws PreCommitData}.
Implicit Type (cDB cbDB pcDB : D) (h : Z).

Definition typed_claim (v : bytes) : Prop := exists cd : ClaimData, wf cd /\ v = marshal cd.

Definition claims_typed cDB : Prop := forall k v, ldb_get cDB k = Some v -> typed_claim v.

(** Heights of which sums with the backup period do not wrap. *)
Definition is_height h : Prop := 0 <= h < 2 ^ 63.

Definition typed_backup (k v : bytes) : Prop :=
  (k = PrefixManagement /\ exists i, wf i /\ v = marshal i /\ is_height (FirstBlockHeight i)) \/
  (exists h a, is_u64 h /\ wf_Address a /\ k = be64 h ++ a /\ typed_claim v).

Definition journal_typed cbDB : Prop := forall k v, ldb_get cbDB k = Some v -> typed_backup k v.

Lemma is_height_u64 h : is_height h -> is_u64 h.
Proof. unfold is_height, is_u64. lia. Qed.

Lemma journal_typed_subset cbDB cbDB' : journal_typed cbDB ->
  (forall k v, ldb_get cbDB' k = Some v -> ldb_get cbDB k = Some v) -> journal_typed cbDB'.
Proof. intros Hj Hs k v Hk. by apply Hj, Hs. Qed.

Lemma claims_typed_set cDB k v : claims_typed cDB -> typed_claim v -> claims_typed (bucket_Set PrefixIScore k v cDB).
Proof. intros Hc Hv k' v'. rewrite bucket_get_set. case_decide; [by intros [= <-]|apply Hc]. Qed.

Lemma journal_typed_set cbDB h a v : journal_typed cbDB -> is_u64 h -> wf_Address a -> typed_claim v ->
  journal_typed (bucket_Set PrefixIScore (be64 h ++ a) v cbDB).
Proof.
  intros Hj Hh Ha Hv k' v'. rewrite bucket_get_set. case_decide as Ek; [|apply Hj]. intros [= <-]. subst k'.
  right. by exists h, a.
Qed.

(** ** Committing a block *)

Lemma write_one_typed h pc cDB cbDB : wf (pc_Data pc) -> claims_typed cDB -> journal_typed cbDB ->
  exists cDB' cbDB', write_one h pc cDB cbDB = Ok (cDB', cbDB') /\ claims_typed cDB' /\ journal_typed cbDB'.
Proof.
  intros (_ & Ha & Hw) Hc Hj. unfold write_one.
  set (c := pc_Claim (pc_Data pc)) in *. case_match; [by exists cDB, cbDB|].
  assert (Hwrite : forall c', c_Address c' = c_Address c -> wf (c_Data c') -> forall v, typed_claim v ->
    claims_typed (bucket_Set PrefixIScore (c_ID c') (c_Bytes c') cDB) /\
    journal_typed (bucket_Set PrefixIScore (c_BackupID c' (h -u 1)) v cbDB)).
  { intros c' Ec Hc' v Hv. split; [apply claims_typed_set; [done|by exists (c_Data c')]|].
    rewrite c_BackupID_app by (rewrite ?Ec; done || apply u64_range).
    apply journal_typed_set; [done|apply u64_range|by rewrite Ec|done]. }
  assert (Hzero : typed_claim (c_Bytes zero_Claim)) by (exists zero_ClaimData; split; [apply wf_zero_ClaimData|done]).
  destruct (bucket_Get PrefixIScore cDB (c_ID c)) as [bs|] eqn:Hg.
  - pose proof (Hc _ _ (eq_trans (eq_sym (bucket_Get_ldb _ _ _)) Hg)) as Hbs. destruct Hbs as (cd & Hcd & ->).
    rewrite NewClaimFromBytes_marshal by done. cbn [c_Data]. case_match; [by exists cDB, cbDB|].
    set (c' := mkClaim _ _). change (c_ID c') with (c_ID c). rewrite Hg. eexists _, _. split; [done|].
    apply (Hwrite c'); [done|exact Hw|by exists cd].
  - eexists _, _. split; [done|]. by apply (Hwrite c).
Qed.

Lemma write_loop_typed h pc l cDB cbDB : Forall (fun e => exists pc, pc_entry e.1 e.2 pc) l ->
  claims_typed cDB -> journal_typed cbDB ->
  exists cDB' cbDB', write_loop h pc l cDB cbDB = Ok (cDB', cbDB') /\ claims_typed cDB' /\ journal_typed cbDB'.
Proof.
  intros Hl. revert pc cDB cbDB. induction Hl as [|[k v] l (pc1 & Hwf & _ & Hv & _) _ IH]; intros pc cDB cbDB Hc Hj;
    cbn [write_loop]; [by exists cDB, cbDB|].
  destruct Hwf as (_ & _ & _ & Hwf). cbn [snd] in Hv. subst v. unfold pc_SetBytes, pc_Bytes.
  rewrite unmarshal_marshal by done. cbn [negb].
  destruct (write_one_typed h (pc_set_Data (pc_Data pc1) pc) cDB cbDB) as (cDB1 & cbDB1 & -> & Hc1 & Hj1); [done..|].
  by apply IH.
Qed.

(** Forgetting old backups: the last height collected is below the largest
    integer, where the loop would not end. *)
Lemma garbageCollect_typed {E} cbDB from to : journal_typed cbDB -> is_u64 from -> to < max_u64 ->
  exists cbDB', garbageCollectClaimBackupDB (E := E) cbDB from to = Ok cbDB' /\ journal_typed cbDB'.
Proof.
  intros Hj Hf Ht. unfold garbageCollectClaimBackupDB.
  destruct (gc_keys_spec (E := E) _ cbDB from to [] eq_refl Hf Ht) as (ks & -> & _). cbn [obind].
  eexists. split; [done|]. eapply journal_typed_subset; [done|]. intros k v.
  rewrite (fold_delete_get PrefixClaim ks cbDB k). by case_decide.
Qed.

Lemma writeClaimBackupInfo_typed cbDB h : journal_typed cbDB -> is_height h ->
  exists cbDB', writeClaimBackupInfo cbDB h = Ok cbDB' /\ journal_typed cbDB'.
Proof.
  intros Hj Hh. unfold writeClaimBackupInfo, cb_ID. rewrite bucket_Get_ldb, app_nil_r.
  assert (exists i, (match ldb_get cbDB PrefixManagement with
    | None => Ok zero_ClaimBackupInfo
    | Some bs => let '(cbInfo, ok) := cb_SetBytes bs zero_ClaimBackupInfo in
        if ok : bool then Ok cbInfo else Err (ErrUnmarshal, cbDB) end) = Ok i /\
    wf i /\ is_height (FirstBlockHeight i)) as (i & -> & (Hi1 & Hi2) & Hi3).
  { destruct (ldb_get cbDB PrefixManagement) as [bs|] eqn:Hg; [|by exists zero_ClaimBackupInfo].
    apply Hj in Hg as [(_ & i & Hw & -> & Hi)|(h' & a & _ & _ & E1 & _)].
    - exists i. unfold cb_SetBytes. by rewrite unmarshal_marshal.
    - by destruct (backup_key_not_mngt h' a). }
  cbn [obind]. set (first := if FirstBlockHeight i =? 0 then h else _).
  set (last := if LastBlockHeight i =? 0 then h else _).
  assert (Hfirst : is_height first) by (unfold first; by case_match).
  assert (Hlast : is_u64 last) by (unfold last; case_match; [by apply is_height_u64|done]).
  assert (exists cbDB1 first1, (if ClaimBackupPeriod +u first <? h then
      let! cbDB1 := garbageCollectClaimBackupDB cbDB first (h -u ClaimBackupPeriod -u 1) in
      Ok (cbDB1, if first <? h -u ClaimBackupPeriod -u 1 +u 1 then h -u ClaimBackupPeriod -u 1 +u 1 else first)
    else Ok (cbDB, first)) = Ok (E := claim_error * D) (cbDB1, first1) /\ journal_typed cbDB1 /\ is_height first1)
    as (cbDB1 & first1 & -> & Hj1 & Hf1).
  { unfold is_height, ClaimBackupPeriod in *. rewrite (u64_small (_ + first)) by zlia.
    destruct (Z.ltb_spec (43120 * 2 - 1 + first) h); [|by exists cbDB, first].
    rewrite (u64_small (h - _)), (u64_small (h - _ - 1)), (u64_small (_ + 1)) by zlia.
    destruct (garbageCollect_typed (E := claim_error * D) cbDB first (h - (43120 * 2 - 1) - 1)) as (cbDB1 & -> & Hj1); [done|zlia..|].
    eexists _, _. split; [done|]. split; [done|]. case_match; lia. }
  cbn [obind]. eexists. split; [done|]. intros k v. rewrite bucket_get_set, app_nil_r.
  case_decide as Ek; [|apply Hj1]. intros [= <-]. left. split; [done|]. eexists. split; [|by split].
  split; cbn; [by apply is_height_u64|]. case_match; [by apply is_height_u64|done].
Qed.

Lemma block_entries_typed pcDB prefix : pc_inv pcDB ->
  Forall (fun e => exists pc, pc_entry e.1 e.2 pc) (iter_New (Some prefix.1) prefix.2 pcDB).
Proof.
  intros Hpc. apply Forall_forall. intros [k v] Hin. apply Hpc.
  unfold iter_New in Hin. apply ldb_iter_elem in Hin. tauto.
Qed.

(** Whatever was committed or rolled back before, the block is written. *)
Lemma commit_typed pcDB cDB cbDB h hash : pc_inv pcDB -> claims_typed cDB -> journal_typed cbDB -> is_height h ->
  exists cDB' cbDB', writePreCommitToClaimDB pcDB cDB cbDB h hash = Ok (flushPreCommit pcDB h None, cDB', cbDB') /\
    claims_typed cDB' /\ journal_typed cbDB'.
Proof.
  intros Hpc Hc Hj Hh. unfold writePreCommitToClaimDB.
  destruct (write_loop_typed h zero_PreCommit _ cDB cbDB
    (block_entries_typed pcDB (MakeIteratorPrefix PrefixClaim h hash BlockHashSize) Hpc) Hc Hj) as (cDB' & cbDB' & -> & Hc' & Hj').
  destruct (writeClaimBackupInfo_typed cbDB' h Hj' Hh) as (cbDB2 & -> & Hj2). by exists cDB', cbDB2.
Qed.

(** ** Rolling back *)

Lemma rollback_one_typed l c cDB : Forall (fun e => typed_claim e.2) l -> claims_typed cDB ->
  claims_typed (fold_left rollback_one l (c, cDB)).2.
Proof.
  intros Hl. revert c cDB. induction Hl as [|[k v] l Hv _ IH]; intros c cDB Hc; cbn [fold_left]; [done|].
  apply IH. case_match; [|by apply claims_typed_set]. intros k' v'. rewrite bucket_get_delete. case_decide; [done|apply Hc].
Qed.

Lemma rollback_height_typed cbDB cDB h : is_u64 h -> journal_typed cbDB -> claims_typed cDB ->
  journal_typed (rollbackClaimDB_height cbDB cDB h).1 /\ claims_typed (rollbackClaimDB_height cbDB cDB h).2.
Proof.
  intros Hh Hj Hc. unfold rollbackClaimDB_height. cbn [fst snd]. split.
  - eapply journal_typed_subset; [done|]. intros k v. rewrite (fold_delete_get PrefixClaim _ cbDB k). by case_decide.
  - apply rollback_one_typed; [|done]. rewrite iter_New_height by done. apply Forall_forall. intros [k v] Hin.
    pose proof (iter_prefix_elem_1 _ _ _ _ Hin) as Hg. destruct (Hj _ _ Hg) as [(-> & i & _ & -> & _)|(? & ? & _ & _ & _ & ?)]; [|done].
    apply (iter_prefix_elem _ _ PrefixManagement) in Hin as [_ [r Hr]]; [|auto with rc|by apply (bool_decide_unpack _)].
    by destruct (backup_key_not_mngt h r).
Qed.

Lemma rollback_loop_typed {E} n i cbDB cDB to : n = Z.to_nat (i + 1 - to) -> 1 <= to -> is_u64 i ->
  journal_typed cbDB -> claims_typed cDB ->
  exists cbDB' cDB', rollback_loop (E := E) n cbDB cDB i to = Ok (cbDB', cDB') /\ journal_typed cbDB' /\ claims_typed cDB'.
Proof.
  intros Hn Hto. revert i cbDB cDB Hn. induction n as [|n IH]; intros i cbDB cDB Hn Hi Hj Hc; cbn [rollback_loop].
  - rewrite (proj2 (Z.leb_gt to i)) by lia. by exists cbDB, cDB.
  - rewrite (proj2 (Z.leb_le to i)) by lia. pose proof (rollback_height_typed cbDB cDB i Hi Hj Hc) as [H1 H2].
    destruct (rollbackClaimDB_height cbDB cDB i) as [cbDB1 cDB1]. rewrite u64_small by zlia.
    apply IH; [lia|zlia|done..].
Qed.

(** A rollback returns, refused or not.  Reading no bytes at all must leave
    the variable as it was. *)
Lemma rollback_typed cDB cbDB to : (unmarshal [] zero_ClaimBackupInfo).1 = zero_ClaimBackupInfo ->
  claims_typed cDB -> journal_typed cbDB -> 1 <= to -> is_u64 to ->
  match rollbackClaimDB_stores cDB cbDB to with
  | Ok (_, (cDB', cbDB')) => claims_typed cDB' /\ journal_typed cbDB'
  | Err _ => True
  | Panic => False
  end.
Proof.
  intros Hempty Hc Hj Hto Hu. unfold rollbackClaimDB_stores, cb_ID. rewrite bucket_Get_ldb, app_nil_r.
  set (cbInfo := (cb_SetBytes _ _).1).
  assert (wf cbInfo /\ is_height (FirstBlockHeight cbInfo)) as [[Hw1 Hw2] Hf].
  { unfold cbInfo, cb_SetBytes. destruct (ldb_get cbDB PrefixManagement) as [bs|] eqn:Hg; cbn [nonNilBytes default from_option id].
    - apply Hj in Hg as [(_ & i & Hw & -> & Hi)|(h' & a & _ & _ & E1 & _)]; [by rewrite unmarshal_marshal|].
      by destruct (backup_key_not_mngt h' a).
    - rewrite Hempty. done. }
  unfold checkClaimDBRollback. destruct (to <? _); [done|]. destruct (_ <=? to); cbn [obind negb]; [by split|].
  destruct (rollback_loop_typed (E := claim_error) _ (LastBlockHeight cbInfo) cbDB cDB to eq_refl)
    as (cbDB' & cDB' & -> & Hj' & Hc'); [done..|].
  cbn [obind]. split; [done|]. intros k v. rewrite bucket_get_set, app_nil_r.
  case_decide as Ek; [|apply Hj']. intros [= <-]. left. split; [done|]. eexists. split; [|by split].
  by split.
Qed.
End ClaimTypes.
