(* ===== verification/WellTyped.v ===== *)
(** * The server never panics

    A state is well-typed when memory and stores agree, every account is in its
    place, and every value in the stores decodes.  A message with well-formed data
    is handled without a panic from a well-typed state, and leaves a
    well-typed state, whatever messages came before. *)

From stdpp Require Import relations.
From S2P Require Import Prelude Bytes HexInt Address Store Codec Typed Account ClaimDB ClaimJournal Management IISSData IScoreDB Context Mirror Reward CalcDebug MsgDebug Calculate AccountDBs DoCalculate AccountPass CalcState CalcTotal Messages Dispatch ClaimLedger Rollback ClaimTypes Ipc Server.

(** ** Accounts after a rollback *)

Section Accounts.
Context {D : Type} `{!LevelDB D, !LevelDBLaws D}.
Context `{!Codec IScoreData, !CodecLaws IScoreData, !Codec DBInfoData}.
Implicit Type (s : IScoreDB D) (fs : gmap fname D) (a : Address).

(** The backups go to the DBs of their numbers, whatever they are. *)
Lemma rollback_backups_total count p l fs : NoDup l ->
  (forall f, f ∈ l -> exists b i, f = BackupName b i /\ is_Some (fs !! f)) ->
  exists fs', rollback_backups count p l fs = (fs', true) /\
    (forall j n q, is_Some (fs !! AccountName j n q) -> is_Some (fs' !! AccountName j n q)) /\
    (forall j n q d, fs' !! AccountName j n q = Some d -> fs !! AccountName j n q = Some d \/
       n = count /\ exists b, fs !! BackupName b j = Some d) /\
    (forall b j d, fs' !! BackupName b j = Some d -> fs !! BackupName b j = Some d).
Proof.
  intros Hnd. revert fs. induction Hnd as [|f l Hn Hnd IH]; intros fs Hl; cbn [rollback_backups]; [by exists fs; eauto|].
  destruct (Hl f) as (b & i & -> & d & Hd); [by left|].
  unfold Rename, RemoveAll. rewrite lookup_delete_ne, Hd by done.
  set (fs1 := <[AccountName i count p := d]> _).
  assert (Hb : forall b' j, BackupName b' j <> BackupName b i -> fs1 !! BackupName b' j = fs !! BackupName b' j).
  { intros b' j Hne. unfold fs1. by rewrite lookup_insert_ne, !lookup_delete_ne. }
  assert (Hb1 : fs1 !! BackupName b i = None) by (unfold fs1; by rewrite lookup_insert_ne, lookup_delete_eq).
  assert (Ha : forall j n q, fs1 !! AccountName j n q =
    if decide (AccountName i count p = AccountName j n q) then Some d else fs !! AccountName j n q).
  { intros j n q. unfold fs1. case_decide as E; [by rewrite <-E, lookup_insert_eq|].
    by rewrite lookup_insert_ne, !lookup_delete_ne. }
  destruct (IH fs1) as (fs' & -> & H1 & H2 & H3).
  { intros f Hf. destruct (Hl f) as (b' & j & -> & Hs); [by right|]. exists b', j. split; [done|].
    rewrite Hb; [done|]. intros E. by rewrite E in Hf. }
  exists fs'. split; [done|]. split_and!.
  - intros j n q Hs. apply H1. rewrite Ha. by case_decide.
  - intros j n q d' [Hd'|(-> & b' & Hd')]%H2.
    + rewrite Ha in Hd'. case_decide as E; [|by left]. injection E as <- <- <-. injection Hd' as <-. right. eauto.
    + destruct (decide (BackupName b' j = BackupName b i)) as [E|Hne]; [congruence|]. rewrite Hb in Hd' by done. eauto.
  - intros b' j d' Hd'%H3. destruct (decide (BackupName b' j = BackupName b i)) as [E|Hne]; [congruence|].
    by rewrite Hb in Hd'.
Qed.

Lemma rollback_inv h s : accounts_inv s ->
  exists s', rollbackAccountDB h s = (s', true) /\ accounts_inv s'.
Proof.
  intros [Hok Hn Hf Hp Hbk]. unfold rollbackAccountDB. cbn [info CloseAccountDB set_accounts files].
  destruct (rollback_backups_total (DBCount (info s)) (if QueryDBIsZero (info s) then 1 else 0) (Glob_backup None (files s)) (files s))
    as (fs' & -> & H1 & H2 & H3); [apply Glob_backup_NoDup| |].
  { intros f [Hm Hs]%Glob_backup_elem. destruct f as [|b i]; [done|]. by exists b, i. }
  cbn [negb]. eexists. split; [done|]. set (s1 := set_files fs' (CloseAccountDB s)).
  destruct (OpenAccountDB_spec s1) as (Hok1 & Ef & Ei).
  { intros i p Hi Hp'. apply H1. by apply (ao_files s Hok). }
  apply (accounts_inv_same (toggleAccountDB h (OpenAccountDB s1))); [|done..].
  apply toggle_inv. split; [done|by rewrite Ei|..]; rewrite Ef, ?Ei; cbn [files set_files s1 info CloseAccountDB set_accounts].
  - intros f d Hd. destruct f as [j n q|b j]; [|by eapply Hf, H3].
    apply H2 in Hd as [?|(_ & b & ?)]; by eapply Hf.
  - intros i p d k [Hd|(_ & b & Hd)]%H2 Hk; [by eapply Hp|by eapply Hbk].
  - intros b i d k Hd%H3. by eapply Hbk.
Qed.
End Accounts.

Section WellTyped.
Context {D : Type} `{!LevelDB D, !LevelDBLaws D}.
Context `{!Codec ClaimData, !CodecLaws ClaimData, !Codec ClaimBackupInfo, !CodecLaws ClaimBackupInfo,
  !Codec PreCommitData, !CodecLaws PreCommitData}.
Context `{!Codec IScoreData, !CodecLaws IScoreData, !Codec IISSTXData, !CodecLaws IISSTXData,
  !Codec IISSBlockProduceInfoData, !CodecLaws IISSBlockProduceInfoData, !Codec CRData, !CodecLaws CRData,
  !Codec DBInfoData, !CodecLaws DBInfoData, !Codec DBInfoDataV1, !Codec GVData, !CodecLaws GVData,
  !Codec PRepData, !CodecLaws PRepData, !Codec PRepCandidateData, !CodecLaws PRepCandidateData,
  !Codec IISSHeader, !Codec IISSGVData, !Codec CalcDebugData, !ProtocolCodecs, !Framing}.
Context (shake256 : bytes -> bytes) (map_order : gmap bytes Z -> list (bytes * Z)).
Hypothesis map_order_perm : forall m, map_order m ≡ₚ map_to_list m.
Context (candidate_order : PRepCandidates -> list (Address * PRepCandidate)) (world : calc_world D).
Implicit Type (ctx : Context D) (s : IScoreDB D) (m : manager D).

(** ** Well-typed states *)

Definition results_typed (d : D) : Prop := forall k v, ldb_get d k = Some v -> exists cr : CRData, wf cr /\ v = marshal cr.

Record well_typed ctx : Prop := {
  wt_ready : calc_ready ctx;
  wt_pc : pc_inv (preCommit (DB ctx));
  wt_claims : claims_typed (claim (DB ctx));
  wt_journal : journal_typed (claimBackup (DB ctx));
  wt_results : results_typed (calcResult (DB ctx));
}.

(** A step next to the claims: their stores stay, the results stay readable. *)
Definition keeps_stores s s' : Prop :=
  preCommit s' = preCommit s /\ claim s' = claim s /\ claimBackup s' = claimBackup s /\
  (results_typed (calcResult s) -> results_typed (calcResult s')).

#[local] Instance keeps_stores_refl : Reflexive keeps_stores.
Proof. by intros s. Qed.
#[local] Instance keeps_stores_trans : Transitive keeps_stores.
Proof. intros s1 s2 s3 (H1 & H2 & H3 & H4) (K1 & K2 & K3 & K4). split_and!; [congruence..|auto]. Qed.

Lemma keeps_stores_typed ctx ctx' : well_typed ctx -> calc_ready ctx' -> keeps_stores (DB ctx) (DB ctx') -> well_typed ctx'.
Proof. intros [_ H1 H2 H3 H4] Hr (E1 & E2 & E3 & K). split; rewrite ?E1, ?E2, ?E3; auto. Qed.

Lemma keeps_stores_files s s' : files_only s s' -> keeps_stores s s'.
Proof. intros ->. done. Qed.

Lemma keeps_stores_accounts ctx ctx' : accounts_only ctx ctx' -> keeps_stores (DB ctx) (DB ctx').
Proof. intros [_ Hq]. by apply keeps_stores_files. Qed.

Lemma keeps_stores_toggle h s : keeps_stores s (toggleAccountDB h s).
Proof. unfold toggleAccountDB. by destruct (_ =? h). Qed.

Lemma keeps_stores_reset bh old s : keeps_stores s (resetAccountDB bh old s).
Proof.
  unfold resetAccountDB. destruct (reset_loop _ _ _ _ _ _) as [fs []]; cbn [negb]; [|done]. by destruct (QueryDBIsZero _).
Qed.

Lemma keeps_stores_prepared bh rev gvList prepList iissDB ctx :
  keeps_stores (DB ctx) (DB (prepared bh rev gvList prepList iissDB ctx)).
Proof.
  rewrite prepared_DB. transitivity (begin_calculation bh (DB ctx)); [|done].
  etransitivity; [apply keeps_stores_toggle|apply keeps_stores_reset].
Qed.

Lemma keeps_stores_finish {E : Type} iiss bh ctx st hs acks r :
  finish_calculation (E := E) shake256 map_order iiss bh ctx st hs acks = Ok r -> keeps_stores (DB ctx) (DB (res_ctx r)).
Proof.
  unfold finish_calculation.
  intros ([c1 [[n1 t1] h1]] & H1%calculateIISSTX_files & Hq)%obind_ok.
  apply obind_ok in Hq as ([c2 [[n2 t2] h2]] & H2%calculateIISSBlockProduce_files & Hq).
  apply obind_ok in Hq as ([c3 [[n3 t3] h3]] & H3%calculatePRepReward_files & Hq).
  injection Hq as <-. cbn [res_ctx]. transitivity (DB c3).
  { do 2 (etransitivity; [apply keeps_stores_accounts; eassumption|]). by apply keeps_stores_accounts. }
  split_and!; [done..|]. intros Hr k v. cbn. unfold WriteCalculationResult. rewrite bucket_get_set.
  case_decide; [intros [= <-]; by eexists|apply Hr].
Qed.

Lemma keeps_stores_calculate {E : Type} env quit ctx req iissDB conn id r :
  DoCalculate (E := E) shake256 map_order env quit ctx req iissDB conn id = Ok r -> keeps_stores (DB ctx) (DB (res_ctx r)).
Proof.
  unfold DoCalculate. destruct (negb _ && _); [by intros [= <-]|].
  destruct (LoadIISSData iissDB) as [[[header gvList] prepList]|]; [|by intros [= <-]].
  set (bh := if ih_BlockHeight header =? 0 then _ else _).
  destruct (bh =? _); [by intros [= <-]|]. destruct (bh <? _); [by intros [= <-]|].
  set (c1 := update_DB (setCalculatingBH bh) ctx). unfold run_calculation.
  intros ([[s st] hs] & Hs%calc_account_dbs_files & Hq)%obind_ok.
  change (files_only (DB (prepared bh (ih_Revision header) gvList prepList iissDB c1)) s) in Hs.
  transitivity s.
  { transitivity (DB c1); [done|]. etransitivity; [apply keeps_stores_prepared|]. by apply keeps_stores_files. }
  destruct (negb _); [by injection Hq as <-|]. by apply keeps_stores_finish in Hq.
Qed.

(** ** Queries *)

Lemma account_readable_typed ctx a : well_typed ctx -> account_readable ctx a.
Proof.
  intros Hw f bs _ Hg. rewrite bucket_Get_ldb in Hg. pose proof (cr_accounts _ (wt_ready _ Hw)) as Hs.
  apply (db_at_inv _ f Hs) in Hg as (_ & x & [-> Hx]%account_value_good).
  by rewrite NewIScoreAccountFromBytes_marshal by apply Hx.
Qed.

Lemma findPreCommit_total (pcDB : D) a h hash : pc_inv pcDB ->
  findPreCommit pcDB a h hash <> Panic.
Proof.
  intros Hpc. unfold findPreCommit. rewrite bucket_Get_ldb.
  destruct (ldb_get pcDB _) as [v|] eqn:Hg; [|done]. apply Hpc in Hg as (pc & Hwf & Hk & -> & _).
  change (PrefixClaim ++ GenPreCommitKey a h hash) with (GenPreCommitKey a h hash) in Hk. rewrite Hk.
  unfold pc_SetBytes, pc_Bytes. rewrite unmarshal_marshal by apply Hwf. cbn [negb].
  destruct (pc_SetID_own (E := claim_error) pc (pc_set_Data (pc_Data pc) zero_PreCommit) Hwf) as (pc' & -> & _); [apply Hwf|done].
Qed.

Lemma DoQuery_total {E : Type} ctx req : well_typed ctx -> wf_Address (q_Address req) ->
  exists resp, DoQuery (E := E) ctx req = Ok resp.
Proof.
  intros Hw Ha. pose proof (cr_accounts _ (wt_ready _ Hw)) as Hs.
  pose proof (query_account (E := E) ctx (q_Address req) (ai_ok _ Hs) (ai_count _ Hs) Ha
    (account_readable_typed ctx (q_Address req) Hw)) as Hrest.
  unfold DoQuery.
  assert (exists pc, (if (length (q_TXHash req) =? 0)%nat then Ok None
      else match findPreCommit (preCommit (DB ctx)) (q_Address req) (q_BlockHeight req) (q_BlockHash req) with
           | Ok pc => Ok pc | Err _ => Ok None | Panic => Panic end) = Ok (E := E) pc) as [pc ->].
  { destruct (_ =? 0)%nat; [by eexists|].
    pose proof (findPreCommit_total _ (q_Address req) (q_BlockHeight req) (q_BlockHash req) (wt_pc _ Hw)).
    destruct (findPreCommit _ _ _ _); [by eexists..|done]. }
  cbn [obind]. cbv zeta. match goal with |- context [match ?x with Some _ => Ok _ | None => _ end] => destruct x; [by eexists|] end.
  cbv zeta in Hrest. rewrite Hrest. by eexists.
Qed.

Lemma DoQueryCalculateResult_total {E : Type} ctx h : well_typed ctx -> exists resp, DoQueryCalculateResult (E := E) ctx h = Ok resp.
Proof.
  intros Hw. unfold DoQueryCalculateResult. case_match; [by eexists|].
  destruct (bucket_Get _ _ _) as [v|] eqn:Hg; [|by eexists]. rewrite bucket_Get_ldb in Hg.
  apply (wt_results _ Hw) in Hg as (cr & Hcr & ->). unfold NewCalculationResultFromBytes. rewrite unmarshal_new_marshal by done.
  case_match; by eexists.
Qed.

(** ** Claims and blocks *)

Lemma well_typed_pc ctx pcDB : well_typed ctx -> pc_inv pcDB -> well_typed (update_DB (set_preCommit pcDB) ctx).
Proof.
  intros [[Hm Hs] H1 H2 H3 H4] Hpc. split; [split|done..].
  - apply (ctx_mirror_info ctx); [done|]. eapply info_saved_same; [by apply ctx_mirror_saved|done..].
  - by apply (accounts_inv_same (DB ctx)).
Qed.

Lemma DoClaim_total {E : Type} ctx req : well_typed ctx -> wf_ClaimMessage req ->
  exists ctx' r, DoClaim (E := E) ctx req = Ok (ctx', r) /\ well_typed ctx'.
Proof.
  intros Hw Hreq. pose proof (cr_accounts _ (wt_ready _ Hw)) as Hs.
  destruct (getQueryDB_ok (E := E) (DB ctx) (cm_Address req) (ai_ok _ Hs) (ai_count _ Hs)) as (f & Hf & _); [apply Hreq|].
  rewrite (DoClaim_answer ctx req f Hf). destruct (claim_answer ctx req) as [ctx' r] eqn:Ec. exists ctx', r. split; [done|].
  revert Ec. unfold claim_answer. destruct (pc_query _ _).2; [by intros [= <- _]|].
  destruct (account ctx _); [|by intros [= <- _]]. destruct (at_claim_height _ _); [by intros [= <- _]|].
  case_match; intros [= <- _]; [done|]. apply well_typed_pc; [done|].
  eapply pc_inv_set; [apply Hw|by apply claim_entry_ok].
Qed.

Lemma DoCommitClaim_typed ctx req : well_typed ctx -> wf_CommitClaim req -> well_typed (DoCommitClaim ctx req).
Proof.
  intros Hw (H1 & [H2 H3] & H4 & H5). unfold DoCommitClaim. set (pc := newPreCommit _ _ _ _ _).
  assert (Hpc : wf_PreCommit pc) by (by apply newPreCommit_wf).
  destruct (if cc_Success req then _ else _) as [pcDB| |] eqn:Ep; [|done..]. apply well_typed_pc; [done|].
  destruct (cc_Success req); [by eapply pc_inv_commit, Ep; [apply Hw|]|by eapply pc_inv_revert, Ep; [apply Hw|]].
Qed.

Lemma flush_typed ctx h hash : well_typed ctx ->
  well_typed (update_DB (set_preCommit (flushPreCommit (preCommit (DB ctx)) h hash)) ctx).
Proof. intros Hw. apply well_typed_pc; [done|]. apply pc_inv_deletePreCommit, Hw. Qed.

Lemma commitBlock_total {E : Type} ctx req : well_typed ctx -> is_height (cbk_BlockHeight req) ->
  exists ctx' resp, commitBlock (E := E) ctx req = Ok (ctx', resp) /\ well_typed ctx'.
Proof.
  intros Hw Hh. unfold commitBlock. destruct (cbk_Success req); [|eexists _, _; split; [done|by apply flush_typed]].
  destruct (commit_typed (preCommit (DB ctx)) (claim (DB ctx)) (claimBackup (DB ctx)) (cbk_BlockHeight req) (cbk_BlockHash req))
    as (cDB & cbDB & -> & Hc & Hj); [apply Hw..|done|].
  eexists _, _. split; [done|]. destruct Hw as [[Hm Hs] H1 _ _ H4]. split; [split|by apply pc_inv_deletePreCommit|done..].
  - apply ctx_mirror_info; [done|]. apply info_saved_current; [|by apply is_height_u64].
    eapply info_saved_same; [by apply ctx_mirror_saved|done..].
  - by apply (accounts_inv_same (DB ctx)).
Qed.

(** ** Rollback *)

Lemma well_typed_set ctx s : well_typed ctx -> info_saved (DB ctx) s -> accounts_inv s -> keeps_stores (DB ctx) s ->
  well_typed (set_DB s ctx).
Proof.
  intros Hw Hi Ha Hk. apply (keeps_stores_typed ctx); [done| |done]. split; [|done]. apply ctx_mirror_info; [apply Hw|done].
Qed.

Lemma rollback_claims_total ctx to hash : (unmarshal [] zero_ClaimBackupInfo).1 = zero_ClaimBackupInfo ->
  well_typed ctx -> 1 <= to -> is_u64 to ->
  match rollbackClaimDB ctx to hash with Ok ctx' => well_typed ctx' | Err _ => True | Panic => False end.
Proof.
  intros Hempty Hw Hto Hu. unfold rollbackClaimDB.
  pose proof (rollback_typed (claim (DB ctx)) (claimBackup (DB ctx)) to Hempty (wt_claims _ Hw) (wt_journal _ Hw) Hto Hu) as Hr.
  destruct (rollbackClaimDB_stores _ _ _) as [[undone [cDB cbDB]]| |]; cbn [obind]; [|done..]. destruct Hr as [Hc Hj].
  destruct Hw as [[Hm Hs] H1 _ _ H4].
  assert (Hsaved : info_saved (DB ctx) (set_claims cDB cbDB (DB ctx))) by (eapply info_saved_same; [by apply ctx_mirror_saved|done..]).
  split; [split|by destruct undone..].
  - apply ctx_mirror_info; [done|]. destruct undone; [|done]. unfold rollbackCurrentBlockInfo.
    by apply info_saved_writeToDB, info_saved_current.
  - by destruct undone; apply (accounts_inv_same (DB ctx)).
Qed.

Lemma keeps_stores_rollback h s : keeps_stores s (rollbackAccountDB h s).1.
Proof.
  unfold rollbackAccountDB. destruct (rollback_backups _ _ _ _) as [fs []]; cbn [negb fst]; [|done].
  set (s1 := OpenAccountDB _). transitivity (toggleAccountDB h s1); [transitivity s1; [done|apply keeps_stores_toggle]|].
  split_and!; [done..|]. intros Hr k v. cbn. unfold DeleteCalculationResult. rewrite bucket_get_delete. case_decide; [done|apply Hr].
Qed.

Lemma DoRollBack_total {E : Type} ctx req : (unmarshal [] zero_ClaimBackupInfo).1 = zero_ClaimBackupInfo ->
  well_typed ctx -> is_u64 (rb_BlockHeight req) ->
  exists ctx' ok, DoRollBack (E := E) ctx req = Ok (ctx', ok) /\ well_typed ctx'.
Proof.
  intros Hempty Hw Hu. unfold DoRollBack, checkRollback, getPrevCalcDoneBH.
  destruct (ctx_info_wf _ (cr_mirror _ (wt_ready _ Hw))) as (_ & _ & _ & _ & Hp & _).
  destruct (Z.leb_spec (rb_BlockHeight req) (PrevCalcDone (info (DB ctx)))) as [|Hlt]; [by eexists _, _|].
  set (ctx0 := set_Cancel _ ctx).
  assert (Hw0 : well_typed ctx0) by (destruct Hw as [[Hm Hs] ? ? ? ?]; split; [split; [by apply set_Cancel_mirror|done]|done..]).
  pose proof (rollback_claims_total ctx0 (rb_BlockHeight req) (rb_BlockHash req) Hempty Hw0 ltac:(zlia) Hu) as Hr.
  destruct (rollbackClaimDB ctx0 _ _) as [ctx1| |]; [|by eexists _, _|done].
  assert (exists ctx2, (if checkAccountDBRollback ctx1 (rb_BlockHeight req)
      then let '(s, ok) := rollbackAccountDB (rb_BlockHeight req) (DB ctx1) in (set_DB s ctx1, ok) else (ctx1, true)) = (ctx2, true) /\
    well_typed ctx2) as (ctx2 & -> & Hw2).
  { case_match; [|by exists ctx1].
    destruct (rollback_inv (rb_BlockHeight req) (DB ctx1) (cr_accounts _ (wt_ready _ Hr))) as (s' & Es & Hs').
    pose proof (rollbackAccountDB_saved (DB ctx1) (DB ctx1) (rb_BlockHeight req)
      (ctx_mirror_saved ctx1 (cr_mirror _ (wt_ready _ Hr))) Hu) as Hsv.
    pose proof (keeps_stores_rollback (rb_BlockHeight req) (DB ctx1)) as Hk. rewrite Es in *. cbn [fst] in *.
    eexists. split; [done|]. by apply well_typed_set. }
  cbn [negb]. eexists _, _. split; [done|].
  destruct (RollbackManagementDB_mirror ctx2 (rb_BlockHeight req) (cr_mirror _ (wt_ready _ Hw2))) as (Hm3 & _).
  assert (Ed : exists d, DB (RollbackManagementDB (rb_BlockHeight req) ctx2) = set_management d (DB ctx2)).
  { unfold RollbackManagementDB. destruct (rollback_records _ _ _ _ _ _ _). destruct (rollback_records _ _ _ _ _ _ _). by eexists. }
  destruct Ed as [d Ed]. apply (keeps_stores_typed ctx2); [done| |by rewrite Ed].
  split; [done|]. apply (accounts_inv_same (DB ctx2)); [apply Hw2|by rewrite Ed..].
Qed.

(** ** Messages *)

(** What the decoded request of a handler must satisfy: addresses and hashes
    have their sizes, heights fit, the IISS data of a calculation is well-formed. *)
Definition wf_request ctx (h : handler) (data : bytes) : Prop :=
  match h with
  | H_version | H_queryCalculateStatus | H_queryCalculateResult | H_startBlock | H_init => True
  | H_claim => forall req, unmarshal_new zero_ClaimMessage data = Some req -> wf_ClaimMessage req
  | H_query => forall req, unmarshal_new zero_Query data = Some req -> wf_Address (q_Address req)
  | H_calculate => forall req, unmarshal_new zero_CalculateRequest data = Some req -> iiss_ok ctx (w_open world (req_Path req))
  | H_commitBlock => forall req, unmarshal_new zero_CommitBlock data = Some req -> is_height (cbk_BlockHeight req)
  | H_commitClaim => forall req, unmarshal_new zero_CommitClaim data = Some req -> wf_CommitClaim req
  | H_rollback => forall req, unmarshal_new zero_RollBackRequest data = Some req -> is_u64 (rb_BlockHeight req)
  | H_debug => False
  end.

(** A message of a connection that is not in monitor mode. *)
Definition message_typed m (msg : message) : Prop :=
  forall a, HandleMessage (m_Msg msg) = Some a -> wf_request (mg_ctx m) (handler_of a) (m_Data msg).

Definition returns_typed (r : handled (D := D)) : Prop := exists m' sent, r = Ok (m', sent) /\ well_typed (mg_ctx m').

Lemma with_request_typed {A} `{!Codec A} (zero : A) data m work (P : A -> Prop) :
  well_typed (mg_ctx m) -> (forall req, unmarshal_new zero data = Some req -> P req) ->
  (forall req, P req -> returns_typed (work req (mgr_AddMsgTask m))) -> returns_typed (with_request zero data m work).
Proof.
  intros Hw Hp Hwork. unfold with_request. destruct (unmarshal_new zero data) as [req|]; [|by eexists _, _].
  destruct (Hwork req) as (m' & sent & -> & Hm'); [by apply Hp|]. by eexists _, _.
Qed.

Lemma mh_calculate_typed id data m : well_typed (mg_ctx m) -> wf_request (mg_ctx m) H_calculate data ->
  returns_typed (mh_calculate shake256 map_order world id data m).
Proof.
  intros Hw Hreq. eapply with_request_typed; [done|exact Hreq|]. intros req Hi. cbv beta.
  destruct (w_dir world (req_Path req)) as [dir name]. unfold calculate.
  destruct (DoCalculate_total shake256 map_order map_order_perm (E := Empty_set) (w_env world)
    (channel (ctx_Cancel (mg_ctx m))) (mg_ctx m) req (w_open world (req_Path req)) true id (wt_ready _ Hw) Hi) as (r & Er & Hr).
  cbn [mg_ctx mgr_AddMsgTask]. rewrite Er. cbn [obind]. eexists _, _. split; [done|]. cbn.
  eapply keeps_stores_typed; [exact Hw|done|]. by eapply keeps_stores_calculate.
Qed.

Lemma run_handler_typed h id data m : (unmarshal [] zero_ClaimBackupInfo).1 = zero_ClaimBackupInfo ->
  well_typed (mg_ctx m) -> wf_request (mg_ctx m) h data ->
  returns_typed (run_handler shake256 map_order candidate_order world h id data m).
Proof.
  intros Hempty Hw Hreq. destruct h; cbn [run_handler].
  - by eexists _, _.
  - eapply with_request_typed; [done|exact Hreq|]. intros req Hr. unfold handle_claim.
    destruct (DoClaim_total (E := Empty_set) (mg_ctx m) req Hw Hr) as (ctx' & [bh i] & Ec & Hc).
    cbn [mg_ctx mgr_AddMsgTask]. rewrite Ec. by eexists _, _.
  - eapply with_request_typed; [done|exact Hreq|]. intros req Hr.
    destruct (DoQuery_total (E := Empty_set) (mg_ctx m) req Hw Hr) as (resp & Eq).
    cbn [mg_ctx mgr_AddMsgTask]. rewrite Eq. by eexists _, _.
  - by apply mh_calculate_typed.
  - eapply (with_request_typed _ _ _ _ (fun _ => True)); [done|done|]. intros req _. eexists _, _. split; [done|]. by apply flush_typed.
  - eapply with_request_typed; [done|exact Hreq|]. intros req Hr.
    destruct (commitBlock_total (E := Empty_set) (mg_ctx m) req Hw Hr) as (ctx' & resp & Ec & Hc).
    cbn [mg_ctx mgr_AddMsgTask]. rewrite Ec. by eexists _, _.
  - done.
  - eapply with_request_typed; [done|exact Hreq|]. intros req Hr. eexists _, _. split; [done|]. by apply DoCommitClaim_typed.
  - unfold mh_queryCalculateStatus. destruct (DoQueryCalculateStatus _) as [st bh]. by eexists _, _.
  - eapply (with_request_typed _ _ _ _ (fun _ => True)); [done|done|]. intros req _.
    destruct (DoQueryCalculateResult_total (E := Empty_set) (mg_ctx m) req Hw) as (resp & Eq).
    cbn [mg_ctx mgr_AddMsgTask]. rewrite Eq. by eexists _, _.
  - eapply with_request_typed; [done|exact Hreq|]. intros req Hr. unfold rollback.
    destruct (DoRollBack_total (E := Empty_set) (mg_ctx m) req Hempty Hw Hr) as (ctx' & ok & Ec & Hc).
    cbn [mg_ctx mgr_AddMsgTask]. rewrite Ec. by eexists _, _.
  - eapply (with_request_typed _ _ _ _ (fun _ => True)); [done|done|]. intros req _. unfold handle_init, DoInit.
    destruct (_ <? req); (eexists _, _; split; [done|]); [done|]. cbn. apply well_typed_pc; [done|]. apply pc_inv_deletePreCommit, Hw.
Qed.

(** One message is handled. *)
Inductive served : manager D -> manager D -> Prop :=
  | serve m msg m' sent ok : message_typed m msg ->
      mh_HandleMessage shake256 map_order candidate_order world m msg = Ok (m', sent, ok) -> served m m'.

Lemma HandleMessage_typed m msg : (unmarshal [] zero_ClaimBackupInfo).1 = zero_ClaimBackupInfo ->
  well_typed (mg_ctx m) -> message_typed m msg ->
  exists m' sent ok, mh_HandleMessage shake256 map_order candidate_order world m msg = Ok (m', sent, ok) /\ well_typed (mg_ctx m').
Proof.
  intros Hempty Hw Hmsg. unfold mh_HandleMessage. destruct (HandleMessage (m_Msg msg)) as [a|] eqn:Ea; [|by eexists _, _, _].
  destruct (run_handler_typed (handler_of a) (m_Id msg) (m_Data msg) m Hempty Hw (Hmsg a Ea)) as (m' & sent & Er & Hm').
  destruct a as [h|h]; cbn [handler_of] in Er; rewrite Er; by eexists _, _, _.
Qed.

(** C3: Soundness of the messages: from a well-typed state, after any sequence of
    well-formed messages, the state is well-typed, and the next one is
    handled: no lookup misses, no stored record fails to decode, no loop runs on. *)
Theorem server_sound m0 m msg : (unmarshal [] zero_ClaimBackupInfo).1 = zero_ClaimBackupInfo ->
  well_typed (mg_ctx m0) -> rtc served m0 m -> message_typed m msg ->
  well_typed (mg_ctx m) /\
  exists m' sent ok, mh_HandleMessage shake256 map_order candidate_order world m msg = Ok (m', sent, ok) /\ well_typed (mg_ctx m').
Proof.
  intros Hempty Hw Hrtc Hmsg. assert (Hm : well_typed (mg_ctx m)).
  { induction Hrtc as [|m1 m2 m3 [m1' msg1 m2' sent ok Hmsg1 Hh] _ IH]; [done|]. apply IH; [|done].
    destruct (HandleMessage_typed m1' msg1 Hempty Hw Hmsg1) as (m4 & sent4 & ok4 & E4 & Hm4). congruence. }
  split; [done|]. by apply HandleMessage_typed.
Qed.
End WellTyped.
