(* ===== verification/Client.v ===== *)
(** * The client API ([core/api_ipc.go])

    The calls a client makes of the calculator.  They are written once, over the
    interface [Client]: a new message id, a request with its response, and the
    notification CALCULATE_DONE.  [Wire] implements it with messages over a
    connection; [Direct] applies the operations of the server to its state.  A call over
    the wire gives what the direct one gives ([wire_refines_direct]), as
    long as every CALCULATE_DONE has been received. *)

From Stdlib Require Strings.String.
From S2P Require Import Prelude Bytes HexInt Address Store Codec Typed Account ClaimDB Management IISSData IScoreDB Context Reward CalcDebug MsgDebug Calculate DoCalculate Messages Dispatch Ipc Server.
Import String.StringSyntax.

(** ** Requests *)

(** A request, indexed by the type of its response. *)
Inductive rpc : Set -> Set :=
  | R_Version : rpc ResponseVersion
  | R_Claim (req : ClaimMessage) : rpc ResponseClaim
  | R_Query (req : Query) : rpc ResponseQuery
  | R_Calculate (req : CalculateRequest) : rpc CalculateResponse
  | R_StartBlock (req : StartBlock) : rpc StartBlock
  | R_CommitBlock (req : CommitBlock) : rpc CommitBlock
  | R_CommitClaim (req : CommitClaim) : rpc unit
  | R_QueryCalculateStatus : rpc QueryCalculateStatusResponse
  | R_QueryCalculateResult (blockHeight : Z) : rpc QueryCalculateResultResponse
  | R_Rollback (req : RollBackRequest) : rpc RollBackResponse
  | R_Init (blockHeight : Z) : rpc ResponseInit.

(** No reply that can be read; a reply or the notification that does not
    decode; a hash that is not hexadecimal; no connection. *)
Inductive client_error := ErrConnection | ErrDecode | ErrHexString | ErrDial.

(** What the calls are made of. *)
Class Client (M : Type -> Type) := {
  ret {A} : A -> M A;
  bind {A B} : M A -> (A -> M B) -> M B;
  fail {A} : client_error -> M A;
  new_id : M unit;
  call {A : Set} : rpc A -> M A;
  receive_done : M unit;
}.

Notation "'let*' x := m 'in' k" := (bind m (fun x => k))
  (at level 10, x pattern, m at level 100, k at level 200) : rc_scope.

(** ** The API *)

(** [copy(make([]byte, size), bh)] of the decoded string, or the height in
    the first eight bytes when the string is empty. *)
Definition decoded_hash (size : nat) (bh : bytes) : bytes := copy_at 0 bh (make_bytes size).
Definition height_hash (size : nat) (h : Z) : bytes := copy_at 0 (be64 h) (make_bytes size).

(** [Address.SetString] on a new address with its error ignored. *)
Definition address_arg (address : bytes) : Address :=
  match Address_SetString zero_Address address with Ok a => a | _ => zero_Address end.

Section API.
Context {M : Type -> Type} `{!Client M}.

Definition hash_arg (size : nat) (h : Z) (s : bytes) : M bytes :=
  match s with
  | [] => ret (height_hash size h)
  | _ => match hex_DecodeString s with Some bh => ret (decoded_hash size bh) | None => fail ErrHexString end
  end.

Definition SendVersion : M ResponseVersion :=
  let* _ := new_id in call R_Version.

Definition SendCommitClaim (success : bool) (address : bytes) (blockHeight : Z) (blockHash : bytes)
    (txIndex : Z) (txHash : bytes) : M unit :=
  let* bh := hash_arg BlockHashSize blockHeight blockHash in
  let* th := hash_arg TXHashSize (blockHeight +u txIndex) txHash in
  let* _ := new_id in
  call (R_CommitClaim (mkCommitClaim success (address_arg address) blockHeight bh txIndex th)).

Definition SendCommitBlock (success : bool) (blockHeight : Z) (blockHash : bytes) : M CommitBlock :=
  let* bh := hash_arg BlockHashSize blockHeight blockHash in
  let* _ := new_id in
  call (R_CommitBlock (mkCommitBlock success blockHeight (Some bh))).

(** A transaction hash that is not hexadecimal is only logged here: its
    beginning is used. *)
Definition claim_tx_hash (h : Z) (s : bytes) : bytes :=
  match s with
  | [] => height_hash TXHashSize h
  | _ => decoded_hash TXHashSize (hex_decoded s)
  end.

Definition SendClaim (address : bytes) (blockHeight : Z) (blockHash : bytes) (txIndex : Z) (txHash : bytes)
    (noCommitClaim noCommitBlock : bool) : M ResponseClaim :=
  let* bh := hash_arg BlockHashSize blockHeight blockHash in
  let th := claim_tx_hash (blockHeight +u txIndex) txHash in
  let* _ := new_id in
  let* resp := call (R_Claim (mkClaimMessage (address_arg address) blockHeight bh txIndex th)) in
  let* _ := if negb noCommitClaim && negb (rcl_IScore resp =? 0)
            then SendCommitClaim true address blockHeight blockHash txIndex txHash else ret tt in
  let* _ := if negb noCommitBlock then let* _ := SendCommitBlock true blockHeight blockHash in ret tt else ret tt in
  ret resp.

Definition SendQuery (address : bytes) (blockHeight : Z) (blockHash txHash : bytes) : M ResponseQuery :=
  match hex_DecodeString blockHash, hex_DecodeString txHash with
  | Some bh, Some th =>
      call (R_Query (mkQuery (address_arg address) blockHeight (decoded_hash BlockHashSize bh) (decoded_hash TXHashSize th)))
  | _, _ => fail ErrHexString
  end.

(** CALCULATE_DONE is awaited only for a calculation that was accepted. *)
Definition SendCalculate (iissData : bytes) (blockHeight : Z) : M CalculateResponse :=
  let* resp := call (R_Calculate (mkCalculateRequest iissData blockHeight [])) in
  if negb (resp_Status resp =? CalcRespStatusOK) then ret resp
  else let* _ := receive_done in ret resp.

Definition SendStartBlock (blockHeight : Z) (blockHash : bytes) : M StartBlock :=
  let* bh := hash_arg BlockHashSize blockHeight blockHash in
  let* _ := new_id in
  call (R_StartBlock (mkStartBlock blockHeight (Some bh))).

Definition SendQueryCalculateStatus : M QueryCalculateStatusResponse := call R_QueryCalculateStatus.
Definition SendQueryCalculateResult (blockHeight : Z) : M QueryCalculateResultResponse :=
  call (R_QueryCalculateResult blockHeight).

Definition SendRollback (blockHeight : Z) (blockHash : bytes) : M RollBackResponse :=
  match hex_DecodeString blockHash with
  | Some hash => call (R_Rollback (mkRollBackRequest blockHeight (decoded_hash BlockHashSize hash)))
  | None => fail ErrHexString
  end.

Definition SendInit (blockHeight : Z) : M ResponseInit := call (R_Init blockHeight).
End API.

(** A call of the API with its arguments. *)
Inductive api : Set -> Set :=
  | A_SendVersion : api ResponseVersion
  | A_SendClaim (address : bytes) (blockHeight : Z) (blockHash : bytes) (txIndex : Z) (txHash : bytes)
      (noCommitClaim noCommitBlock : bool) : api ResponseClaim
  | A_SendCommitClaim (success : bool) (address : bytes) (blockHeight : Z) (blockHash : bytes) (txIndex : Z)
      (txHash : bytes) : api unit
  | A_SendCommitBlock (success : bool) (blockHeight : Z) (blockHash : bytes) : api CommitBlock
  | A_SendQuery (address : bytes) (blockHeight : Z) (blockHash txHash : bytes) : api ResponseQuery
  | A_SendCalculate (iissData : bytes) (blockHeight : Z) : api CalculateResponse
  | A_SendStartBlock (blockHeight : Z) (blockHash : bytes) : api StartBlock
  | A_SendQueryCalculateStatus : api QueryCalculateStatusResponse
  | A_SendQueryCalculateResult (blockHeight : Z) : api QueryCalculateResultResponse
  | A_SendRollback (blockHeight : Z) (blockHash : bytes) : api RollBackResponse
  | A_SendInit (blockHeight : Z) : api ResponseInit.

Definition run_api {M} `{!Client M} {A : Set} (c : api A) : M A :=
  match c in api A return M A with
  | A_SendVersion => SendVersion
  | A_SendClaim a h bh i th nc nb => SendClaim a h bh i th nc nb
  | A_SendCommitClaim ok a h bh i th => SendCommitClaim ok a h bh i th
  | A_SendCommitBlock ok h bh => SendCommitBlock ok h bh
  | A_SendQuery a h bh th => SendQuery a h bh th
  | A_SendCalculate data h => SendCalculate data h
  | A_SendStartBlock h bh => SendStartBlock h bh
  | A_SendQueryCalculateStatus => SendQueryCalculateStatus
  | A_SendQueryCalculateResult h => SendQueryCalculateResult h
  | A_SendRollback h bh => SendRollback h bh
  | A_SendInit h => SendInit h
  end.

(** Calls one after the other, with what each returned. *)
Definition calls : Type := list {A : Set & api A}.
Definition results : Type := list {A : Set & outcome client_error A}.

(** ** Over a connection *)

Section Encodings.
Context `{!ProtocolCodecs, !Framing}.

Definition rpc_msg {A} (c : rpc A) : Z :=
  match c with
  | R_Version => MsgVersion
  | R_Claim _ => MsgClaim
  | R_Query _ => MsgQuery
  | R_Calculate _ => MsgCalculate
  | R_StartBlock _ => MsgStartBlock
  | R_CommitBlock _ => MsgCommitBlock
  | R_CommitClaim _ => MsgCommitClaim
  | R_QueryCalculateStatus => MsgQueryCalculateStatus
  | R_QueryCalculateResult _ => MsgQueryCalculateResult
  | R_Rollback _ => MsgRollBack
  | R_Init _ => MsgINIT
  end.

Definition rpc_data {A} (c : rpc A) : bytes :=
  match c with
  | R_Version | R_QueryCalculateStatus => nil_data
  | R_Claim req => marshal req
  | R_Query req => marshal req
  | R_Calculate req => marshal req
  | R_StartBlock req => marshal req
  | R_CommitBlock req => marshal req
  | R_CommitClaim req => marshal req
  | R_QueryCalculateResult h | R_Init h => marshal h
  | R_Rollback req => marshal req
  end.

(** [resp := new(T)], then the decoding; no buffer for COMMIT_CLAIM. *)
Definition rpc_decode {A} (c : rpc A) : bytes -> option A :=
  match c with
  | R_Version => unmarshal_new (mkResponseVersion 0 0 (make_bytes BlockHashSize))
  | R_Claim _ => unmarshal_new (mkResponseClaim zero_ClaimMessage 0)
  | R_Query _ => unmarshal_new (mkResponseQuery zero_Address 0 0)
  | R_Calculate _ => unmarshal_new (mkCalculateResponse 0 0)
  | R_StartBlock _ => unmarshal_new zero_StartBlock
  | R_CommitBlock _ => unmarshal_new zero_CommitBlock
  | R_CommitClaim _ => fun _ => Some tt
  | R_QueryCalculateStatus => unmarshal_new (mkQueryStatus 0 0)
  | R_QueryCalculateResult _ => unmarshal_new (mkQueryResult 0 0 0 [])
  | R_Rollback _ => unmarshal_new (mkRollBackResponse false zero_RollBackRequest)
  | R_Init _ => unmarshal_new (mkResponseInit false 0)
  end.

Definition zero_CalculateDone : CalculateDone := mkCalculateDone false 0 0 None.

Section Wire.
Context {P : Type} `{!Peer P}.

(** [RCIPC] with its connection: the bytes received and not read, and the
    other end. *)
Record RCIPC := mkRCIPC { rc_id : Z; rc_in : bytes; rc_peer : P }.

Definition Wire (A : Type) : Type := RCIPC -> RCIPC * outcome client_error A.

(** The first message of the stream. *)
Definition read_message (rc : RCIPC) : RCIPC * option message :=
  match unframe (rc_in rc) with
  | Some (m, rest) => (mkRCIPC (rc_id rc) rest (rc_peer rc), Some m)
  | None => (rc, None)
  end.

(** The reply is the next message, whatever its number and id. *)
Definition SendAndReceive {A} (c : rpc A) : Wire A := fun rc =>
  let '(p, back) := peer_feed (rc_peer rc) (frame (mkMessage (rpc_msg c) (rc_id rc) (rpc_data c))) in
  match read_message (mkRCIPC (rc_id rc) (rc_in rc ++ back) p) with
  | (rc, None) => (rc, Err ErrConnection)
  | (rc, Some m) => (rc, match rpc_decode c (m_Data m) with Some a => Ok a | None => Err ErrDecode end)
  end.

(** [Receive(&respDone)]; the message is only printed. *)
Definition Receive_done : Wire unit := fun rc =>
  match read_message rc with
  | (rc, None) => (rc, Err ErrConnection)
  | (rc, Some m) => (rc, match unmarshal_new zero_CalculateDone (m_Data m) with Some _ => Ok tt | None => Err ErrDecode end)
  end.

#[export] Instance wire_client : Client Wire := {|
  ret A a := fun rc => (rc, Ok a);
  bind A B m f := fun rc =>
    match m rc with (rc, Ok a) => f a rc | (rc, Err e) => (rc, Err e) | (rc, Panic) => (rc, Panic) end;
  fail A e := fun rc => (rc, Err e);
  new_id := fun rc => (mkRCIPC (u32 (rc_id rc + 1)) (rc_in rc) (rc_peer rc), Ok tt);
  call A c := SendAndReceive c;
  receive_done := Receive_done;
|}.

Fixpoint wire_session (cs : calls) (rc : RCIPC) : RCIPC * results :=
  match cs with
  | [] => (rc, [])
  | existT A c :: cs =>
      let '(rc, r) := run_api (M := Wire) c rc in
      let '(rc, rs) := wire_session cs rc in (rc, existT A r :: rs)
  end.

(** [InitRCIPC]: six attempts to connect; then messages are dropped up to
    READY.  A message that cannot be read has number 0, so that the loop does
    not end when the stream does. *)
Fixpoint flush_ready (n : nat) (rc : RCIPC) : outcome client_error RCIPC :=
  match n with
  | O => Panic
  | S n =>
      match read_message rc with
      | (_, None) => Panic
      | (rc, Some m) => if m_Msg m =? MsgReady then Ok rc else flush_ready n rc
      end
  end.

Fixpoint dial (retry : nat) (tries : list (option (P * bytes))) : option (P * bytes) :=
  match tries with
  | [] => None
  | Some c :: _ => Some c
  | None :: tries => match retry with O => None | S retry => dial retry tries end
  end.

Definition InitRCIPC (tries : list (option (P * bytes))) : outcome client_error RCIPC :=
  match dial 5 tries with
  | None => Err ErrDial
  | Some (p, stream) => flush_ready (S (length stream)) (mkRCIPC 0 stream p)
  end.
End Wire.
End Encodings.
Arguments RCIPC : clear implicits.
Arguments Wire : clear implicits.
Arguments mkRCIPC {P}. Arguments rc_id {P}. Arguments rc_in {P}. Arguments rc_peer {P}.
