(* ===== verification/Remote.v ===== *)
(** * Calls over a connection against the calculator

    [Direct] runs the calls of [Client.v] on the state of the server.  The
    theorems say that the same calls over a connection do the same, that the reply
    of a call is the one made for it, and what happens when a CALCULATE is refused: its
    CALCULATE_DONE is left in the stream and is taken for the next reply. *)

From S2P Require Import Prelude Bytes HexInt Address Store Codec Typed Account ClaimDB Management IISSData IScoreDB Context Reward CalcDebug MsgDebug Calculate DoCalculate Messages Dispatch Ipc Server Client.

(** ** Values of the wire types

    Numbers in the range of their Go types, arrays of their length. *)

#[global] Instance WF_uint64 : WF Z := is_u64.
#[global] Instance WF_ResponseVersion : WF ResponseVersion := fun r =>
  is_u64 (rv_Version r) /\ is_u64 (rv_BlockHeight r) /\ length (rv_BlockHash r) = BlockHashSize.
#[global] Instance WF_ClaimMessage : WF ClaimMessage := fun r =>
  wf_Address (cm_Address r) /\ is_u64 (cm_BlockHeight r) /\ is_u64 (cm_TXIndex r).
#[global] Instance WF_ResponseClaim : WF ResponseClaim := fun r => WF_ClaimMessage (rcl_ClaimMessage r).
#[global] Instance WF_Query : WF Query := fun r => wf_Address (q_Address r) /\ is_u64 (q_BlockHeight r).
#[global] Instance WF_ResponseQuery : WF ResponseQuery := fun r => wf_Address (rq_Address r) /\ is_u64 (rq_BlockHeight r).
#[global] Instance WF_CalculateRequest : WF CalculateRequest := fun r => is_u64 (req_BlockHeight r).
#[global] Instance WF_CalculateResponse : WF CalculateResponse := fun r =>
  is_u64 (resp_Status r) /\ is_u64 (resp_BlockHeight r).
#[global] Instance WF_CalculateDone : WF CalculateDone := fun r => is_u64 (cd_Height r).
#[global] Instance WF_StartBlock : WF StartBlock := fun r => is_u64 (sb_BlockHeight r).
#[global] Instance WF_CommitBlock : WF CommitBlock := fun r => is_u64 (cbk_BlockHeight r).
#[global] Instance WF_CommitClaim : WF CommitClaim := fun r =>
  wf_Address (cc_Address r) /\ is_u64 (cc_BlockHeight r) /\ is_u64 (cc_TXIndex r).
#[global] Instance WF_QueryStatus : WF QueryCalculateStatusResponse := fun r =>
  is_u64 (qs_Status r) /\ is_u64 (qs_BlockHeight r).
#[global] Instance WF_QueryResult : WF QueryCalculateResultResponse := fun r =>
  is_u64 (qr_Status r) /\ is_u64 (qr_BlockHeight r).
#[global] Instance WF_RollBackRequest : WF RollBackRequest := fun r => is_u64 (rb_BlockHeight r).
#[global] Instance WF_RollBackResponse : WF RollBackResponse := fun r => is_u64 (rb_BlockHeight (rbr_Request r)).
#[global] Instance WF_ResponseInit : WF ResponseInit := fun r => is_u64 (ri_BlockHeight r).

(** A type on the wire: its values decode, and their encodings are data. *)
Class WireType (A : Type) `{!Codec A, !WF A, !Framing} : Prop := {
  wire_laws :: CodecLaws A;
  wire_valid (a : A) : wf a -> valid_data (marshal a);
}.

Class ProtocolLaws `{!ProtocolCodecs, !Framing} : Prop := {
  protocol_framing :: FramingLaws;
  wire_uint64 :: WireType Z;
  wire_ResponseVersion :: WireType ResponseVersion;
  wire_ClaimMessage :: WireType ClaimMessage;
  wire_ResponseClaim :: WireType ResponseClaim;
  wire_Query :: WireType Query;
  wire_ResponseQuery :: WireType ResponseQuery;
  wire_CalculateRequest :: WireType CalculateRequest;
  wire_CalculateResponse :: WireType CalculateResponse;
  wire_CalculateDone :: WireType CalculateDone;
  wire_StartBlock :: WireType StartBlock;
  wire_CommitBlock :: WireType CommitBlock;
  wire_CommitClaim :: WireType CommitClaim;
  wire_QueryStatus :: WireType QueryCalculateStatusResponse;
  wire_QueryResult :: WireType QueryCalculateResultResponse;
  wire_RollBackRequest :: WireType RollBackRequest;
  wire_RollBackResponse :: WireType RollBackResponse;
  wire_ResponseInit :: WireType ResponseInit;
}.

(** Whether a request and a response are values of their types. *)
Definition request_ok {A} (c : rpc A) : Prop :=
  match c with
  | R_Version | R_QueryCalculateStatus => True
  | R_Claim req => wf req
  | R_Query req => wf req
  | R_Calculate req => wf req
  | R_StartBlock req => wf req
  | R_CommitBlock req => wf req
  | R_CommitClaim req => wf req
  | R_QueryCalculateResult h | R_Init h => is_u64 h
  | R_Rollback req => wf req
  end.
Definition response_ok {A} (c : rpc A) : A -> Prop :=
  match c with
  | R_Version => wf
  | R_Claim _ => wf
  | R_Query _ => wf
  | R_Calculate _ => wf
  | R_StartBlock _ => wf
  | R_CommitBlock _ => wf
  | R_CommitClaim _ => fun _ => True
  | R_QueryCalculateStatus => wf
  | R_QueryCalculateResult _ => wf
  | R_Rollback _ => wf
  | R_Init _ => wf
  end.

#[global] Instance request_ok_dec {A} (c : rpc A) : Decision (request_ok c).
Proof. destruct c; cbn; unfold wf; cbn; apply _. Defined.
#[global] Instance response_ok_dec {A} (c : rpc A) a : Decision (response_ok c a).
Proof. revert a. destruct c; intros a; cbn; unfold wf; cbn; apply _. Defined.

(** ** Calls on the state of the server *)

(** The server's state, the client's message id, and the notifications it
    has not received. *)
Record direct (D : Type) := mkDirect { d_mgr : manager D; d_id : Z; d_done : list CalculateDone }.
Arguments mkDirect {D}. Arguments d_mgr {D}. Arguments d_id {D}. Arguments d_done {D}.

Section Remote.
Context {D : Type} `{!LevelDB D}.
Context `{!Codec ClaimData, !Codec ClaimBackupInfo, !Codec PreCommitData}.
Context `{!Codec IScoreData, !Codec IISSTXData, !Codec IISSBlockProduceInfoData, !Codec CRData,
  !Codec DBInfoData, !Codec GVData, !Codec PRepData, !Codec PRepCandidateData,
  !Codec IISSHeader, !Codec IISSGVData, !Codec CalcDebugData, !ProtocolCodecs, !Framing}.
Context (shake256 : bytes -> bytes) (map_order : gmap bytes Z -> list (bytes * Z))
  (candidate_order : PRepCandidates -> list (Address * PRepCandidate)) (world : calc_world D).

(** The operation of the server for a request: its state afterwards, the
    response, and the notifications that follow it. *)
Definition answer {A : Set} (id : Z) (c : rpc A) (m : manager D)
    : outcome Empty_set (manager D * A * list CalculateDone) :=
  let ctx := mg_ctx m in
  match c in rpc A return outcome Empty_set (manager D * A * list CalculateDone) with
  | R_Version => Ok (m, version ctx, [])
  | R_Claim req => let! (ctx, resp) := handle_claim ctx req in Ok (set_ctx ctx m, resp, [])
  | R_Query req => let! resp := DoQuery ctx req in Ok (m, resp, [])
  | R_Calculate req =>
      let '(dir, name) := w_dir world (req_Path req) in
      let! (r, done, removed) := calculate shake256 map_order (w_env world) ctx req (w_open world (req_Path req)) id dir name in
      match res_acks r with
      | [(_, ack)] => Ok (add_removed removed (set_ctx (res_ctx r) m), ack, [done])
      | _ => Panic
      end
  | R_StartBlock req => let '(ctx, resp) := startBlock ctx req in Ok (set_ctx ctx m, resp, [])
  | R_CommitBlock req => let! (ctx, resp) := commitBlock ctx req in Ok (set_ctx ctx m, resp, [])
  | R_CommitClaim req => Ok (set_ctx (DoCommitClaim ctx req) m, tt, [])
  | R_QueryCalculateStatus =>
      let '(status, blockHeight) := DoQueryCalculateStatus ctx in Ok (m, mkQueryStatus status blockHeight, [])
  | R_QueryCalculateResult h => let! resp := DoQueryCalculateResult ctx h in Ok (m, resp, [])
  | R_Rollback req => let! (ctx, resp) := rollback ctx req in Ok (set_ctx ctx m, resp, [])
  | R_Init h => let '(ctx, resp) := handle_init ctx h in Ok (set_ctx ctx m, resp, [])
  end.

(** No result where the server panics, a request or response is not a value
    of its type, or a call is made before CALCULATE_DONE was received. *)
Definition Direct (A : Type) : Type := direct D -> option (direct D * outcome client_error A).

Definition direct_call {A : Set} (c : rpc A) : Direct A := fun d =>
  match d_done d, answer (d_id d) c (d_mgr d) with
  | [], Ok (m, a, done) =>
      if decide (request_ok c /\ response_ok c a /\ Forall wf done) then Some (mkDirect m (d_id d) done, Ok a) else None
  | _, _ => None
  end.

#[export] Instance direct_client : Client Direct := {|
  ret A a := fun d => Some (d, Ok a);
  bind A B m f := fun d =>
    match m d with
    | Some (d, Ok a) => f a d
    | Some (d, Err e) => Some (d, Err e)
    | Some (d, Panic) => Some (d, Panic)
    | None => None
    end;
  fail A e := fun d => Some (d, Err e);
  new_id := fun d => Some (mkDirect (d_mgr d) (u32 (d_id d + 1)) (d_done d), Ok tt);
  call A c := direct_call c;
  receive_done := fun d =>
    match d_done d with [_] => Some (mkDirect (d_mgr d) (d_id d) [], Ok tt) | _ => None end;
|}.

(** ** The connection carries out the calls *)

Context `{!ProtocolLaws}.

Abbreviation server_step := (mh_HandleMessage shake256 map_order candidate_order world).
#[local] Instance server_peer : Peer (endpoint (manager D)) := endpoint_peer server_step.

Definition done_message (x : CalculateDone) : message := mkMessage MsgCalculateDone 0 (marshal x).

(** A client and a server that agree: only the notifications not received
    are in the stream. *)
Definition in_sync (rc : RCIPC (endpoint (manager D))) (d : direct D) : Prop :=
  is_u32 (d_id d) /\ Forall wf (d_done d) /\
  rc = mkRCIPC (d_id d) (frames (map done_message (d_done d))) (mkEndpoint (d_mgr d) [] (newConnection false) true).

Definition rpc_reply {A : Set} (c : rpc A) : A -> bytes :=
  match c in rpc A return A -> bytes with
  | R_CommitClaim _ => fun _ => nil_data
  | R_Version => marshal
  | R_Claim _ => marshal
  | R_Query _ => marshal
  | R_Calculate _ => marshal
  | R_StartBlock _ => marshal
  | R_CommitBlock _ => marshal
  | R_QueryCalculateStatus => marshal
  | R_QueryCalculateResult _ => marshal
  | R_Rollback _ => marshal
  | R_Init _ => marshal
  end.

Lemma unframe_nil : unframe [] = None.
Proof.
  destruct (unframe []) as [[m rest]|] eqn:E; [|done]. apply unframe_shorter in E. simpl in E. lia.
Qed.

Lemma rpc_decode_reply {A : Set} (c : rpc A) a : response_ok c a -> rpc_decode c (rpc_reply c a) = Some a.
Proof. revert a. destruct c; intros a Ha; cbn in *; try (by apply unmarshal_new_marshal). by destruct a. Qed.

Lemma rpc_reply_valid {A : Set} (c : rpc A) a : response_ok c a -> valid_data (rpc_reply c a).
Proof. revert a. destruct c; intros a Ha; cbn in *; try (by apply wire_valid). apply valid_nil. Qed.

Lemma rpc_data_valid {A : Set} (c : rpc A) : request_ok c -> valid_data (rpc_data c).
Proof. destruct c; intros Hc; cbn in *; by (apply wire_valid || apply valid_nil). Qed.

(** A manager whose count was raised and lowered is the same. *)
Lemma done_add (m : manager D) : mgr_DoneMsgTask (mgr_AddMsgTask m) = m.
Proof. destruct m. unfold mgr_DoneMsgTask, mgr_AddMsgTask. cbn. f_equal. lia. Qed.
Lemma done_set_ctx ctx (m : manager D) : mgr_DoneMsgTask (set_ctx ctx (mgr_AddMsgTask m)) = set_ctx ctx m.
Proof. destruct m. cbn. unfold mgr_DoneMsgTask, set_ctx. cbn. f_equal. lia. Qed.

Lemma done_removed l ctx (m : manager D) :
  mgr_DoneMsgTask (add_removed l (set_ctx ctx (mgr_AddMsgTask m))) = add_removed l (set_ctx ctx m).
Proof. destruct m. unfold mgr_DoneMsgTask, add_removed, set_ctx. cbn. f_equal. lia. Qed.

(** A handler whose work is a step of the context with a response. *)
Lemma handled_work {A B} `{!Codec A, !WF A, !CodecLaws A, !Codec B} (zero req : A)
    (op : Context D -> A -> outcome Empty_set (Context D * B)) m msg id ctx resp :
  wf req -> op (mg_ctx m) req = Ok (ctx, resp) ->
  with_request zero (marshal req) m (fun req m =>
    let! (ctx, resp) := op (mg_ctx m) req in Ok (set_ctx ctx m, Send msg id resp))
  = Ok (set_ctx ctx m, [mkMessage msg id (marshal resp)]).
Proof.
  intros Hreq Hop. unfold with_request. rewrite unmarshal_new_marshal by done. cbn [mg_ctx mgr_AddMsgTask].
  rewrite Hop. cbn. by rewrite done_set_ctx.
Qed.

Lemma handled_context {A B} `{!Codec A, !WF A, !CodecLaws A, !Codec B} (zero req : A)
    (op : Context D -> A -> outcome Empty_set (Context D * B)) m msg id ctx resp :
  wf req -> op (mg_ctx m) req = Ok (ctx, resp) ->
  (let! (m, sent) := with_request zero (marshal req) m (fun req m =>
    let! (ctx, resp) := op (mg_ctx m) req in Ok (set_ctx ctx m, Send msg id resp)) in Ok (m, sent, true))
  = Ok (set_ctx ctx m, [mkMessage msg id (marshal resp)], true) :> outcome Empty_set _.
Proof. intros Hreq Hop. by erewrite (handled_work zero req op) by done. Qed.

(** The handler of a request sends the response, then the notifications. *)
Lemma answer_handled {A : Set} id (c : rpc A) m m' a done :
  request_ok c -> answer id c m = Ok (m', a, done) ->
  server_step m (mkMessage (rpc_msg c) id (rpc_data c))
  = Ok (m', mkMessage (rpc_msg c) id (rpc_reply c a) :: map done_message done, true).
Proof.
  revert a. destruct c; intros a Hc Ha; cbn [answer request_ok rpc_msg rpc_data rpc_reply] in *;
    unfold mh_HandleMessage; cbn [m_Msg m_Id m_Data];
    match goal with |- context [HandleMessage ?x] => let y := eval vm_compute in (HandleMessage x) in change (HandleMessage x) with y end;
    cbn iota; cbn [run_handler].
  - injection Ha as <- <- <-. cbn. unfold mh_version. cbn. by rewrite done_add.
  - apply obind_ok in Ha as ([ctx resp] & Hw & [= <- <- <-]). by apply (handled_context zero_ClaimMessage req handle_claim).
  - apply obind_ok in Ha as (resp & Hw & [= <- <- <-]). unfold mh_query, with_request.
    rewrite unmarshal_new_marshal by done. cbn [mg_ctx mgr_AddMsgTask]. rewrite Hw. cbn. by rewrite done_add.
  - unfold mh_calculate, with_request. rewrite unmarshal_new_marshal by done. cbn [mg_ctx mgr_AddMsgTask].
    destruct (w_dir world (req_Path req)) as [dir name]. apply obind_ok in Ha as ([[r done'] removed] & Hw & Ha).
    rewrite Hw. cbn [obind]. unfold calculate in Hw. apply obind_ok in Hw as (r' & Hr & [= -> <- <-]).
    apply DoCalculate_ack in Hr as [resp Hr]. rewrite Hr in Ha |- *. injection Ha as <- <- <-. cbn.
    by rewrite done_removed.
  - destruct (startBlock (mg_ctx m) req) as [ctx resp] eqn:Hw. injection Ha as <- <- <-.
    apply (handled_context zero_StartBlock req (fun ctx req => Ok (startBlock ctx req))); [done|by rewrite Hw].
  - apply obind_ok in Ha as ([ctx resp] & Hw & [= <- <- <-]). by apply (handled_context zero_CommitBlock req commitBlock).
  - injection Ha as <- <- <-. unfold mh_commitClaim, with_request. rewrite unmarshal_new_marshal by done. cbn.
    by rewrite done_set_ctx.
  - unfold mh_queryCalculateStatus. destruct (DoQueryCalculateStatus (mg_ctx m)) as [st h]. injection Ha as <- <- <-.
    cbn. by rewrite done_add.
  - apply obind_ok in Ha as (resp & Hw & [= <- <- <-]). unfold mh_queryCalculateResult, with_request.
    rewrite unmarshal_new_marshal by done. cbn [mg_ctx mgr_AddMsgTask]. rewrite Hw. cbn. by rewrite done_add.
  - apply obind_ok in Ha as ([ctx resp] & Hw & [= <- <- <-]).
    unfold mh_rollback. erewrite (handled_work zero_RollBackRequest req rollback) by done.
    cbn [obind]. rewrite unmarshal_new_marshal by done. by rewrite bool_decide_eq_true_2.
  - destruct (handle_init (mg_ctx m) blockHeight) as [ctx resp] eqn:Hw. injection Ha as <- <- <-.
    unfold mh_init, with_request. rewrite unmarshal_new_marshal by done. cbn [mg_ctx mgr_AddMsgTask].
    rewrite Hw. cbn. by rewrite done_set_ctx.
Qed.


Lemma rpc_handled {A : Set} (c : rpc A) : rpc_msg c ∈ newConnection false.
Proof. apply (bool_decide_unpack _). by destruct c. Qed.
Lemma rpc_msg_u64 {A : Set} (c : rpc A) : is_u64 (rpc_msg c).
Proof. apply (bool_decide_unpack _). by destruct c. Qed.

Lemma done_message_wf x : wf x -> wf_message (done_message x).
Proof. intros Hx. split_and!; [by apply (bool_decide_unpack _)..|]. by apply wire_valid. Qed.

(** The server on one whole message. *)
Lemma feed_one (m m' : manager D) msg sent : wf_message msg -> m_Msg msg ∈ newConnection false ->
  server_step m msg = Ok (m', sent, true) ->
  peer_feed (mkEndpoint m [] (newConnection false) true) (frame msg)
  = (mkEndpoint m' [] (newConnection false) true, frames sent).
Proof.
  intros Hwf Hin Hstep. unfold peer_feed, server_peer, endpoint_peer, handleConnection. cbn [ep_open ep_unread ep_handlers ep_state app].
  replace (frame msg) with (frames [msg] ++ []) by (by rewrite app_nil_r; unfold frames; cbn; rewrite app_nil_r).
  rewrite (connection_loop_spec server_step (newConnection false) m [msg] [] m' sent); [done|by constructor|apply unframe_nil| |lia].
  cbn [handle_all]. unfold handle_read. rewrite bool_decide_eq_true_2 by done. rewrite Hstep. cbn. by rewrite app_nil_r.
Qed.

(** A client with messages that it has not read yet. *)
Definition pending_rc (m : manager D) (id : Z) (pending : list message) : RCIPC (endpoint (manager D)) :=
  mkRCIPC id (frames pending) (mkEndpoint m [] (newConnection false) true).

(** The value a call takes from a message. *)
Definition reply_value {A : Set} (c : rpc A) (reply : message) : outcome client_error A :=
  match rpc_decode c (m_Data reply) with Some a => Ok a | None => Err ErrDecode end.

Lemma read_pending m id p ps : wf_message p -> read_message (pending_rc m id (p :: ps)) = (pending_rc m id ps, Some p).
Proof. intros Hp. unfold read_message, pending_rc. cbn [rc_in]. by rewrite frames_cons, unframe_frame. Qed.

(** A call reads the first message that is left, which is its own reply only
    when none was left before. *)
Lemma call_reads_first {A : Set} (c : rpc A) m id m' a done pending msg rest :
  is_u32 id -> Forall wf_message pending -> request_ok c -> response_ok c a -> Forall wf done ->
  answer id c m = Ok (m', a, done) ->
  pending ++ mkMessage (rpc_msg c) id (rpc_reply c a) :: map done_message done = msg :: rest ->
  SendAndReceive c (pending_rc m id pending) = (pending_rc m' id rest, reply_value c msg) /\ Forall wf_message rest.
Proof.
  intros Hid Hpend Hreq Hresp Hdone Ha E.
  set (reply := mkMessage (rpc_msg c) id (rpc_reply c a)) in *.
  assert (Hall : Forall wf_message (msg :: rest)).
  { rewrite <-E. apply Forall_app. split; [done|]. constructor.
    - split_and!; [apply rpc_msg_u64|done|by apply rpc_reply_valid].
    - apply Forall_map. eapply Forall_impl; [exact Hdone|apply done_message_wf]. }
  apply Forall_cons in Hall as [Hmsg Hrest]. split; [|done].
  unfold SendAndReceive. cbn [rc_peer rc_id rc_in pending_rc].
  rewrite (feed_one m m' _ (reply :: map done_message done));
    [|split_and!; [apply rpc_msg_u64|done|by apply rpc_data_valid]|apply rpc_handled|by apply answer_handled].
  rewrite <-frames_app, E. change (mkRCIPC id (frames (msg :: rest)) _) with (pending_rc m' id (msg :: rest)).
  by rewrite read_pending.
Qed.

Create HintDb refines discriminated.

(** ** Refinement *)

(** What the direct calls do, the connection does. *)
Definition refines {A : Type} (d : Direct A) (w : Wire (endpoint (manager D)) A) : Prop :=
  forall rc s s' r, in_sync rc s -> d s = Some (s', r) -> exists rc', w rc = (rc', r) /\ in_sync rc' s'.

Lemma in_sync_pending rc s : in_sync rc s -> rc = pending_rc (d_mgr s) (d_id s) (map done_message (d_done s)).
Proof. by intros (_ & _ & ->). Qed.

Lemma refines_ret {A} (a : A) : refines (ret a) (ret a).
Proof. intros rc s s' r Hs [= <- <-]. by exists rc. Qed.
Lemma refines_fail {A} e : refines (fail (A := A) e) (fail e).
Proof. intros rc s s' r Hs [= <- <-]. by exists rc. Qed.
Lemma refines_new_id : refines new_id new_id.
Proof.
  intros rc s s' r Hs [= <- <-]. destruct Hs as (Hid & Hd & ->). eexists. split; [done|].
  split_and!; [apply u32_range|done|done].
Qed.

Lemma refines_bind {A B} (d : Direct A) w (fd : A -> Direct B) fw :
  refines d w -> (forall a, refines (fd a) (fw a)) -> refines (bind d fd) (bind w fw).
Proof.
  intros Hm Hf rc s s' r Hs Hd. cbn in *. destruct (d s) as [[s1 r1]|] eqn:E; [|done].
  destruct (Hm _ _ _ _ Hs E) as (rc1 & -> & Hs1).
  destruct r1; [by apply (Hf _ rc1 s1)|by injection Hd as <- <-; eexists..].
Qed.

Lemma refines_call {A : Set} (c : rpc A) : refines (call c) (call c).
Proof.
  intros rc s s' r Hs Hd. pose proof (in_sync_pending _ _ Hs) as ->. destruct Hs as (Hid & _ & _).
  cbn in Hd. unfold direct_call in Hd. destruct (d_done s) as [|]; [|done].
  destruct (answer (d_id s) c (d_mgr s)) as [[[m a] dn]| |] eqn:Ea; [|done..].
  case_decide as Hok; [|done]. destruct Hok as (Hreq & Hresp & Hdone). injection Hd as <- <-.
  destruct (call_reads_first c (d_mgr s) (d_id s) m a dn [] _ _ Hid (Forall_nil_2 _) Hreq Hresp Hdone Ea eq_refl) as [Hc _].
  eexists. split; [etrans; [exact Hc|]|by split_and!].
  f_equal. unfold reply_value. cbn [m_Data]. by rewrite rpc_decode_reply.
Qed.

Lemma refines_receive : refines receive_done receive_done.
Proof.
  intros rc s s' r Hs Hd. pose proof (in_sync_pending _ _ Hs) as ->. destruct Hs as (Hid & Hdone & _).
  cbn in Hd. destruct (d_done s) as [|x [|]]; [done| |done]. injection Hd as <- <-.
  apply Forall_cons in Hdone as [Hx _]. exists (pending_rc (d_mgr s) (d_id s) []).
  split; [|by split_and!]. cbn [receive_done wire_client map]. unfold Receive_done.
  rewrite read_pending by (by apply done_message_wf). cbn [m_Data done_message]. by rewrite unmarshal_new_marshal.
Qed.

Lemma refines_if {A} (b : bool) (d d' : Direct A) w w' :
  refines d w -> refines d' w' -> refines (if b then d else d') (if b then w else w').
Proof. by destruct b. Qed.

Ltac refine_call :=
  repeat match goal with
    | |- forall _, _ => intros ?
    | |- refines (bind _ _) (bind _ _) => apply refines_bind
    | |- refines (ret _) (ret _) => apply refines_ret
    | |- refines (fail _) (fail _) => apply refines_fail
    | |- refines (call _) (call _) => apply refines_call
    | |- refines new_id new_id => apply refines_new_id
    | |- refines receive_done receive_done => apply refines_receive
    | |- refines _ _ => solve [eauto 1 with refines]
    | |- refines (if _ then _ else _) _ => apply refines_if
    | _ => case_match
    end.

Lemma refines_hash_arg n h s : refines (hash_arg n h s) (hash_arg n h s).
Proof. unfold hash_arg. refine_call. Qed.
#[local] Hint Resolve refines_hash_arg : refines.

Lemma refines_SendCommitClaim ok a h bh i th :
  refines (SendCommitClaim ok a h bh i th) (SendCommitClaim ok a h bh i th).
Proof. unfold SendCommitClaim. refine_call. Qed.
Lemma refines_SendCommitBlock ok h bh : refines (SendCommitBlock ok h bh) (SendCommitBlock ok h bh).
Proof. unfold SendCommitBlock. refine_call. Qed.
#[local] Hint Resolve refines_SendCommitClaim refines_SendCommitBlock : refines.

(** A call of the API is made of calls. *)
Lemma refines_api {A : Set} (c : api A) : refines (run_api c) (run_api c).
Proof.
  destruct c; cbn [run_api];
    unfold SendVersion, SendClaim, SendQuery, SendCalculate, SendStartBlock, SendQueryCalculateStatus,
      SendQueryCalculateResult, SendRollback, SendInit; refine_call.
Qed.

Fixpoint direct_session (cs : calls) (d : direct D) : option (direct D * results) :=
  match cs with
  | [] => Some (d, [])
  | existT A c :: cs =>
      match run_api (M := Direct) c d with
      | Some (d, r) => match direct_session cs d with Some (d, rs) => Some (d, existT A r :: rs) | None => None end
      | None => None
      end
  end.

Lemma session_refines cs rc s s' rs : in_sync rc s -> direct_session cs s = Some (s', rs) ->
  exists rc', wire_session cs rc = (rc', rs) /\ in_sync rc' s'.
Proof.
  revert rc s rs. induction cs as [|[A c] cs IH]; intros rc s rs Hs Hd; cbn in *.
  - injection Hd as <- <-. by exists rc.
  - destruct (run_api (M := Direct) c s) as [[s1 r]|] eqn:E; [|done].
    destruct (direct_session cs s1) as [[s2 rs']|] eqn:E2; [|done]. injection Hd as <- <-.
    destruct (refines_api c _ _ _ _ Hs E) as (rc1 & -> & Hs1).
    destruct (IH _ _ _ Hs1 E2) as (rc2 & -> & Hs2). by exists rc2.
Qed.

(** ** The start of a connection *)

(** The server's end of a connection [InitRCIPC] made. *)
Definition accepted (m : manager D) : endpoint (manager D) * bytes := accept false m.

Lemma InitRCIPC_accepted m failures tries : wf (version (mg_ctx m)) -> (length failures <= 5)%nat ->
  Forall (fun t => t = None) failures ->
  InitRCIPC (failures ++ Some (accepted m) :: tries) = Ok (pending_rc m 0 []).
Proof.
  intros Hv Hf Hn. unfold InitRCIPC.
  assert (forall k, (length failures <= k)%nat ->
    dial k (failures ++ Some (accepted m) :: tries) = Some (accepted m)) as ->.
  { clear Hf. induction Hn as [|t failures -> _ IH]; intros k Hk; [by destruct k|].
    cbn [app dial]. destruct k; cbn in Hk; [lia|]. apply IH. lia. }
  2: done.
  unfold accepted, accept, Send. cbn [fst snd flush_ready].
  set (ready := mkMessage _ _ _). change (mkRCIPC 0 _ _) with (pending_rc m 0 [ready]).
  rewrite read_pending; [done|]. split_and!; [by apply (bool_decide_unpack _)..|]. by apply wire_valid.
Qed.

(** When the stream ends before READY, the loop of [InitRCIPC] does not. *)
Lemma flush_no_ready {P} n id ms rest (p : P) : Forall wf_message ms -> Forall (fun m => m_Msg m <> MsgReady) ms ->
  unframe rest = None -> flush_ready n (mkRCIPC id (frames ms ++ rest) p) = Panic.
Proof.
  intros Hms Hr Hrest. revert n. induction Hms as [|m ms Hm _ IH]; intros n; (destruct n; [done|]); cbn [flush_ready]; unfold read_message; cbn [rc_in].
  - cbn [frames map concat app]. by rewrite Hrest.
  - apply Forall_cons in Hr as [Hn Hr]. rewrite frames_cons, <-app_assoc, unframe_frame by done.
    rewrite (proj2 (Z.eqb_neq _ _)) by done. by apply IH.
Qed.

(** C6: Calls over a connection: after at most five failed attempts to connect, a
    sequence of calls of the API returns over the connection what the
    operations of the server return on its state, in the same order, and leaves the
    server in the same state, as long as every CALCULATE_DONE is received. *)
Theorem wire_refines_direct m failures tries cs s rs :
  wf (version (mg_ctx m)) -> Forall (fun t => t = None) failures -> (length failures <= 5)%nat ->
  direct_session cs (mkDirect m 0 []) = Some (s, rs) ->
  exists rc rc', InitRCIPC (failures ++ Some (accepted m) :: tries) = Ok rc /\
    wire_session cs rc = (rc', rs) /\ ep_state (rc_peer rc') = d_mgr s /\ rc_id rc' = d_id s.
Proof.
  intros Hv Hn Hf Hd. exists (pending_rc m 0 []).
  assert (Hs : in_sync (pending_rc m 0 []) (mkDirect m 0 [])) by (split_and!; [by apply (bool_decide_unpack _)|done..]).
  destruct (session_refines cs _ _ _ _ Hs Hd) as (rc' & Hw & _ & _ & ->). eexists.
  split_and!; [by apply InitRCIPC_accepted|exact Hw|done..].
Qed.

(** ** A CALCULATE that is refused *)

Definition reply_of {A : Set} (c : rpc A) (id : Z) (a : A) : message := mkMessage (rpc_msg c) id (rpc_reply c a).

(** The server answers [c] with the value [a] and no notification. *)
Definition answered {A : Set} (c : rpc A) (id : Z) (m m' : manager D) (a : A) : Prop :=
  is_u32 id /\ request_ok c /\ response_ok c a /\ answer id c m = Ok (m', a, []).

Lemma reply_wf {A : Set} (c : rpc A) id m m' a : answered c id m m' a -> wf_message (reply_of c id a).
Proof. intros (Hid & _ & Hr & _). split_and!; [apply rpc_msg_u64|done|by apply rpc_reply_valid]. Qed.

Lemma call_lags {A : Set} (c : rpc A) m m' id a p : wf_message p -> answered c id m m' a ->
  SendAndReceive c (pending_rc m id [p]) = (pending_rc m' id [reply_of c id a], reply_value c p).
Proof.
  intros Hp (Hid & Hreq & Hresp & Ha).
  by edestruct (call_reads_first c m id m' a [] [p]) as [-> _]; [done|by constructor|done..].
Qed.


End Remote.
