(* ===== verification/ClaimRemote.v ===== *)
(** * A claim made over a connection

    [SendClaim] sends CLAIM, COMMIT_CLAIM and COMMIT_BLOCK.  This file puts together
    the connection ([Remote]) and the ledger of claims ([ClaimLedger]): what
    the client's call does to what an address has claimed. *)

From S2P Require Import Prelude Bytes HexInt HexText Address Store Codec Typed Account ClaimDB Management IISSData IScoreDB Context Reward CalcDebug MsgDebug Calculate DoCalculate Messages Dispatch ClaimLedger Ipc Server Client Remote.

(** ** The arguments of the requests *)

Lemma copied_hash_wf n bs : all_bytes bs ->
  length (copy_at 0 bs (make_bytes n)) = n /\ all_bytes (copy_at 0 bs (make_bytes n)).
Proof.
  intros Hb. split; [rewrite length_copy_at, length_make_bytes; [done|apply Nat.le_0_l]|].
  unfold copy_at, make_bytes. rewrite !Forall_app. split_and!; [by constructor|by apply Forall_take|].
  apply Forall_drop, Forall_replicate. unfold is_byte. lia.
Qed.

(** Decoding up to the first bad character agrees with decoding. *)
Lemma hex_decoded_DecodeString s bs : hex_DecodeString s = Some bs -> hex_decoded s = bs.
Proof.
  revert s bs. fix IH 1. intros [|a [|b s]] bs; cbn [hex_DecodeString hex_decoded]; [by intros [= <-]|done|].
  destruct (from_hex_char a) as [x|]; [|done]. destruct (from_hex_char b) as [y|]; [|done].
  specialize (IH s). destruct (hex_DecodeString s) as [r|]; [|done]. intros [= <-]. f_equal. by apply IH.
Qed.

(** What [hash_arg] returns. *)
Definition hash_value (size : nat) (h : Z) (s : bytes) : option bytes :=
  match s with
  | [] => Some (height_hash size h)
  | _ => option_map (decoded_hash size) (hex_DecodeString s)
  end.

Lemma hash_arg_value {M} `{!Client M} n h s :
  hash_arg (M := M) n h s = match hash_value n h s with Some v => ret v | None => fail ErrHexString end.
Proof. unfold hash_arg, hash_value. destruct s; [done|]. by destruct (hex_DecodeString _). Qed.

Lemma hash_value_wf n h s v : hash_value n h s = Some v -> length v = n /\ all_bytes v.
Proof.
  unfold hash_value. destruct s as [|c s]; [intros [= <-]; apply copied_hash_wf; auto with rc|].
  destruct (hex_DecodeString (c :: s)) as [bs|] eqn:E; [|done]. intros [= <-].
  apply copied_hash_wf. by eapply hex_DecodeString_bytes.
Qed.

Lemma hash_value_claim h s v : hash_value TXHashSize h s = Some v -> claim_tx_hash h s = v.
Proof.
  unfold hash_value, claim_tx_hash. destruct s as [|c s]; [by intros [= <-]|].
  destruct (hex_DecodeString (c :: s)) as [bs|] eqn:E; [|done]. intros [= <-]. by rewrite (hex_decoded_DecodeString _ bs).
Qed.

Section ClaimRemote.
Context {D : Type} `{!LevelDB D, !LevelDBLaws D}.
Context `{!Codec ClaimData, !CodecLaws ClaimData, !Codec ClaimBackupInfo, !CodecLaws ClaimBackupInfo,
  !Codec PreCommitData, !CodecLaws PreCommitData}.
Context `{!Codec IScoreData, !Codec IISSTXData, !Codec IISSBlockProduceInfoData, !Codec CRData,
  !Codec DBInfoData, !Codec GVData, !Codec PRepData, !Codec PRepCandidateData,
  !Codec IISSHeader, !Codec IISSGVData, !Codec CalcDebugData, !ProtocolCodecs, !Framing, !ProtocolLaws}.
Context (shake256 : bytes -> bytes) (map_order : gmap bytes Z -> list (bytes * Z))
  (candidate_order : PRepCandidates -> list (Address * PRepCandidate)) (world : calc_world D).

#[local] Instance direct_calls : Client (Direct (D := D)) := direct_client shake256 map_order world.
#[local] Instance server : Peer (endpoint (manager D)) := server_peer shake256 map_order candidate_order world.

(** ** Inversion of direct calls *)

Lemma direct_bind_ok {A B} (m : Direct A) (f : A -> Direct B) d d' b :
  bind m f d = Some (d', Ok b) -> exists d1 a, m d = Some (d1, Ok a) /\ f a d1 = Some (d', Ok b).
Proof. cbn. destruct (m d) as [[d1 [a| |]]|]; [|done..]. intros. by exists d1, a. Qed.

Lemma direct_hash_ok n h s d d' v : hash_arg n h s d = Some (d', Ok v) -> hash_value n h s = Some v /\ d' = d.
Proof. rewrite hash_arg_value. destruct (hash_value n h s); [|done]. by intros [= <- <-]. Qed.

Lemma direct_call_ok {A : Set} (c : rpc A) d d' a : call c d = Some (d', Ok a) ->
  exists m dn, answer shake256 map_order world (d_id d) c (d_mgr d) = Ok (m, a, dn) /\ request_ok c /\
    d' = mkDirect m (d_id d) dn.
Proof.
  cbn. unfold direct_call. destruct (d_done d); [|done]. destruct (answer _ _ _ _ _ _) as [[[m a'] dn]| |]; [|done..].
  case_decide as Hok; [|done]. intros [= <- <-]. exists m, dn. split_and!; [done|apply Hok|done].
Qed.

Lemma SendCommitClaim_ok ok a h bh i th d d' :
  SendCommitClaim ok a h bh i th d = Some (d', Ok tt) ->
  exists v t, hash_value BlockHashSize h bh = Some v /\ hash_value TXHashSize (h +u i) th = Some t /\
    mg_ctx (d_mgr d') = DoCommitClaim (mg_ctx (d_mgr d)) (mkCommitClaim ok (address_arg a) h v i t).
Proof.
  intros (d1 & v & [Hv ->]%direct_hash_ok & K1)%direct_bind_ok.
  apply direct_bind_ok in K1 as (d2 & t & [Ht ->]%direct_hash_ok & K2).
  apply direct_bind_ok in K2 as (d3 & [] & [= <-] & K3).
  apply direct_call_ok in K3 as (m & dn & [= <- <-] & _ & ->). by exists v, t.
Qed.

Lemma SendCommitBlock_ok ok h bh d d' r :
  SendCommitBlock ok h bh d = Some (d', Ok r) ->
  exists v, hash_value BlockHashSize h bh = Some v /\
    commitBlock (E := Empty_set) (mg_ctx (d_mgr d)) (mkCommitBlock ok h (Some v)) = Ok (mg_ctx (d_mgr d'), r).
Proof.
  intros (d1 & v & [Hv ->]%direct_hash_ok & K1)%direct_bind_ok.
  apply direct_bind_ok in K1 as (d3 & [] & [= <-] & K3).
  apply direct_call_ok in K3 as (m & dn & Ha & _ & ->). cbn [answer d_mgr] in Ha.
  apply obind_ok in Ha as ([ctx resp] & Hb & [= <- <- <-]). by exists v.
Qed.

(** What [SendClaim] with its commits does to the context. *)
Lemma SendClaim_committed address h blockHash txIndex txHash s s' resp :
  SendClaim address h blockHash txIndex txHash false false s = Some (s', Ok resp) -> rcl_IScore resp <> 0 ->
  exists req ctx1 bh block, wf_hash (cm_BlockHash req) /\ is_u64 (cm_BlockHeight req) /\ is_u64 (cm_TXIndex req) /\
    wf_Address (cm_Address req) /\ cm_Address req = address_arg address /\ cm_BlockHeight req = h /\
    DoClaim (E := Empty_set) (mg_ctx (d_mgr s)) req = Ok (ctx1, (bh, Some (rcl_IScore resp))) /\
    commitBlock (E := Empty_set) (DoCommitClaim ctx1 (commit_of req)) (mkCommitBlock true h (Some (cm_BlockHash req)))
      = Ok (mg_ctx (d_mgr s'), block).
Proof.
  intros (d1 & bh & [Hbh ->]%direct_hash_ok & K1)%direct_bind_ok Hnz.
  apply direct_bind_ok in K1 as (d2 & [] & [= <-] & K2). apply direct_bind_ok in K2 as (d3 & r & Hc & K3).
  apply direct_call_ok in Hc as (m & dn & Ha & (Haddr & Hh & Hi) & ->).
  apply direct_bind_ok in K3 as (d4 & [] & Hcc & K4). apply direct_bind_ok in K4 as (d5 & [] & Hcb & [= -> ->]).
  cbn [answer d_mgr] in Ha. apply obind_ok in Ha as ([ctx1 r1] & Hcl & [= <- <- <-]).
  apply obind_ok in Hcl as ([ctx2 [bh' i]] & Hcl & [= -> <-]). cbn [rcl_IScore] in *.
  destruct i as [i|]; [|done]. cbn [default] in Hnz, Hcc. apply Z.eqb_neq in Hnz. rewrite Hnz in Hcc. cbn [negb andb] in Hcc.
  apply SendCommitClaim_ok in Hcc as (v & t & Hv & Ht & Hctx). apply direct_bind_ok in Hcb as (d6 & b & Hcb & [= <-]).
  apply SendCommitBlock_ok in Hcb as (w & Hw & Hcb). rewrite Hv in Hbh, Hw. injection Hbh as ->. injection Hw as <-.
  apply hash_value_wf in Hv. apply hash_value_claim in Ht.
  eexists (mkClaimMessage _ _ _ _ _), ctx1, bh', b. split_and!; [apply Hv..|exact Hh|exact Hi|exact Haddr|done|done|exact Hcl|].
  unfold commit_of. cbn [cm_Address cm_BlockHeight cm_BlockHash cm_TXIndex cm_TXHash]. rewrite Ht.
  cbn [d_mgr set_ctx mg_ctx] in Hctx. by rewrite <-Hctx.
Qed.

(** C5: A claim over a connection: when [SendClaim] with its commits returns an
    I-Score that is not zero, the address has claimed exactly that much more on the
    server, keeps what it earned, and has less than 1000 left; the
    connection is in step for the next call. *)
Theorem SendClaim_claims h rc s address blockHash txIndex txHash s' resp :
  in_sync rc s -> ledger h (mg_ctx (d_mgr s)) ->
  SendClaim (M := Direct) address h blockHash txIndex txHash false false s = Some (s', Ok resp) ->
  rcl_IScore resp <> 0 ->
  let a := address_arg address in
  let ctx := mg_ctx (d_mgr s) in
  let ctx' := mg_ctx (d_mgr s') in
  exists rc', SendClaim (M := Wire _) address h blockHash txIndex txHash false false rc = (rc', Ok resp) /\
    in_sync rc' s' /\ claimed ctx' a = claimed ctx a + rcl_IScore resp /\ earned ctx' a = earned ctx a /\
    0 <= earned ctx' a - claimed ctx' a < 1000.
Proof.
  intros Hs L Hd Hnz a ctx ctx'.
  destruct (refines_api shake256 map_order candidate_order world (A_SendClaim address h blockHash txIndex txHash false false)
    _ _ _ _ Hs Hd) as (rc' & Hw & Hs').
  apply SendClaim_committed in Hd as (req & ctx1 & bh & block & Hh & Hb & Hi & Hadr & Ha & Hreq & Hcl & Hcb); [|done].
  destruct (claim_flow (E := Empty_set) h ctx req ctx1 bh (rcl_IScore resp)) as (ctx3 & Hcb' & Hflow); [done|by split_and!|done..|].
  rewrite Hcb in Hcb'. injection Hcb' as <- _. rewrite Ha in Hflow. by exists rc'.
Qed.

End ClaimRemote.
