(* ===== verification/Concurrent.v ===== *)
(** * Claims handled at the same time

    [HandleMessage] runs the handlers of CLAIM and COMMIT_CLAIM in goroutines, and
    no lock covers one of them as a whole.  Here a handler is the sequence of
    its accesses to the stores: CLAIM reads the pre-commit DB, the claim DB and the
    account, then writes the pre-commit; COMMIT_CLAIM reads the pre-commit, then
    writes or deletes it.  A client waits for each answer, so that its messages are
    a session, run in order; the steps of different sessions mix in any way. *)

From S2P Require Import Prelude Bytes HexInt Address Store Codec Typed Account ClaimDB ClaimJournal Management IISSData IScoreDB Context Messages ClaimLedger.

Inductive claim_op := Op_claim (req : ClaimMessage) | Op_commit (req : CommitClaim).

Definition op_pre_commit (o : claim_op) : PreCommit :=
  match o with
  | Op_claim req => pre_commit_of req
  | Op_commit req => newPreCommit (cc_BlockHeight req) (cc_BlockHash req) (cc_TXIndex req) (cc_TXHash req) (cc_Address req)
  end.

(** Where a handler is: what it holds in its variables. *)
Inductive phase :=
  | Idle
  | Queried (req : ClaimMessage)
  | ClaimRead (req : ClaimMessage) (claim : option Claim)
  | AccountRead (req : ClaimMessage) (claim : option Claim) (ia : option IScoreAccount)
  | Committing (success : bool) (pc : PreCommit)
  | Crashed.

(** The messages to come, the handler at work, and the answers to CLAIMs. *)
Record session := mkSession { s_ops : list claim_op; s_phase : phase; s_answers : list (Z * option Z) }.

Definition start (ops : list claim_op) : session := mkSession ops Idle [].

Section Concurrent.
Context {D : Type} `{!LevelDB D, !LevelDBLaws D}.
Context `{!Codec ClaimData, !CodecLaws ClaimData, !Codec ClaimBackupInfo, !CodecLaws ClaimBackupInfo,
  !Codec PreCommitData, !CodecLaws PreCommitData}.
Context `{!Codec IScoreData, !Codec DBInfoData, !Codec GVData, !Codec PRepData}.
Implicit Type (ctx : Context D) (pcDB : D) (k : bytes).

(** The end of [DoClaim], from the claim and the account that were read. *)
Definition finish_claim (req : ClaimMessage) (claim : option Claim) (ia : option IScoreAccount) pcDB : D * (Z * option Z) :=
  match ia with
  | None => (pcDB, (0, None))
  | Some ia =>
      if match claim with Some c => ia_BlockHeight ia =? cd_BlockHeight (c_Data c) | None => false end
      then (pcDB, (ia_BlockHeight ia, None))
      else
        let iScore := match claim with Some c => ia_IScore ia - cd_IScore (c_Data c) | None => ia_IScore ia end in
        if iScore <? BigIntClaimMinIScore then (pcDB, (0, None))
        else
          let iScore := iScore - big_Mod iScore BigIntClaimMinIScore in
          (pc_write (pre_commit_of req) (Some iScore) pcDB, (ia_BlockHeight ia, Some iScore))
  end.

(** The account as it is stored. *)
Definition read_account ctx f a : option IScoreAccount :=
  match bucket_Get PrefixIScore (db_at (DB ctx) f) (Address_Bytes a) with
  | Some bs => NewIScoreAccountFromBytes bs
  | None => None
  end.
#[global] Arguments read_account : simpl never.

(** One access of the handler at work, or the first of the next message. *)
Definition session_step ctx (st : D * session) : D * session :=
  let '(pcDB, s) := st in
  let go ops ph answers := mkSession ops ph (s_answers s ++ answers) in
  match s_phase s with
  | Idle =>
      match s_ops s with
      | [] => (pcDB, s)
      | Op_claim req :: ops =>
          let '(pc, found) := pc_query (pre_commit_of req) pcDB in
          if found : bool then (pcDB, go ops Idle [(pc_BlockHeight pc, None)]) else (pcDB, go ops (Queried req) [])
      | Op_commit req :: ops =>
          let '(pc, found) := pc_query (op_pre_commit (Op_commit req)) pcDB in
          if negb found || negb (cc_TXIndex req =? pc_TXIndex pc) || pc_Confirmed pc then (pcDB, go ops Idle [])
          else (pcDB, go ops (Committing (cc_Success req) pc) [])
      end
  | Queried req => (pcDB, go (s_ops s) (ClaimRead req (find_claim (claim (DB ctx)) (cm_Address req))) [])
  | ClaimRead req claim =>
      match getQueryDB (E := Empty_set) (DB ctx) (cm_Address req) with
      | Ok f => (pcDB, go (s_ops s) (AccountRead req claim (read_account ctx f (cm_Address req))) [])
      | _ => (pcDB, go (s_ops s) Crashed [])
      end
  | AccountRead req claim ia =>
      let '(pcDB, answer) := finish_claim req claim ia pcDB in (pcDB, go (s_ops s) Idle [answer])
  | Committing success pc =>
      (if success then pc_write (pc_set_Confirmed true pc) None pcDB else pc_delete pc pcDB, go (s_ops s) Idle [])
  | Crashed => (pcDB, s)
  end.

Abbreviation steps ctx n := (Nat.iter n (session_step ctx)).

(** Sessions together: the schedule names the one that goes on. *)
Definition run_one ctx (st : D * list session) (i : nat) : D * list session :=
  match st.2 !! i with
  | Some s => let '(pcDB, s) := session_step ctx (st.1, s) in (pcDB, <[i := s]> st.2)
  | None => st
  end.
Definition run_schedule ctx (st : D * list session) (sch : list nat) : D * list session := fold_left (run_one ctx) sch st.

(** A session alone, each message handled whole. *)
Definition run_op ctx (o : claim_op) : outcome Empty_set (Context D * list (Z * option Z)) :=
  match o with
  | Op_claim req => let! (ctx, answer) := DoClaim ctx req in Ok (ctx, [answer])
  | Op_commit req => Ok (DoCommitClaim ctx req, [])
  end.
Fixpoint run_ops ctx (ops : list claim_op) : outcome Empty_set (Context D * list (Z * option Z)) :=
  match ops with
  | [] => Ok (ctx, [])
  | o :: ops =>
      let! (ctx, a) := run_op ctx o in
      let! (ctx, answers) := run_ops ctx ops in Ok (ctx, a ++ answers)
  end.

(** ** A session alone takes at most four steps for a message *)

Definition with_pc ctx pcDB : Context D := update_DB (set_preCommit pcDB) ctx.

(** [DoClaim] by its accesses. *)
Lemma DoClaim_phases ctx pcDB req :
  DoClaim (E := Empty_set) (with_pc ctx pcDB) req =
  let '(pc, found) := pc_query (pre_commit_of req) pcDB in
  if found : bool then Ok (with_pc ctx pcDB, (pc_BlockHeight pc, None))
  else
    let! f := getQueryDB (DB ctx) (cm_Address req) in
    let '(pcDB, answer) := finish_claim req (find_claim (claim (DB ctx)) (cm_Address req)) (read_account ctx f (cm_Address req)) pcDB in
    Ok (with_pc ctx pcDB, answer).
Proof.
  unfold DoClaim. fold (pre_commit_of req). cbn [DB with_pc update_DB set_DB preCommit set_preCommit claim].
  pose proof (pc_query_missing (pre_commit_of req) pcDB) as Hm.
  destruct (pc_query _ _) as [pc []]; [done|]. cbn in Hm. rewrite (Hm eq_refl).
  change (getQueryDB (set_preCommit pcDB (DB ctx)) (cm_Address req)) with (getQueryDB (E := Empty_set) (DB ctx) (cm_Address req)).
  destruct (getQueryDB _ _) as [f| |]; [|done..]. cbn [obind]. unfold read_account, finish_claim.
  change (db_at (set_preCommit pcDB (DB ctx)) f) with (db_at (DB ctx) f).
  destruct (bucket_Get _ _ _) as [bs|]; [|done]. destruct (NewIScoreAccountFromBytes bs) as [ia|]; [|done].
  destruct (match find_claim _ _ with Some _ => _ | None => _ end); [done|]. by destruct (_ <? _).
Qed.

Lemma claim_steps ctx pcDB req ops answers ctx' a :
  DoClaim (E := Empty_set) (with_pc ctx pcDB) req = Ok (ctx', a) ->
  exists n pcDB', (n <= 4)%nat /\ ctx' = with_pc ctx pcDB' /\
    steps ctx n (pcDB, mkSession (Op_claim req :: ops) Idle answers) = (pcDB', mkSession ops Idle (answers ++ [a])).
Proof.
  rewrite DoClaim_phases. destruct (pc_query _ _) as [pc []] eqn:Eq.
  { intros [= <- <-]. exists 1%nat, pcDB. split; [lia|]. split; [done|]. cbn. by rewrite Eq. }
  intros (f & Hf & Hc)%obind_ok. destruct (finish_claim _ _ _ _) as [pcDB' ans] eqn:Ef. injection Hc as <- <-.
  exists 4%nat, pcDB'. split; [lia|]. split; [done|]. cbn. rewrite Eq. cbn. rewrite Hf. cbn. rewrite Ef. by rewrite !app_nil_r.
Qed.

Lemma commit_steps ctx pcDB req ops answers :
  exists n pcDB', (n <= 4)%nat /\ DoCommitClaim (with_pc ctx pcDB) req = with_pc ctx pcDB' /\
    steps ctx n (pcDB, mkSession (Op_commit req :: ops) Idle answers) = (pcDB', mkSession ops Idle answers).
Proof.
  unfold DoCommitClaim. fold (op_pre_commit (Op_commit req)).
  cbn [DB with_pc update_DB set_DB preCommit set_preCommit]. unfold pc_commit, pc_revert.
  change (pc_TXIndex (op_pre_commit (Op_commit req))) with (cc_TXIndex req).
  destruct (pc_query (op_pre_commit (Op_commit req)) pcDB) as [pc found] eqn:Eq.
  destruct (negb found || negb (cc_TXIndex req =? pc_TXIndex pc) || pc_Confirmed pc) eqn:Eb.
  - exists 1%nat, pcDB. split; [lia|]. split.
    + destruct found, (cc_TXIndex req =? _), (pc_Confirmed pc), (cc_Success req); done.
    + cbn [Nat.iter nat_rect]. unfold session_step. cbn [s_phase s_ops s_answers]. by rewrite Eq, Eb, app_nil_r.
  - exists 2%nat, (if cc_Success req then pc_write (pc_set_Confirmed true pc) None pcDB else pc_delete pc pcDB).
    split; [lia|]. split.
    + destruct found, (cc_TXIndex req =? _), (pc_Confirmed pc), (cc_Success req); done.
    + cbn [Nat.iter nat_rect]. unfold session_step at 2. cbn [s_phase s_ops s_answers]. rewrite Eq, Eb, app_nil_r.
      cbn. by rewrite app_nil_r.
Qed.

Lemma run_op_steps ctx pcDB o ops answers ctx' a :
  run_op (with_pc ctx pcDB) o = Ok (ctx', a) ->
  exists n pcDB', (n <= 4)%nat /\ ctx' = with_pc ctx pcDB' /\
    steps ctx n (pcDB, mkSession (o :: ops) Idle answers) = (pcDB', mkSession ops Idle (answers ++ a)).
Proof.
  destruct o as [req|req]; cbn [run_op].
  - intros ([c1 ans] & Hc & [= <- <-])%obind_ok. by apply claim_steps.
  - intros [= <- <-]. rewrite app_nil_r. destruct (commit_steps ctx pcDB req ops answers) as (n & pcDB' & ? & -> & ?). by exists n, pcDB'.
Qed.

Lemma steps_idle ctx n pcDB answers : steps ctx n (pcDB, mkSession [] Idle answers) = (pcDB, mkSession [] Idle answers).
Proof. induction n as [|n IH]; [done|]. rewrite Nat.iter_succ, IH. done. Qed.

Lemma run_ops_steps ctx pcDB ops answers ctx' a n :
  run_ops (with_pc ctx pcDB) ops = Ok (ctx', a) -> (4 * length ops <= n)%nat ->
  exists pcDB', ctx' = with_pc ctx pcDB' /\
    steps ctx n (pcDB, mkSession ops Idle answers) = (pcDB', mkSession [] Idle (answers ++ a)).
Proof.
  revert pcDB answers a n. induction ops as [|o ops IH]; intros pcDB answers a n; cbn [run_ops].
  - intros [= <- <-] _. exists pcDB. split; [done|]. by rewrite steps_idle, app_nil_r.
  - intros ([c1 a1] & H1 & ([c2 a2] & H2 & [= <- <-])%obind_ok)%obind_ok Hn. cbn [length] in Hn.
    destruct (run_op_steps ctx pcDB o ops answers c1 a1 H1) as (m & pcDB1 & Hm & -> & Hs).
    destruct (IH pcDB1 (answers ++ a1) a2 (n - m)%nat H2) as (pcDB2 & -> & Hs2); [lia|].
    exists pcDB2. split; [done|]. replace n with ((n - m) + m)%nat by lia. rewrite Nat.iter_add, Hs, Hs2. by rewrite app_assoc.
Qed.

(** ** What a step of a session can see and change *)

Definition op_ok k (o : claim_op) : Prop :=
  pc_ID (op_pre_commit o) = k /\
  match o with Op_claim req => wf_ClaimMessage req | Op_commit req => wf_CommitClaim req end.

(** Everything in hand is about the pre-commit [k]. *)
Definition phase_ok k (ph : phase) : Prop :=
  match ph with
  | Queried req | ClaimRead req _ | AccountRead req _ _ => op_ok k (Op_claim req)
  | Committing _ pc => pc_entry k (pc_Bytes pc) pc
  | Idle | Crashed => True
  end.
Definition session_ok k (s : session) : Prop := Forall (op_ok k) (s_ops s) /\ phase_ok k (s_phase s).

(** The entry under the key is one of its pre-commit. *)
Definition entry_ok k (v : option bytes) : Prop := forall bs, v = Some bs -> exists pc, pc_entry k bs pc.

(** Two stores with the same entry under [k], and one that differs from another
    only there. *)
Definition same_at k pcDB pcDB' : Prop := ldb_get pcDB k = ldb_get pcDB' k.
Definition only_at k pcDB pcDB' : Prop := forall k', k' <> k -> ldb_get pcDB' k' = ldb_get pcDB k'.

Lemma query_ok k pc pcDB : wf_PreCommit pc -> pc_ID pc = k -> entry_ok k (ldb_get pcDB k) ->
  pc_query pc pcDB = (pc, false) \/ exists pc', pc_query pc pcDB = (pc', true) /\ pc_entry k (pc_Bytes pc') pc'.
Proof.
  intros Hpc Hk He. destruct (ldb_get pcDB k) as [v|] eqn:Ev.
  - destruct (He v eq_refl) as (pc' & Hpc' & E1 & E2 & E3). right. exists pc'. subst v.
    rewrite (pc_query_entry pcDB pc pc') by (done || congruence).
    rewrite (pc_set_Data_stored pc pc') by (done || congruence). done.
  - left. apply pc_query_none. congruence.
Qed.

Lemma query_same k pc pcDB pcDB' : pc_ID pc = k -> same_at k pcDB pcDB' -> pc_query pc pcDB = pc_query pc pcDB'.
Proof. intros Hk Hs. unfold pc_query. rewrite !bucket_Get_ldb. change (PrefixClaim ++ pc_ID pc) with (pc_ID pc). by rewrite Hk, Hs. Qed.

Lemma op_wf k o : op_ok k o -> wf_PreCommit (op_pre_commit o).
Proof. intros [_ Ho]. destruct o; destruct Ho as (? & [? ?] & ? & ?); by apply newPreCommit_wf. Qed.

(** The effect of a step: nothing, an entry under the key, or none there. *)
Inductive update := Keep | Put (pc : PreCommit) | Remove.
Definition apply_update k (u : update) pcDB : D :=
  match u with
  | Keep => pcDB
  | Put pc => bucket_Set PrefixClaim k (pc_Bytes pc) pcDB
  | Remove => bucket_Delete PrefixClaim k pcDB
  end.
Definition update_ok k (u : update) : Prop := match u with Put pc => pc_entry k (pc_Bytes pc) pc | _ => True end.
Definition update_value (u : update) (v : option bytes) : option bytes :=
  match u with Keep => v | Put pc => Some (pc_Bytes pc) | Remove => None end.

Lemma apply_update_get k u pcDB k' :
  ldb_get (apply_update k u pcDB) k' = if decide (k = k') then update_value u (ldb_get pcDB k) else ldb_get pcDB k'.
Proof.
  destruct u; cbn [apply_update update_value].
  - by case_decide as E; [rewrite E|].
  - apply bucket_get_set.
  - apply bucket_get_delete.
Qed.

Lemma update_entry k u v : update_ok k u -> entry_ok k v -> entry_ok k (update_value u v).
Proof. destruct u as [|pc|]; [done|intros Hpc _ bs [= <-]; by exists pc|done]. Qed.

Lemma finish_update k req c ia : op_ok k (Op_claim req) ->
  exists u answer, update_ok k u /\ forall pcDB, finish_claim req c ia pcDB = (apply_update k u pcDB, answer).
Proof.
  intros [<- Hreq]. unfold finish_claim. destruct ia as [ia|]; [|by exists Keep, (0, None)].
  destruct (match c with Some _ => _ | None => _ end); [by exists Keep, (ia_BlockHeight ia, None)|].
  set (iScore := match c with Some _ => _ | None => _ end). destruct (iScore <? _); [by exists Keep, (0, None)|].
  set (i := iScore - _). exists (Put (claim_entry req i)), (ia_BlockHeight ia, Some i). split; [|done].
  by apply claim_entry_ok.
Qed.

(** The first access of a message. *)
Lemma first_step ctx k pcDB o ops answers : op_ok k o -> Forall (op_ok k) ops -> entry_ok k (ldb_get pcDB k) ->
  exists s', session_ok k s' /\ forall pcDB', same_at k pcDB pcDB' ->
    session_step ctx (pcDB', mkSession (o :: ops) Idle answers) = (pcDB', s').
Proof.
  intros Ho Hops He. pose proof (op_wf k o Ho) as Hwf.
  assert (Hsame : forall pcDB', same_at k pcDB pcDB' -> pc_query (op_pre_commit o) pcDB' = pc_query (op_pre_commit o) pcDB).
  { intros pcDB' Hs. symmetry. apply (query_same k); [apply Ho|done]. }
  unfold session_step. cbn [s_phase s_ops s_answers].
  destruct o as [req|req]; cbn [op_pre_commit] in *;
    (destruct (query_ok k _ pcDB Hwf (proj1 Ho) He) as [Hq|(pc & Hq & Hpc)]; rewrite Hq in Hsame).
  - eexists. split; [|intros pcDB' Hs; by rewrite (Hsame _ Hs)]. by split.
  - eexists. split; [|intros pcDB' Hs; by rewrite (Hsame _ Hs)]. by split.
  - eexists. split; [|intros pcDB' Hs; by rewrite (Hsame _ Hs)]. by split.
  - destruct (negb (cc_TXIndex req =? pc_TXIndex pc) || pc_Confirmed pc) eqn:Eb;
      (eexists; split; [|intros pcDB' Hs; rewrite (Hsame _ Hs); cbn [negb orb]; by rewrite Eb]); by split.
Qed.

Ltac keep_step := exists Keep; eexists; split; [done|]; split; [|intros ? _; reflexivity]; by split.

(** A step sees of the store only the entry under the key, and changes only that. *)
Lemma step_update ctx k pcDB s : session_ok k s -> entry_ok k (ldb_get pcDB k) ->
  exists u s', update_ok k u /\ session_ok k s' /\
    forall pcDB', same_at k pcDB pcDB' -> session_step ctx (pcDB', s) = (apply_update k u pcDB', s').
Proof.
  intros [Hops Hph] He. destruct s as [ops ph answers]; cbn [s_ops s_phase] in *.
  destruct ph as [|req|req c|req c ia|ok pc|]; cbn [phase_ok] in Hph.
  - destruct Hops as [|o ops Ho Hops]; [keep_step|].
    destruct (first_step ctx k pcDB o ops answers Ho Hops He) as (s' & Hs' & Hstep). by exists Keep, s'.
  - keep_step.
  - unfold session_step. cbn [s_phase s_ops s_answers].
    destruct (getQueryDB _ _) as [f| |]; keep_step.
  - destruct (finish_update k req c ia Hph) as (u & answer & Hu & Hf). exists u. eexists. split; [done|].
    split; [|intros pcDB' _; unfold session_step; cbn [s_phase s_ops s_answers]; by rewrite Hf]. by split.
  - pose proof (proj1 (proj2 Hph)) as ->. destruct ok.
    + exists (Put (pc_confirm pc)). eexists. split; [by apply (pc_entry_confirm _ (pc_Bytes pc))|]. split; [|done]. by split.
    + exists Remove. eexists. split; [done|]. split; [|done]. by split.
  - keep_step.
Qed.

(** ** Sessions together *)

Lemma lookup_insert_case {A} (l : list A) i j x y : l !! i = Some y ->
  <[i := x]> l !! j = if decide (i = j) then Some x else l !! j.
Proof.
  intros Hi. case_decide as E; [subst j|by rewrite list_lookup_insert_ne].
  apply list_lookup_insert_eq. by eapply lookup_lt_Some.
Qed.

(** How often a schedule names a session. *)
Definition turns (i : nat) (sch : list nat) : nat := count_occ Nat.eq_dec sch i.

Lemma turns_app i sch j : turns i (sch ++ [j]) = (turns i sch + if decide (j = i) then 1 else 0)%nat.
Proof. unfold turns. rewrite count_occ_app. cbn. by destruct (Nat.eq_dec j i); case_decide. Qed.

Section Isolation.
Context (ctx : Context D) (pcDB : D) (ks : list bytes) (ss : list session).
Context (ks_distinct : NoDup ks) (ss_ok : Forall2 session_ok ks ss) (pcDB_ok : forall k, k ∈ ks -> entry_ok k (ldb_get pcDB k)).

(** A session in the mix is where it would be alone after as many steps, and
    so is its entry. *)
Definition as_alone (sch : list nat) (st : D * list session) : Prop :=
  length st.2 = length ss /\
  (forall k, k ∉ ks -> ldb_get st.1 k = ldb_get pcDB k) /\
  forall i k s, ks !! i = Some k -> ss !! i = Some s ->
    let alone := steps ctx (turns i sch) (pcDB, s) in
    st.2 !! i = Some alone.2 /\ same_at k alone.1 st.1 /\ session_ok k alone.2 /\ entry_ok k (ldb_get alone.1 k).

Lemma as_alone_start : as_alone [] (pcDB, ss).
Proof.
  split_and!; [done..|]. intros i k s Hk Hs. cbn. split_and!; [done..| |].
  - by apply (Forall2_lookup_lr _ _ _ _ _ _ ss_ok Hk Hs).
  - apply pcDB_ok. by eapply list_elem_of_lookup_2.
Qed.

Lemma as_alone_step sch st j : as_alone sch st -> as_alone (sch ++ [j]) (run_one ctx st j).
Proof.
  destruct st as [d ts]. intros (Hlen & Hout & Hin). cbn [fst snd] in *. unfold run_one. cbn [fst snd].
  destruct (ts !! j) as [sj|] eqn:Hj.
  2: { split_and!; [done..|]. intros i k s Hk Hs. rewrite turns_app. rewrite decide_False, Nat.add_0_r; [by apply Hin|].
    intros ->. apply lookup_ge_None in Hj. apply lookup_lt_Some in Hs. cbn in Hlen. lia. }
  assert (exists kj s0, ks !! j = Some kj /\ ss !! j = Some s0) as (kj & s0 & Hkj & Hs0).
  { apply lookup_lt_Some in Hj. pose proof (Forall2_length _ _ _ ss_ok).
    destruct (lookup_lt_is_Some_2 ks j), (lookup_lt_is_Some_2 ss j); [lia..|]. by do 2 eexists. }
  destruct (Hin j kj s0 Hkj Hs0) as (Ej & Hsame & Hok & He). rewrite Hj in Ej. injection Ej as Ej.
  set (alone := steps ctx (turns j sch) (pcDB, s0)) in *.
  destruct (step_update ctx kj alone.1 alone.2 Hok He) as (u & s' & Hu & Hs' & Hstep).
  rewrite Ej, (Hstep d Hsame). split_and!; cbn [fst snd].
  - by rewrite length_insert.
  - intros k Hk. rewrite apply_update_get, decide_False; [by apply Hout|].
    intros ->. apply Hk. by eapply list_elem_of_lookup_2.
  - intros i k s Hk Hs. rewrite turns_app, (lookup_insert_case _ _ _ _ _ Hj). case_decide as Eij.
    + subst i. simplify_eq. rewrite Nat.add_1_r, Nat.iter_succ. fold alone.
      rewrite (surjective_pairing alone), (Hstep alone.1) by done. cbn [fst snd]. split_and!; [done| |done|].
      * unfold same_at. rewrite !apply_update_get, !decide_True by done. by rewrite Hsame.
      * rewrite apply_update_get, decide_True by done. by apply update_entry.
    + rewrite Nat.add_0_r. destruct (Hin i k s Hk Hs) as (E1 & E2 & E3 & E4). split_and!; [done| |done..].
      unfold same_at. rewrite apply_update_get, decide_False; [exact E2|]. intros <-.
      apply Eij. by eapply NoDup_lookup.
Qed.

Lemma run_as_alone sch : as_alone sch (run_schedule ctx (pcDB, ss) sch).
Proof.
  induction sch as [|j sch IH] using rev_ind; [apply as_alone_start|].
  unfold run_schedule in *. rewrite fold_left_app. by apply as_alone_step.
Qed.
End Isolation.

(** C9: Claims of different accounts, or of different blocks, handled at the same
    time do not disturb one another: in whatever order their steps mix,
    each session that got its turns has the answers, and leaves under its key the
    pre-commit, that it would have alone with every message handled whole; other
    pre-commits stay as they were. *)
Theorem claims_isolated ctx ks sessions sch pcDB' ss' :
  pc_inv (preCommit (DB ctx)) -> NoDup ks -> Forall2 (fun k ops => Forall (op_ok k) ops) ks sessions ->
  run_schedule ctx (preCommit (DB ctx), map start sessions) sch = (pcDB', ss') ->
  (forall i k ops ctx_i answers, ks !! i = Some k -> sessions !! i = Some ops ->
     (4 * length ops <= turns i sch)%nat -> run_ops ctx ops = Ok (ctx_i, answers) ->
     ss' !! i = Some (mkSession [] Idle answers) /\ ldb_get pcDB' k = ldb_get (preCommit (DB ctx_i)) k) /\
  (forall k, k ∉ ks -> ldb_get pcDB' k = ldb_get (preCommit (DB ctx)) k).
Proof.
  intros Hinv Hnd Hops Hrun.
  destruct (run_as_alone ctx (preCommit (DB ctx)) ks (map start sessions) Hnd) with (sch := sch) as (_ & Hout & Hin).
  - apply Forall2_fmap_r. eapply Forall2_impl; [exact Hops|]. intros k ops Hk. by split.
  - intros k _ bs Hbs. by apply (Hinv k).
  - rewrite Hrun in *. cbn [fst snd] in *. split; [|done]. intros i k ops ctx_i answers Hk Hs Hn Hr.
    destruct (Hin i k (start ops) Hk) as (E1 & E2 & _); [by rewrite list_lookup_fmap, Hs|].
    destruct (run_ops_steps ctx (preCommit (DB ctx)) ops [] ctx_i answers _ ltac:(by destruct ctx as [[]]) Hn) as (pcDB1 & -> & Hst).
    unfold start in *. rewrite Hst in E1, E2. by split.
Qed.
End Concurrent.
