(* ===== verification/DBTool.v ===== *)
(** * The database browser ([cmd/dbtool], [cmd/common/db_utils.go])

    A tool that opens the stores of a calculator and prints their records.  A
    printed line is the record in it; a run is what was printed and how it ended.
    A path stands for the store at it. *)

From S2P Require Import Prelude Bytes HexInt Address Store Codec Typed Account ClaimDB Management IISSData IScoreDB Context CalcDebug MsgDebug Calculate.

Inductive tool_error := ErrInvalidPath | ErrRecord | ErrNoPreCommitKey | ErrInvalidDataType | ErrDebugQuery (e : msg_debug_error).

Inductive printed :=
  | P_account (account : IScoreAccount)
  | P_no_account (address : bytes)
  | P_claim (claim : Claim)
  | P_claim_backup (key : bytes) (claim : Claim)
  | P_claim_backup_info (cbInfo : ClaimBackupInfo)
  | P_pre_commit (pc : PreCommit)
  | P_calc_result (blockHeight : Z) (cr : CRData)
  | P_no_calc_result
  | P_header (header : IISSHeader)
  | P_iiss_gv (gv : IISSGovernanceVariable)
  | P_bp (bp : IISSBlockProduceInfo)
  | P_no_bp (blockHeight : Z)
  | P_prep (prep : PRep)
  | P_no_prep (blockHeight : Z)
  | P_tx (tx : IISSTX)
  | P_no_tx (blockHeight : Z)
  | P_db_info (dbInfo : DBInfoData)
  | P_gv (gv : GovernanceVariable)
  | P_candidate (pc : PRepCandidate)
  | P_calc_debug (dr : CalcDebugResult)
  | P_iscores (outputFile : bytes) (result : gmap bytes Z).

(** ** Runs *)

Definition tool (A : Type) : Type := list printed * outcome tool_error A.

Definition tret {A} (a : A) : tool A := ([], Ok a).
Definition tfail {A} (e : tool_error) : tool A := ([], Err e).
Definition tlift {A} (m : outcome tool_error A) : tool A := ([], m).
Definition print (p : printed) : tool unit := ([p], Ok tt).
Definition tbind {A B} (m : tool A) (f : A -> tool B) : tool B :=
  match m with
  | (out, Ok a) => let '(out', r) := f a in (out ++ out', r)
  | (out, Err e) => (out, Err e)
  | (out, Panic) => (out, Panic)
  end.
Notation "'let$' x := m 'in' k" := (tbind m (fun x => k))
  (at level 10, x pattern, m at level 100, k at level 200) : rc_scope.
Definition then_ (m : tool unit) (k : tool unit) : tool unit := let$ _ := m in k.
Infix ";$" := then_ (at level 60, right associativity) : rc_scope.

Definition found {A} (o : option A) (f : A -> tool unit) : tool unit := match o with Some a => f a | None => tret tt end.

(** [NewAddressFromString] panics on text that is no address; [NewAddress]
    of a key ignores errors, and panics on an empty one. *)
Definition address_of_string (s : bytes) : outcome tool_error Address :=
  match NewAddressFromString s with Ok a => Ok a | _ => Panic end.
Definition address_of_key (k : bytes) : outcome tool_error Address :=
  match NewAddress (Some k) with Ok a => Ok a | _ => Panic end.

Section DBTool.
Context {D : Type} `{!LevelDB D}.
Context `{!Codec IScoreData, !Codec ClaimData, !Codec ClaimBackupInfo, !Codec PreCommitData, !Codec CRData}.

(** The loop of [IteratePrintDB] over what the iterator delivers. *)
Fixpoint print_entries (printFunc : bytes -> bytes -> tool unit) (l : list (bytes * bytes)) : tool unit :=
  match l with
  | [] => tret tt
  | (k, v) :: l => printFunc k v ;$ print_entries printFunc l
  end.
Definition IteratePrintDB (qdb : D) (prefix : bytes * option bytes) (printFunc : bytes -> bytes -> tool unit) : tool unit :=
  print_entries printFunc (iter_New (Some prefix.1) prefix.2 qdb).

(** ** Accounts *)

Definition newIScoreAccount (key value : bytes) : outcome tool_error IScoreAccount :=
  match NewIScoreAccountFromBytes value with
  | None => Err ErrRecord
  | Some account => let! a := address_of_key key in Ok (ia_set_Address a account)
  end.
Definition printAccount (key value : bytes) : tool unit :=
  let$ account := tlift (newIScoreAccount key value) in print (P_account account).

Definition getIScoreAccount (qdb : D) (address : bytes) : outcome tool_error (option IScoreAccount) :=
  let! addr := address_of_string address in
  match bucket_Get PrefixIScore qdb (Address_Bytes addr) with
  | None => Ok None
  | Some value => let! account := newIScoreAccount (Address_Bytes addr) value in Ok (Some account)
  end.

Definition queryAccountDBWithPath (qdb : D) (address : bytes) : tool unit :=
  match address with
  | [] => IteratePrintDB qdb (BytesPrefix PrefixIScore) printAccount
  | _ =>
      let$ account := tlift (getIScoreAccount qdb address) in
      match account with Some account => print (P_account account) | None => print (P_no_account address) end
  end.

(** *** The account DBs under a root directory *)

Definition is_account_name (f : fname) : bool := match f with AccountName _ _ _ => true | BackupName _ _ => false end.
Definition getAccountDBCount (files : gmap fname D) : Z :=
  Z.of_nat (length (filter (fun f => is_account_name f = true) (map_to_list files).*1)) / 2.

Definition getAccountDBPathWithIndex (index dbCount suffix : Z) : fname := AccountName index dbCount suffix.
Definition open_path (files : gmap fname D) (f : fname) : D := default ldb_empty (files !! f).

(** A record that does not decode gives no account. *)
Definition getFirstAccount (qdb : D) : outcome tool_error (option IScoreAccount) :=
  match iter_New (Some (BytesPrefix PrefixIScore).1) (BytesPrefix PrefixIScore).2 qdb with
  | [] => Ok None
  | (key, value) :: _ =>
      match newIScoreAccount key value with
      | Ok account => Ok (Some account)
      | Err _ => Ok None
      | Panic => Panic
      end
  end.

(** The first accounts of the two sides, up to an index whose side 0 has one. *)
Fixpoint first_accounts (files : gmap fname D) (count : Z) (indices : list Z) (last : option IScoreAccount * option IScoreAccount)
    : outcome tool_error (option IScoreAccount * option IScoreAccount) :=
  match indices with
  | [] => Ok last
  | i :: indices =>
      let! account0 := getFirstAccount (open_path files (getAccountDBPathWithIndex i count 0)) in
      let! account1 := getFirstAccount (open_path files (getAccountDBPathWithIndex i count 1)) in
      match account0 with
      | Some _ => Ok (account0, account1)
      | None => first_accounts files count indices (account0, account1)
      end
  end.

Definition guess_suffix (account0 account1 : option IScoreAccount) : Z :=
  match account0, account1 with
  | None, None => 0
  | None, Some _ => 1
  | Some _, None => 0
  | Some a0, Some a1 => if ia_BlockHeight a1 <=? ia_BlockHeight a0 then 1 else 0
  end.

Definition getAccountDBInfo (files : gmap fname D) : outcome tool_error (Z * Z) :=
  let accountDBCount := getAccountDBCount files in
  let! (account0, account1) := first_accounts files accountDBCount (seqZ 1 accountDBCount) (None, None) in
  Ok (accountDBCount, guess_suffix account0 account1).

Inductive account_type := AccountDBTypeQuery | AccountDBTypeCalculate | AccountDBTypeAny.

(** The paths to look at, the query DBs first. *)
Definition account_paths (accountDBCount queryDBSuffix : Z) (index : option Z) (accountDBType : account_type) : list fname :=
  let indices := match index with Some i => [i] | None => seqZ 1 accountDBCount end in
  let suffixes := match accountDBType with
                  | AccountDBTypeCalculate => [1 - queryDBSuffix]
                  | AccountDBTypeQuery => [queryDBSuffix]
                  | AccountDBTypeAny => [queryDBSuffix; 1 - queryDBSuffix]
                  end in
  concat (map (fun suffix => map (fun i => getAccountDBPathWithIndex i accountDBCount suffix) indices) suffixes).

(** [int(addr.ID()[0])%accountDBCount + 1]. *)
Definition account_index (accountDBCount : Z) (addr : Address) : outcome tool_error Z :=
  match Address_ID addr with
  | [] => Panic
  | b :: _ => if accountDBCount =? 0 then Panic else Ok (Z.rem b accountDBCount + 1)
  end.

Fixpoint query_paths (files : gmap fname D) (paths : list fname) (address : bytes) : tool unit :=
  match paths with
  | [] => tret tt
  | path :: paths => queryAccountDBWithPath (open_path files path) address ;$ query_paths files paths address
  end.

Definition queryAccountDBWithRCRoot (files : gmap fname D) (address : bytes) (accountDBType : account_type) : tool unit :=
  let$ (accountDBCount, queryDBSuffix) := tlift (getAccountDBInfo files) in
  let$ index := match address with
                | [] => tret None
                | _ => tlift (let! addr := address_of_string address in
                              let! i := account_index accountDBCount addr in Ok (Some i))
                end in
  query_paths files (account_paths accountDBCount queryDBSuffix index accountDBType) address.

(** ** Claims *)

Definition newClaim (key value : bytes) : outcome tool_error Claim :=
  match NewClaimFromBytes value with
  | None => Err ErrRecord
  | Some claim => let! a := address_of_key key in Ok (mkClaim a (c_Data claim))
  end.
Definition getClaim (qdb : D) (address : Address) : outcome tool_error (option Claim) :=
  match bucket_Get PrefixClaim qdb (Address_Bytes address) with
  | Some value => let! claim := newClaim (Address_Bytes address) value in Ok (Some claim)
  | None => Ok None
  end.
Definition printClaim (key value : bytes) : tool unit :=
  let$ claim := tlift (newClaim key value) in print (P_claim claim).

(** An error of [getClaim] prints nothing and is not returned. *)
Definition queryClaimDB (qdb : D) (Address : bytes) : tool unit :=
  match Address with
  | [] => IteratePrintDB qdb (BytesPrefix PrefixClaim) printClaim
  | _ =>
      let$ address := tlift (address_of_string Address) in
      match getClaim qdb address with
      | Ok claim => found claim (fun c => print (P_claim c))
      | Err _ => tret tt
      | Panic => tlift Panic
      end
  end.

(** *** The backup journal *)

Definition isManageKey (key : bytes) : bool := bool_decide (key = PrefixManagement).

Definition newClaimFromBackup (key value : bytes) : outcome tool_error Claim :=
  match NewClaimFromBytes value with
  | None => Err ErrRecord
  | Some claim =>
      if (length key <? BlockHeightSize)%nat then Panic
      else let! a := address_of_key (drop BlockHeightSize key) in Ok (mkClaim a (c_Data claim))
  end.

Definition printClaimBackup (key value : bytes) : tool unit :=
  if isManageKey key then
    let '(cbInfo, ok) := cb_SetBytes value zero_ClaimBackupInfo in
    if ok : bool then print (P_claim_backup_info cbInfo) else tfail ErrRecord
  else let$ claim := tlift (newClaimFromBackup key value) in print (P_claim_backup key claim).

Definition queryClaimBackupDB (qdb : D) (Height : Z) : tool unit :=
  if Height =? 0 then IteratePrintDB qdb (BytesPrefix PrefixClaim) printClaimBackup
  else IteratePrintDB qdb (MakeIteratorPrefix PrefixClaim Height None 0) printClaimBackup.

(** ** Pre-commits *)

(** The slices of a key shorter than a height and a hash panic. *)
Definition tool_newPreCommit (key value : bytes) : outcome tool_error PreCommit :=
  let '(pc, ok) := pc_SetBytes value zero_PreCommit in
  if negb ok then Err ErrRecord
  else if (length key <? BlockHeightSize + BlockHashSize)%nat then Panic
  else Ok (mkPreCommit (BytesToUint64 (take BlockHeightSize key)) (take BlockHashSize (drop BlockHeightSize key)) (pc_Data pc)).

Definition printPreCommit (key value : bytes) : tool unit :=
  let$ pc := tlift (tool_newPreCommit key value) in print (P_pre_commit pc).

(** The end of the key from the address on, and the bytes of the height that
    a number has, the last ones. *)
Definition key_address_is (address : Address) (key : bytes) : bool :=
  bool_decide (drop (BlockHeightSize + BlockHashSize) key = Address_Bytes address).
Definition key_height_ends (blockHeight : Z) (key : bytes) : bool :=
  let bh := Uint64ToBytes blockHeight in
  bool_decide (drop (BlockHeightSize - length bh) (take BlockHeightSize key) = bh).
Definition key_height_is (blockHeight : Z) (key : bytes) : bool :=
  bool_decide (take BlockHeightSize key = Uint64ToBytes blockHeight).

Definition long_enough (n : nat) (key : bytes) (b : bool) : outcome tool_error bool :=
  if (length key <? n)%nat then Panic else Ok b.

(** The loop of [getKeys] over the keys: with an address and a height it stops
    at the first match.  A slice past the end of a key panics. *)
Fixpoint pre_commit_keys (address : Address) (blockHeight : Z) (keys : list bytes) : outcome tool_error (list bytes) :=
  match keys with
  | [] => Ok []
  | key :: keys =>
      let rest := pre_commit_keys address blockHeight keys in
      let has_address := negb (bool_decide (address = zero_Address)) in
      if has_address && negb (blockHeight =? 0) then
        let! height := long_enough BlockHeightSize key (key_height_ends blockHeight key) in
        if negb height then rest
        else
          let! same := long_enough (BlockHeightSize + BlockHashSize) key (key_address_is address key) in
          if same : bool then Ok [key] else rest
      else
        let! matches :=
          if has_address then long_enough (BlockHeightSize + BlockHashSize) key (key_address_is address key)
          else if negb (blockHeight =? 0) then long_enough BlockHeightSize key (key_height_is blockHeight key)
          else Ok false in
        let! l := rest in Ok (if matches : bool then key :: l else l)
  end.

Definition getKeys (qdb : D) (address : Address) (blockHeight : Z) : outcome tool_error (list bytes) :=
  let! keys := pre_commit_keys address blockHeight (iter_New None None qdb).*1 in
  match keys with
  | [] => Err ErrNoPreCommitKey
  | keys => Ok keys
  end.

Fixpoint print_pre_commits (qdb : D) (keys : list bytes) : tool unit :=
  match keys with
  | [] => tret tt
  | key :: keys =>
      found (bucket_Get PrefixClaim qdb key) (fun value => printPreCommit key value) ;$ print_pre_commits qdb keys
  end.
Definition queryPreCommits (qdb : D) (address : Address) (blockHeight : Z) : tool unit :=
  let$ keys := tlift (getKeys qdb address blockHeight) in print_pre_commits qdb keys.

Definition queryPreCommitDB (qdb : D) (Address : bytes) (Height : Z) : tool unit :=
  if bool_decide (Address = []) && (Height =? 0) then IteratePrintDB qdb (BytesPrefix PrefixClaim) printPreCommit
  else
    let$ address := tlift (address_of_string Address) in queryPreCommits qdb address Height.

(** ** Calculation results *)

Definition newCalcResult (key value : bytes) : outcome tool_error (Z * CRData) :=
  match NewCalculationResultFromBytes value with
  | None => Err ErrRecord
  | Some cr => Ok (BytesToUint64 key, cr)
  end.
Definition printCalcResult (key value : bytes) : tool unit :=
  let$ (h, cr) := tlift (newCalcResult key value) in print (P_calc_result h cr).
Definition tool_getCalcResult (qdb : D) (blockHeight : Z) : tool (option (Z * CRData)) :=
  let key := Uint64ToBytes blockHeight in
  match bucket_Get PrefixCalcResult qdb key with
  | None => let$ _ := print P_no_calc_result in tret None
  | Some value => let$ cr := tlift (newCalcResult key value) in tret (Some cr)
  end.
Definition queryCalcResultDB (qdb : D) (Height : Z) : tool unit :=
  if Height =? 0 then IteratePrintDB qdb (BytesPrefix PrefixCalcResult) printCalcResult
  else let$ cr := tool_getCalcResult qdb Height in found cr (fun r => print (P_calc_result r.1 r.2)).

(** ** All I-Scores *)

(** The entries of one account DB, added to a map from the text of the address. *)
Fixpoint iscore_entries (claimDB : D) (l : list (bytes * bytes)) (result : gmap bytes Z) : outcome tool_error (gmap bytes Z) :=
  match l with
  | [] => Ok result
  | (key, value) :: l =>
      let! account := newIScoreAccount key value in
      let! claim := getClaim claimDB (ia_Address account) in
      let iScore := match claim with Some c => ia_IScore account - cd_IScore (c_Data c) | None => ia_IScore account end in
      iscore_entries claimDB l (<[Address_String (ia_Address account) := iScore]> result)
  end.

Fixpoint iscore_paths (files : gmap fname D) (claimDB : D) (paths : list fname) (result : gmap bytes Z)
    : outcome tool_error (gmap bytes Z) :=
  match paths with
  | [] => Ok result
  | path :: paths =>
      let! result := iscore_entries claimDB (iter_prefix PrefixIScore (open_path files path)) result in
      iscore_paths files claimDB paths result
  end.

(** The map that is written as JSON. *)
Definition getIScore (files : gmap fname D) (claimDB : D) : outcome tool_error (gmap bytes Z) :=
  let! (accountDBCount, queryDBSuffix) := getAccountDBInfo files in
  iscore_paths files claimDB (map (fun i => getAccountDBPathWithIndex i accountDBCount queryDBSuffix) (seqZ 1 accountDBCount)) ∅.
End DBTool.
