(* ===== verification/DBToolIISS.v ===== *)
(** * The database browser: IISS data and management records
    ([cmd/dbtool/db_iiss.go], [cmd/dbtool/db_manage.go])

    The records of one calculation's input and of the management DB, printed by
    kind or by block height. *)

From S2P Require Import Prelude Bytes HexInt Address Store Codec Typed Account ClaimDB Management IISSData IScoreDB Context Calculate DBTool.

Inductive iiss_data_type := DataAll | DataTypeHeader | DataTypeGV | DataTypeBP | DataTypePRep | DataTypeTX | DataUnknown.
Inductive manage_data_type := ManageAll | DataTypeDI | ManageGV | ManagePRep | DataTypePC | ManageUnknown.

Section DBToolIISS.
Context {D : Type} `{!LevelDB D}.
Context `{!Codec IISSHeader, !Codec IISSGVData, !Codec IISSBlockProduceInfoData, !Codec IISSTXData,
  !Codec PRepData, !Codec GVData, !Codec PRepCandidateData, !Codec DBInfoData, !Codec DBInfoDataV1}.

(** ** Records from entries *)

(** A header that does not decode is returned all the same: the error tested
    is that of the read. *)
Definition newHeader (qdb : D) : IISSHeader :=
  (ih_SetBytes (nonNilBytes (bucket_Get PrefixIISSHeader qdb ih_ID)) zero_IISSHeader).1.

(** [key[n:]] of a shorter key panics. *)
Definition key_from (n : nat) (key : bytes) : outcome tool_error bytes :=
  if (length key <? n)%nat then Panic else Ok (drop n key).

Definition newBP (key value : bytes) : outcome tool_error IISSBlockProduceInfo :=
  let '(bp, ok) := bp_SetBytes value zero_IISSBP in
  if negb ok then Err ErrRecord
  else let! h := key_from (length PrefixIISSBPInfo) key in Ok (mkIISSBP (BytesToUint64 h) (bp_Data bp)).
Definition newPRep (key value : bytes) : outcome tool_error PRep :=
  let '(prep, ok) := pr_SetBytes value zero_PRep in
  if negb ok then Err ErrRecord
  else let! h := key_from (length PrefixIISSPRep) key in Ok (mkPRep (BytesToUint64 h) (pr_Data prep)).
(** The index is read from the whole key, prefix included. *)
Definition newTX (key value : bytes) : outcome tool_error IISSTX :=
  let '(tx, ok) := tx_SetBytes value (mkIISSTX (BytesToUint64 key) (tx_TXData zero_IISSTX)) in
  if ok : bool then Ok tx else Err ErrRecord.

Definition printBP (key value : bytes) : tool unit := let$ bp := tlift (newBP key value) in print (P_bp bp).
Definition printPRep (key value : bytes) : tool unit := let$ prep := tlift (newPRep key value) in print (P_prep prep).
(** A transaction that does not decode is left out: the error is shadowed. *)
Definition printTX (key value : bytes) : tool unit :=
  match newTX key value with
  | Ok tx => print (P_tx tx)
  | Err _ => tret tt
  | Panic => tlift Panic
  end.

(** By height the key has no prefix, of which as many bytes are dropped. *)
Definition getBP (qdb : D) (blockHeight : Z) : tool (option IISSBlockProduceInfo) :=
  let key := bp_ID (mkIISSBP blockHeight (bp_Data zero_IISSBP)) in
  match bucket_Get PrefixIISSBPInfo qdb key with
  | None => let$ _ := print (P_no_bp blockHeight) in tret None
  | Some value => let$ bp := tlift (newBP key value) in tret (Some bp)
  end.
Definition getPRep (qdb : D) (blockHeight : Z) : tool (option PRep) :=
  let key := pr_ID (mkPRep blockHeight (pr_Data zero_PRep)) in
  match bucket_Get PrefixIISSPRep qdb key with
  | None => let$ _ := print (P_no_prep blockHeight) in tret None
  | Some value => let$ prep := tlift (newPRep key value) in tret (Some prep)
  end.

(** ** IISS data *)

Definition queryHeader (qdb : D) : tool unit := print (P_header (newHeader qdb)).

Definition queryBP (qdb : D) (blockHeight : Z) : tool unit :=
  if blockHeight =? 0 then IteratePrintDB qdb (BytesPrefix PrefixIISSBPInfo) printBP
  else let$ bp := getBP qdb blockHeight in found bp (fun bp => print (P_bp bp)).

(** The text of a nil list panics. *)
Definition queryPRep (qdb : D) (blockHeight : Z) : tool unit :=
  if blockHeight =? 0 then IteratePrintDB qdb (BytesPrefix PrefixPRep) printPRep
  else
    let$ prep := getPRep qdb blockHeight in
    match prep with Some prep => print (P_prep prep) | None => tlift Panic end.

Fixpoint print_iiss_gvs (version : Z) (l : list (bytes * bytes)) : tool unit :=
  match l with
  | [] => tret tt
  | (key, value) :: l =>
      let '(gv, ok) := ig_SetBytes value version (mkIISSGV (BytesToUint64 key) (ig_Data zero_IISSGV)) in
      if ok : bool then print (P_iiss_gv gv) ;$ print_iiss_gvs version l else tfail ErrRecord
  end.
Definition queryIISSGV (qdb : D) : tool unit :=
  print_iiss_gvs (ih_Version (newHeader qdb)) (iter_prefix PrefixIISSGV qdb).

(** All transactions are read, one that does not decode as far as it does. *)
Definition queryTransaction (qdb : D) (blockHeight : Z) : tool unit :=
  let txs := map (fun e => (tx_SetBytes e.2 (mkIISSTX (BytesToUint64 e.1) (tx_TXData zero_IISSTX))).1)
               (iter_prefix PrefixIISSTX qdb) in
  match filter (fun tx => tx_BlockHeight (tx_TXData tx) = blockHeight) txs with
  | [] => print (P_no_tx blockHeight)
  | transactions => (map P_tx transactions, Ok tt)
  end.
Definition queryTX (qdb : D) (blockHeight : Z) : tool unit :=
  if blockHeight =? 0 then IteratePrintDB qdb (BytesPrefix PrefixIISSTX) printTX else queryTransaction qdb blockHeight.

Definition queryIISSDB (qdb : D) (Data : iiss_data_type) (Height : Z) : tool unit :=
  match Data with
  | DataAll => queryHeader qdb ;$ queryIISSGV qdb ;$ queryPRep qdb 0 ;$ queryBP qdb 0 ;$ queryTX qdb 0
  | DataTypeGV => queryIISSGV qdb
  | DataTypeHeader => queryHeader qdb
  | DataTypeBP => queryBP qdb Height
  | DataTypePRep => queryPRep qdb Height
  | DataTypeTX => queryTX qdb Height
  | DataUnknown => tfail ErrInvalidDataType
  end.

(** ** Management records *)

(** A record that does not decode prints nothing. *)
Definition queryDBInfo (qdb : D) : tool unit :=
  let '(dbInfo, ok) := dbi_SetBytes (nonNilBytes (bucket_Get PrefixManagement qdb dbi_ID)) zero_DBInfoData in
  if ok : bool then print (P_db_info dbInfo) else tret tt.

Definition printGV (key value : bytes) : tool unit :=
  let '(gv, ok) := gv_SetBytes value zero_GV in
  if negb ok then tfail ErrRecord
  else let$ h := tlift (key_from (length PrefixGovernanceVariable) key) in print (P_gv (gv_set_BlockHeight (BytesToUint64 h) gv)).

Definition newPC (key value : bytes) : outcome tool_error PRepCandidate :=
  let '(pc, ok) := pcd_SetBytes value zero_PRepCandidate in
  if negb ok then Err ErrRecord
  else
    let! k := key_from (length PrefixPRepCandidate) key in
    let! a := address_of_key k in Ok (mkPRepCandidate a (pcd_Data pc)).
Definition printPC (key value : bytes) : tool unit := let$ pc := tlift (newPC key value) in print (P_candidate pc).

Definition getPC (qdb : D) (address : Address) : outcome tool_error PRepCandidate :=
  newPC (PrefixPRepCandidate ++ Address_Bytes address) (nonNilBytes (bucket_Get PrefixPRepCandidate qdb (Address_Bytes address))).

Definition queryPC (qdb : D) (address : bytes) : tool unit :=
  match address with
  | [] => IteratePrintDB qdb (BytesPrefix PrefixPRepCandidate) printPC
  | _ =>
      let$ addr := tlift (address_of_string address) in
      let$ pc := tlift (getPC qdb addr) in print (P_candidate pc)
  end.

Definition queryManagementDB (qdb : D) (Data : manage_data_type) (Address : bytes) (Height : Z) : tool unit :=
  let gvs := IteratePrintDB qdb (BytesPrefix PrefixGovernanceVariable) printGV in
  match Data with
  | ManageAll => queryDBInfo qdb ;$ gvs ;$ queryPRep qdb 0 ;$ queryPC qdb []
  | DataTypeDI => queryDBInfo qdb
  | ManageGV => gvs
  | ManagePRep => queryPRep qdb Height
  | DataTypePC => queryPC qdb Address
  | ManageUnknown => tfail ErrInvalidDataType
  end.
End DBToolIISS.
