(* ===== verification/DBToolCLI.v ===== *)
(** * The command line of the database browser
    ([cmd/common/cli_input.go], [cmd/common/db_calcdebug.go], [cmd/dbtool/cli.go])

    [dbtool DB_NAME [options]]: the options of each query, and which query runs on
    which store.  A path that is opened stands for the store at it, a root
    directory for the account DBs in it and its claim DB. *)

From Stdlib Require Strings.String.
From S2P Require Import Prelude Bytes HexInt HexText Flags Address Store Codec Typed Account ClaimDB Management IISSData IScoreDB Context CalcDebug MsgDebug Calculate DBTool DBToolIISS.
Import String.StringSyntax.

(** ** The options *)

Record Input := mkInput {
  in_Path : bytes;
  in_Address : bytes;
  in_Height : Z;
  in_Data : bytes;
  in_Help : bool;
  in_AccountType : bytes;
  in_RcDBRoot : bytes;
  in_Output : bytes;
}.
Definition zero_Input : Input := mkInput [] [] 0 [] false [] [] [].

Definition set_Path (s : bytes) (i : Input) : Input :=
  mkInput s (in_Address i) (in_Height i) (in_Data i) (in_Help i) (in_AccountType i) (in_RcDBRoot i) (in_Output i).
Definition set_Address (s : bytes) (i : Input) : Input :=
  mkInput (in_Path i) s (in_Height i) (in_Data i) (in_Help i) (in_AccountType i) (in_RcDBRoot i) (in_Output i).
Definition set_Height (n : Z) (i : Input) : Input :=
  mkInput (in_Path i) (in_Address i) n (in_Data i) (in_Help i) (in_AccountType i) (in_RcDBRoot i) (in_Output i).
Definition set_Data (s : bytes) (i : Input) : Input :=
  mkInput (in_Path i) (in_Address i) (in_Height i) s (in_Help i) (in_AccountType i) (in_RcDBRoot i) (in_Output i).
Definition set_Help (b : bool) (i : Input) : Input :=
  mkInput (in_Path i) (in_Address i) (in_Height i) (in_Data i) b (in_AccountType i) (in_RcDBRoot i) (in_Output i).
Definition set_AccountType (s : bytes) (i : Input) : Input :=
  mkInput (in_Path i) (in_Address i) (in_Height i) (in_Data i) (in_Help i) s (in_RcDBRoot i) (in_Output i).
Definition set_RcDBRoot (s : bytes) (i : Input) : Input :=
  mkInput (in_Path i) (in_Address i) (in_Height i) (in_Data i) (in_Help i) (in_AccountType i) s (in_Output i).
Definition set_Output (s : bytes) (i : Input) : Input :=
  mkInput (in_Path i) (in_Address i) (in_Height i) (in_Data i) (in_Help i) (in_AccountType i) (in_RcDBRoot i) s.

(** A flag with its long and its short name. *)
Definition path_flags : FlagSet Input := [StringVar (str "path") set_Path; StringVar (str "p") set_Path].
Definition address_flags : FlagSet Input := [StringVar (str "address") set_Address; StringVar (str "a") set_Address].
Definition height_flags : FlagSet Input := [Uint64Var (str "blockheight") set_Height; Uint64Var (str "b") set_Height].
Definition data_flags : FlagSet Input := [StringVar (str "data") set_Data; StringVar (str "d") set_Data].
Definition help_flags : FlagSet Input := [BoolVar (str "help") set_Help; BoolVar (str "h") set_Help].
Definition root_flags : FlagSet Input := [StringVar (str "dbroot") set_RcDBRoot; StringVar (str "d") set_RcDBRoot].

Definition InitManageInput : FlagSet Input := path_flags ++ data_flags ++ address_flags ++ help_flags.
Definition InitAccountInput : FlagSet Input :=
  path_flags ++ address_flags ++ root_flags ++
  [StringVar (str "type") set_AccountType; StringVar (str "t") set_AccountType] ++ help_flags.
Definition InitClaimInput : FlagSet Input := path_flags ++ address_flags ++ help_flags.
Definition InitClaimBackupInput : FlagSet Input := path_flags ++ height_flags ++ help_flags.
Definition InitCalcResultInput : FlagSet Input := path_flags ++ height_flags ++ help_flags.
Definition InitPreCommitInput : FlagSet Input := path_flags ++ address_flags ++ height_flags ++ help_flags.
Definition InitIISS : FlagSet Input := path_flags ++ data_flags ++ height_flags ++ help_flags.
Definition InitCalcDebugResult_flags : FlagSet Input := path_flags ++ address_flags ++ height_flags ++ help_flags.
Definition InitIScoreInput : FlagSet Input :=
  root_flags ++ address_flags ++ [StringVar (str "output") set_Output; StringVar (str "o") set_Output] ++ help_flags.

(** [Parse] and [ValidateInput]: the help ends the process with status 0. *)
Definition ValidateInput (help : bool) : outcome exit unit := if help then Err (Exit 0) else Ok tt.
Definition parse_input (fs : FlagSet Input) (args : list bytes) : outcome exit Input :=
  let! input := ParseOrExit fs args zero_Input in
  let! _ := ValidateInput (in_Help input) in
  Ok input.

(** ** The queries *)

Section DBToolCLI.
Context {D : Type} `{!LevelDB D}.
Context `{!Codec IScoreData, !Codec ClaimData, !Codec ClaimBackupInfo, !Codec PreCommitData, !Codec CRData}.
Context `{!Codec IISSHeader, !Codec IISSGVData, !Codec IISSBlockProduceInfoData, !Codec IISSTXData,
  !Codec PRepData, !Codec GVData, !Codec PRepCandidateData, !Codec DBInfoData, !Codec DBInfoDataV1, !Codec CalcDebugData}.

(** What is on the disk. *)
Record disk := mkDisk {
  k_db : bytes -> D;
  k_root : bytes -> gmap fname D;
  k_claim : bytes -> D;
}.
Context (k : disk).

Definition with_path (path : bytes) (query : D -> tool unit) : tool unit :=
  match path with [] => tfail ErrInvalidPath | _ => query (k_db k path) end.

(** *** Debug results *)

Definition printCalcDebugResultInstance (dr : CalcDebugResult) : tool unit := print (P_calc_debug dr).

Definition lift_query {A} (m : outcome msg_debug_error A) : tool A :=
  tlift (match m with Ok a => Ok a | Err e => Err (ErrDebugQuery e) | Panic => Panic end).

Definition PrintCalcDebugResult (key value : bytes) : tool unit :=
  let$ cb := lift_query (NewCalcDebugResult key value) in printCalcDebugResultInstance cb.

(** Once for every result of the address, or for every one when none is given. *)
Fixpoint print_results (address : Address) (dr : CalcDebugResult) (rs : list CalcResult) : tool unit :=
  match rs with
  | [] => tret tt
  | calcResult :: rs =>
      (if bool_decide (address = zero_Address) then printCalcDebugResultInstance dr
       else if bool_decide (cr_Address calcResult = address) then printCalcDebugResultInstance dr
       else tret tt) ;$
      print_results address dr rs
  end.

Fixpoint query_debug_keys (qdb : D) (address : Address) (keys : list bytes) : tool unit :=
  match keys with
  | [] => tret tt
  | key :: keys =>
      match bucket_Get PrefixClaim qdb key with
      | None => query_debug_keys qdb address keys
      | Some value =>
          let$ dr := lift_query (NewCalcDebugResult key value) in
          print_results address dr (cdr_Results dr) ;$
          query_debug_keys qdb address keys
      end
  end.

Definition QueryCalcDebugResult (qdb : D) (address : Address) (blockHeight : Z) : tool unit :=
  let$ qCalcDebugKeys := lift_query (GetCalcDebugResultKeys qdb blockHeight) in
  query_debug_keys qdb address qCalcDebugKeys.

Definition QueryCalcDebugDB (input : Input) : tool unit :=
  with_path (in_Path input) (fun qdb =>
    if bool_decide (in_Address input = []) && (in_Height input =? 0)
    then IteratePrintDB qdb (BytesPrefix PrefixClaim) PrintCalcDebugResult
    else
      let$ address := tlift (address_of_string (in_Address input)) in
      QueryCalcDebugResult qdb address (in_Height input)).

(** *** The other queries, from their options *)

Definition manage_data (Data : bytes) : manage_data_type :=
  if bool_decide (Data = []) then ManageAll
  else if bool_decide (Data = str "di") then DataTypeDI
  else if bool_decide (Data = str "gv") then ManageGV
  else if bool_decide (Data = str "prep") then ManagePRep
  else if bool_decide (Data = str "pc") then DataTypePC
  else ManageUnknown.
Definition iiss_data (Data : bytes) : iiss_data_type :=
  if bool_decide (Data = []) then DataAll
  else if bool_decide (Data = str "gv") then DataTypeGV
  else if bool_decide (Data = str "header") then DataTypeHeader
  else if bool_decide (Data = str "bp") then DataTypeBP
  else if bool_decide (Data = str "prep") then DataTypePRep
  else if bool_decide (Data = str "tx") then DataTypeTX
  else DataUnknown.
Definition account_type_of (accountDBType : bytes) : account_type :=
  if bool_decide (accountDBType = str "calculate") then AccountDBTypeCalculate
  else if bool_decide (accountDBType = str "query") then AccountDBTypeQuery
  else AccountDBTypeAny.

Definition queryAccountDB (input : Input) : tool unit :=
  if negb (bool_decide (in_Path input = [])) then queryAccountDBWithPath (k_db k (in_Path input)) (in_Address input)
  else if negb (bool_decide (in_RcDBRoot input = []))
  then queryAccountDBWithRCRoot (k_root k (in_RcDBRoot input)) (in_Address input) (account_type_of (in_AccountType input))
  else tfail ErrInvalidPath.

Definition export_iscores (input : Input) : tool unit :=
  match in_RcDBRoot input with
  | [] => tfail ErrInvalidPath
  | root =>
      let outputFile := match in_Output input with [] => str "iscore.json" | output => output end in
      let$ result := tlift (getIScore (k_root k root) (k_claim k root)) in
      print (P_iscores outputFile result)
  end.

(** ** [Run] *)

Inductive db_name :=
  | DBNameManagement | DBNameAccount | DBNameClaim | DBNameClaimBackup | DBNamePreCommit
  | DBNameCalcResult | DBNameIISS | DBNameCalcDebugResult | DBNameIScore.

Definition db_names : list (bytes * db_name) :=
  [(str "manage", DBNameManagement); (str "account", DBNameAccount); (str "claim", DBNameClaim);
   (str "claimBackup", DBNameClaimBackup); (str "preCommit", DBNamePreCommit); (str "calcResult", DBNameCalcResult);
   (str "iiss", DBNameIISS); (str "calcDebug", DBNameCalcDebugResult); (str "iscore", DBNameIScore)].

Fixpoint assoc {A} (name : bytes) (l : list (bytes * A)) : option A :=
  match l with
  | [] => None
  | (n, a) :: l => if bool_decide (n = name) then Some a else assoc name l
  end.

Definition input_flags (n : db_name) : FlagSet Input :=
  match n with
  | DBNameManagement => InitManageInput
  | DBNameAccount => InitAccountInput
  | DBNameClaim => InitClaimInput
  | DBNameClaimBackup => InitClaimBackupInput
  | DBNamePreCommit => InitPreCommitInput
  | DBNameCalcResult => InitCalcResultInput
  | DBNameIISS => InitIISS
  | DBNameCalcDebugResult => InitCalcDebugResult_flags
  | DBNameIScore => InitIScoreInput
  end.

Definition run_query (n : db_name) (input : Input) : tool unit :=
  let path := in_Path input in
  match n with
  | DBNameManagement =>
      with_path path (fun qdb => queryManagementDB qdb (manage_data (in_Data input)) (in_Address input) (in_Height input))
  | DBNameAccount => queryAccountDB input
  | DBNameClaim => with_path path (fun qdb => queryClaimDB qdb (in_Address input))
  | DBNameClaimBackup => with_path path (fun qdb => queryClaimBackupDB qdb (in_Height input))
  | DBNamePreCommit => with_path path (fun qdb => queryPreCommitDB qdb (in_Address input) (in_Height input))
  | DBNameCalcResult => with_path path (fun qdb => queryCalcResultDB qdb (in_Height input))
  | DBNameIISS => with_path path (fun qdb => queryIISSDB qdb (iiss_data (in_Data input)) (in_Height input))
  | DBNameCalcDebugResult => QueryCalcDebugDB input
  | DBNameIScore => export_iscores input
  end.

Inductive cli_error := CliExit (e : exit) | ErrInvalidInput | ErrInvalidDBName.

Definition or_exit {A} (m : outcome exit A) : outcome cli_error A :=
  match m with Ok a => Ok a | Err e => Err (CliExit e) | Panic => Panic end.

(** [args] are the arguments behind the name of the program. *)
Definition dbtool_validateArgs (args : list bytes) : outcome cli_error unit :=
  match args with
  | [] => Err (CliExit (Exit 0))
  | [a] => if bool_decide (a = str "-h") || bool_decide (a = str "-help") then Err (CliExit (Exit 0)) else Err ErrInvalidInput
  | _ => Ok tt
  end.

Definition dbtool_Run (args : list bytes) : outcome cli_error (tool unit) :=
  let! _ := dbtool_validateArgs args in
  match args with
  | [] => Panic
  | dbName :: options =>
      match assoc dbName db_names with
      | None => Err ErrInvalidDBName
      | Some n =>
          let! input := or_exit (parse_input (input_flags n) options) in
          Ok (run_query n input)
      end
  end.

(** ** What the command line means *)

Lemma input_flags_names n : Forall (fun f => flag_name (f_Name f)) (input_flags n).
Proof. apply (bool_decide_unpack _). by destruct n. Qed.

(** A run whose options spell some assignments, without the help, is the query
    with these options. *)
Lemma dbtool_Run_line dbName n l arg args input :
  assoc dbName db_names = Some n -> command_line (input_flags n) l (arg :: args) ->
  assign_all (input_flags n) l zero_Input = Ok input -> in_Help input = false ->
  dbtool_Run (dbName :: arg :: args) = Ok (run_query n input).
Proof.
  intros Hn Hl Ha Hh. unfold dbtool_Run. cbn [dbtool_validateArgs obind]. rewrite Hn. unfold parse_input.
  rewrite (ParseOrExit_line _ l _ _ input (input_flags_names n)) by done. cbn [obind]. unfold ValidateInput. by rewrite Hh.
Qed.

(** *** Debug results: what the DEBUG message answers *)

Lemma print_results_for address dr rs :
  print_results address dr rs =
  (map P_calc_debug (map (fun _ => dr) (filter (fun c => address = zero_Address \/ address = cr_Address c) rs)), Ok tt).
Proof.
  induction rs as [|c rs IH]; cbn [print_results]; [done|]. rewrite IH. unfold then_.
  destruct (decide (address = zero_Address \/ address = cr_Address c)) as [H|H].
  - rewrite filter_cons_True by done. case_bool_decide; [done|]. rewrite bool_decide_eq_true_2; [done|]. by destruct H.
  - rewrite filter_cons_False by done. rewrite !bool_decide_eq_false_2 by naive_solver. done.
Qed.

(** The tool prints the results that the query of a monitor returns. *)
Lemma QueryCalcDebugResult_answers qdb address h keys rs :
  GetCalcDebugResultKeys qdb h = Ok keys -> query_keys qdb address keys = Ok rs ->
  QueryCalcDebugResult qdb address h = (map P_calc_debug rs, Ok tt).
Proof.
  intros Hk Hq. unfold QueryCalcDebugResult, lift_query. rewrite Hk. cbn [tlift tbind app].
  clear Hk. assert (query_debug_keys qdb address keys = (map P_calc_debug rs, Ok tt)) as ->; [|done].
  revert rs Hq. induction keys as [|key keys IH]; intros rs; cbn [query_keys query_debug_keys]; [by intros [= <-]|].
  destruct (bucket_Get PrefixClaim qdb key) as [value|]; [|apply IH].
  intros (dr & Hdr & Hq)%obind_ok. apply obind_ok in Hq as (rs' & Hrs & [= <-]).
  unfold lift_query. rewrite Hdr. cbn [tlift tbind app]. rewrite (IH rs' Hrs). unfold then_. rewrite print_results_for.
  cbn [tbind]. by rewrite map_app.
Qed.
End DBToolCLI.
