(* ===== verification/DBToolSpec.v ===== *)
(** * What the database browser shows

    The I-Scores it writes are the answers of the calculator, when it finds
    the right half of the account DBs; the pre-commits it finds by address and by
    height. *)

From S2P Require Import Prelude Bytes HexInt Address Store Codec Typed Account ClaimDB ClaimJournal Management IISSData IScoreDB Context CalcDebug MsgDebug Calculate Messages ClaimLedger DBTool.

Lemma Address_String_inj a b : wf_Address a -> wf_Address b -> Address_String a = Address_String b -> a = b.
Proof.
  intros Ha Hb E. destruct (Address_roundtrip a Ha) as [_ Ra]. destruct (Address_roundtrip b Hb) as [_ Rb].
  rewrite E, Rb in Ra. by injection Ra.
Qed.

Lemma address_of_key_wf k : wf_Address k -> address_of_key k = Ok k.
Proof. intros Hk. unfold address_of_key. pose proof (NewAddress_Bytes k Hk) as E. change (Address_Bytes k) with k in E. by rewrite E. Qed.

Section IScores.
Context {D : Type} `{!LevelDB D, !LevelDBLaws D}.
Context `{!Codec IScoreData, !Codec ClaimData, !Codec ClaimBackupInfo, !Codec PreCommitData, !Codec CRData,
  !Codec DBInfoData, !Codec GVData, !Codec PRepData}.
Implicit Type (ctx : Context D) (a : Address).

(** Stores in which everything decodes, and every account is in the DB its address
    belongs to. *)
Record browsable ctx : Prop := {
  br_accounts : accounts_ok (DB ctx) /\ 1 <= DBCount (info (DB ctx));
  br_entries : forall i k v, 1 <= i <= DBCount (info (DB ctx)) ->
    ldb_get (db_at (DB ctx) (query_name (DB ctx) i)) k = Some v ->
    wf_Address k /\ is_Some (NewIScoreAccountFromBytes v) /\
    getQueryDB (E := Empty_set) (DB ctx) k = Ok (query_name (DB ctx) i);
  br_claims : forall a v, ldb_get (claim (DB ctx)) a = Some v -> is_Some (NewClaimFromBytes v);
}.

(** What is left to claim. *)
Definition unclaimed ctx a : Z := earned ctx a - claimed ctx a.

Lemma iscore_entries_spec ctx f l result : browsable ctx ->
  Forall (fun e => wf_Address e.1 /\ getQueryDB (E := Empty_set) (DB ctx) e.1 = Ok f /\
    ldb_get (db_at (DB ctx) f) e.1 = Some e.2 /\ is_Some (NewIScoreAccountFromBytes e.2)) l ->
  iscore_entries (claim (DB ctx)) l result
  = Ok (foldl (fun m k => <[Address_String k := unclaimed ctx k]> m) result l.*1).
Proof.
  intros Hb Hl. revert result. induction Hl as [|[k v] l (Hk & Hf & Hv & [ia Hia]) _ IH]; intros result; [done|].
  cbn [iscore_entries fmap list_fmap foldl fst]. unfold newIScoreAccount. cbn [fst snd] in *. rewrite Hia, address_of_key_wf by done.
  cbn [obind ia_Address ia_set_Address].
  assert (Hacc : account ctx k = Some ia).
  { unfold account. rewrite Hf, bucket_Get_ldb. change (PrefixIScore ++ Address_Bytes k) with k. by rewrite Hv. }
  unfold getClaim. rewrite bucket_Get_ldb. change (PrefixClaim ++ Address_Bytes k) with k.
  destruct (ldb_get (claim (DB ctx)) k) as [cv|] eqn:Ec.
  - destruct (br_claims ctx Hb k cv Ec) as [c Hc]. unfold newClaim. rewrite Hc, address_of_key_wf by done.
    cbn [obind c_Data]. rewrite IH. do 3 f_equal.
    unfold unclaimed, earned, claimed. rewrite Hacc. change (ia_IScore (ia_set_Address k ia)) with (ia_IScore ia).
    f_equal. pose proof (find_claim_of (claim (DB ctx)) k) as Hfc. unfold find_claim in Hfc. rewrite bucket_Get_ldb in Hfc.
    change (PrefixIScore ++ Address_Bytes k) with k in Hfc. rewrite Ec, Hc in Hfc.
    destruct (claim_of _ _) as [cd|]; [|done]. injection Hfc as ->. done.
  - cbn [obind]. rewrite IH. do 3 f_equal. unfold unclaimed, earned, claimed. rewrite Hacc.
    unfold claim_of. rewrite Ec. cbn. by rewrite Z.sub_0_r.
Qed.

(** A map filled under the texts of addresses. *)
Lemma fill_lookup (g : Address -> Z) (ks : list Address) (m : gmap bytes Z) a : wf_Address a -> Forall wf_Address ks ->
  foldl (fun m k => <[Address_String k := g k]> m) m ks !! Address_String a
  = if decide (a ∈ ks) then Some (g a) else m !! Address_String a.
Proof.
  intros Ha Hks. revert m. induction Hks as [|k ks Hk _ IH]; intros m; [done|]. cbn [foldl]. rewrite IH.
  case_decide as H1; [by rewrite decide_True by (by right)|]. destruct (decide (a = k)) as [->|Hne].
  - rewrite lookup_insert_eq, decide_True; [done|by left].
  - rewrite lookup_insert_ne by (intros E; apply Hne; by apply Address_String_inj).
    rewrite decide_False; [done|]. by intros [?|?]%elem_of_cons.
Qed.

Definition db_entries ctx (f : fname) : list (bytes * bytes) := iter_prefix PrefixIScore (db_at (DB ctx) f).

Lemma db_entries_good ctx f : browsable ctx -> f ∈ getQueryDBList (DB ctx) ->
  Forall (fun e => wf_Address e.1 /\ getQueryDB (E := Empty_set) (DB ctx) e.1 = Ok f /\
    ldb_get (db_at (DB ctx) f) e.1 = Some e.2 /\ is_Some (NewIScoreAccountFromBytes e.2)) (db_entries ctx f).
Proof.
  intros Hb Hf. destruct (br_accounts ctx Hb) as [Hok _]. rewrite (query_list _ Hok) in Hf.
  apply elem_of_account_names in Hf as (i & Hi & ->). apply Forall_forall. intros [k v] He. cbn [fst snd].
  apply iter_prefix_elem_1 in He. by destruct (br_entries ctx Hb i k v Hi He) as (? & ? & ?).
Qed.

Lemma iscore_paths_spec ctx paths result : browsable ctx -> (forall f, f ∈ paths -> f ∈ getQueryDBList (DB ctx)) ->
  iscore_paths (files (DB ctx)) (claim (DB ctx)) paths result
  = Ok (foldl (fun m k => <[Address_String k := unclaimed ctx k]> m) result (concat (map (fun f => (db_entries ctx f).*1) paths))).
Proof.
  intros Hb. revert result. induction paths as [|f paths IH]; intros result Hp; [done|]. cbn [iscore_paths map concat].
  change (open_path (files (DB ctx)) f) with (db_at (DB ctx) f).
  fold (db_entries ctx f). rewrite (iscore_entries_spec ctx f _ _ Hb) by (apply db_entries_good; [done|apply Hp; by left]).
  cbn [obind]. rewrite IH by (intros f' Hf'; apply Hp; by right). by rewrite foldl_app.
Qed.

(** The keys of all query DBs are the addresses with an account. *)
Lemma account_keys ctx a : browsable ctx -> wf_Address a ->
  a ∈ concat (map (fun f => (db_entries ctx f).*1) (getQueryDBList (DB ctx))) <-> is_Some (account ctx a).
Proof.
  intros Hb Ha. destruct (br_accounts ctx Hb) as [Hok Hn]. rewrite list_elem_of_In, in_concat. split.
  - intros (l & Hl & Hin). apply list_elem_of_In, list_elem_of_fmap in Hl as (f & -> & Hf). apply list_elem_of_In, list_elem_of_fmap in Hin as ([k v] & -> & He).
    pose proof (db_entries_good ctx f Hb Hf) as Hg. rewrite Forall_forall in Hg.
    destruct (Hg _ He) as (_ & Hq & Hv & Hd). cbn [fst snd] in *. unfold account. rewrite Hq, bucket_Get_ldb.
    change (PrefixIScore ++ Address_Bytes k) with k. by rewrite Hv.
  - intros Hacc. destruct (getQueryDB_ok (E := Empty_set) (DB ctx) a) as (f & Hq & Hf); [done..|].
    unfold account in Hacc. rewrite Hq, bucket_Get_ldb in Hacc. change (PrefixIScore ++ Address_Bytes a) with a in Hacc.
    destruct (ldb_get _ a) as [v|] eqn:Hv; [|by destruct Hacc].
    exists ((db_entries ctx f).*1). rewrite <-!list_elem_of_In, !list_elem_of_fmap. split; [by exists f|].
    exists (a, v). split; [done|]. apply iter_prefix_elem; [by constructor|by apply bytes_wf_Address|]. split; [done|]. by eexists.
Qed.

Lemma keys_wf ctx : browsable ctx ->
  Forall wf_Address (concat (map (fun f => (db_entries ctx f).*1) (getQueryDBList (DB ctx)))).
Proof.
  intros Hb. apply Forall_concat, Forall_map, Forall_forall. intros f Hf. apply Forall_map.
  eapply Forall_impl; [by apply db_entries_good|]. by intros e (? & _).
Qed.


(** The guess is right when the heights of the calculate DBs are above those of
    the query DBs; without an account on one side it is the other side. *)
Lemma guess_suffix_right ctx iq ic : ia_BlockHeight iq < ia_BlockHeight ic ->
  (if QueryDBIsZero (info (DB ctx)) then guess_suffix (Some iq) (Some ic) else guess_suffix (Some ic) (Some iq))
  = query_postfix (DB ctx).
Proof.
  intros H. unfold query_postfix, guess_suffix. destruct (QueryDBIsZero _).
  - by rewrite (proj2 (Z.leb_gt _ _)).
  - rewrite (proj2 (Z.leb_le _ _)); [done|lia].
Qed.
End IScores.

(** ** Pre-commits by address and height *)

Section PreCommits.
Context {D : Type} `{!LevelDB D, !LevelDBLaws D, !Codec PreCommitData, !CodecLaws PreCommitData}.

Definition key_address (k : bytes) : bytes := drop (BlockHeightSize + BlockHashSize) k.
Definition key_height (k : bytes) : Z := BytesToUint64 (take BlockHeightSize k).

#[global] Arguments key_address : simpl never.
#[global] Arguments key_height : simpl never.

Definition or_no_key (l : list bytes) : outcome tool_error (list bytes) :=
  match l with [] => Err ErrNoPreCommitKey | _ => Ok l end.

Definition stored_keys (qdb : D) : list bytes := (iter_New None None qdb).*1.

(** A stored key is a height in eight bytes, and long enough for the slices. *)
Definition good_key (k : bytes) : Prop :=
  length k = PreCommitIDSize /\ take BlockHeightSize k = be64 (key_height k) /\ is_u64 (key_height k).

Lemma pc_ID_good pc : wf_PreCommit pc -> good_key (pc_ID pc) /\ key_height (pc_ID pc) = pc_BlockHeight pc /\
  key_address (pc_ID pc) = pc_Address pc.
Proof.
  intros Hpc. pose proof (length_pc_ID pc Hpc) as Hl. unfold good_key, key_height, key_address.
  rewrite Hl, pc_ID_app by done. destruct Hpc as (Hh & Hhl & _).
  rewrite take_app_length' by (by rewrite length_be64). rewrite BytesToUint64_be64 by done.
  rewrite app_assoc, drop_app_length' by (by rewrite length_app, length_be64, Hhl). by split_and!.
Qed.

Lemma stored_keys_good qdb : pc_inv qdb -> Forall good_key (stored_keys qdb).
Proof.
  intros Hinv. apply Forall_map, Forall_forall. intros [k v] He. unfold iter_New in He. apply ldb_iter_elem in He as [He _].
  destruct (Hinv k v He) as (pc & Hpc & -> & _). by apply pc_ID_good.
Qed.

Lemma long_enough_good n k b : good_key k -> (n <= BlockHeightSize + BlockHashSize)%nat -> long_enough n k b = Ok b.
Proof.
  intros (Hl & _) Hn. unfold long_enough. rewrite Hl. rewrite (proj2 (Nat.ltb_ge _ _)); [done|].
  change PreCommitIDSize with 61%nat. change (BlockHeightSize + BlockHashSize)%nat with 40%nat in Hn. lia.
Qed.

Lemma key_height_ends_spec h k : is_u64 h -> good_key k -> key_height_ends h k = bool_decide (height_matches h (key_height k)).
Proof.
  intros Hh (_ & Hk & Hu). pose proof (key_matches_spec h (key_height k) (drop BlockHeightSize k) Hh Hu) as E.
  rewrite <-Hk, take_drop in E. unfold key_matches in E. destruct (_ <? _)%nat; [done|]. by injection E.
Qed.

(** A height below 2^56 has fewer bytes than a key has for it. *)
Lemma key_height_is_never h k : is_u64 h -> h < 2 ^ 56 -> good_key k -> key_height_is h k = false.
Proof.
  intros Hh Hlt (_ & Hk & _). unfold key_height_is. apply bool_decide_eq_false_2. rewrite Hk. intros E.
  assert (Hl : length (be64 (key_height k)) = length (Uint64ToBytes h)) by congruence. rewrite length_be64 in Hl.
  destruct (Z.eq_dec h 0) as [->|Hne]; [done|]. destruct (Uint64ToBytes_spec h Hh) as (H1 & H2 & _ & H4).
  destruct H4 as (b & r & Er & Hb); [unfold is_u64 in Hh; lia|]. rewrite Er in *. inversion_clear H2 as [|? ? _ Hr].
  rewrite be_combine_cons in H1. injection Hl as Hl. rewrite <-Hl in H1. change (256 ^ Z.of_nat 7) with (2 ^ 56) in H1.
  pose proof (be_combine_bound r Hr). nia.
Qed.

(** What a search finds. *)
Definition found_keys (address : Address) (h : Z) (keys : list bytes) : list bytes :=
  if decide (address = zero_Address) then []
  else if decide (h = 0) then filter (fun k => key_address k = address) keys
  else take 1 (filter (fun k => key_address k = address /\ height_matches h (key_height k)) keys).

Lemma pre_commit_keys_spec address h keys : is_u64 h -> h < 2 ^ 56 -> Forall good_key keys ->
  pre_commit_keys address h keys = Ok (found_keys address h keys).
Proof.
  intros Hh Hlt Hkeys. unfold found_keys. induction Hkeys as [|k keys Hk _ IH]; [by repeat case_decide|].
  cbn [pre_commit_keys]. rewrite IH. rewrite !long_enough_good by (done || (unfold BlockHeightSize, BlockHashSize; lia)).
  rewrite key_height_is_never, key_height_ends_spec by done. unfold key_address_is. fold (key_address k).
  change (Address_Bytes address) with address. rewrite !filter_cons.
  destruct (decide (address = zero_Address)) as [->|Hz].
  - rewrite bool_decide_eq_true_2 by done. cbn [negb andb obind]. by destruct (h =? 0).
  - rewrite bool_decide_eq_false_2 by done. destruct (decide (h = 0)) as [->|Hn].
    + cbn. destruct (decide (key_address k = address)) as [E|E]; [rewrite bool_decide_eq_true_2 by done|rewrite bool_decide_eq_false_2 by done]; done.
    + rewrite (proj2 (Z.eqb_neq h 0)) by done. cbn [negb andb obind].
      destruct (decide (height_matches h (key_height k))) as [Em|Em];
        [rewrite bool_decide_eq_true_2 by done|rewrite bool_decide_eq_false_2 by done; cbn [negb]; rewrite decide_False by tauto; done].
      cbn [negb]. destruct (decide (key_address k = address)) as [E|E];
        [rewrite bool_decide_eq_true_2, decide_True by done|rewrite bool_decide_eq_false_2, decide_False by tauto]; done.
Qed.

(** C39: Searching the pre-commit DB: an address alone finds its claims of every
    block; an address and a height find one claim of the address, in a block
    whose height ends with the bytes of the number, which may be another block; a
    height alone finds nothing, whatever is stored. *)
Theorem getKeys_spec qdb address h : pc_inv qdb -> is_u64 h -> h < 2 ^ 56 ->
  getKeys qdb address h = or_no_key (found_keys address h (stored_keys qdb)) /\
  (forall pc, ldb_get qdb (pc_ID pc) = Some (pc_Bytes pc) -> wf_PreCommit pc ->
     key_address (pc_ID pc) = pc_Address pc /\ key_height (pc_ID pc) = pc_BlockHeight pc /\
     pc_ID pc ∈ stored_keys qdb) /\
  (address = zero_Address -> getKeys qdb address h = Err ErrNoPreCommitKey).
Proof.
  intros Hinv Hh Hlt.
  assert (Hg : getKeys qdb address h = or_no_key (found_keys address h (stored_keys qdb))).
  { unfold getKeys. fold (stored_keys qdb). rewrite pre_commit_keys_spec by (done || by apply stored_keys_good). done. }
  split; [done|]. split.
  - intros pc Hpc Hwf. destruct (pc_ID_good pc Hwf) as (_ & H1 & H2). split_and!; [done..|].
    apply list_elem_of_fmap. exists (pc_ID pc, pc_Bytes pc). split; [done|]. unfold iter_New. by apply ldb_iter_elem.
  - intros ->. rewrite Hg. unfold found_keys. by rewrite decide_True.
Qed.
End PreCommits.
