(* ===== verification/SendIpc.v ===== *)
(** * The IPC client program ([cmd/sendipc])

    [sendipc ADDRESS COMMAND [options]] sends one message, or the three of a
    claim, and prints the responses.  It does not use [RCIPC] but the connection itself,
    and looks at no error: a response that cannot be read or does not decode is
    printed as far as it goes.  The commands are written over [Client] and
    [Tolerant], which adds these calls; a response that is printed is returned. *)

From Stdlib Require Strings.String.
From S2P Require Import Prelude Bytes HexInt HexText Flags Address Store Codec Typed Account ClaimDB Management IISSData IScoreDB Context Reward CalcDebug MsgDebug Calculate DoCalculate Messages Dispatch ClaimLedger Ipc Server Client Remote ClaimRemote DBToolCLI.
Import String.StringSyntax.

(** ** Calls without errors *)

Class Tolerant (M : Type -> Type) := {
  attempt {A : Set} : rpc A -> M A;
  attempt_done : M unit;
  crash {A} : M A;
}.

(** The response before anything was read, and what decoding makes of it. *)
Definition rpc_zero {A} (c : rpc A) : A :=
  match c with
  | R_Version => mkResponseVersion 0 0 (make_bytes BlockHashSize)
  | R_Claim _ => mkResponseClaim zero_ClaimMessage 0
  | R_Query _ => mkResponseQuery zero_Address 0 0
  | R_Calculate _ => mkCalculateResponse 0 0
  | R_StartBlock _ => zero_StartBlock
  | R_CommitBlock _ => zero_CommitBlock
  | R_CommitClaim _ => tt
  | R_QueryCalculateStatus => mkQueryStatus 0 0
  | R_QueryCalculateResult _ => mkQueryResult 0 0 0 []
  | R_Rollback _ => mkRollBackResponse false zero_RollBackRequest
  | R_Init _ => mkResponseInit false 0
  end.

Definition rpc_read `{!ProtocolCodecs} {A} (c : rpc A) (data : bytes) : A :=
  match c with
  | R_Version => (unmarshal data (rpc_zero R_Version)).1
  | R_Claim req => (unmarshal data (rpc_zero (R_Claim req))).1
  | R_Query req => (unmarshal data (rpc_zero (R_Query req))).1
  | R_Calculate req => (unmarshal data (rpc_zero (R_Calculate req))).1
  | R_StartBlock req => (unmarshal data (rpc_zero (R_StartBlock req))).1
  | R_CommitBlock req => (unmarshal data (rpc_zero (R_CommitBlock req))).1
  | R_CommitClaim _ => tt
  | R_QueryCalculateStatus => (unmarshal data (rpc_zero R_QueryCalculateStatus)).1
  | R_QueryCalculateResult h => (unmarshal data (rpc_zero (R_QueryCalculateResult h))).1
  | R_Rollback req => (unmarshal data (rpc_zero (R_Rollback req))).1
  | R_Init h => (unmarshal data (rpc_zero (R_Init h))).1
  end.

Section WireTolerant.
Context `{!ProtocolCodecs, !Framing} {P : Type} `{!Peer P}.

Definition conn_SendAndReceive {A : Set} (c : rpc A) : Wire P A := fun rc =>
  let '(p, back) := peer_feed (rc_peer rc) (frame (mkMessage (rpc_msg c) (rc_id rc) (rpc_data c))) in
  match read_message (mkRCIPC (rc_id rc) (rc_in rc ++ back) p) with
  | (rc, None) => (rc, Ok (rpc_zero c))
  | (rc, Some m) => (rc, Ok (rpc_read c (m_Data m)))
  end.

#[export] Instance wire_tolerant : Tolerant (Wire P) := {|
  attempt A c := conn_SendAndReceive c;
  attempt_done := fun rc => ((read_message rc).1, Ok tt);
  crash A := fun rc => (rc, Panic);
|}.
End WireTolerant.

(** ** The commands *)

Section Commands.
Context {M : Type -> Type} `{!Client M, !Tolerant M}.

(** The capacity of [[]byte(s)] for a string of some length. *)
Context (cap : nat -> nat).

(** The variable for the response is a [uint16], and what is read is not used. *)
Definition cli_version : M unit := let* _ := attempt R_Version in ret tt.
Definition cli_init (blockHeight : Z) : M ResponseInit := attempt (R_Init blockHeight).

Definition cli_query (address txHash : bytes) : M ResponseQuery :=
  match NewAddressFromString address with
  | Ok a => attempt (R_Query (mkQuery a 0 [] txHash))
  | _ => crash
  end.

(** A hash that does not decode ends the command, here with [None]. *)
Definition cli_commitClaim (success : bool) (address : bytes) (blockHeight : Z) (blockHash : bytes)
    (txIndex : Z) (txHash : bytes) : M (option unit) :=
  match hash_value BlockHashSize blockHeight blockHash, hash_value TXHashSize (blockHeight +u txIndex) txHash with
  | Some bh, Some th =>
      let* resp := attempt (R_CommitClaim (mkCommitClaim success (address_arg address) blockHeight bh txIndex th)) in
      ret (Some resp)
  | _, _ => ret None
  end.

Definition cli_startBlock (blockHeight : Z) (blockHash : bytes) : M (option StartBlock) :=
  match hash_value BlockHashSize blockHeight blockHash with
  | Some bh => let* resp := attempt (R_StartBlock (mkStartBlock blockHeight (Some bh))) in ret (Some resp)
  | None => ret None
  end.

Definition cli_commitBlock (success : bool) (blockHeight : Z) (blockHash : bytes) : M (option CommitBlock) :=
  match hash_value BlockHashSize blockHeight blockHash with
  | Some bh => let* resp := attempt (R_CommitBlock (mkCommitBlock success blockHeight (Some bh))) in ret (Some resp)
  | None => ret None
  end.

(** A transaction hash that does not decode is reported, and its beginning
    is sent; COMMIT_CLAIM is sent whatever was claimed. *)
Definition cli_claim (address : bytes) (blockHeight : Z) (blockHash : bytes) (txIndex : Z) (txHash : bytes)
    (noCommitClaim noCommitBlock : bool) : M (option ResponseClaim) :=
  match hash_value BlockHashSize blockHeight blockHash with
  | None => ret None
  | Some bh =>
      let th := claim_tx_hash (blockHeight +u txIndex) txHash in
      let* resp := attempt (R_Claim (mkClaimMessage (address_arg address) blockHeight bh txIndex th)) in
      let* _ := new_id in
      let* _ := if noCommitClaim then ret tt
                else let* _ := cli_commitClaim true address blockHeight blockHash txIndex txHash in new_id in
      let* _ := if noCommitBlock then ret tt
                else let* _ := cli_commitBlock true blockHeight blockHash in ret tt in
      ret (Some resp)
  end.

Definition cli_calculate (iissData : bytes) (blockHeight : Z) : M CalculateResponse :=
  let* resp := attempt (R_Calculate (mkCalculateRequest iissData blockHeight [])) in
  if negb (resp_Status resp =? CalcRespStatusOK) then ret resp
  else let* _ := attempt_done in ret resp.

Definition cli_queryCalculateStatus : M QueryCalculateStatusResponse := attempt R_QueryCalculateStatus.
Definition cli_queryCalculateResult (blockHeight : Z) : M QueryCalculateResultResponse :=
  attempt (R_QueryCalculateResult blockHeight).

(** [hash[0:BlockHashSize]]: [hex.DecodeString] decodes in the bytes of the
    string, and the slice may go past what was decoded up to their capacity. *)
Definition hash_slice (s hash : bytes) : option bytes :=
  let array := hash ++ drop (length hash) s ++ make_bytes (cap (length s) - length s) in
  if (BlockHashSize <=? cap (length s))%nat then Some (take BlockHashSize array) else None.

Definition cli_rollback (blockHeight : Z) (blockHash : bytes) : M (option RollBackResponse) :=
  match hex_DecodeString blockHash with
  | None => ret None
  | Some hash =>
      match hash_slice blockHash hash with
      | None => crash
      | Some h => let* resp := attempt (R_Rollback (mkRollBackRequest blockHeight h)) in ret (Some resp)
      end
  end.

(** What is pushed for a target: its name and the low 64 bits of its I-Score. *)
Fixpoint readAndPush (targets : list (bytes * Address)) : M (list (bytes * Z)) :=
  match targets with
  | [] => ret []
  | (name, address) :: targets =>
      let* resp := cli_query (Address_String address) [] in
      let* l := readAndPush targets in
      ret ((name, big_Uint64 (rq_IScore resp)) :: l)
  end.

(** The first [n] rounds of the loop, which does not end; [None] is a
    configuration that does not decode. *)
Fixpoint monitor_rounds (n : nat) (targets : list (bytes * Address)) : M (list (list (bytes * Z))) :=
  match n with
  | O => ret []
  | S n => let* l := readAndPush targets in let* ls := monitor_rounds n targets in ret (l :: ls)
  end.
Definition cli_monitor (n : nat) (config : option (list (bytes * Address))) : M unit :=
  match config with
  | None => ret tt
  | Some targets => let* _ := monitor_rounds n targets in ret tt
  end.
End Commands.

(** ** The command line *)

Inductive sendipc_cmd :=
  | Cmd_version | Cmd_init | Cmd_query | Cmd_claim | Cmd_commitclaim | Cmd_startblock | Cmd_commitblock
  | Cmd_calculate | Cmd_monitor | Cmd_query_calculate_status | Cmd_query_calculate_result | Cmd_rollback.

Definition sendipc_cmds : list (bytes * sendipc_cmd) :=
  [(str "version", Cmd_version); (str "init", Cmd_init); (str "query", Cmd_query); (str "claim", Cmd_claim);
   (str "commitclaim", Cmd_commitclaim); (str "startblock", Cmd_startblock); (str "commitblock", Cmd_commitblock);
   (str "calculate", Cmd_calculate); (str "monitor", Cmd_monitor);
   (str "query_calculate_status", Cmd_query_calculate_status);
   (str "query_calculate_result", Cmd_query_calculate_result); (str "rollback", Cmd_rollback)].

(** The variables of the options of all commands; [o_txhash] is also the one
    of [query -txHash]. *)
Record Options := mkOptions {
  o_address : bytes;
  o_blockheight : Z;
  o_blockhash : bytes;
  o_txindex : Z;
  o_txhash : bytes;
  o_no_commit : bool;
  o_no_commit_block : bool;
  o_fail : bool;
  o_iissdata : bytes;
  o_config : bytes;
  o_url : bytes;
}.
Definition default_Options : Options :=
  mkOptions [] 0 [] 0 [] false false true [] (str "./monitor.json") (str "http://localhost:9091").

Definition opt_address : CmdFlag Options := StringVar (str "address") (fun s o =>
  mkOptions s (o_blockheight o) (o_blockhash o) (o_txindex o) (o_txhash o) (o_no_commit o) (o_no_commit_block o) (o_fail o) (o_iissdata o) (o_config o) (o_url o)).
Definition opt_blockheight : CmdFlag Options := Uint64Var (str "blockheight") (fun n o =>
  mkOptions (o_address o) n (o_blockhash o) (o_txindex o) (o_txhash o) (o_no_commit o) (o_no_commit_block o) (o_fail o) (o_iissdata o) (o_config o) (o_url o)).
Definition opt_blockhash : CmdFlag Options := StringVar (str "blockhash") (fun s o =>
  mkOptions (o_address o) (o_blockheight o) s (o_txindex o) (o_txhash o) (o_no_commit o) (o_no_commit_block o) (o_fail o) (o_iissdata o) (o_config o) (o_url o)).
Definition opt_txindex : CmdFlag Options := Uint64Var (str "txindex") (fun n o =>
  mkOptions (o_address o) (o_blockheight o) (o_blockhash o) n (o_txhash o) (o_no_commit o) (o_no_commit_block o) (o_fail o) (o_iissdata o) (o_config o) (o_url o)).
Definition opt_txhash (name : bytes) : CmdFlag Options := StringVar name (fun s o =>
  mkOptions (o_address o) (o_blockheight o) (o_blockhash o) (o_txindex o) s (o_no_commit o) (o_no_commit_block o) (o_fail o) (o_iissdata o) (o_config o) (o_url o)).
Definition opt_no_commit : CmdFlag Options := BoolVar (str "no-commit") (fun b o =>
  mkOptions (o_address o) (o_blockheight o) (o_blockhash o) (o_txindex o) (o_txhash o) b (o_no_commit_block o) (o_fail o) (o_iissdata o) (o_config o) (o_url o)).
Definition opt_no_commit_block : CmdFlag Options := BoolVar (str "no-commit-block") (fun b o =>
  mkOptions (o_address o) (o_blockheight o) (o_blockhash o) (o_txindex o) (o_txhash o) (o_no_commit o) b (o_fail o) (o_iissdata o) (o_config o) (o_url o)).
Definition opt_fail : CmdFlag Options := BoolVar (str "fail") (fun b o =>
  mkOptions (o_address o) (o_blockheight o) (o_blockhash o) (o_txindex o) (o_txhash o) (o_no_commit o) (o_no_commit_block o) b (o_iissdata o) (o_config o) (o_url o)).
Definition opt_iissdata : CmdFlag Options := StringVar (str "iissdata") (fun s o =>
  mkOptions (o_address o) (o_blockheight o) (o_blockhash o) (o_txindex o) (o_txhash o) (o_no_commit o) (o_no_commit_block o) (o_fail o) s (o_config o) (o_url o)).
Definition opt_config : CmdFlag Options := StringVar (str "config") (fun s o =>
  mkOptions (o_address o) (o_blockheight o) (o_blockhash o) (o_txindex o) (o_txhash o) (o_no_commit o) (o_no_commit_block o) (o_fail o) (o_iissdata o) s (o_url o)).
Definition opt_url : CmdFlag Options := StringVar (str "url") (fun s o =>
  mkOptions (o_address o) (o_blockheight o) (o_blockhash o) (o_txindex o) (o_txhash o) (o_no_commit o) (o_no_commit_block o) (o_fail o) (o_iissdata o) (o_config o) s).

Definition sendipc_flags (c : sendipc_cmd) : FlagSet Options :=
  match c with
  | Cmd_version | Cmd_query_calculate_status => []
  | Cmd_init | Cmd_query_calculate_result => [opt_blockheight]
  | Cmd_query => [opt_address; opt_txhash (str "txHash")]
  | Cmd_claim =>
      [opt_address; opt_blockheight; opt_blockhash; opt_txindex; opt_txhash (str "txhash"); opt_no_commit; opt_no_commit_block]
  | Cmd_commitclaim => [opt_fail; opt_address; opt_blockheight; opt_blockhash; opt_txindex; opt_txhash (str "txhash")]
  | Cmd_startblock => [opt_blockheight; opt_blockhash]
  | Cmd_commitblock => [opt_fail; opt_blockheight; opt_blockhash]
  | Cmd_calculate => [opt_iissdata; opt_blockheight]
  | Cmd_monitor => [opt_config; opt_url]
  | Cmd_rollback => [opt_blockheight; opt_blockhash]
  end.

Section Run.
Context (cap : nat -> nat).
(** The configuration files of [monitor], and how many rounds are looked at. *)
Context (config_file : bytes -> option (list (bytes * Address))) (rounds : nat).

(** The option [-fail] is handed on as the success of the commit.  [Some e]
    is a call of [os.Exit]. *)
Definition run_cmd {M} `{!Client M, !Tolerant M} (c : sendipc_cmd) (o : Options) : M (option exit) :=
  let missing := ret (Some (Exit 1)) in
  let done {A} (m : M A) : M (option exit) := let* _ := m in ret None in
  match c with
  | Cmd_version => done cli_version
  | Cmd_init => done (cli_init (o_blockheight o))
  | Cmd_claim =>
      if bool_decide (o_address o = []) then missing
      else done (cli_claim (o_address o) (o_blockheight o) (o_blockhash o) (o_txindex o) (o_txhash o)
                   (o_no_commit o) (o_no_commit_block o))
  | Cmd_commitclaim =>
      if bool_decide (o_address o = []) then missing
      else done (cli_commitClaim (o_fail o) (o_address o) (o_blockheight o) (o_blockhash o) (o_txindex o) (o_txhash o))
  | Cmd_startblock => done (cli_startBlock (o_blockheight o) (o_blockhash o))
  | Cmd_commitblock => done (cli_commitBlock (o_fail o) (o_blockheight o) (o_blockhash o))
  | Cmd_query =>
      if bool_decide (o_address o = []) then missing
      else
        match o_txhash o with
        | [] => done (cli_query (o_address o) [])
        | s => match hex_DecodeString s with Some txHash => done (cli_query (o_address o) txHash) | None => missing end
        end
  | Cmd_calculate =>
      if bool_decide (o_iissdata o = []) then missing else done (cli_calculate (o_iissdata o) (o_blockheight o))
  | Cmd_query_calculate_status => done cli_queryCalculateStatus
  | Cmd_query_calculate_result => done (cli_queryCalculateResult (o_blockheight o))
  | Cmd_monitor => done (cli_monitor rounds (config_file (o_config o)))
  | Cmd_rollback =>
      if (o_blockheight o =? 0) || bool_decide (o_blockhash o = []) then missing
      else done (cli_rollback cap (o_blockheight o) (o_blockhash o))
  end.

Context `{!ProtocolCodecs, !Framing} {P : Type} `{!Peer P}.

(** [args] are the arguments behind the name of the program, [connect] what
    [ipc.Dial] finds at an address.  The loop up to READY ignores errors and does
    not end with the stream, here a panic. *)
Definition sendipc_Run (connect : bytes -> option (P * bytes)) (args : list bytes) : outcome exit (RCIPC P * option exit) :=
  match args with
  | address :: cmd :: options =>
      match assoc cmd sendipc_cmds with
      | None => Err (Exit 1)
      | Some c =>
          let! o := ParseOrExit (sendipc_flags c) options default_Options in
          match connect address with
          | None => Err (Exit 1)
          | Some (p, stream) =>
              match flush_ready (S (length stream)) (mkRCIPC 1 stream p) with
              | Ok rc =>
                  match run_cmd (M := Wire P) c o rc with
                  | (rc, Ok e) => Ok (rc, e)
                  | _ => Panic
                  end
              | _ => Panic
              end
          end
      end
  | _ => Err (Exit 1)
  end.
End Run.
