(* ===== verification/SendIpcSpec.v ===== *)
(** * What the client program does to the server

    The commands of [SendIpc.v] on the state of the server, and the theorems
    that over a connection they do the same ([run_cmd_refines]) and that a claim from
    the command line claims ([sendipc_claims]). *)

From Stdlib Require Strings.String.
From S2P Require Import Prelude Bytes HexInt HexText Flags Address Store Codec Typed Account ClaimDB Management IISSData IScoreDB Context Reward CalcDebug MsgDebug Calculate DoCalculate Messages Dispatch ClaimLedger Ipc Server Client Remote ClaimRemote DBToolCLI SendIpc.
Import String.StringSyntax.

Lemma sendipc_flags_names c : Forall (fun f => flag_name (f_Name f)) (sendipc_flags c).
Proof. apply (bool_decide_unpack _). by destruct c. Qed.

Lemma unmarshal_new_read {A} `{!Codec A} (zero a : A) data : unmarshal_new zero data = Some a -> (unmarshal data zero).1 = a.
Proof. unfold unmarshal_new. destruct (unmarshal data zero) as [x []]; [by intros [= ->]|done]. Qed.

Lemma rpc_decode_read `{!ProtocolCodecs} {A : Set} (c : rpc A) data a : rpc_decode c data = Some a -> rpc_read c data = a.
Proof. revert a. destruct c; intros a; cbn [rpc_decode rpc_read rpc_zero]; try apply unmarshal_new_read. by destruct a. Qed.

Section SendIpcSpec.
Context {D : Type} `{!LevelDB D, !LevelDBLaws D}.
Context `{!Codec ClaimData, !CodecLaws ClaimData, !Codec ClaimBackupInfo, !CodecLaws ClaimBackupInfo,
  !Codec PreCommitData, !CodecLaws PreCommitData}.
Context `{!Codec IScoreData, !Codec IISSTXData, !Codec IISSBlockProduceInfoData, !Codec CRData,
  !Codec DBInfoData, !Codec GVData, !Codec PRepData, !Codec PRepCandidateData,
  !Codec IISSHeader, !Codec IISSGVData, !Codec CalcDebugData, !ProtocolCodecs, !Framing, !ProtocolLaws}.
Context (shake256 : bytes -> bytes) (map_order : gmap bytes Z -> list (bytes * Z))
  (candidate_order : PRepCandidates -> list (Address * PRepCandidate)) (world : calc_world D).

#[local] Instance direct_ops : Client (Direct (D := D)) := direct_client shake256 map_order world.
#[local] Instance server_end : Peer (endpoint (manager D)) := server_peer shake256 map_order candidate_order world.

(** No call fails on the state of the server. *)
#[export] Instance direct_tolerant : Tolerant (Direct (D := D)) := {|
  attempt A c := direct_call shake256 map_order world c;
  attempt_done := receive_done;
  crash A := fun d => Some (d, Panic);
|}.

(** ** Refinement *)

Abbreviation refines d w := (refines (D := D) d w).

Lemma refines_attempt {A : Set} (c : rpc A) : refines (attempt c) (attempt c).
Proof.
  intros rc s s' r Hs Hd. destruct (refines_call shake256 map_order candidate_order world c rc s s' r Hs Hd) as (rc' & Hw & Hs').
  exists rc'. split; [|done]. cbn in Hd. unfold direct_call in Hd.
  destruct (d_done s); [|done]. destruct (answer _ _ _ _ _ _) as [[[m a] dn]| |]; [|done..].
  case_decide; [|done]. injection Hd as _ <-. cbn [attempt wire_tolerant]. cbn in Hw.
  unfold conn_SendAndReceive, SendAndReceive in *. destruct (peer_feed _ _) as [p back].
  destruct (read_message _) as [rc1 [msg|]]; [|done]. destruct (rpc_decode c (m_Data msg)) as [x|] eqn:E; [|done].
  injection Hw as -> ->. by rewrite (rpc_decode_read _ _ _ E).
Qed.

Lemma refines_attempt_done : refines attempt_done attempt_done.
Proof.
  intros rc s s' r Hs Hd. destruct (refines_receive shake256 map_order candidate_order world rc s s' r Hs Hd) as (rc' & Hw & Hs').
  exists rc'. split; [|done]. cbn in Hw. unfold Receive_done in Hw. cbn in Hd. cbn [attempt_done wire_tolerant].
  assert (r = Ok tt) as -> by (destruct (d_done s) as [|? [|]]; by simplify_eq).
  destruct (read_message rc) as [rc1 [msg|]]; [|done]. destruct (unmarshal_new _ _); [|done]. by injection Hw as ->.
Qed.

Lemma refines_crash {A} : refines (crash (A := A)) crash.
Proof. intros rc s s' r Hs [= <- <-]. by exists rc. Qed.

Ltac refine_cmd :=
  repeat first
    [ progress intros
    | apply refines_bind | apply refines_ret | apply refines_new_id
    | apply refines_attempt | apply refines_attempt_done | apply refines_crash
    | solve [eauto 1 with refines] | case_match ].

Lemma refines_cli_query a th : refines (cli_query a th) (cli_query a th).
Proof. unfold cli_query. refine_cmd. Qed.
Lemma refines_cli_commitClaim ok a h bh i th : refines (cli_commitClaim ok a h bh i th) (cli_commitClaim ok a h bh i th).
Proof. unfold cli_commitClaim. refine_cmd. Qed.
Lemma refines_cli_commitBlock ok h bh : refines (cli_commitBlock ok h bh) (cli_commitBlock ok h bh).
Proof. unfold cli_commitBlock. refine_cmd. Qed.
#[local] Hint Resolve refines_cli_query refines_cli_commitClaim refines_cli_commitBlock : refines.

Lemma refines_cli_claim a h bh i th nc nb : refines (cli_claim a h bh i th nc nb) (cli_claim a h bh i th nc nb).
Proof. unfold cli_claim. refine_cmd. Qed.
Lemma refines_readAndPush l : refines (readAndPush l) (readAndPush l).
Proof. induction l as [|[name a] l IH]; cbn [readAndPush]; refine_cmd; exact IH. Qed.
#[local] Hint Resolve refines_cli_claim refines_readAndPush : refines.
Lemma refines_monitor_rounds n l : refines (monitor_rounds n l) (monitor_rounds n l).
Proof. induction n as [|n IH]; cbn [monitor_rounds]; refine_cmd; exact IH. Qed.
#[local] Hint Resolve refines_monitor_rounds : refines.

(** Every command of the program does over the connection what its calls do on
    the state of the server. *)
Lemma run_cmd_refines cap config_file rounds c o :
  refines (run_cmd cap config_file rounds c o) (run_cmd cap config_file rounds c o).
Proof.
  unfold run_cmd, cli_version, cli_init, cli_startBlock, cli_calculate, cli_queryCalculateStatus,
    cli_queryCalculateResult, cli_monitor, cli_rollback.
  refine_cmd.
Qed.

(** ** A claim *)

Lemma cli_commitClaim_ok ok a h bh i th v t d d' r :
  hash_value BlockHashSize h bh = Some v -> hash_value TXHashSize (h +u i) th = Some t ->
  cli_commitClaim ok a h bh i th d = Some (d', Ok r) ->
  mg_ctx (d_mgr d') = DoCommitClaim (mg_ctx (d_mgr d)) (mkCommitClaim ok (address_arg a) h v i t).
Proof.
  intros Hv Ht. unfold cli_commitClaim. rewrite Hv, Ht. intros (d1 & [] & K & [= <- _])%direct_bind_ok.
  apply direct_call_ok in K as (m & dn & [= <- <-] & _ & ->). done.
Qed.

Lemma cli_commitBlock_ok ok h bh v d d' r :
  hash_value BlockHashSize h bh = Some v -> cli_commitBlock ok h bh d = Some (d', Ok r) ->
  exists block, commitBlock (E := Empty_set) (mg_ctx (d_mgr d)) (mkCommitBlock ok h (Some v)) = Ok (mg_ctx (d_mgr d'), block).
Proof.
  intros Hv. unfold cli_commitBlock. rewrite Hv. intros (d1 & x & K & [= <- _])%direct_bind_ok.
  apply direct_call_ok in K as (m & dn & Ha & _ & ->). cbn [answer d_mgr] in Ha |- *.
  apply obind_ok in Ha as ([ctx resp] & Hb & [= <- <- <-]). by exists resp.
Qed.

(** What the three messages do to the context. *)
Lemma cli_claim_committed address h blockHash txIndex txHash s s' resp :
  is_Some (hash_value TXHashSize (h +u txIndex) txHash) ->
  cli_claim address h blockHash txIndex txHash false false s = Some (s', Ok (Some resp)) -> rcl_IScore resp <> 0 ->
  exists req ctx1 bh block, wf_ClaimMessage req /\ cm_Address req = address_arg address /\ cm_BlockHeight req = h /\
    DoClaim (E := Empty_set) (mg_ctx (d_mgr s)) req = Ok (ctx1, (bh, Some (rcl_IScore resp))) /\
    commitBlock (E := Empty_set) (DoCommitClaim ctx1 (commit_of req)) (mkCommitBlock true h (Some (cm_BlockHash req)))
      = Ok (mg_ctx (d_mgr s'), block).
Proof.
  intros [t Ht] Hd Hnz. unfold cli_claim in Hd. destruct (hash_value BlockHashSize h blockHash) as [v|] eqn:Hv; [|done].
  apply direct_bind_ok in Hd as (d1 & r & Hc & Hd). apply direct_call_ok in Hc as (m & dn & Ha & (Haddr & Hh & Hi) & ->).
  apply direct_bind_ok in Hd as (d2 & [] & [= <-] & Hd). apply direct_bind_ok in Hd as (d3 & [] & Hcc & Hd).
  apply direct_bind_ok in Hcc as (d4 & x & Hcc & [= <-]). apply direct_bind_ok in Hd as (d5 & [] & Hcb & [= -> ->]).
  apply direct_bind_ok in Hcb as (d6 & y & Hcb & [= ->]).
  cbn [answer d_mgr] in Ha. apply obind_ok in Ha as ([ctx1 r1] & Hcl & [= <- <- <-]).
  apply obind_ok in Hcl as ([ctx2 [bh' i]] & Hcl & [= -> <-]). cbn [rcl_IScore] in *.
  destruct i as [i|]; [|done]. cbn [default] in *.
  apply (cli_commitClaim_ok _ _ _ _ _ _ v t) in Hcc; [|done..]. apply (cli_commitBlock_ok _ _ _ v) in Hcb as [block Hcb]; [|done].
  cbn [d_mgr] in Hcb. rewrite Hcc in Hcb. apply hash_value_wf in Hv. apply hash_value_claim in Ht.
  eexists (mkClaimMessage _ _ _ _ _), ctx1, bh', block. split_and!; [split_and!; [exact Hh|apply Hv..|exact Hi|exact Haddr]|done|done|exact Hcl|].
  unfold commit_of. cbn [cm_Address cm_BlockHeight cm_BlockHash cm_TXIndex cm_TXHash]. by rewrite Ht.
Qed.

(** The program on a connection the server accepts. *)
Lemma sendipc_Run_refines cap config_file rounds connect m sock cmd c l args o s' e :
  assoc cmd sendipc_cmds = Some c -> connect sock = Some (accepted m) -> wf (version (mg_ctx m)) ->
  command_line (sendipc_flags c) l args -> assign_all (sendipc_flags c) l default_Options = Ok o ->
  run_cmd (M := Direct) cap config_file rounds c o (mkDirect m 1 []) = Some (s', Ok e) ->
  exists rc', sendipc_Run cap config_file rounds connect (sock :: cmd :: args) = Ok (rc', e) /\ in_sync rc' s'.
Proof.
  intros Hc Hconn Hv Hl Ha Hd. unfold sendipc_Run. rewrite Hc, Hconn.
  rewrite (ParseOrExit_line _ l _ _ o (sendipc_flags_names c)) by done. cbn [obind].
  unfold accepted, accept, Send. cbn [flush_ready]. set (ready := mkMessage _ _ _).
  change (mkRCIPC 1 _ _) with (pending_rc m 1 [ready]).
  rewrite read_pending by (split_and!; [by apply (bool_decide_unpack _)..|]; by apply wire_valid).
  assert (Hs : in_sync (pending_rc m 1 []) (mkDirect m 1 [])) by (split_and!; [by apply (bool_decide_unpack _)|done..]).
  destruct (run_cmd_refines cap config_file rounds c o _ _ _ _ Hs Hd) as (rc' & Hw & Hs').
  exists rc'. split; [|done]. change (m_Msg ready =? MsgReady) with true. cbn iota. by rewrite Hw.
Qed.

(** C7: A claim from the command line: [sendipc SOCKET claim] with its options,
    however they are spelled, makes the connection, sends CLAIM, COMMIT_CLAIM and
    COMMIT_BLOCK, and when the CLAIM was answered with an I-Score that is not zero,
    the address has claimed exactly that much more on the server, keeps what it
    earned, and has less than 1000 left. *)
Theorem sendipc_claims cap config_file rounds connect m sock l args o s' resp :
  connect sock = Some (accepted m) -> wf (version (mg_ctx m)) -> ledger (o_blockheight o) (mg_ctx m) ->
  command_line (sendipc_flags Cmd_claim) l args -> assign_all (sendipc_flags Cmd_claim) l default_Options = Ok o ->
  o_address o <> [] -> o_no_commit o = false -> o_no_commit_block o = false ->
  is_Some (hash_value TXHashSize (o_blockheight o +u o_txindex o) (o_txhash o)) ->
  cli_claim (M := Direct) (o_address o) (o_blockheight o) (o_blockhash o) (o_txindex o) (o_txhash o) false false
    (mkDirect m 1 []) = Some (s', Ok (Some resp)) ->
  rcl_IScore resp <> 0 ->
  let a := address_arg (o_address o) in
  let ctx' := mg_ctx (d_mgr s') in
  exists rc', sendipc_Run cap config_file rounds connect (sock :: str "claim" :: args) = Ok (rc', None) /\
    ep_state (rc_peer rc') = d_mgr s' /\
    claimed ctx' a = claimed (mg_ctx m) a + rcl_IScore resp /\ earned ctx' a = earned (mg_ctx m) a /\
    0 <= earned ctx' a - claimed ctx' a < 1000.
Proof.
  intros Hconn Hv L Hl Ha Haddr Hnc Hnb Hth Hd Hnz a ctx'.
  assert (Hrun : run_cmd (M := Direct) cap config_file rounds Cmd_claim o (mkDirect m 1 []) = Some (s', Ok None)).
  { cbn [run_cmd]. rewrite bool_decide_eq_false_2, Hnc, Hnb by done. cbn [bind direct_ops direct_client]. by rewrite Hd. }
  destruct (sendipc_Run_refines cap config_file rounds connect m sock (str "claim") Cmd_claim l args o s' None)
    as (rc' & Hw & _ & _ & ->); [done..|].
  apply cli_claim_committed in Hd as (req & ctx1 & bh & block & Hreq & Hr & Hh & Hcl & Hcb); [|done..].
  destruct (claim_flow (E := Empty_set) (o_blockheight o) (mg_ctx m) req ctx1 bh (rcl_IScore resp))
    as (ctx3 & Hcb' & Hflow); [done..|].
  rewrite Hcb in Hcb'. injection Hcb' as Hc3 _. rewrite Hr, <-Hc3 in Hflow. eexists. split; [exact Hw|]. split; [done|]. exact Hflow.
Qed.
End SendIpcSpec.
