(* ===== verification/IISSTool.v ===== *)
(** * The IISS data tool ([cmd/iissdata])

    It writes the input of a calculation record by record, and reads one back:
    it counts the block producers and the heights between them that are
    missing, the transactions, and the entries of every kind. *)

From S2P Require Import Prelude Bytes HexInt Address Store Codec Typed Account ClaimDB Management IISSData.

(** ** Arguments *)

(** [strings.Split(s, ",")]. *)
Fixpoint split_comma (s : bytes) : list bytes :=
  match s with
  | [] => [[]]
  | c :: s =>
      if c =? 44 then [] :: split_comma s
      else match split_comma s with w :: ws => (c :: w) :: ws | [] => [[c]] end
  end.

(** [v, _ := strconv.ParseUint(s, 10, 0)]: zero for text that is no number,
    the largest for one that is too large. *)
Fixpoint parse_decimal (n : Z) (s : bytes) : Z :=
  match s with
  | [] => n
  | c :: s =>
      if negb (is_digit c) then 0
      else
        let n1 := n * 10 + (c - 48) in
        if max_u64 <? n1 then max_u64 else parse_decimal n1 s
  end.

Definition address_text (s : bytes) : outcome Empty_set Address :=
  match NewAddressFromString s with Ok a => Ok a | _ => Panic end.
Fixpoint address_texts (l : list bytes) : outcome Empty_set (list Address) :=
  match l with
  | [] => Ok []
  | s :: l => let! a := address_text s in let! r := address_texts l in Ok (a :: r)
  end.

Section IISSTool.
Context {D : Type} `{!LevelDB D}.
Context `{!Codec IISSHeader, !Codec IISSGVData, !Codec IISSBlockProduceInfoData, !Codec IISSTXData, !Codec PRepData}.

(** ** Writing *)

Definition cli_header (version blockHeight revision : Z) (d : D) : D :=
  bucket_Set PrefixIISSHeader [] (marshal (mkIISSHeader version blockHeight revision)) d.

Definition cli_governanceVariable (blockHeight incentive reward mainPRepCount subPRepCount : Z) (d : D) : D :=
  let gv := mkIISSGV blockHeight (mkIISSGVData incentive reward mainPRepCount subPRepCount) in
  bucket_Set PrefixIISSGV (ig_ID gv) (marshal (ig_Data gv)) d.

Definition cli_bp (blockHeight : Z) (generator validator : bytes) (delete : bool) (d : D) : outcome Empty_set D :=
  let key := bp_ID (mkIISSBP blockHeight (bp_Data zero_IISSBP)) in
  if delete then Ok (bucket_Delete PrefixIISSBPInfo key d)
  else if bool_decide (generator = []) || bool_decide (validator = []) then Ok d
  else
    let! g := address_text generator in
    let! v := address_texts (split_comma validator) in
    Ok (bucket_Set PrefixIISSBPInfo key (marshal (mkIISSBPData g v)) d).

Fixpoint prep_infos (prepList delegationList : list bytes) : outcome Empty_set (list PRepDelegationInfo) :=
  match prepList, delegationList with
  | p :: prepList, dg :: delegationList =>
      let! a := address_text p in
      let! l := prep_infos prepList delegationList in
      Ok (mkPRepDelegationInfo a (parse_decimal 0 dg) :: l)
  | _, _ => Ok []
  end.

(** The sum of the delegations wraps. *)
Definition cli_prep (blockHeight : Z) (preps delegations : bytes) (delete : bool) (d : D) : outcome Empty_set D :=
  let key := pr_ID (mkPRep blockHeight (pr_Data zero_PRep)) in
  if delete then Ok (bucket_Delete PrefixIISSPRep key d)
  else if bool_decide (preps = []) || bool_decide (delegations = []) then Ok d
  else
    let prepList := split_comma preps in
    let delegationList := split_comma delegations in
    if negb (length prepList =? length delegationList)%nat then Ok d
    else
      let sum := fold_left (fun sum dg => sum +u parse_decimal 0 dg) delegationList 0 in
      let! l := prep_infos prepList delegationList in
      Ok (bucket_Set PrefixIISSPRep key (marshal (mkPRepData sum l)) d).

Definition cli_transaction (index : Z) (address : bytes) (blockHeight dataType : Z) (dgAddress : bytes) (dgAmount : Z)
    (d : D) : outcome Empty_set D :=
  let! a := address_text address in
  let! data :=
    if dataType =? TXDataTypeDelegate then
      let! dg := address_text dgAddress in
      match EncodeAny (AnyList [AnyList [AnyAddress dg; AnyUint64 dgAmount]]) with
      | Ok to => Ok to
      | Err _ => Ok None
      | Panic => Panic
      end
    else if (dataType =? TXDataTypePrepReg) || (dataType =? TXDataTypePrepUnReg)
    then Ok (Some (mkTypedObj TypeNil (ObjBytes [])))
    else Ok (Some (mkTypedObj 0 ObjNil)) in
  let tx := mkIISSTX index (mkIISSTXData a blockHeight dataType data) in
  Ok (bucket_Set PrefixIISSTX (tx_ID tx) (marshal (tx_TXData tx)) d).

(** ** Reading *)

(** The heights from the one expected up to the next one found. *)
Fixpoint miss_loop (fuel : nat) (startBH entries miss blockHeight : Z) : list Z * Z :=
  let expected := startBH +u entries +u miss in
  if expected =? blockHeight then ([], miss)
  else
    match fuel with
    | O => ([], miss)
    | S fuel => let '(out, miss) := miss_loop fuel startBH entries (miss +u 1) blockHeight in (expected :: out, miss)
    end.

(** The loop of [ReadIISSBP]: the heights printed, the entries and the missing.
    The difference of the heights bounds the inner loop.  An entry that does not
    decode is counted and its height not looked at. *)
Fixpoint read_bp (l : list (bytes * bytes)) (entries startBH miss : Z) : list Z * (Z * Z) :=
  match l with
  | [] => ([], (entries, miss))
  | (key, value) :: l =>
      if (bp_SetBytes value zero_IISSBP).2 then
        let blockHeight := BytesToUint64 (drop (length PrefixIISSBPInfo) key) in
        let startBH := if entries =? 0 then blockHeight else startBH in
        let '(out, miss) :=
          miss_loop (Z.to_nat (blockHeight -u (startBH +u entries +u miss))) startBH entries miss blockHeight in
        let '(out', r) := read_bp l (entries +u 1) startBH miss in (out ++ out', r)
      else read_bp l (entries +u 1) startBH miss
  end.
Definition ReadIISSBP (d : D) : list Z * (Z * Z) := read_bp (iter_prefix PrefixIISSBPInfo d) 0 0 0.

Definition ReadIISSTX (d : D) : Z := Z.of_nat (length (iter_prefix PrefixIISSTX d)).

Record iiss_stats := mkStats { st_total : Z; st_header : Z; st_gv : Z; st_bp : Z; st_pRep : Z; st_tx : Z; st_unknown : Z }.

(** The transactions, by their number in the iteration, whose key another
    database does not have. *)
Fixpoint check_txs (result : D) (l : list (bytes * bytes)) (total : Z) : Z * list Z :=
  match l with
  | [] => (total, [])
  | (key, value) :: l =>
      let '(n, lost) := check_txs result l (total + 1) in
      (n, if (tx_SetBytes value (mkIISSTX 0 (tx_TXData zero_IISSTX))).2
          then match bucket_Get PrefixIISSTX result (drop (length PrefixIISSTX) key) with Some _ => lost | None => total :: lost end
          else lost)
  end.
Definition checkIISSTX (iissDB result : D) : Z * list Z := check_txs result (iter_prefix PrefixIISSTX iissDB) 0.

(** One entry of the loop of [checkALL]; a key without two bytes is taken as
    out of range of [key[0:2]]. *)
Definition count_key (key : bytes) (s : iiss_stats) : outcome Empty_set iiss_stats :=
  if (length key <? 2)%nat then Panic
  else
    let '(mkStats total header gv bp pRep tx unknown) := s in
    let keyID := take 2 key in
    Ok (if bool_decide (keyID = PrefixIISSHeader) then mkStats (total +u 1) (header +u 1) gv bp pRep tx unknown
        else if bool_decide (keyID = PrefixIISSGV) then mkStats (total +u 1) header (gv +u 1) bp pRep tx unknown
        else if bool_decide (keyID = PrefixIISSBPInfo) then mkStats (total +u 1) header gv (bp +u 1) pRep tx unknown
        else if bool_decide (keyID = PrefixIISSPRep) then mkStats (total +u 1) header gv bp (pRep +u 1) tx unknown
        else if bool_decide (keyID = PrefixIISSTX) then mkStats (total +u 1) header gv bp pRep (tx +u 1) unknown
        else mkStats (total +u 1) header gv bp pRep tx (unknown +u 1)).

Fixpoint count_keys (keys : list bytes) (s : iiss_stats) : outcome Empty_set iiss_stats :=
  match keys with
  | [] => Ok s
  | key :: keys => let! s := count_key key s in count_keys keys s
  end.
Definition checkALL (d : D) : outcome Empty_set iiss_stats := count_keys (iter_New None None d).*1 (mkStats 0 0 0 0 0 0 0).
End IISSTool.

(** ** What is written is read *)

Section Specs.
Context {D : Type} `{!LevelDB D, !LevelDBLaws D}.
Context `{!Codec IISSHeader, !Codec IISSGVData, !Codec IISSBlockProduceInfoData, !Codec IISSTXData, !CodecLaws IISSTXData, !Codec PRepData}.

Lemma address_text_String a : wf_Address a -> address_text (Address_String a) = Ok a.
Proof. intros Ha. unfold address_text. by rewrite (proj2 (Address_roundtrip a Ha)). Qed.

Lemma BytesToUint64_key p h : all_bytes p -> is_u64 h -> BytesToUint64 (p ++ be64 h) = h.
Proof.
  intros Hp Hh. rewrite BytesToUint64_spec by (apply Forall_app; split; [done|auto with rc]).
  rewrite be_combine_app, be64_combine, length_be64 by done. unfold u64. change (256 ^ Z.of_nat 8) with (2 ^ 64).
  rewrite Z.add_comm, Z_mod_plus_full. by apply Z.mod_small.
Qed.

(** The typed object of one delegation, read back. *)
Lemma delegation_decoded dg amount : wf_Address dg ->
  exists to, EncodeAny (AnyList [AnyList [AnyAddress dg; AnyUint64 amount]]) = Ok to /\
    DecodeAny to = Ok (AnyList [AnyList [AnyAddress dg; AnyHexInt amount]]).
Proof.
  intros Hdg. eexists. split; [reflexivity|].
  change ((let! l := (let! x := (let! l := (let! a := match NewAddress (Some (Address_Bytes dg)) with Ok a => Ok (AnyAddress a) | _ => Panic end in
    let! b := Ok (AnyHexInt (BigIntSetBytes (BigIntToBytes amount))) in Ok [a; b]) in Ok (AnyList l)) in Ok [x]) in Ok (AnyList l))
    = Ok (E := any_error) (AnyList [AnyList [AnyAddress dg; AnyHexInt amount]])).
  by rewrite NewAddress_Bytes, BigInt_roundtrip.
Qed.

(** C40: A delegation the tool writes is the one a calculation reads: the entry is
    under the index of the transaction, and gives an account with that
    address, height and single delegation. *)
Theorem cli_transaction_delegation index a h dg amount (d : D) :
  wf_Address a -> wf_Address dg -> is_u64 index -> is_u64 h ->
  exists d' tx, cli_transaction index (Address_String a) h TXDataTypeDelegate (Address_String dg) amount d = Ok d' /\
    bucket_Get PrefixIISSTX d' (be64 index) = Some (marshal (tx_TXData tx)) /\
    (forall k, k <> PrefixIISSTX ++ be64 index -> ldb_get d' k = ldb_get d k) /\
    (forall r, tx_SetBytes (marshal (tx_TXData tx)) (mkIISSTX index r) = (tx, true)) /\
    NewIScoreAccountFromIISS (E := Empty_set) tx
    = Ok (Some (mkIScoreAccount a (mkIScoreData 0 h [Some (mkDelegateData dg amount)]))).
Proof.
  intros Ha Hdg Hi Hh. unfold cli_transaction. rewrite !address_text_String by done. cbn [obind Z.eqb TXDataTypeDelegate].
  destruct (delegation_decoded dg amount Hdg) as (to & -> & Hto). eexists _, (mkIISSTX index (mkIISSTXData a h TXDataTypeDelegate to)).
  split; [done|]. cbn [tx_TXData].
  assert (Ek : tx_ID (mkIISSTX index (mkIISSTXData a h TXDataTypeDelegate to)) = be64 index) by (by apply height_ID_be64).
  rewrite Ek. split_and!.
  - by rewrite bucket_Get_Set, decide_True.
  - intros k Hk. by rewrite bucket_get_set, decide_False.
  - intros r. unfold tx_SetBytes. cbn [tx_TXData tx_Index]. rewrite unmarshal_marshal; [done|]. by split_and!.
  - unfold NewIScoreAccountFromIISS. cbn [tx_TXData tx_DataType Z.eqb TXDataTypeDelegate negb tx_Address tx_BlockHeight tx_Data].
    unfold NewIScoreAccountFromDelegation. by rewrite Hto.
Qed.

(** ** Counting *)

(** The heights between those of an ascending list, from the one expected. *)
Fixpoint gaps (expected : Z) (hs : list Z) : list Z :=
  match hs with [] => [] | h :: hs => seqZ expected (h - expected) ++ gaps (h + 1) hs end.

Lemma miss_loop_spec startBH entries miss h fuel expected : startBH + entries + miss = expected ->
  0 <= startBH -> 0 <= entries -> 0 <= miss -> expected <= h < max_u64 -> (Z.to_nat (h - expected) <= fuel)%nat ->
  miss_loop fuel startBH entries miss h = (seqZ expected (h - expected), miss + (h - expected)).
Proof.
  intros He Hs Hn Hm Hh Hf. remember (Z.to_nat (h - expected)) as n eqn:En.
  revert fuel miss expected He Hm Hh Hf En. unfold max_u64.
  induction n as [|n IH]; intros fuel miss expected He Hm Hh Hf En;
    (assert (Hu : startBH +u entries +u miss = expected)
       by (rewrite (u64_small (startBH + entries)) by zlia; rewrite u64_small by zlia; lia)).
  - assert (h = expected) as -> by lia. destruct fuel; cbn [miss_loop]; rewrite Hu, Z.eqb_refl, Z.sub_diag, Z.add_0_r; done.
  - destruct fuel as [|fuel]; [lia|]. cbn [miss_loop]. rewrite Hu, (proj2 (Z.eqb_neq _ _)) by lia.
    rewrite (u64_small (miss + 1)) by zlia. rewrite (IH fuel (miss + 1) (expected + 1)) by lia.
    rewrite (seqZ_cons expected) by lia. f_equal; [f_equal; f_equal; lia|lia].
Qed.

(** The entries of a bucket of block producers, with heights [hs]. *)
Definition bp_entry (h : Z) (kv : bytes * bytes) : Prop :=
  kv.1 = PrefixIISSBPInfo ++ be64 h /\ (bp_SetBytes kv.2 zero_IISSBP).2 = true.

Lemma read_bp_step key value l entries startBH miss h expected : bp_entry h (key, value) ->
  (if entries =? 0 then h else startBH) + entries + miss = expected ->
  0 <= (if entries =? 0 then h else startBH) -> 0 <= entries -> 0 <= miss -> expected <= h < max_u64 ->
  read_bp ((key, value) :: l) entries startBH miss
  = (let '(out, r) := read_bp l (entries + 1) (if entries =? 0 then h else startBH) (miss + (h - expected)) in
     (seqZ expected (h - expected) ++ out, r)).
Proof.
  intros [Hkey Hv] He Hs Hn Hm Hh. cbn [fst snd] in Hkey, Hv. subst key. cbn [read_bp]. rewrite Hv, drop_app_length.
  assert (Hk : BytesToUint64 (be64 h) = h) by (unfold max_u64 in Hh; apply (BytesToUint64_key []); [constructor|unfold is_u64; zlia]).
  rewrite Hk, (u64_small (entries + 1)) by (unfold max_u64 in Hh; zlia).
  set (s := if entries =? 0 then h else startBH) in *.
  assert (Hu : s +u entries +u miss = expected).
  { unfold max_u64 in Hh. rewrite (u64_small (s + entries)) by zlia. rewrite u64_small by zlia. lia. }
  rewrite Hu, (miss_loop_spec s entries miss h _ expected) by (try lia; rewrite u64_small by (unfold max_u64 in Hh; zlia); lia).
  done.
Qed.

Lemma read_bp_gaps hs l entries startBH miss expected : Forall2 bp_entry hs l -> StronglySorted Z.lt hs ->
  Forall (fun h => expected <= h < max_u64) hs -> startBH + entries + miss = expected ->
  0 <= startBH -> 0 < entries -> 0 <= miss ->
  read_bp l entries startBH miss
  = (gaps expected hs, (entries + Z.of_nat (length hs), miss + Z.of_nat (length (gaps expected hs)))).
Proof.
  intros Hl. revert entries miss expected. induction Hl as [|h [key value] hs l He Hl IH]; intros entries miss expected Hs Hf E H0 Hn Hm.
  - cbn. f_equal. f_equal; lia.
  - apply StronglySorted_inv in Hs as [Hs Hlt]. apply Forall_cons in Hf as [Hh Hf].
    rewrite (read_bp_step _ _ _ _ _ _ h expected) by (rewrite ?(proj2 (Z.eqb_neq entries 0)) by lia; done || lia).
    rewrite (proj2 (Z.eqb_neq entries 0)) by lia.
    rewrite (IH (entries + 1) (miss + (h - expected)) (h + 1)); try lia; [|done|].
    + cbn [gaps]. rewrite length_app, length_seqZ. cbn [length]. f_equal. f_equal; lia.
    + apply Forall_forall. intros x Hx. rewrite !Forall_forall in *. specialize (Hf x Hx). specialize (Hlt x Hx). lia.
Qed.

Lemma elem_of_gaps hs expected x : StronglySorted Z.lt hs -> Forall (fun h => expected <= h) hs ->
  x ∈ gaps expected hs <-> expected <= x /\ x ∉ hs /\ exists h, h ∈ hs /\ x < h.
Proof.
  intros Hs. revert expected. induction Hs as [|h hs Hs IH Hlt]; intros expected Hf; cbn [gaps].
  - set_solver.
  - apply Forall_cons in Hf as [Hh Hf]. rewrite Forall_forall in Hlt.
    rewrite elem_of_app, elem_of_seqZ, IH by (apply Forall_forall; intros y Hy; specialize (Hlt y Hy); lia).
    split.
    + intros [Hx | (Hx & Hn & y & Hy & Hxy)].
      * split_and!; [lia| |exists h; split; [left|lia]].
        intros [->|Hin]%elem_of_cons; [lia|]. specialize (Hlt x Hin). lia.
      * split_and!; [lia| |exists y; split; [by right|done]]. intros [->|Hin]%elem_of_cons; [lia|done].
    + intros (Hx & Hn & y & Hy & Hxy). apply not_elem_of_cons in Hn as [Hne Hn].
      destruct (decide (x < h)); [left; lia|right]. split_and!; [lia|done|].
      apply elem_of_cons in Hy as [->|Hy]; [lia|]. by exists y.
Qed.

(** What the tool reports of block producers whose entries all decode: one
    entry for every height, and as missing, each height that lies between
    entries and has none; the two counts are those numbers. *)
Lemma ReadIISSBP_spec (d : D) first hs : Forall2 bp_entry (first :: hs) (iter_prefix PrefixIISSBPInfo d) ->
  StronglySorted Z.lt (first :: hs) -> Forall (fun h => 0 <= h < max_u64) (first :: hs) ->
  exists out, ReadIISSBP d = (out, (Z.of_nat (length (first :: hs)), Z.of_nat (length out))) /\
    forall x, x ∈ out <-> first < x /\ x ∉ hs /\ exists h, h ∈ hs /\ x < h.
Proof.
  intros Hl Hs Hf. unfold ReadIISSBP. inversion Hl as [|? [key value] ? l He Hl']; subst.
  apply StronglySorted_inv in Hs as [Hs Hlt]. apply Forall_cons in Hf as [Hh Hf].
  rewrite Forall_forall in Hlt, Hf. exists (gaps (first + 1) hs). split.
  - rewrite (read_bp_step _ _ _ _ _ _ first first) by (try done; cbn; lia). rewrite Z.sub_diag. cbn [Z.eqb].
    rewrite (read_bp_gaps hs l _ _ _ (first + 1)) by (done || lia || (apply Forall_forall; intros y Hy; specialize (Hlt y Hy); specialize (Hf y Hy); lia)).
    change (seqZ first 0) with (@nil Z). cbn [length app]. f_equal. f_equal; lia.
  - intros x. rewrite elem_of_gaps by (done || (apply Forall_forall; intros y Hy; specialize (Hlt y Hy); lia)).
    split; intros (? & ?); split; (lia || done).
Qed.

Lemma check_txs_kept (l : list (bytes * bytes)) (result : D) total :
  Forall (fun kv => exists k v, kv.1 = PrefixIISSTX ++ k /\ bucket_Get PrefixIISSTX result k = Some v) l ->
  check_txs result l total = (total + Z.of_nat (length l), []).
Proof.
  intros Hl. revert total. induction Hl as [|[key value] l (k & v & Hk & Hv) Hl IH]; intros total; cbn [check_txs length]; [f_equal; lia|].
  rewrite IH. cbn [fst] in Hk. rewrite Hk, drop_app_length, Hv. destruct (tx_SetBytes _ _).2; f_equal; lia.
Qed.

(** Nothing is lost between a database and itself. *)
Lemma checkIISSTX_self (d : D) : (forall k v, ldb_get d k = Some v -> all_bytes k) -> checkIISSTX d d = (ReadIISSTX d, []).
Proof.
  intros Hd. apply (check_txs_kept _ d 0), Forall_forall. intros [key value] Hin.
  pose proof (iter_prefix_elem_1 _ _ _ _ Hin) as Hg. apply iter_prefix_elem in Hin as [_ [r Hr]]; [|repeat (apply Forall_cons; split; [unfold is_byte; cbn; lia|]); constructor|by eapply Hd].
  exists r, value. split; [done|]. cbn [fst] in *. subst key. unfold bucket_Get. by rewrite internalKey_app.
Qed.

(** An entry is counted once, under its kind. *)
Definition st_parts (s : iiss_stats) : Z := st_header s + st_gv s + st_bp s + st_pRep s + st_tx s + st_unknown s.

Lemma count_key_parts key s s' : count_key key s = Ok s' -> u64 (st_parts s') = u64 (st_parts s + 1) /\ st_total s' = st_total s +u 1.
Proof.
  unfold count_key, st_parts. destruct (length key <? 2)%nat; [done|]. destruct s as [t a b c e f g]. cbn.
  intros [= <-]. repeat case_bool_decide; cbn; (split; [|done]); unfold u64;
    match goal with |- context [(?x + 1) mod ?m] => rewrite (Z.mod_eq (x + 1) m) by done; generalize ((x + 1) / m); intros q end;
    symmetry; match goal with |- ?l mod ?m = ?r mod ?m => replace l with (r + q * m) by ring; apply Z_mod_plus_full end.
Qed.

Lemma count_keys_total keys s s' : st_total s = u64 (st_parts s) -> count_keys keys s = Ok s' -> st_total s' = u64 (st_parts s').
Proof.
  revert s. induction keys as [|key keys IH]; intros s Hs; cbn [count_keys]; [by intros [= <-]|].
  destruct (count_key key s) as [s1|[]|] eqn:E; cbn; [|done]. apply IH. destruct (count_key_parts _ _ _ E) as [-> ->].
  rewrite Hs. unfold u64. by rewrite Zplus_mod_idemp_l.
Qed.

Lemma checkALL_total (d : D) s : checkALL d = Ok s -> st_total s = u64 (st_parts s).
Proof. by apply count_keys_total. Qed.
End Specs.
