(* ===== verification/IISSToolCLI.v ===== *)
(** * The command line of the IISS data tool ([cmd/iissdata/cli.go])

    [iissdata DB COMMAND [options]] writes a record into the database at a
    path, reads the database back or removes it.  A path that does not exist is
    opened as an empty store. *)

From Stdlib Require Strings.String.
From S2P Require Import Prelude Bytes HexInt HexText Flags Address Store Codec Typed Account ClaimDB Management IISSData IISSTool.
Import String.StringSyntax.

Inductive iiss_cmd := I_read | I_delete | I_header | I_gv | I_bp | I_prep | I_tx.

Definition iiss_cmds : list (bytes * iiss_cmd) :=
  [(str "read", I_read); (str "delete", I_delete); (str "header", I_header); (str "gv", I_gv);
   (str "bp", I_bp); (str "prep", I_prep); (str "tx", I_tx)].

Definition iiss_cmd_of (cmd : bytes) : option iiss_cmd :=
  snd <$> head (filter (fun p => p.1 = cmd) iiss_cmds).

Definition iiss_flags (c : iiss_cmd) : FlagSet opts :=
  match c with
  | I_read | I_delete => []
  | I_header => [Uint64_flag (str "version"); Uint64_flag (str "revision"); Uint64_flag (str "blockheight")]
  | I_gv =>
      [Uint64_flag (str "blockheight"); Uint64_flag (str "incentive"); Uint64_flag (str "reward");
       Uint64_flag (str "mainprepcount"); Uint64_flag (str "subprepcount")]
  | I_bp =>
      [Uint64_flag (str "blockheight"); String_flag (str "generator"); String_flag (str "validator"); Bool_flag (str "delete")]
  | I_prep =>
      [Uint64_flag (str "blockheight"); String_flag (str "preplist"); String_flag (str "delegationlist"); Bool_flag (str "delete")]
  | I_tx =>
      [Uint64_flag (str "index"); String_flag (str "address"); Uint64_flag (str "blockheight"); Uint64_flag (str "type");
       String_flag (str "dg-address"); Uint64_flag (str "dg-amount")]
  end.

(** One [/] at the end of the name of the database is dropped. *)
Definition db_path (dbName : bytes) : bytes :=
  match last dbName with
  | Some c => if c =? 47 then take (pred (length dbName)) dbName else dbName
  | None => dbName
  end.

Section Run.
Context {D : Type} `{!LevelDB D}.
Context `{!Codec IISSHeader, !Codec IISSGVData, !Codec IISSBlockProduceInfoData, !Codec IISSTXData, !Codec PRepData}.

(** What [read] prints of the block producers, the transactions and all keys. *)
Record iiss_report := mkReport { rp_bp : list Z * (Z * Z); rp_tx : Z; rp_all : iiss_stats }.

(** The databases by their paths. *)
Abbreviation dbs := (gmap bytes D).

Definition cli_read (files : dbs) (path : bytes) : outcome exit (option iiss_report) :=
  match files !! path with
  | None => Ok None
  | Some iissDB =>
      match checkALL iissDB with
      | Ok s => Ok (Some (mkReport (ReadIISSBP iissDB) (ReadIISSTX iissDB) s))
      | _ => Panic
      end
  end.

Definition write_record (c : iiss_cmd) (o : opts) (d : D) : outcome exit D :=
  let lift (m : outcome Empty_set D) : outcome exit D := match m with Ok d => Ok d | _ => Panic end in
  let blockHeight := get_uint (str "blockheight") 0 o in
  match c with
  | I_header =>
      Ok (cli_header (get_uint (str "version") IISSDataVersion o) (get_uint (str "blockheight") 1 o)
            (get_uint (str "revision") IISSDataRevisionDefault o) d)
  | I_gv =>
      Ok (cli_governanceVariable blockHeight (get_uint (str "incentive") 1 o) (get_uint (str "reward") 1 o)
            (get_uint (str "mainprepcount") NumMainPRep o) (get_uint (str "subprepcount") NumSubPRep o) d)
  | I_bp =>
      lift (cli_bp blockHeight (get_string (str "generator") [] o) (get_string (str "validator") [] o)
              (get_bool (str "delete") false o) d)
  | I_prep =>
      lift (cli_prep blockHeight (get_string (str "preplist") [] o) (get_string (str "delegationlist") [] o)
              (get_bool (str "delete") false o) d)
  | I_tx =>
      match get_string (str "address") [] o with
      | [] => Err (Exit 1)
      | address =>
          lift (cli_transaction (get_uint (str "index") 0 o) address blockHeight (get_uint (str "type") 0 o)
                  (get_string (str "dg-address") [] o) (get_uint (str "dg-amount") 10 o) d)
      end
  | I_read | I_delete => Ok d
  end.

Definition run_iiss (c : iiss_cmd) (o : opts) (path : bytes) (files : dbs) : outcome exit (dbs * option iiss_report) :=
  match c with
  | I_read => let! r := cli_read files path in Ok (files, r)
  | I_delete => Ok (delete path files, None)
  | _ => let! d := write_record c o (default ldb_empty (files !! path)) in Ok (<[path := d]> files, None)
  end.

(** [args] are the arguments behind the name of the program. *)
Definition iissdata_Run (args : list bytes) (files : dbs) : outcome exit (dbs * option iiss_report) :=
  match args with
  | dbName :: cmd :: options =>
      match iiss_cmd_of cmd with
      | None => Err (Exit 1)
      | Some c =>
          let! o := ParseOrExit (iiss_flags c) options ∅ in
          run_iiss c o (db_path dbName) files
      end
  | _ => Err (Exit 1)
  end.

Lemma iiss_flags_names c : Forall (fun f => flag_name (f_Name f)) (iiss_flags c).
Proof. apply (bool_decide_unpack _). by destruct c. Qed.

(** A run whose options spell some assignments is the command with them. *)
Lemma iissdata_Run_line dbName cmd c l args o files :
  iiss_cmd_of cmd = Some c -> command_line (iiss_flags c) l args -> assign_all (iiss_flags c) l ∅ = Ok o ->
  iissdata_Run (dbName :: cmd :: args) files = run_iiss c o (db_path dbName) files.
Proof.
  intros Hc Hl Ha. unfold iissdata_Run. rewrite Hc. by rewrite (ParseOrExit_line _ l _ _ o (iiss_flags_names c)).
Qed.
End Run.
