(* ===== verification/RcTool.v ===== *)
(** * The monitor program ([cmd/rctool])

    [rctool COMMAND] asks a running calculator over its monitor socket: the
    state of its context with DEBUG messages, the status and results of calculations, and the
    switches of the debug output.  The switches are sent without waiting for
    the response. *)

From Stdlib Require Strings.String.
From S2P Require Import Prelude Bytes HexInt HexText Flags Address Store Codec Typed Account ClaimDB Management IISSData IScoreDB Context Reward CalcDebug MsgDebug Calculate DoCalculate Messages Dispatch Ipc Server Client DBTool DBToolCLI IISSTool.
Import String.StringSyntax.

(** An error of the connection, a command of [calculate_debug] that is not
    one, or an error of the query of a store. *)
Inductive rc_error := ErrClient (e : client_error) | ErrUsage | ErrTool (e : tool_error) | RcExit (e : exit).

(** What is printed. *)
Inductive rc_said :=
  | SaidNothing
  | SaidDebug (r : debug_response)
  | SaidStatus (r : QueryCalculateStatusResponse)
  | SaidResult (r : QueryCalculateResultResponse)
  | SaidTool (l : list printed).

(** The response variable of a command. *)
Definition debug_zero (cmd : Z) : debug_response :=
  if cmd =? DebugStatistics then ResponseDebugStats zero_DebugMessage 0 zero_Statistics
  else if cmd =? DebugDBInfo then ResponseDebugDBInfo zero_DebugMessage zero_DBInfoData
  else if cmd =? DebugPRep then ResponseDebugPRep zero_DebugMessage []
  else if cmd =? DebugPRepCandidate then ResponseDebugPRepCandidate zero_DebugMessage []
  else if cmd =? DebugGV then ResponseDebugGV zero_DebugMessage []
  else if cmd =? DebugCalcListAddresses then ResponseCalcDebugAddressList zero_DebugMessage []
  else ResponseQueryCalcDebugResult [].

(** [strconv.ParseUint(s, 10, 64)]. *)
Definition parse_height (s : bytes) : option Z :=
  match s with [] => None | _ => if forallb is_digit s then parse_base 10 s 64 else None end.

Section RcTool.
Context {D : Type} `{!LevelDB D, !Codec CalcDebugData}.
Context `{!ProtocolCodecs, !Framing} {P : Type} `{!Peer P}.
Context (k : disk (D := D)).

Definition rc_run : Type := RCIPC P * outcome rc_error rc_said.

Definition client_result {A} (said : A -> rc_said) (r : RCIPC P * outcome client_error A) : rc_run :=
  match r with
  | (rc, Ok a) => (rc, Ok (said a))
  | (rc, Err e) => (rc, Err (ErrClient e))
  | (rc, Panic) => (rc, Panic)
  end.

(** [conn.Send]. *)
Definition send_debug (req : DebugMessage) (rc : RCIPC P) : rc_run :=
  let '(p, back) := peer_feed (rc_peer rc) (frame (mkMessage MsgDebug (rc_id rc) (marshal req))) in
  (mkRCIPC (rc_id rc) (rc_in rc ++ back) p, Ok SaidNothing).

(** [conn.SendAndReceive]. *)
Definition ask_debug (req : DebugMessage) (rc : RCIPC P) : RCIPC P * outcome client_error debug_response :=
  let '(p, back) := peer_feed (rc_peer rc) (frame (mkMessage MsgDebug (rc_id rc) (marshal req))) in
  match read_message (mkRCIPC (rc_id rc) (rc_in rc ++ back) p) with
  | (rc, None) => (rc, Err ErrConnection)
  | (rc, Some m) =>
      let '(r, ok) := unmarshal (m_Data m) (debug_zero (dm_Cmd req)) in (rc, if ok : bool then Ok r else Err ErrDecode)
  end.

Definition ask_cmd (cmd : Z) (rc : RCIPC P) : rc_run := client_result SaidDebug (ask_debug (cmd_message cmd) rc).

Definition rc_stats : RCIPC P -> rc_run := ask_cmd DebugStatistics.
Definition rc_DBInfo : RCIPC P -> rc_run := ask_cmd DebugDBInfo.
Definition rc_PRep : RCIPC P -> rc_run := ask_cmd DebugPRep.
Definition rc_PRepCandidate : RCIPC P -> rc_run := ask_cmd DebugPRepCandidate.
Definition rc_gv : RCIPC P -> rc_run := ask_cmd DebugGV.
Definition rc_logCtx : RCIPC P -> rc_run := send_debug (cmd_message DebugLogCTX).

Definition rc_calculate (blockHeight : Z) (rc : RCIPC P) : rc_run :=
  if blockHeight =? 0 then client_result SaidStatus (SendAndReceive R_QueryCalculateStatus rc)
  else client_result SaidResult (SendAndReceive (R_QueryCalculateResult blockHeight) rc).

(** ** [calculate_debug] *)

Definition enableCalcDebug : RCIPC P -> rc_run := send_debug (cmd_message DebugCalcFlagOn).
Definition disableCalcDebug : RCIPC P -> rc_run := send_debug (cmd_message DebugCalcFlagOff).
Definition printCalcDebuggingAddresses : RCIPC P -> rc_run := ask_cmd DebugCalcListAddresses.

(** [NewAddressFromString] panics on text that is no address. *)
Definition switch_address (cmd : Z) (address : bytes) (rc : RCIPC P) : rc_run :=
  match NewAddressFromString address with
  | Ok a => send_debug (mkDebugMessage cmd (mkMessageData a [] 0)) rc
  | _ => (rc, Panic)
  end.
Definition addCalcDebuggingAddress : bytes -> RCIPC P -> rc_run := switch_address DebugCalcAddAddress.
Definition deleteCalcDebuggingAddress : bytes -> RCIPC P -> rc_run := switch_address DebugCalcDelAddress.

Definition queryCalculationDebugResultIPC (input : Input) (rc : RCIPC P) : rc_run :=
  match NewAddressFromString (in_Address input) with
  | Ok a =>
      client_result SaidDebug (ask_debug (mkDebugMessage DebugCalcDebugResult (mkMessageData a [] (in_Height input))) rc)
  | _ => (rc, Panic)
  end.

(** From the calculator, or with a path from a store of debug results. *)
Definition queryCalculationDebugResult (input : Input) (rc : RCIPC P) : rc_run :=
  match in_Path input with
  | [] => queryCalculationDebugResultIPC input rc
  | _ =>
      match QueryCalcDebugDB k input with
      | (out, Ok _) => (rc, Ok (SaidTool out))
      | (out, Err e) => (rc, Err (ErrTool e))
      | (out, Panic) => (rc, Panic)
      end
  end.

Definition calculateDebug (input : list bytes) (rc : RCIPC P) : rc_run :=
  match input with
  | [] => (rc, Err ErrUsage)
  | cmd :: rest =>
      if bool_decide (cmd = str "enable") then enableCalcDebug rc
      else if bool_decide (cmd = str "disable") then disableCalcDebug rc
      else if bool_decide (cmd = str "add") then
        match rest with [a] => addCalcDebuggingAddress a rc | _ => (rc, Err ErrUsage) end
      else if bool_decide (cmd = str "delete") then
        match rest with [a] => deleteCalcDebuggingAddress a rc | _ => (rc, Err ErrUsage) end
      else if bool_decide (cmd = str "list") then printCalcDebuggingAddresses rc
      else if bool_decide (cmd = str "result") then
        match parse_input InitCalcDebugResult_flags rest with
        | Ok input => queryCalculationDebugResult input rc
        | Err e => (rc, Err (RcExit e))
        | Panic => (rc, Panic)
        end
      else (rc, Err ErrUsage)
  end.

(** ** [Run]

    What was printed, and whether the end says that the command failed.  The case
    [calculate] declares an [err] of its own, so that the one the end looks at stays
    nil. *)

Definition reported (r : rc_run) : outcome exit (RCIPC P * option rc_said * bool) :=
  match r with
  | (rc, Ok said) => Ok (rc, Some said, false)
  | (rc, Err (RcExit e)) => Err e
  | (rc, Err _) => Ok (rc, None, true)
  | (rc, Panic) => Panic
  end.

Definition rctool_calculate (args : list bytes) (rc : RCIPC P) : outcome exit (RCIPC P * option rc_said * bool) :=
  match (match args with [h] => parse_height h | _ => Some 0 end) with
  | None => Err (Exit 1)
  | Some blockHeight =>
      match rc_calculate blockHeight rc with
      | (rc, Ok said) => Ok (rc, Some said, false)
      | (rc, Err _) => Ok (rc, None, false)
      | (rc, Panic) => Panic
      end
  end.

Definition rctool_cmd (cmd : bytes) (args : list bytes) (rc : RCIPC P) : outcome exit (RCIPC P * option rc_said * bool) :=
  if bool_decide (cmd = str "stats") then reported (rc_stats rc)
  else if bool_decide (cmd = str "dbinfo") then reported (rc_DBInfo rc)
  else if bool_decide (cmd = str "prep") then reported (rc_PRep rc)
  else if bool_decide (cmd = str "prepcandidate") then reported (rc_PRepCandidate rc)
  else if bool_decide (cmd = str "gv") then reported (rc_gv rc)
  else if bool_decide (cmd = str "calculate") then rctool_calculate args rc
  else if bool_decide (cmd = str "logctx") then reported (rc_logCtx rc)
  else if bool_decide (cmd = str "calculate_debug") then reported (calculateDebug args rc)
  else Err (Exit 1).

(** [conn] is what [ipc.Dial] finds at [core.DebugAddress]; a stream that
    ends before READY is a panic here. *)
Definition rctool_Run (conn : option (P * bytes)) (args : list bytes) : outcome exit (RCIPC P * option rc_said * bool) :=
  match args with
  | [] => Err (Exit 1)
  | cmd :: args =>
      if bool_decide (cmd = str "-h") then Err (Exit 1)
      else
        match conn with
        | None => Err (Exit 1)
        | Some (p, stream) =>
            match flush_ready (S (length stream)) (mkRCIPC 0 stream p) with
            | Ok rc => rctool_cmd cmd args rc
            | _ => Panic
            end
        end
  end.

(** The end never says that [calculate] failed. *)
Lemma rctool_calculate_silent args rc rc' said failed :
  rctool_calculate args rc = Ok (rc', said, failed) -> failed = false.
Proof.
  unfold rctool_calculate. destruct (match args with [h] => _ | _ => _ end) as [h|]; [|done].
  by destruct (rc_calculate h rc) as [rc1 [x| |]]; intros [= _ _ <-].
Qed.
End RcTool.
