(* ===== verification/Wire.v ===== *)
(** * Codec instances of the remaining records

    Instances of [Codec] with their laws, built from the msgpack combinators
    of [Codec.v], for the records that [Account.v] and [ClaimDB.v] do not
    cover.  The examples run on them.  A struct is an array of its fields as
    [codec.MP] writes it; a typed object, whose library encoding is not in the
    source, is written with its nesting depth in front. *)

From S2P Require Import Prelude Bytes HexInt Address Codec Typed ClaimDB Management IISSData Calculate.
Import Msgpack.

Definition mp_int : mpcodec Z := mp_iso u64 i64 mp_uint.

Lemma mp_int_ok : mp_ok mp_int is_i64.
Proof.
  eapply mp_iso_ok; [apply mp_uint_ok|]. intros z Hz. split; [apply u64_range|].
  unfold i64, u64, is_i64 in *. rewrite Zplus_mod_idemp_l. rewrite Z.mod_small; lia.
Qed.

Definition mp_hash : mpcodec bytes := mp_bytes.
Lemma mp_hash_ok : mp_ok mp_hash (fun b => length b = BlockHashSize).
Proof. intros b rest _. by apply mp_bytes_ok. Qed.

(** The field lists of a struct, with their proofs. *)
Ltac struct_ok :=
  apply mp_struct_ok; eapply mp_iso_ok;
  [repeat apply mp_pair_ok;
   lazymatch goal with
   | |- mp_ok mp_int _ => apply mp_int_ok
   | |- mp_ok mp_uint _ => apply mp_uint_ok
   | |- mp_ok mp_bool _ => apply mp_bool_ok
   | |- mp_ok mp_hexint _ => apply mp_hexint_ok
   | |- mp_ok mp_hash _ => apply mp_hash_ok
   | |- mp_ok mp_bytes _ => apply mp_bytes_ok
   | |- mp_ok mp_address _ => apply mp_address_ok
   | |- _ => idtac
   end
  |].

(** ** Management records *)

Definition mp_DBInfoData : mpcodec DBInfoData := mp_struct 8 (mp_iso
  (fun d => (DBCount d, (QueryDBIsZero d, (bi_BlockHeight (Current d), (bi_BlockHash (Current d),
     (CalcDone d, (PrevCalcDone d, (Calculating d, ToggleBH d))))))))
  (fun p => let '(n, (q, (h, (hash, (c, (pc, (ci, t))))))) := p in
     mkDBInfoData n q (mkBlockInfo h hash) c pc ci t)
  (mp_pair mp_int (mp_pair mp_bool (mp_pair mp_uint (mp_pair mp_hash
    (mp_pair mp_uint (mp_pair mp_uint (mp_pair mp_uint mp_uint)))))))).

Lemma mp_DBInfoData_ok : mp_ok mp_DBInfoData wf.
Proof. struct_ok. intros [n q [h hash] c pc ci t] (?&?&?&?&?&?&?). by split_and!. Qed.

Definition mp_DBInfoDataV1 : mpcodec DBInfoDataV1 := mp_struct 3 (mp_iso
  (fun d => (v1_DBCount d, (v1_BlockHeight d, v1_QueryDBIsZero d)))
  (fun p => mkDBInfoDataV1 p.1 p.2.1 p.2.2) (mp_pair mp_int (mp_pair mp_uint mp_bool))).

Definition mp_GVData : mpcodec GVData := mp_struct 4 (mp_iso
  (fun d => (CalculatedIncentiveRep d, (RewardRep d, (MainPRepCount d, SubPRepCount d))))
  (fun p => mkGVData p.1 p.2.1 p.2.2.1 p.2.2.2)
  (mp_pair mp_hexint (mp_pair mp_hexint (mp_pair mp_hexint mp_hexint)))).

Lemma mp_GVData_ok : mp_ok mp_GVData wf.
Proof. struct_ok. by intros [] _. Qed.

Definition mp_PRepDelegationInfo : mpcodec PRepDelegationInfo := mp_struct 2 (mp_iso
  (fun d => (di_Address d, DelegatedAmount d)) (fun p => mkPRepDelegationInfo p.1 p.2)
  (mp_pair mp_address mp_hexint)).

Lemma mp_PRepDelegationInfo_ok : mp_ok mp_PRepDelegationInfo (fun i => wf_Address (di_Address i)).
Proof. struct_ok. by intros []. Qed.

Definition mp_PRepData : mpcodec PRepData := mp_struct 2 (mp_iso
  (fun d => (TotalDelegation d, pd_List d)) (fun p => mkPRepData p.1 p.2)
  (mp_pair mp_hexint (mp_list mp_PRepDelegationInfo))).

Lemma mp_PRepData_ok : mp_ok mp_PRepData wf.
Proof. struct_ok; [apply mp_list_ok, mp_PRepDelegationInfo_ok|]. by intros []. Qed.

Definition mp_PRepCandidateData : mpcodec PRepCandidateData := mp_struct 2 (mp_iso
  (fun d => (pc_Start d, pc_End d)) (fun p => mkPRepCandidateData p.1 p.2) (mp_pair mp_uint mp_uint)).

Lemma mp_PRepCandidateData_ok : mp_ok mp_PRepCandidateData wf.
Proof. struct_ok. by intros [] []. Qed.

(** ** Calculation results and IISS data *)

Definition mp_CRData : mpcodec CRData := mp_struct 6 (mp_iso
  (fun d => (cr_Success d, (cr_StateHash d, (cr_IScore d, (cr_Beta1 d, (cr_Beta2 d, cr_Beta3 d))))))
  (fun p => let '(s, (h, (i, (b1, (b2, b3))))) := p in mkCRData s h i b1 b2 b3)
  (mp_pair mp_bool (mp_pair mp_bytes (mp_pair mp_hexint (mp_pair mp_hexint (mp_pair mp_hexint mp_hexint)))))).

Lemma mp_CRData_ok : mp_ok mp_CRData wf.
Proof. struct_ok. by intros [] _. Qed.

Definition mp_IISSHeader : mpcodec IISSHeader := mp_struct 3 (mp_iso
  (fun d => (ih_Version d, (ih_BlockHeight d, ih_Revision d))) (fun p => mkIISSHeader p.1 p.2.1 p.2.2)
  (mp_pair mp_uint (mp_pair mp_uint mp_uint))).

Definition mp_IISSGVData : mpcodec IISSGVData := mp_struct 4 (mp_iso
  (fun d => (IncentiveRep d, (ig_RewardRep d, (ig_MainPRepCount d, ig_SubPRepCount d))))
  (fun p => mkIISSGVData p.1 p.2.1 p.2.2.1 p.2.2.2)
  (mp_pair mp_uint (mp_pair mp_uint (mp_pair mp_uint mp_uint)))).

Definition mp_IISSBPData : mpcodec IISSBlockProduceInfoData := mp_struct 2 (mp_iso
  (fun d => (Generator d, Validator d)) (fun p => mkIISSBPData p.1 p.2)
  (mp_pair mp_address (mp_list mp_address))).

Lemma mp_IISSBPData_ok : mp_ok mp_IISSBPData wf.
Proof. struct_ok; [apply mp_list_ok, mp_address_ok|]. by intros []. Qed.

(** ** Typed objects *)

Definition max_depth {A} (depth : A -> nat) : list A -> nat :=
  fix go l := match l with [] => O | a :: l => Nat.max (depth a) (go l) end.

Fixpoint typed_depth (t : TypedObj) : nat :=
  let opt := fun o => match o with Some t => typed_depth t | None => O end in
  match t with
  | mkTypedObj _ (ObjList l) => S (max_depth opt l)
  | mkTypedObj _ (ObjDict m) => S (max_depth (fun e => opt e.2) m)
  | mkTypedObj _ _ => 1
  end.

Lemma max_depth_Forall {A} (depth : A -> nat) l n : (max_depth depth l <= n)%nat ->
  Forall (fun a => (depth a <= n)%nat) l.
Proof. induction l as [|a l IH]; cbn; intros H; constructor; [lia|]. apply IH. lia. Qed.

Definition object_fields (t : TypedObj)
    : Z * (Z * (bytes * (list (option TypedObj) * list (bytes * option TypedObj)))) :=
  match t with
  | mkTypedObj ty ObjNil => (ty, (0, ([], ([], []))))
  | mkTypedObj ty (ObjString s) => (ty, (1, (s, ([], []))))
  | mkTypedObj ty (ObjBytes s) => (ty, (2, (s, ([], []))))
  | mkTypedObj ty (ObjList l) => (ty, (3, ([], (l, []))))
  | mkTypedObj ty (ObjDict m) => (ty, (4, ([], ([], m))))
  end.

Definition object_of_fields
    (p : Z * (Z * (bytes * (list (option TypedObj) * list (bytes * option TypedObj))))) : TypedObj :=
  let '(ty, (k, (s, (l, m)))) := p in
  mkTypedObj ty (if k =? 0 then ObjNil else if k =? 1 then ObjString s else if k =? 2 then ObjBytes s
                 else if k =? 3 then ObjList l else ObjDict m).

Fixpoint mp_typed (n : nat) : mpcodec TypedObj :=
  match n with
  | O => MP (fun _ => []) (fun _ => None)
  | S n =>
      let elem := mp_ptr (mp_struct 2 (mp_typed n)) in
      mp_iso object_fields object_of_fields
        (mp_pair mp_hexint (mp_pair mp_hexint (mp_pair mp_bytes
          (mp_pair (mp_list elem) (mp_list (mp_pair mp_bytes elem))))))
  end.

Lemma mp_typed_ok n : mp_ok (mp_typed n) (fun t => (typed_depth t <= n)%nat).
Proof.
  induction n as [|n IH]; cbn [mp_typed].
  { intros [ty []] rest H; cbn in H; lia. }
  assert (He : mp_ok (mp_ptr (mp_struct 2 (mp_typed n))) (opt_ok (fun t => (typed_depth t <= n)%nat))).
  { apply mp_ptr_ok; [by apply mp_struct_ok|]. intros a. apply mp_struct_head. }
  eapply mp_iso_ok.
  { repeat apply mp_pair_ok; [apply mp_hexint_ok|apply mp_hexint_ok|apply mp_bytes_ok|by apply mp_list_ok|].
    apply mp_list_ok, mp_pair_ok; [apply mp_bytes_ok|exact He]. }
  intros [ty []] H; cbn in H |- *; split; try done; split_and!; try constructor; try done.
  - apply le_S_n, max_depth_Forall in H. eapply Forall_impl; [exact H|]. by intros [].
  - apply le_S_n, max_depth_Forall in H. eapply Forall_impl; [exact H|]. by intros [? []].
Qed.

Definition mp_TypedObj : mpcodec TypedObj :=
  MP (fun t => enc mp_hexint (Z.of_nat (typed_depth t)) ++ enc (mp_typed (typed_depth t)) t)
     (fun bs => match dec mp_hexint bs with Some (n, r) => dec (mp_typed (Z.to_nat n)) r | None => None end).

Lemma mp_TypedObj_ok : mp_ok mp_TypedObj (fun _ => True).
Proof.
  intros t rest _. cbn [mp_TypedObj enc dec]. rewrite <-app_assoc, mp_hexint_ok by done.
  rewrite Nat2Z.id. by apply mp_typed_ok.
Qed.

Definition mp_IISSTXData : mpcodec IISSTXData := mp_struct 4 (mp_iso
  (fun d => (tx_Address d, (tx_BlockHeight d, (tx_DataType d, tx_Data d))))
  (fun p => mkIISSTXData p.1 p.2.1 p.2.2.1 p.2.2.2)
  (mp_pair mp_address (mp_pair mp_uint (mp_pair mp_uint (mp_ptr (mp_struct 2 mp_TypedObj)))))).

Lemma mp_IISSTXData_ok : mp_ok mp_IISSTXData wf.
Proof.
  struct_ok.
  - apply mp_ptr_ok; [apply mp_struct_ok, mp_TypedObj_ok|]. intros a. apply mp_struct_head.
  - intros [a h ty d] (?&?&?). cbn. split; [|done]. split_and!; [done..|]. by destruct d.
Qed.

(** ** The instances *)

Module Instances.
#[export] Instance codec_IScoreData : Codec Account.IScoreData := Account.msgpack_IScoreData.
#[export] Instance laws_IScoreData : CodecLaws Account.IScoreData := Account.msgpack_IScoreData_laws.
#[export] Instance codec_ClaimData : Codec ClaimData := msgpack_ClaimData.
#[export] Instance laws_ClaimData : CodecLaws ClaimData := msgpack_ClaimData_laws.
#[export] Instance codec_ClaimBackupInfo : Codec ClaimBackupInfo := msgpack_ClaimBackupInfo.
#[export] Instance laws_ClaimBackupInfo : CodecLaws ClaimBackupInfo := msgpack_ClaimBackupInfo_laws.
#[export] Instance codec_PreCommitData : Codec PreCommitData := msgpack_PreCommitData.
#[export] Instance laws_PreCommitData : CodecLaws PreCommitData := msgpack_PreCommitData_laws.
#[export] Instance codec_DBInfoData : Codec DBInfoData := mp_codec mp_DBInfoData.
#[export] Instance laws_DBInfoData : CodecLaws DBInfoData := mp_codec_laws _ mp_DBInfoData_ok eq_refl.
#[export] Instance codec_DBInfoDataV1 : Codec DBInfoDataV1 := mp_codec mp_DBInfoDataV1.
#[export] Instance codec_GVData : Codec GVData := mp_codec mp_GVData.
#[export] Instance laws_GVData : CodecLaws GVData := mp_codec_laws _ mp_GVData_ok eq_refl.
#[export] Instance codec_PRepData : Codec PRepData := mp_codec mp_PRepData.
#[export] Instance laws_PRepData : CodecLaws PRepData := mp_codec_laws _ mp_PRepData_ok eq_refl.
#[export] Instance codec_PRepCandidateData : Codec PRepCandidateData := mp_codec mp_PRepCandidateData.
#[export] Instance laws_PRepCandidateData : CodecLaws PRepCandidateData :=
  mp_codec_laws _ mp_PRepCandidateData_ok eq_refl.
#[export] Instance codec_CRData : Codec CRData := mp_codec mp_CRData.
#[export] Instance laws_CRData : CodecLaws CRData := mp_codec_laws _ mp_CRData_ok eq_refl.
#[export] Instance codec_IISSHeader : Codec IISSHeader := mp_codec mp_IISSHeader.
#[export] Instance codec_IISSGVData : Codec IISSGVData := mp_codec mp_IISSGVData.
#[export] Instance codec_IISSBPData : Codec IISSBlockProduceInfoData := mp_codec mp_IISSBPData.
#[export] Instance laws_IISSBPData : CodecLaws IISSBlockProduceInfoData := mp_codec_laws _ mp_IISSBPData_ok eq_refl.
#[export] Instance codec_IISSTXData : Codec IISSTXData := mp_codec mp_IISSTXData.
#[export] Instance laws_IISSTXData : CodecLaws IISSTXData := mp_codec_laws _ mp_IISSTXData_ok eq_refl.
End Instances.
