(* ===== verification/Examples.v ===== *)
(** * Examples

    The theorems at work on a small Reward Calculator: its stores are finite
    maps, its records msgpack ([Wire.v]), it has two account DBs and one
    account with an I-Score.  Each lemma applies a theorem to concrete inputs
    and discharges its hypotheses by computation. *)

From Stdlib Require Strings.String.
From stdpp Require Import relations.
From S2P Require Import Prelude Bytes HexInt Address Store Codec Typed TypedCodec Account ClaimDB ClaimJournal History Management IISSData IScoreDB Context Mirror Reward Calculate DoCalculate CalcState Messages ClaimLedger Rollback Wire.
Import Wire.Instances.
Import String.StringSyntax.

Abbreviation store := (gmap bytes bytes).

(** Closed decidable facts. *)
Ltac compute_decide := refine (bool_decide_unpack _ _); vm_compute; exact I.

(** The state a call leaves, and its result. *)
Definition state_of {E A B} (d : A) (m : outcome E (A * B)) : A :=
  match m with Ok (a, _) => a | _ => d end.
Definition result_of {E A B} (m : outcome E (A * B)) : option B :=
  match m with Ok (_, b) => Some b | _ => None end.

Lemma outcome_split {E A B} (d : A) (m : outcome E (A * B)) b : result_of m = Some b -> m = Ok (state_of d m, b).
Proof. destruct m as [[a b']| |]; cbn; congruence. Qed.

(** ** The state of the examples *)

Definition alice : Address := 0 :: replicate 20 7.
Definition bob : Address := 1 :: replicate 20 9.
Definition hash1 : bytes := replicate 32 1.
Definition hash2 : bytes := replicate 32 2.

Lemma alice_wf : wf_Address alice.
Proof. compute_decide. Qed.

(** Alice has 2500 at height 10 and delegates to Bob; both lists of account DBs
    have her account. *)
Definition alice_data : IScoreData := mkIScoreData 2500 10 [Some (mkDelegateData bob 1000000)].

Definition start_ctx : Context store :=
  match NewContext (E := Empty_set) (D := store) ∅ ∅ ∅ ∅ ∅ ∅ 2 with
  | Ok ctx => ctx
  | _ => mkContext (mkIScoreDB zero_DBInfoData ∅ ∅ ∅ ∅ ∅ [] [] ∅) 0 [] ∅ [] None NewCancel
  end.

Definition put_alice (f : outcome Empty_set fname) (s : IScoreDB store) : IScoreDB store :=
  match f with
  | Ok f => db_update f (bucket_Set PrefixIScore alice (marshal alice_data) (db_at s f)) s
  | _ => s
  end.

Definition ctx0 : Context store :=
  let s := DB start_ctx in
  set_DB (put_alice (getCalculateDB s alice) (put_alice (getQueryDB s alice) s)) start_ctx.

Example account_of_alice : account ctx0 alice = Some (mkIScoreAccount zero_Address alice_data).
Proof. vm_compute. reflexivity. Qed.

Definition claim1 : ClaimMessage := mkClaimMessage alice 11 hash1 0 (replicate 32 5).

Definition ctx1 : Context store := state_of ctx0 (DoClaim (E := Empty_set) ctx0 claim1).

Lemma claim1_ok : DoClaim (E := Empty_set) ctx0 claim1 = Ok (ctx1, (10, Some 2000)).
Proof. apply outcome_split. vm_compute. reflexivity. Qed.

(** ** A ledger *)

Lemma ctx0_stores : preCommit (DB ctx0) = ∅ /\ claim (DB ctx0) = ∅ /\ claimBackup (DB ctx0) = ∅.
Proof. vm_compute. done. Qed.

Lemma ctx0_accounts : accounts_ok (DB ctx0) /\ 1 <= DBCount (info (DB ctx0)).
Proof.
  assert (Hn : DBCount (info (DB ctx0)) = 2) by (vm_compute; reflexivity).
  split; [split|lia]; [vm_compute; reflexivity..|].
  rewrite Hn. intros i p Hi Hp. assert (i = 1 \/ i = 2) as [-> | ->] by lia; destruct Hp as [-> | ->];
    compute_decide.
Qed.

(** Every account stored has an I-Score that is not negative. *)
Definition good_account (bs : bytes) : bool :=
  match NewIScoreAccountFromBytes bs with Some ia => 0 <=? ia_IScore ia | None => true end.

Lemma ctx0_files : map_Forall (fun _ (d : store) => map_Forall (fun _ bs => good_account bs = true) d) (files (DB ctx0)).
Proof. compute_decide. Qed.

Lemma earned_nonneg (ctx : Context store) a :
  map_Forall (fun _ (d : store) => map_Forall (fun _ bs => good_account bs = true) d) (files (DB ctx)) ->
  0 <= earned ctx a.
Proof.
  intros Hf. unfold earned, account. destruct (getQueryDB _ _) as [f| |]; [|done..].
  unfold bucket_Get. destruct (ldb_get _ _) as [bs|] eqn:E; [|done].
  destruct (NewIScoreAccountFromBytes bs) as [ia|] eqn:Ei; [|done].
  assert (good_account bs = true) as Hg.
  { unfold db_at in E. destruct (files (DB ctx) !! f) as [d|] eqn:Ed; [|done]. exact (Hf f d Ed _ _ E). }
  unfold good_account in Hg. rewrite Ei in Hg. by apply Z.leb_le.
Qed.

Lemma get_empty (k v : bytes) : ldb_get (∅ : store) k = Some v -> False.
Proof. intros H. pose proof (ldb_get_empty (D := store) k) as E. cbn in *. congruence. Qed.

Lemma ledger_empty (ctx : Context store) h : is_u64 h -> 1 <= h ->
  accounts_ok (DB ctx) /\ 1 <= DBCount (info (DB ctx)) ->
  preCommit (DB ctx) = ∅ /\ claim (DB ctx) = ∅ /\ claimBackup (DB ctx) = ∅ ->
  (forall a, 0 <= earned ctx a) -> ledger h ctx.
Proof.
  intros Hu H1 Hacc (E1 & E2 & E3) He.
  assert (Hc : forall a, claim_of (claim (DB ctx)) a = None).
  { intros a. unfold claim_of. rewrite E2. done. }
  split; try done.
  - rewrite E1. intros k v Hk. by apply get_empty in Hk.
  - rewrite E1. intros pc Hk. by apply get_empty in Hk.
  - intros a. unfold claimed. rewrite Hc. apply He.
  - intros a cd. by rewrite Hc.
  - rewrite E2, E3. split; [|left; split; [|done]].
    + intros a v Hk. by apply get_empty in Hk.
    + intros k v Hk. by apply get_empty in Hk.
Qed.

Lemma ctx0_ledger : ledger 11 ctx0.
Proof.
  apply ledger_empty; [done|done|apply ctx0_accounts|apply ctx0_stores|].
  intros a. apply earned_nonneg, ctx0_files.
Qed.

Lemma claim1_wf : wf_ClaimMessage claim1.
Proof. compute_decide. Qed.

Lemma DoClaim_spec_witness :
  DoClaim (E := Empty_set) ctx0 claim1 = Ok (claim_answer ctx0 claim1) /\
  snd (claim_answer ctx0 claim1) = (10, Some 2000).
Proof.
  pose proof (DoClaim_spec (E := Empty_set) ctx0 claim1 (proj1 ctx0_accounts) (proj2 ctx0_accounts) claim1_wf) as [H _].
  split; [exact H|vm_compute; reflexivity].
Defined.

(** The claim is committed, its block too. *)
Definition commit1 : CommitBlock := mkCommitBlock true 11 (Some hash1).
Definition ctx2 : Context store := DoCommitClaim ctx1 (commit_of claim1).
Definition ctx3 : Context store := state_of ctx2 (commitBlock (E := Empty_set) ctx2 commit1).

Lemma claim_flow_witness :
  exists ctx, commitBlock (E := Empty_set) ctx2 commit1 = Ok (ctx, commit1) /\
    claimed ctx alice = claimed ctx0 alice + 2000 /\ earned ctx alice = earned ctx0 alice /\
    0 <= earned ctx alice - claimed ctx alice < 1000.
Proof. exact (claim_flow (E := Empty_set) 11 ctx0 claim1 ctx1 10 2000 ctx0_ledger claim1_wf eq_refl claim1_ok). Defined.

Lemma hash1_ok : hash_ok (Some hash1).
Proof. intros b [= <-]. compute_decide. Qed.

Lemma steps_ctx3 : rtc block_step (11, ctx0) (12, ctx3).
Proof.
  eapply rtc_l; [apply (step_claim 11 ctx0 claim1 ctx1 (mkResponseClaim (mkClaimMessage alice 10 hash1 0 (replicate 32 5)) 2000)); [apply claim1_wf|done|]|].
  { unfold handle_claim. rewrite claim1_ok. reflexivity. }
  eapply rtc_l; [apply (step_commit_claim 11 ctx1 (commit_of claim1)); compute_decide|].
  apply rtc_once. eapply (step_commit_block 11 _ commit1 _ commit1); [apply hash1_ok|done..| |done|done].
  apply outcome_split. vm_compute. reflexivity.
Qed.


Lemma ctx0_readable : account_readable ctx0 alice.
Proof.
  intros f bs Hf Hb. assert (is_Some (account ctx0 alice)) as Hs by (rewrite account_of_alice; by eexists).
  unfold account in Hs. by rewrite Hf, Hb in Hs.
Qed.


(** ** Committed blocks *)

(** Block 10 without claims, then block 11 with the one of Alice. *)
Definition block10 : store * store * store :=
  match writePreCommitToClaimDB (∅ : store) ∅ ∅ 10 None with Ok r => r | _ => (∅, ∅, ∅) end.
Definition block11 : store * store * store :=
  match writePreCommitToClaimDB (preCommit (DB ctx2)) block10.1.2 block10.2 11 (Some hash1) with
  | Ok r => r | _ => (∅, ∅, ∅) end.

Definition blocks_log : list (Z * store) := [(11, block11.1.2); (10, block10.1.2)].

Lemma ctx2_ledger : ledger 11 ctx2.
Proof.
  eapply ledger_commit_claim; [|compute_decide].
  eapply (ledger_claim (E := Empty_set)); [apply ctx0_ledger|apply claim1_wf|done|apply claim1_ok].
Qed.

Lemma pc_inv_empty : pc_inv (∅ : store).
Proof. intros k v Hk. by apply get_empty in Hk. Qed.

Definition is_Ok {E A} (m : outcome E A) : bool := match m with Ok _ => true | _ => false end.
Definition get_ok {E A} (d : A) (m : outcome E A) : A := match m with Ok a => a | _ => d end.
Lemma get_ok_eq {E A} (d : A) (m : outcome E A) : is_Ok m = true -> m = Ok (get_ok d m).
Proof. by destruct m. Qed.

Lemma blocks_committed : committed 11 block11.1.2 block11.2 blocks_log.
Proof.
  apply (committed_block 10 block10.1.2 block10.2 [(10, block10.1.2)] (preCommit (DB ctx2)) 11 (Some hash1) block11.1.1).
  - apply (committed_first ∅ ∅ ∅ 10 None block10.1.1).
    + intros a v Hk. by apply get_empty in Hk.
    + intros k v Hk. by apply get_empty in Hk.
    + done.
    + apply pc_inv_empty.
    + done.
    + done.
    + done.
    + rewrite (get_ok_eq (∅, ∅, ∅) (writePreCommitToClaimDB (∅ : store) ∅ ∅ 10 None)) by (vm_compute; reflexivity).
      unfold block10. destruct (writePreCommitToClaimDB _ _ _ _ _) as [[[? ?] ?]| |]; reflexivity.
  - apply (lg_pc 11 ctx2 ctx2_ledger).
  - apply hash1_ok.
  - done.
  - done.
  - rewrite (get_ok_eq (∅, ∅, ∅) (writePreCommitToClaimDB (preCommit (DB ctx2)) block10.1.2 block10.2 11 (Some hash1)))
      by (vm_compute; reflexivity).
    unfold block11. destruct (writePreCommitToClaimDB _ _ _ _ _) as [[[? ?] ?]| |]; reflexivity.
Qed.

Lemma claim_history_witness :
  claim_of block11.1.2 alice = Some (mkClaimData 11 2000) /\
  exists c cb, rollbackClaimDB_stores block11.1.2 block11.2 10 = Ok (true, (c, cb)) /\
    ldb_get c alice = None /\ committed 10 c cb [(10, block10.1.2)].
Proof.
  split; [vm_compute; reflexivity|].
  destruct (claim_history 11 block11.1.2 block11.2 blocks_log blocks_committed) as [H _].
  destruct (H 10) as (c & cb & E & Hc & Hl); [vm_compute; split; congruence|].
  exists c, cb. split; [exact E|]. split; [rewrite (Hc alice alice_wf); vm_compute; reflexivity|exact Hl].
Defined.

(** ** A rollback *)

(** Stores whose keys are byte strings none of which is a record. *)
Lemma mirror_none {A} (prefix : bytes) (height : A -> Z) (value : A -> bytes) (d : store) :
  map_Forall (fun k _ => ~ prefix `prefix_of` k) d -> mirror prefix height value d [].
Proof.
  intros H. split; [constructor|constructor|]. intros k v Hp. split.
  - intros Hk. by destruct (H k v Hk).
  - intros (a & Ha & _). by apply not_elem_of_nil in Ha.
Qed.

Lemma start_mirror : ctx_mirror start_ctx.
Proof.
  split.
  - intros k v Hk. revert k v Hk. change (map_Forall (fun k (_ : bytes) => all_bytes k) (ctx_management start_ctx)).
    compute_decide.
  - split; [|constructor]. apply mirror_none. compute_decide.
  - split; [|constructor]. apply mirror_none. compute_decide.
  - assert (ctx_PRepCandidates start_ctx = ∅) as -> by (vm_compute; reflexivity).
    split; [intros a p Hm; by rewrite lookup_empty in Hm|].
    intros k v Hp. split; [|intros (a & p & Hm & _); by rewrite lookup_empty in Hm].
    intros Hk. assert (map_Forall (fun k (_ : bytes) => ~ PrefixPRepCandidate `prefix_of` k) (ctx_management start_ctx))
      as H by compute_decide. by destruct (H k v Hk).
  - vm_compute. reflexivity.
  - compute_decide.
Qed.

Definition ctx4 : Context store :=
  set_DB (setCurrentBlockInfo 11 hash1 (set_claims block11.1.2 block11.2 (DB ctx2))) ctx2.

Lemma ctx4_mirror : ctx_mirror ctx4.
Proof.
  set (s := set_claims block11.1.2 block11.2 (DB ctx2)).
  assert (ctx4 = set_DB (setCurrentBlockInfo 11 hash1 s) start_ctx) as -> by (vm_compute; reflexivity).
  apply ctx_mirror_info; [exact start_mirror|]. apply info_saved_current; [|done].
  apply (info_saved_same _ (DB start_ctx)); [exact (ctx_mirror_saved start_ctx start_mirror)|vm_compute; reflexivity..].
Qed.

Lemma ctx4_journal : journal (claim (DB ctx4)) (claimBackup (DB ctx4)) (log_at blocks_log) 10 11.
Proof.
  destruct (committed_journal 11 block11.1.2 block11.2 blocks_log blocks_committed) as [first J].
  pose proof (info_of_journal _ _ _ _ _ J) as Hi.
  assert (FirstBlockHeight (info_of block11.2) = 10) as E by (vm_compute; reflexivity).
  rewrite Hi in E. cbn in E. subst first. exact J.
Qed.


Lemma DoRollBack_refused_witness :
  DoRollBack (E := Empty_set) ctx4 (mkRollBackRequest 9 hash2)
  = Ok (set_Cancel (mkCancel 1 CancelRollback) ctx4, false).
Proof.
  refine (eq_trans (DoRollBack_refused (E := Empty_set) ctx4 (mkRollBackRequest 9 hash2) (log_at blocks_log) 10 11
    ctx4_journal _) _); [right; vm_compute; reflexivity|].
  assert ((rb_BlockHeight (mkRollBackRequest 9 hash2) <=? PrevCalcDone (info (DB ctx4))) = false) as ->
    by (vm_compute; reflexivity).
  assert (channel (ctx_Cancel ctx4) = 0%nat) as -> by (vm_compute; reflexivity). reflexivity.
Defined.

(** ** The pre-commit DB *)

Definition entry1 : PreCommit := claim_entry claim1 2000.

Lemma ctx1_ledger : ledger 11 ctx1.
Proof. eapply (ledger_claim (E := Empty_set)); [apply ctx0_ledger|apply claim1_wf|done|apply claim1_ok]. Qed.

Lemma entry1_wf : wf_PreCommit entry1.
Proof. exact (proj1 (claim_entry_ok claim1 2000 claim1_wf)). Qed.

Lemma u64_10 : is_u64 10.
Proof. done. Qed.
Lemma u64_11 : is_u64 11.
Proof. done. Qed.
Lemma below_max_10 : 10 < max_u64.
Proof. done. Qed.
Lemma below_max_11 : 11 < max_u64.
Proof. done. Qed.

Lemma flushPreCommit_spec_witness :
  ldb_get (preCommit (DB ctx1)) (pc_ID entry1) <> None /\
  ldb_get (flushPreCommit (preCommit (DB ctx1)) 11 (Some hash1)) (pc_ID entry1) = None /\
  ldb_get (flushPreCommit (preCommit (DB ctx1)) 11 (Some hash2)) (pc_ID entry1) <> None.
Proof.
  assert (H2 : hash_ok (Some hash2)) by (intros b [= <-]; compute_decide).
  rewrite (flushPreCommit_spec (preCommit (DB ctx1)) 11 (Some hash1) (pc_ID entry1) (lg_pc 11 ctx1 ctx1_ledger) u64_11 hash1_ok).
  rewrite (flushPreCommit_spec (preCommit (DB ctx1)) 11 (Some hash2) (pc_ID entry1) (lg_pc 11 ctx1 ctx1_ledger) u64_11 H2).
  vm_compute. split; [congruence|]. split; [reflexivity|congruence].
Defined.

Lemma initPreCommit_spec_witness :
  ldb_get (initPreCommit (preCommit (DB ctx1)) 10) (pc_ID entry1) = None /\
  ldb_get (initPreCommit (preCommit (DB ctx1)) 11) (pc_ID entry1) <> None.
Proof.
  rewrite (initPreCommit_spec (preCommit (DB ctx1)) 10 entry1 (lg_pc 11 ctx1 ctx1_ledger) u64_10 below_max_10 entry1_wf).
  rewrite (initPreCommit_spec (preCommit (DB ctx1)) 11 entry1 (lg_pc 11 ctx1 ctx1_ledger) u64_11 below_max_11 entry1_wf).
  vm_compute. split; [reflexivity|congruence].
Defined.

(** A message of the same claim with another transaction index. *)
Definition other_tx : PreCommit := newPreCommit 11 hash1 3 (replicate 32 8) alice.

Definition committed_pc : store :=
  get_ok ∅ (pc_commit (pre_commit_of claim1) (preCommit (DB ctx1))).

Lemma committed_pc_ok : pc_commit (pre_commit_of claim1) (preCommit (DB ctx1)) = Ok committed_pc.
Proof. apply get_ok_eq. vm_compute. reflexivity. Qed.

Lemma PreCommit_commit_final_witness :
  pc_commit other_tx committed_pc = Ok committed_pc /\ pc_revert other_tx committed_pc = Ok committed_pc.
Proof.
  refine (PreCommit_commit_final (preCommit (DB ctx1)) (pre_commit_of claim1) committed_pc other_tx
    (lg_pc 11 ctx1 ctx1_ledger) _ _ _ committed_pc_ok _).
  - exact (proj1 (pre_commit_of_wf claim1 claim1_wf)).
  - compute_decide.
  - vm_compute. reflexivity.
  - intros pc' Hk Hwf.
    assert (Hk1 : ldb_get (preCommit (DB ctx1)) (pc_ID (pre_commit_of claim1)) = Some (pc_Bytes entry1))
      by (vm_compute; reflexivity).
    assert (marshal (pc_Data entry1) = marshal (pc_Data pc')) as E by exact (Some_inj _ _ (eq_trans (eq_sym Hk1) Hk)).
    apply marshal_inj in E; [|apply entry1_wf|apply Hwf].
    unfold pc_TXIndex. rewrite <-E. reflexivity.
Defined.

(** ** Records and values *)

Lemma IScoreAccount_roundtrip_witness :
  option_map (ia_set_Address alice) (NewIScoreAccountFromBytes (ia_Bytes (mkIScoreAccount alice alice_data)))
  = Some (mkIScoreAccount alice alice_data).
Proof.
  apply (IScoreAccount_roundtrip (mkIScoreAccount alice alice_data)).
  split; [exact alice_wf|]. split; [done|]. constructor; [|constructor]. compute_decide.
Defined.

Section TypedWitness.
#[local] Instance wf_typed : WF (option TypedObj) := fun _ => True.
#[local] Instance codec_typed : Codec (option TypedObj) := Msgpack.mp_codec (Msgpack.mp_ptr (Msgpack.mp_struct 2 mp_TypedObj)).
#[local] Instance laws_typed : CodecLaws (option TypedObj).
Proof.
  apply Msgpack.mp_codec_laws; [|done]. intros to rest _.
  apply (Msgpack.mp_ptr_ok _ (fun _ => True)); [apply Msgpack.mp_struct_ok, mp_TypedObj_ok| |by destruct to].
  intros a. apply Msgpack.mp_struct_head.
Qed.

End TypedWitness.

Lemma Address_roundtrip_witness :
  NewAddress (Some (Address_Bytes alice)) = Ok alice /\ NewAddressFromString (Address_String alice) = Ok alice.
Proof. exact (Address_roundtrip alice alice_wf). Defined.

Lemma Address_SetBytes_cases_witness :
  exists a, Address_SetBytes zero_Address (Some [1; 5; 6]) = Ok a /\ wf_Address a /\
    Address_type a = 1 /\ Address_ID a = make_bytes 18 ++ [5; 6].
Proof.
  destruct (Address_SetBytes_cases [1; 5; 6]) as (_ & _ & H).
  exact (proj2 (H 1 [5; 6] eq_refl ltac:(compute_decide)) ltac:(lia)).
Defined.

