(* ===== verification/CalcExamples.v ===== *)
(** * Examples of calculations

    The state of [Examples.v] goes through CALCULATE requests: one that is
    done, one that is refused, one that is interrupted; and the updates of the
    management records are applied to it. *)

From S2P Require Import Prelude Bytes HexInt Address Store Codec Typed Account ClaimDB Management IISSData IScoreDB Context Mirror Reward Calculate DoCalculate CalcState Wire Examples.
Import Wire.Instances.

(** IISS data for block 20: a governance variable from block 5 on, P-Reps
    elected at block 6, and the registration of Bob at block 7. *)
Definition gv5 : IISSGovernanceVariable := mkIISSGV 5 (mkIISSGVData 1000 300 22 78).
Definition prep6 : PRep := mkPRep 6 (mkPRepData 1000000 [mkPRepDelegationInfo bob 1000000]).
Definition reg7 : IISSTX := mkIISSTX 0 (mkIISSTXData bob 7 TXDataTypePrepReg None).

Definition iiss20 : store :=
  let d := bucket_Set PrefixIISSHeader ih_ID (marshal (mkIISSHeader 2 20 8)) ∅ in
  let d := bucket_Set PrefixIISSGV (ig_ID gv5) (marshal (ig_Data gv5)) d in
  let d := bucket_Set PrefixPRep (pr_ID prep6) (pr_Bytes prep6) d in
  bucket_Set PrefixIISSTX (tx_ID reg7) (marshal (tx_TXData reg7)) d.

Definition digest (b : bytes) : bytes := take 64 (b ++ make_bytes 64).
Definition quiet : calc_env := mkCalcEnv (fun _ _ => false) (fun c => c).
Definition request20 : CalculateRequest := mkCalculateRequest [] 20 [].

Abbreviation run env ctx iiss :=
  (DoCalculate (D := store) (E := Empty_set) digest map_to_list env 0 ctx request20 iiss true 1).

Definition no_result (ctx : Context store) : calc_result store := mkCalcResult ctx [] None 0 None None.

Definition done20 : calc_result store := get_ok (no_result ctx0) (run quiet ctx0 iiss20).

Lemma done20_ok : run quiet ctx0 iiss20 = Ok done20.
Proof. apply get_ok_eq. vm_compute. reflexivity. Qed.

Definition done20_stats : Statistics := default zero_Statistics (res_stats done20).
Lemma done20_stats_ok : res_stats done20 = Some done20_stats.
Proof. vm_compute. reflexivity. Qed.

(** Alice got the reward of 10 blocks, and 2500 is still what she can claim
    before the next calculation exchanges the account DBs. *)
Example done20_values :
  Beta3 done20_stats = 19 /\ TotalReward done20_stats = 1400000019 /\
  ClaimLedger.account (res_ctx done20) alice = Some (mkIScoreAccount zero_Address alice_data).
Proof. vm_compute. done. Qed.

Lemma DoCalculate_done_witness :
  CalcDone (info (DB (res_ctx done20))) = 20 /\
  DoQueryCalculateStatus (res_ctx done20) = (CalculationDone, 20) /\
  exists h, DoQueryCalculateResult (E := Empty_set) (res_ctx done20) 20
    = Ok (mkQueryResult calcSucceeded 20 1400000019 h).
Proof.
  destruct (DoCalculate_done (E := Empty_set) digest map_to_list quiet 0 ctx0 request20 iiss20 true 1 done20
    done20_stats done20_ok done20_stats_ok) as (h & _ & _ & _ & _ & Hd & _ & Hs & Hq).
  assert (res_BlockHeight done20 = 20) as E by (vm_compute; reflexivity).
  rewrite E in *. split; [exact Hd|]. split; [exact Hs|]. exists h. rewrite (Hq Empty_set).
  assert (TotalReward done20_stats = 1400000019) as -> by (vm_compute; reflexivity). reflexivity.
Defined.

(** The same request again: a duplicate. *)
Definition again20 : calc_result store := get_ok (no_result ctx0) (run quiet (res_ctx done20) iiss20).

Lemma again20_ok : run quiet (res_ctx done20) iiss20 = Ok again20.
Proof. apply get_ok_eq. vm_compute. reflexivity. Qed.

Lemma not_calculating : ErrDuplicateBH <> ErrCalculating.
Proof. discriminate. Qed.


(** A rollback request arrives during the passes over the account DBs. *)
Definition cancelled : calc_env := mkCalcEnv (fun _ _ => true) notifyRollback.
Definition stopped20 : calc_result store := get_ok (no_result ctx0) (run cancelled ctx0 iiss20).

Lemma stopped20_ok : run cancelled ctx0 iiss20 = Ok stopped20.
Proof. apply get_ok_eq. vm_compute. reflexivity. Qed.

Lemma not_refused : ~ refused (CalcCancelByRollbackError 20).
Proof. intros [H|[H|[H|H]]]; discriminate H. Qed.

Lemma DoCalculate_cancelled_witness :
  res_err stopped20 = Some (CalcCancelByRollbackError 20) /\ CalcDone (info (DB (res_ctx stopped20))) = 0 /\
  DoQueryCalculateStatus (res_ctx stopped20) = (CalculationDoing, 20).
Proof.
  assert (res_err stopped20 = Some (CalcCancelByRollbackError 20)) as He by (vm_compute; reflexivity).
  assert (res_stats stopped20 = None) as Hs by (vm_compute; reflexivity).
  destruct (DoCalculate_cancelled (E := Empty_set) digest map_to_list cancelled 0 ctx0 request20 iiss20 true 1
    stopped20 stopped20_ok Hs) as (Hd & _ & _ & Hq & _).
  - rewrite He. intros e E. injection E as <-. exact not_refused.
  - split; [exact He|]. rewrite Hd, Hq.
    assert (res_BlockHeight stopped20 = 20) as -> by (vm_compute; reflexivity).
    split; [vm_compute; reflexivity|reflexivity].
Defined.

(** ** Rewards *)

Definition gvs5 : list GovernanceVariable := [NewGVFromIISS gv5].
Definition bob_candidate : PRepCandidate := mkPRepCandidate bob (mkPRepCandidateData 7 0).

Lemma calculateDelegationReward_bounds_witness :
  calculateDelegationReward gvs5 (mkDelegateData bob 1000000) 10 20 bob_candidate = 19 /\
  0 <= calculateDelegationReward gvs5 (mkDelegateData bob 1000000) 10 20 bob_candidate
    <= 1000000 * Z.max 0 (20 - 10) * 300 / rewardDivider.
Proof.
  split; [vm_compute; reflexivity|].
  refine (proj1 (calculateDelegationReward_bounds gvs5 (mkDelegateData bob 1000000) 10 20 bob_candidate 300
    _ _ _ _ _ _ _ _)); [compute_decide..| | | |].
  - repeat constructor.
  - split; compute_decide.
  - vm_compute. discriminate.
  - lia.
Defined.

Definition alice_db : store := {[alice := marshal alice_data]}.

Lemma alice_db_inv : account_inv alice_db.
Proof.
  intros k v Hk. change (({[alice := marshal alice_data]} : store) !! k = Some v) in Hk.
  apply lookup_singleton_Some in Hk as [<- <-]. split; [exact alice_wf|].
  exists alice_data. split; [reflexivity|]. split; [|repeat constructor; by eexists].
  split; [done|]. constructor; [compute_decide|constructor].
Qed.

Lemma calculateDB_batching_witness :
  exists d1 d2 r,
    calculateDB (E := Empty_set) digest gvs5 {[bob := bob_candidate]} (fun _ => false) alice_db ∅ 20 writeBatchCount
      = Ok (d1, r) /\
    calculateDB (E := Empty_set) digest gvs5 {[bob := bob_candidate]} (fun _ => false) alice_db ∅ 20 0
      = Ok (d2, r) /\
    r = (1, mkStatistics 1 0 0 0 19,
         Some (digest (ia_BytesForHash (mkIScoreAccount alice (mkIScoreData 2519 20 (Delegations alice_data)))))) /\
    forall k, ldb_get d1 k = ldb_get d2 k.
Proof.
  destruct (calculateDB_batching (E := Empty_set) digest gvs5 {[bob := bob_candidate]} alice_db ∅ 20 writeBatchCount 0
    alice_db_inv ltac:(lia)) as (d1 & d2 & r & E1 & E2 & H).
  exists d1, d2, r. split_and!; [exact E1|exact E2| |exact H].
  assert (calculateDB (E := Empty_set) digest gvs5 {[bob := bob_candidate]} (fun _ => false) alice_db ∅ 20 0
    = Ok (<[alice := marshal (mkIScoreData 2519 20 (Delegations alice_data))]> ∅,
       (1, mkStatistics 1 0 0 0 19,
        Some (digest (ia_BytesForHash (mkIScoreAccount alice (mkIScoreData 2519 20 (Delegations alice_data)))))))) as E3
    by (vm_compute; reflexivity).
  rewrite E3 in E2. injection E2 as _ E2. symmetry. exact E2.
Defined.

(** ** Undoing a calculation *)

Definition before20 : IScoreDB store := DB ctx0.
Definition after20 : IScoreDB store := DB (res_ctx done20).
Definition begun20 : IScoreDB store := begin_calculation 20 before20.

Lemma after20_files :
  delete (calc_name begun20 1) (delete (calc_name begun20 2) (files after20)) =
  delete (calc_name begun20 1) (delete (calc_name begun20 2) (files begun20)).
Proof. vm_compute. reflexivity. Qed.

Lemma after20_calculated : calculated begun20 after20.
Proof.
  split.
  - assert (Hn : DBCount (info after20) = 2) by (vm_compute; reflexivity).
    split; [vm_compute; reflexivity..|]. rewrite Hn. intros i p Hi Hp.
    assert (i = 1 \/ i = 2) as [-> | ->] by lia; destruct Hp as [-> | ->]; compute_decide.
  - vm_compute. reflexivity.
  - vm_compute. reflexivity.
  - intros f Hf. pose proof (f_equal (fun m => m !! f) after20_files) as E. cbn beta in E.
    rewrite !lookup_delete_ne in E by (intros E'; exact (Hf _ (eq_sym E'))). exact E.
Qed.

Lemma no_backups20 : map_Forall (fun f (_ : store) => backup_match None f = false) (files before20).
Proof. compute_decide. Qed.

Lemma rollbackAccountDB_restores_witness :
  exists s3, rollbackAccountDB 15 after20 = (s3, true) /\ getQueryDBList s3 = getQueryDBList before20 /\
    files s3 !! query_name before20 1 = files before20 !! query_name before20 1 /\ CalcDone (info s3) = 0.
Proof.
  destruct (rollbackAccountDB_restores before20 20 15 after20) as (s3 & E & _ & Hq & _ & Hf & _ & Hc & _).
  - exact (proj1 ctx0_accounts).
  - vm_compute. discriminate.
  - intros b i [d Hd]. discriminate (no_backups20 _ _ Hd).
  - vm_compute. discriminate.
  - vm_compute. discriminate.
  - vm_compute. discriminate.
  - exact after20_calculated.
  - exists s3. split; [exact E|]. split; [exact Hq|]. split; [apply (Hf 1); vm_compute; split; discriminate|].
    rewrite Hc. vm_compute. reflexivity.
Defined.

(** ** Management records *)

Lemma NewContext_reload_witness :
  exists ctx', NewContext (E := Empty_set) (management (DB ctx4)) (calcResult (DB ctx4)) (preCommit (DB ctx4))
      (claim (DB ctx4)) (claimBackup (DB ctx4)) (files (DB ctx4)) 2 = Ok ctx' /\ info (DB ctx') = info (DB ctx4).
Proof.
  destruct (NewContext_reload (E := Empty_set) ctx4 2 ctx4_mirror) as (ctx' & E & Hi & _).
  exists ctx'. split; [exact E|exact Hi].
Defined.

Definition ctx5 : Context store := UpdateGovernanceVariable [gv5] ctx4.

Lemma UpdateGovernanceVariable_mirror_witness :
  ctx_mirror ctx5 /\ getGVByBlockHeight ctx5 12 = Some (NewGVFromIISS gv5).
Proof.
  refine (conj (proj1 (UpdateGovernanceVariable_mirror ctx4 [gv5] ctx4_mirror _)) _).
  - constructor; [compute_decide|constructor].
  - vm_compute. reflexivity.
Defined.

Lemma UpdatePRep_mirror_witness : ctx_mirror (UpdatePRep [prep6] ctx4).
Proof.
  refine (proj1 (UpdatePRep_mirror ctx4 [prep6] ctx4_mirror _ _)).
  - assert (ctx_PRep ctx4 = []) as -> by (vm_compute; reflexivity). repeat constructor.
  - constructor; [|constructor]. split; [compute_decide|]. constructor; [compute_decide|constructor].
Defined.

Lemma UpdatePRepCandidate_mirror_witness :
  ctx_mirror (UpdatePRepCandidate iiss20 ctx4) /\
  ctx_PRepCandidates (UpdatePRepCandidate iiss20 ctx4) !! bob = Some bob_candidate.
Proof.
  assert (iter_prefix PrefixIISSTX iiss20 = [(PrefixIISSTX ++ tx_ID reg7, marshal (tx_TXData reg7))]) as E
    by (vm_compute; reflexivity).
  destruct (UpdatePRepCandidate_mirror ctx4 iiss20 ctx4_mirror) as [H Hc].
  - unfold iiss_txs_ok. rewrite E. constructor; [|constructor]. exists (tx_TXData reg7).
    split; [compute_decide|reflexivity].
  - split; [exact H|]. rewrite Hc. vm_compute. reflexivity.
Defined.
