(* ===== verification/PayExamples.v ===== *)
(** * Examples of rewards

    The theorems on what a calculation pays, on the state of [Examples.v] and
    IISS data with one block, one delegation and one P-Rep list. *)

From S2P Require Import Prelude Bytes HexInt Address Store Codec Typed Account ClaimDB Management IISSData IScoreDB Context Mirror Reward Calculate AccountDBs BlockProduce Delegation PRepReward DoCalculate AccountPass CalcState CalcTotal Wire Examples CalcExamples.
Import Wire.Instances.

(** ** The account DBs *)

Lemma ctx0_dbs : map_Forall (fun _ (d : store) => d = ∅ \/ d = alice_db) (files (DB ctx0)).
Proof. compute_decide. Qed.

Definition in_place (f : fname) (d : store) : bool :=
  match f with
  | AccountName i _ _ => bool_decide (map_Forall (fun k (_ : bytes) => db_no 2 k = i) d)
  | BackupName _ _ => true
  end.

Lemma ctx0_in_place : map_Forall (fun f (d : store) => in_place f d = true) (files (DB ctx0)).
Proof. compute_decide. Qed.

Lemma ctx0_no_backup b i : files (DB ctx0) !! BackupName b i = None.
Proof.
  assert (map_Forall (fun f (_ : store) => backup_match None f = false) (files (DB ctx0))) as H
    by (apply (bool_decide_unpack _); vm_compute; exact I).
  destruct (files (DB ctx0) !! BackupName b i) eqn:E; [|reflexivity]. discriminate (H _ _ E).
Qed.

Lemma none_inv : account_inv (∅ : store).
Proof. intros k v Hk. destruct (get_empty k v Hk). Qed.

Lemma ctx0_accounts_inv : accounts_inv (DB ctx0).
Proof.
  split; [apply ctx0_accounts|apply ctx0_accounts| | |].
  - intros f d Hd. pose proof (ctx0_dbs f d Hd : d = ∅ \/ d = alice_db) as H. clear Hd f. destruct H as [-> | ->]; [exact none_inv|exact alice_db_inv].
  - intros i p d k Hd [v Hv]. pose proof (ctx0_in_place _ _ Hd) as H. unfold in_place in H.
    apply bool_decide_eq_true_1 in H.
    assert (DBCount (info (DB ctx0)) = 2) as -> by (vm_compute; reflexivity). exact (H k v Hv).
  - intros b i d k Hd. rewrite ctx0_no_backup in Hd. discriminate Hd.
Qed.

Lemma ctx0_mirror : ctx_mirror ctx0.
Proof.
  refine (ctx_mirror_accounts start_ctx ctx0 start_mirror _). split; [reflexivity|]. vm_compute. reflexivity.
Qed.

Lemma ctx0_ready : calc_ready ctx0.
Proof. split; [exact ctx0_mirror|exact ctx0_accounts_inv]. Qed.

(** ** The IISS data *)

(** Alice delegates twice as much at block 12; Bob produces block 15, and Alice
    validates it. *)
Definition dgs12 : list (option DelegateData) := [Some (mkDelegateData bob 2000000)].
Definition data12 : option TypedObj :=
  match EncodeAny (AnyList [AnyList [AnyAddress bob; AnyHexInt 2000000]]) with Ok o => o | _ => None end.
Definition tx12 : IISSTXData := mkIISSTXData alice 12 TXDataTypeDelegate data12.
Definition bp15 : IISSBlockProduceInfo := mkIISSBP 15 (mkIISSBPData bob [alice]).

Definition iiss_pay : store :=
  let d := bucket_Set PrefixIISSTX (tx_ID (mkIISSTX 1 tx12)) (marshal tx12) iiss20 in
  bucket_Set PrefixIISSBPInfo (bp_ID bp15) (marshal (bp_Data bp15)) d.

Lemma delegation12 : delegation_of tx12 dgs12.
Proof. split; [vm_compute; reflexivity|]. split; [split; [done|]|]; (constructor; [|constructor]); [compute_decide|by eexists]. Qed.

Definition header20 : IISSHeader := mkIISSHeader 2 20 8.

Lemma iiss_pay_load : LoadIISSData iiss_pay = Some (header20, [gv5], [prep6]).
Proof. vm_compute. reflexivity. Qed.

Lemma iiss_pay_txs : iter_prefix PrefixIISSTX iiss_pay =
  [(PrefixIISSTX ++ tx_ID reg7, marshal (tx_TXData reg7)); (PrefixIISSTX ++ tx_ID (mkIISSTX 1 tx12), marshal tx12)].
Proof. vm_compute. reflexivity. Qed.

Lemma iiss_pay_bps : iter_prefix PrefixIISSBPInfo iiss_pay = [(PrefixIISSBPInfo ++ bp_ID bp15, marshal (bp_Data bp15))].
Proof. vm_compute. reflexivity. Qed.

Lemma iiss_pay_txs_ok : txs_ok (iter_prefix PrefixIISSTX iiss_pay).
Proof.
  rewrite iiss_pay_txs. constructor; [|constructor; [|constructor]].
  - exists (tx_TXData reg7). split; [compute_decide|]. split; [reflexivity|]. intros H. discriminate H.
  - exists tx12. split; [compute_decide|]. split; [reflexivity|]. intros _. exists dgs12. exact delegation12.
Qed.

Lemma bp15_wf : wf (bp_Data bp15).
Proof. compute_decide. Qed.

Lemma iiss_pay_bps_ok : bps_ok (iter_prefix PrefixIISSBPInfo iiss_pay).
Proof.
  rewrite iiss_pay_bps. constructor; [|constructor]. exists (bp_Data bp15). split; [exact bp15_wf|reflexivity].
Qed.

Lemma prep6_ok : preps_ok [prep6].
Proof. constructor; [|constructor]. split; [compute_decide|]. constructor; [compute_decide|constructor]. Qed.

Lemma ctx0_no_preps : ctx_PRep ctx0 = [].
Proof. vm_compute. reflexivity. Qed.

Lemma iiss_pay_ok : iiss_ok ctx0 iiss_pay.
Proof.
  split; [|exact iiss_pay_txs_ok|exact iiss_pay_bps_ok].
  intros header gvList prepList E. rewrite iiss_pay_load in E. injection E as <- <- <-.
  split; [compute_decide|]. split; [constructor; [compute_decide|constructor]|]. split; [exact prep6_ok|].
  rewrite ctx0_no_preps. repeat constructor.
Qed.

(** ** The calculation *)

Abbreviation pay env := (run env ctx0 iiss_pay).

Lemma DoCalculate_total_witness :
  exists r, DoCalculate (D := store) (E := Empty_set) digest map_to_list cancelled 0 ctx0 request20 iiss_pay true 1 = Ok r /\
    calc_ready (res_ctx r).
Proof.
  exact (DoCalculate_total (E := Empty_set) digest map_to_list (fun m => Permutation_refl _) cancelled 0 ctx0 request20 iiss_pay true 1
    ctx0_ready iiss_pay_ok).
Defined.

Definition paid20 : calc_result store := get_ok (no_result ctx0) (pay quiet).
Lemma paid20_ok : pay quiet = Ok paid20.
Proof. apply get_ok_eq. vm_compute. reflexivity. Qed.

Definition paid20_stats : Statistics := default zero_Statistics (res_stats paid20).
Lemma paid20_stats_ok : res_stats paid20 = Some paid20_stats.
Proof. vm_compute. reflexivity. Qed.
Lemma paid20_height : res_BlockHeight paid20 = 20.
Proof. vm_compute. reflexivity. Qed.

Lemma ctx0_covered : accounts_covered (DB ctx0) [alice; bob].
Proof.
  intros j k _ [v Hv]. unfold db_at in Hv.
  destruct (files (DB ctx0) !! calc_name (DB ctx0) j) as [d|] eqn:E.
  - pose proof (ctx0_dbs _ d E : d = ∅ \/ d = alice_db) as H. clear E. destruct H as [-> | ->].
    + destruct (get_empty k v Hv).
    + change (({[alice := marshal alice_data]} : store) !! k = Some v) in Hv.
      apply lookup_singleton_Some in Hv as [<- _]. left.
  - destruct (get_empty k v Hv).
Qed.

Lemma ctx0_start : calc_start ctx0 20 [alice; bob].
Proof.
  split.
  - intros b i [d Hd]. discriminate (no_backups20 _ _ Hd).
  - vm_compute. discriminate.
  - split; compute_decide.
  - exact ctx0_covered.
  - intros a x Ha. apply elem_of_cons in Ha as [->|Ha%list_elem_of_singleton]; [|subst a].
    + assert (calc_account (DB ctx0) alice = Some alice_data) as -> by (vm_compute; reflexivity).
      intros E. injection E as <-. vm_compute. reflexivity.
    + assert (calc_account (DB ctx0) bob = None) as -> by (vm_compute; reflexivity). intros E. discriminate E.
Qed.

Lemma iiss_pay_covered : rewards_covered iiss_pay (ctx_PRep ctx0 ++ [prep6]) [alice; bob].
Proof. rewrite ctx0_no_preps. unfold rewards_covered. rewrite iiss_pay_txs, iiss_pay_bps. compute_decide. Qed.

(** Alice and Bob had 2500 together; the calculation announces the difference
    to what they have now. *)
Lemma DoCalculate_conserves_witness :
  score_sum (DB (res_ctx paid20)) [alice; bob] = 2500 + TotalReward paid20_stats.
Proof.
  assert (score_sum (DB ctx0) [alice; bob] = 2500) as <- by (vm_compute; reflexivity).
  refine (DoCalculate_conserves (E := Empty_set) digest map_to_list (fun m => Permutation_refl _) quiet 0 ctx0 request20
    iiss_pay true 1 paid20 paid20_stats [alice; bob] header20 [gv5] [prep6] ctx0_ready iiss_pay_ok iiss_pay_load _ _
    iiss_pay_covered paid20_ok paid20_stats_ok).
  - intros i n. reflexivity.
  - rewrite paid20_height. exact ctx0_start.
Defined.

Example paid20_total : TotalReward paid20_stats = 1422000034.
Proof. vm_compute. reflexivity. Qed.

(** ** The parts of it *)

Lemma begun20_inv : accounts_inv begun20.
Proof. exact (begin_inv 20 (DB ctx0) ctx0_accounts_inv). Qed.

Lemma calc_account_dbs_spec_witness :
  exists s' stats hashes,
    calc_account_dbs (E := Empty_set) digest gvs5 {[bob := bob_candidate]} quiet 20 0 (getQueryDBList begun20)
      (getCalcDBList begun20) begun20 [] [] = Ok (s', stats, hashes) /\
    calc_account s' alice = Some (mkIScoreData 2519 20 (Delegations alice_data)).
Proof.
  destruct (calc_account_dbs_spec (E := Empty_set) digest gvs5 {[bob := bob_candidate]} quiet 20 begun20)
    as (s' & stats & hs & E & _ & H); [intros i n; reflexivity|lia|compute_decide|exact begun20_inv|].
  exists s', stats, hs. split; [exact E|]. destruct (H alice alice_wf) as [_ Ha].
  assert (query_account begun20 alice = Some alice_data) as Hq by (vm_compute; reflexivity).
  rewrite (Ha alice_data Hq ltac:(vm_compute; reflexivity)).
  assert (IScore alice_data + account_reward gvs5 {[bob := bob_candidate]} alice_data 20 = 2519) as ->
    by (vm_compute; reflexivity).
  reflexivity.
Defined.

(** A delegation at height 8 to an account that is at height 10. *)
Definition tx8 : IISSTXData := mkIISSTXData alice 8 TXDataTypeDelegate data12.
Lemma delegation8 : delegation_of tx8 dgs12.
Proof. split; [vm_compute; reflexivity|]. split; [split; [done|]|]; (constructor; [|constructor]); [compute_decide|by eexists]. Qed.

Lemma delegate_tx_spec_witness :
  exists a', delegate_tx (E := Empty_set) gvs5 {[bob := bob_candidate]} 10 (mkIISSTX 1 tx8) (mkAcc (DB ctx0) 0 0 []) = Ok a' /\
    calc_account (acc_idb a') alice = Some (mkIScoreData 2504 10 dgs12) /\ acc_reward a' = 4.
Proof.
  destruct (delegate_tx_spec (E := Empty_set) gvs5 {[bob := bob_candidate]} 10 1 tx8 dgs12 (mkAcc (DB ctx0) 0 0 [])
    ctx0_accounts_inv) as (a' & E & _ & H);
    [compute_decide|compute_decide|reflexivity|exact delegation8|vm_compute; reflexivity|].
  exists a'. split; [exact E|]. cbn [acc_idb acc_reward acc_new] in H.
  assert (calc_account (DB ctx0) (tx_Address tx8) = Some alice_data) as Ex by (vm_compute; reflexivity).
  rewrite Ex in H. clear Ex.
  assert ((BlockHeight alice_data =? 10) = true) as Eh by (vm_compute; reflexivity). rewrite Eh in H. clear Eh.
  destruct H as (H1 & H2 & _).
  assert (account_reward gvs5 {[bob := bob_candidate]} (mkIScoreData 0 (tx_BlockHeight tx8) (Delegations alice_data)) 10 = 3)
    as R1 by (vm_compute; reflexivity).
  assert (account_reward gvs5 {[bob := bob_candidate]} (mkIScoreData 0 (tx_BlockHeight tx8) dgs12) 10 = 7)
    as R2 by (vm_compute; reflexivity).
  rewrite R1, R2 in H1, H2. split; [exact H1|exact H2].
Defined.

(** The governance variable in force. *)
Definition ctx_gv5 : Context store := set_PRep [prep6] (set_GV gvs5 ctx0).
Lemma ctx_gv5_inv : accounts_inv (DB ctx_gv5).
Proof. exact ctx0_accounts_inv. Qed.

Lemma calculateIISSBlockProduce_order_witness :
  exists s1 s2 r,
    calculateIISSBlockProduce (E := Empty_set) digest map_to_list ctx_gv5 iiss_pay 20 = Ok (set_DB s1 ctx_gv5, r) /\
    calculateIISSBlockProduce (E := Empty_set) digest (fun m => reverse (map_to_list m)) ctx_gv5 iiss_pay 20
      = Ok (set_DB s2 ctx_gv5, r) /\
    forall a, calc_account s1 a = calc_account s2 a.
Proof.
  refine (calculateIISSBlockProduce_order (E := Empty_set) digest map_to_list (fun m => reverse (map_to_list m)) ctx_gv5 iiss_pay 20
    _ _ ctx_gv5_inv _ iiss_pay_bps_ok).
  - intros m. reflexivity.
  - intros m. apply reverse_Permutation.
  - compute_decide.
Defined.

Lemma block_rewards_bounds_witness :
  map_total (block_rewards (NewGVFromIISS gv5) (mkIISSBPData bob [alice; bob; alice]) ∅)
  = map_total ∅ + 2 * BlockProduceReward (NewGVFromIISS gv5) - BlockProduceReward (NewGVFromIISS gv5) mod 3.
Proof.
  refine (proj2 (block_rewards_bounds (NewGVFromIISS gv5) (mkIISSBPData bob [alice; bob; alice]) ∅ _) _).
  - vm_compute. discriminate.
  - intros E. discriminate E.
Defined.

Lemma calculatePRepReward_bounds_witness :
  exists ctx' n r h, calculatePRepReward (E := Empty_set) digest ctx_gv5 20 = Ok (ctx', (n, r, h)) /\ 0 <= r <= 2000000000.
Proof.
  destruct (calculatePRepReward_bounds (E := Empty_set) digest ctx_gv5 20 100000000) as (ctx' & n & r & h & E & H);
    try exact ctx_gv5_inv; try exact prep6_ok.
  - compute_decide.
  - compute_decide.
  - constructor; [|constructor]. right. split; [compute_decide|]. split; [constructor; [compute_decide|constructor]|].
    vm_compute. discriminate.
  - repeat constructor.
  - constructor; [compute_decide|constructor].
  - repeat constructor.
  - constructor; [|constructor]. split; vm_compute; discriminate.
  - lia.
  - exists ctx', n, r, h. split; [exact E|].
    assert (CalcDone (info (DB ctx_gv5)) = 0) as E0 by (vm_compute; reflexivity). rewrite E0 in H. exact H.
Defined.
