(* ===== verification/CodecExamples.v ===== *)
(** * Witnesses: serialisation, sized integers and store back ends

    The theorems of [HexText.v], [Rlp.v], [RlpRead.v] and [Backends.v] applied to concrete
    values, with their hypotheses evaluated. *)

From S2P Require Import Prelude Bytes HexInt HexText Rlp RlpRead Store Backends.

(** ** [HexText.v] *)

(** A JSON parser for strings without escapes. *)
Definition unquote (b : bytes) : option bytes :=
  match b with
  | q :: r => if (q =? 34) && bool_decide (last r = Some 34) then Some (take (length r - 1) r) else None
  | [] => None
  end.

Lemma unquote_quote s : unquote (json_quote s) = Some s.
Proof.
  unfold unquote, json_quote. rewrite last_snoc, bool_decide_true by done. change (34 =? 34) with true. cbn [andb].
  f_equal. rewrite length_app. cbn [length]. replace (length s + 1 - 1)%nat with (length s) by lia. apply take_app_length.
Qed.

Lemma hex_json_roundtrip_witness :
  HexInt16_MarshalJSON (-32768) = [34; 45; 48; 120; 56; 48; 48; 48; 34] /\
  HexInt16_UnmarshalJSON unquote (HexInt16_MarshalJSON (-32768)) = Ok (-32768).
Proof.
  split; [by vm_compute|].
  refine (proj1 (hex_json_roundtrip unquote (fun s _ => unquote_quote s)) (-32768) _). lia.
Defined.

(** ** [Rlp.v], [RlpRead.v] *)

Definition record_type : gotype := TStruct (map (pair true) [TUint 16; TInt 32; TSlice (TPtr (TUint 8)); TString]).
Definition record_value : govalue :=
  VStruct [VUint 300; VInt (-5); VSlice [VPtr (VUint 1); VNil]; VString (replicate 60 7)].

Lemma record_readable : readable 256 record_type record_value
  (rlp_list ((rlp_string (uint64ToBytes 300)) ++ (rlp_string (int64ToBytes (-5))) ++
    (rlp_list ((rlp_list (rlp_string (uint64ToBytes 1))) ++ (rlp_list []) ++ [])) ++
    (rlp_string (replicate 60 7)) ++ [])).
Proof.
  apply R_struct; [|unfold body_ok; apply (bool_decide_unpack _); by vm_compute].
  repeat apply RF_cons; [| | | |apply RF_nil].
  - apply R_uint; lia.
  - apply R_int; [lia|lia|left; lia].
  - apply R_slice; [done| |unfold body_ok; apply (bool_decide_unpack _); by vm_compute].
    repeat apply RA_cons; [| |apply RA_nil]; [|by apply R_nil].
    apply R_ptr; [apply R_uint; lia|unfold body_ok; apply (bool_decide_unpack _); by vm_compute].
  - apply R_string; [by apply (bool_decide_unpack _)|].
    split; [unfold body_ok|]; rewrite length_replicate; lia.
Qed.


(** Fifty bytes are written and make the decoder panic; 55 are read as none. *)
Lemma decodeBytes_lengths_witness :
  decodeBytes 256 (RBytes (written (encodeBytes (replicate 50 7) new_buffer))) = Panic /\
  decodeBytes 256 (RBytes (written (encodeBytes (replicate 55 7) new_buffer))) = Ok ([], RBytes (replicate 55 7)).
Proof.
  split.
  - etransitivity; [apply (decodeBytes_lengths 256 (replicate 50 7) []); [lia|by vm_compute|by rewrite app_nil_r]|by vm_compute].
  - etransitivity; [apply (decodeBytes_lengths 256 (replicate 55 7) []); [lia|by vm_compute|by rewrite app_nil_r]|by vm_compute].
Defined.

Lemma decode_slice_terminates_witness :
  decode_slice (decodeValue 256 (TUint 16) (zero_value (TUint 16))) (fuel_of (mkDecoder (RBytes [1; 0x82; 1; 2]) None))
    (mkDecoder (RBytes [1; 0x82; 1; 2]) None) [] <> Panic.
Proof.
  apply (decode_slice_terminates 256 (TUint 16)).
  intros k. destruct k as [|[|[|[|k]]]]; [by vm_compute..|]. cbn [advance drop]. rewrite drop_nil. by vm_compute.
Defined.

(** ** [Backends.v] *)

Definition client : list db_op :=
  [OpGetBucket [71]; OpSet [71] [1] (Some [10]); OpGet [71] [1]; OpSet [71] [2] (Some []); OpDelete [71] [1];
   OpHas [71] [1]; OpHas [71] [2]].

Definition shop : MapDB.mapDatabase := <[[71] := <[[1] := [9]]> (<[[3] := [3]]> ∅)]> ∅.

Lemma layer_transaction_witness : exists r1 l1 l2,
  db_run client shop = Ok ([ADone; ADone; AValue (Some [10]); ADone; ADone; AHas false; AHas true], r1) /\
  db_run client (Layer.NewLayerDB shop) = Ok ([ADone; ADone; AValue (Some [10]); ADone; ADone; AHas false; AHas true], l1) /\
  Layer.layer_Flush map_to_list map_to_list true l1 = Ok l2 /\ same_view (Layer.real l2) r1.
Proof.
  destruct (Layer.layer_transaction (fun d => map_to_list d) (fun b => map_to_list b) (fun _ => reflexivity _) (fun _ => reflexivity _)
    client shop) as (answers & r1 & l1 & H1 & H2 & _ & (l2 & H3 & H4 & _) & _); [by vm_compute|].
  exists r1, l1, l2.
  assert (answers = [ADone; ADone; AValue (Some [10]); ADone; ADone; AHas false; AHas true]) as ->.
  { assert (exists r, db_run client shop = Ok ([ADone; ADone; AValue (Some [10]); ADone; ADone; AHas false; AHas true], r))
      as [r Hr] by (eexists; by vm_compute). rewrite Hr in H1. by injection H1 as <- _. }
  split_and!; [exact H1|exact H2|exact H3|exact H4].
Defined.

Lemma proxy_transparent_witness : exists p' answers r1 p1,
  Proxy.SetReal map_to_list shop Proxy.NewProxyDB = Ok p' /\
  db_run client shop = Ok (answers, r1) /\ db_run client p' = Ok (answers, p1).
Proof.
  destruct (Proxy.proxy_transparent (fun b => map_to_list b) (fun _ => reflexivity _) Proxy.NewProxyDB shop eq_refl)
    as [_ (p' & Hp & Hrun)].
  destruct (Hrun client) as (answers & r1 & p1 & H1 & H2 & _); [by vm_compute|].
  exists p', answers, r1, p1. split_and!; [exact Hp|exact H1|exact H2].
Defined.
