(* ===== verification/DebugExamples.v ===== *)
(** * Examples of the debug output

    The theorems of [DebugTrace.v] and [MsgDebug.v] on the state of
    [Examples.v], with an instance of the encoding of debug results (numbers as
    their bytes), and what the code does at the edges: a product that wraps,
    a result deleted twice, a height found under another. *)

From Stdlib Require Strings.String.
From S2P Require Import Prelude Bytes HexInt Address Store Codec Typed Account ClaimDB Management IISSData IScoreDB Context Reward CalcDebug DebugTrace MsgDebug Wire Examples CalcExamples.
Import Wire.Instances Msgpack.
Import String.StringSyntax.

(** ** An encoding *)

Definition mp_z : mpcodec Z := mp_hexint.
Definition mp_zs : mpcodec (list Z) := mp_list mp_hexint.
Definition any_ok {A} (c : mpcodec A) : Prop := mp_ok c (fun _ => True).

Lemma mp_z_ok : any_ok mp_z.
Proof. exact mp_hexint_ok. Qed.
Lemma any_list {A} (c : mpcodec A) : any_ok c -> any_ok (mp_list c).
Proof. intros Hc l rest _. apply (mp_list_ok c _ Hc). by apply Forall_true. Qed.
Lemma any_bytes : any_ok mp_bytes.
Proof. intros b rest _. by apply mp_bytes_ok. Qed.

(** A struct from its fields. *)
Lemma any_struct {A B} n (f : A -> B) g (c : mpcodec B) :
  any_ok c -> (forall a, g (f a) = a) -> any_ok (mp_struct n (mp_iso f g c)).
Proof. intros Hc Hg. apply mp_struct_ok. eapply mp_iso_ok; [exact Hc|]. by intros a _. Qed.
Lemma any_pair {A B} (a : mpcodec A) (b : mpcodec B) : any_ok a -> any_ok b -> any_ok (mp_pair a b).
Proof. intros Ha Hb [x y] rest _. by apply (mp_pair_ok a b _ _ Ha Hb). Qed.

Ltac any_ok :=
  repeat first [apply any_pair | apply any_list | exact mp_z_ok | exact any_bytes | assumption
               | apply any_struct; [|by intros []]].

Definition mp_candidate : mpcodec PRepCandidate := mp_struct 2 (mp_iso
  (fun p => (pcd_Address p, (pc_Start (pcd_Data p), pc_End (pcd_Data p))))
  (fun q => mkPRepCandidate q.1 (mkPRepCandidateData q.2.1 q.2.2)) (mp_pair mp_bytes (mp_pair mp_z mp_z))).
Lemma mp_candidate_ok : any_ok mp_candidate.
Proof. apply any_struct; [any_ok|]. by intros [? []]. Qed.

Definition mp_gv : mpcodec GovernanceVariable := mp_struct 7 (mp_iso
  (fun g => let d := gv_Data g in
     (gv_BlockHeight g, (CalculatedIncentiveRep d, (RewardRep d, (MainPRepCount d, (SubPRepCount d,
       (BlockProduceReward g, PRepReward g)))))))
  (fun q => let '(h, (a, (b, (c, (d, (bp, pr)))))) := q in mkGV h (mkGVData a b c d) bp pr)
  (mp_pair mp_z (mp_pair mp_z (mp_pair mp_z (mp_pair mp_z (mp_pair mp_z (mp_pair mp_z mp_z))))))).
Lemma mp_gv_ok : any_ok mp_gv.
Proof. apply any_struct; [any_ok|]. by intros [? []]. Qed.

Definition mp_beta1 : mpcodec DebugBeta1 := mp_struct 3 (mp_iso
  (fun b => let g := b1_Generate b in
     (Beta1IScore b, ((g_BlockCount g, (g_Formula g, g_IScore g)),
       map (fun v => (v_ValidatorCount v, (v_BlockCount v, (v_Formula v, v_IScore v)))) (b1_Validate b))))
  (fun q => let '(i, ((n, (f, s)), l)) := q in
     mkBeta1 i (mkGenerate n f s) (map (fun v => mkValidateInfo v.1 v.2.1 v.2.2.1 v.2.2.2) l))
  (mp_pair mp_z (mp_pair (mp_pair mp_z (mp_pair mp_zs mp_z)) (mp_list (mp_pair mp_z (mp_pair mp_z (mp_pair mp_zs mp_z))))))).
Lemma mp_beta1_ok : any_ok mp_beta1.
Proof.
  apply any_struct; [unfold mp_zs; any_ok|]. intros [i [] l]. cbn. f_equal. rewrite map_map. etransitivity; [|apply map_id].
  apply map_ext. by intros [].
Qed.

Definition mp_beta2 : mpcodec DebugBeta2 := mp_struct 2 (mp_iso
  (fun b => (Beta2IScore b, map (fun d => (dgd_BlockHeight d, (dgd_Delegated d, (dgd_TotalDelegated d, (dgd_Formula d, dgd_IScore d)))))
     (b2_DelegatedInfo b)))
  (fun q => mkBeta2 q.1 (map (fun v => mkDelegatedInfo v.1 v.2.1 v.2.2.1 v.2.2.2.1 v.2.2.2.2) q.2))
  (mp_pair mp_z (mp_list (mp_pair mp_z (mp_pair mp_z (mp_pair mp_z (mp_pair mp_zs mp_z))))))).
Lemma mp_beta2_ok : any_ok mp_beta2.
Proof.
  apply any_struct; [unfold mp_zs; any_ok|]. intros [i l]. cbn. f_equal. rewrite map_map. etransitivity; [|apply map_id].
  apply map_ext. by intros [].
Qed.

Definition mp_beta3 : mpcodec DebugBeta3 := mp_struct 2 (mp_iso
  (fun b => (Beta3IScore b, map (fun d => (dgi_BlockHeight d, (dgi_Address d, (dgi_Amount d, (dgi_Formula d, dgi_IScore d)))))
     (b3_DelegationInfo b)))
  (fun q => mkBeta3 q.1 (map (fun v => mkDelegationInfo v.1 v.2.1 v.2.2.1 v.2.2.2.1 v.2.2.2.2) q.2))
  (mp_pair mp_z (mp_list (mp_pair mp_z (mp_pair mp_bytes (mp_pair mp_z (mp_pair mp_zs mp_z))))))).
Lemma mp_beta3_ok : any_ok mp_beta3.
Proof.
  apply any_struct; [unfold mp_zs; any_ok|]. intros [i l]. cbn. f_equal. rewrite map_map. etransitivity; [|apply map_id].
  apply map_ext. by intros [].
Qed.

Definition mp_reward : mpcodec DebugReward := mp_struct 4 (mp_iso
  (fun r => (rw_BlockHeight r, (rw_Beta1 r, (rw_Beta2 r, rw_Beta3 r)))) (fun q => mkReward q.1 q.2.1 q.2.2.1 q.2.2.2)
  (mp_pair mp_z (mp_pair mp_beta1 (mp_pair mp_beta2 mp_beta3)))).
Definition mp_result : mpcodec CalcResult := mp_struct 4 (mp_iso
  (fun r => (cr_Address r, (InitialIScore r, (TotalIScore r, Rewards r)))) (fun q => mkDebugCalcResult q.1 q.2.1 q.2.2.1 q.2.2.2)
  (mp_pair mp_bytes (mp_pair mp_z (mp_pair mp_z (mp_list mp_reward))))).
Definition mp_CalcDebugData : mpcodec CalcDebugData := mp_struct 3 (mp_iso
  (fun d => (Preps d, (cdd_GV d, Results d))) (fun q => mkCalcDebugData q.1 q.2.1 q.2.2)
  (mp_pair (mp_list mp_candidate) (mp_pair (mp_list mp_gv) (mp_list mp_result)))).

#[export] Instance wf_CalcDebugData : WF CalcDebugData := fun _ => True.
Lemma mp_CalcDebugData_ok : mp_ok mp_CalcDebugData wf.
Proof.
  pose proof mp_candidate_ok. pose proof mp_gv_ok. pose proof mp_beta1_ok. pose proof mp_beta2_ok. pose proof mp_beta3_ok.
  assert (any_ok mp_reward) by (apply any_struct; [any_ok|by intros []]).
  assert (any_ok mp_result) by (apply any_struct; [any_ok|by intros []]).
  apply (any_struct 3); [any_ok|by intros []].
Qed.

#[export] Instance codec_CalcDebugData : Codec CalcDebugData := mp_codec mp_CalcDebugData.
#[export] Instance laws_CalcDebugData : CodecLaws CalcDebugData := mp_codec_laws _ mp_CalcDebugData_ok eq_refl.

(** ** A traced calculation *)

(** [math/big] of Go 1.12 leaves room behind a number that was read from
    bytes: the copy reads the words of the sum it had itself. *)
Definition words (initial total : Z) : Z := if initial =? 0 then 0 else total mod 2 ^ 64.

Definition ctx_dbg : Context store := set_GV gvs5 ctx0.
Definition dbg0 : CalcDebug := mkCalcDebug (mkCalcDebugConfig true [alice; bob]) None.
Definition dbg1 : CalcDebug := get_ok dbg0 (InitCalcDebugResult ctx_dbg [bob_candidate] 20 [] dbg0).
Lemma dbg1_ok : InitCalcDebugResult ctx_dbg [bob_candidate] 20 [] dbg0 = Ok dbg1.
Proof. apply get_ok_eq. vm_compute. reflexivity. Qed.

Definition writes : list debug_write :=
  [Write3 alice 300 (mkDelegateData bob 1000000) 10 20;
   Write1 1000 (mkIISSBP 15 (mkIISSBPData bob [alice; bob]));
   Write2 (mkPRepDelegationInfo bob 500) (mkPRep 6 (mkPRepData 1000 [mkPRepDelegationInfo bob 500])) 6 20 1000].
Definition dbg2 : CalcDebug := get_ok dbg0 (do_writes words ctx_dbg writes dbg1).
Lemma dbg2_ok : do_writes words ctx_dbg writes dbg1 = Ok dbg2.
Proof. apply get_ok_eq. vm_compute. reflexivity. Qed.

Lemma debug_balance_witness :
  exists r, result dbg2 = Some r /\ cr_Address <$> cdr_Results r = [alice; bob] /\
    forall c, c ∈ cdr_Results r -> exists stored, initial_IScore ctx_dbg (cr_Address c) = Ok stored /\ TotalIScore c = stored + betas c.
Proof.
  destruct (debug_balance words ctx_dbg [bob_candidate] 20 [] writes dbg0 dbg1 dbg2 eq_refl dbg1_ok dbg2_ok) as (r & Hr & H).
  exists r. split; [exact Hr|]. split.
  - assert ((fun r => cr_Address <$> cdr_Results r) <$> result dbg2 = Some [alice; bob]) as E by (vm_compute; reflexivity).
    rewrite Hr in E. cbn in E. injection E as E. exact E.
  - intros c Hc. exact (proj2 (H c Hc)).
Defined.

Example dbg2_totals : total_of alice dbg2 = Some (2500 + 19 + 500) /\ total_of bob dbg2 = Some (1000 + 7000).
Proof. vm_compute. done. Qed.

(** Alice's initial I-Score is printed as her total. *)
Example dbg2_initial : (fun r => InitialIScore <$> cdr_Results r) <$> result dbg2 = Some [3019; 0].
Proof. vm_compute. reflexivity. Qed.

Lemma calculateDelegationReward_debug_spec_witness :
  exists dbg', calculateDelegationReward_debug words ctx_dbg (mkDelegateData bob 1000000) 10 20 bob_candidate alice dbg1 = Ok (19, dbg') /\
    total_of alice dbg' = Some 2519 /\ total_of bob dbg' = Some 0.
Proof.
  destruct (calculateDelegationReward_debug_spec words ctx_dbg alice (mkDelegateData bob 1000000) 10 20 bob_candidate dbg1)
    as (dbg' & E & H).
  - split; [vm_compute; reflexivity|]. split; [compute_decide|]. split; [compute_decide|].
    do 3 eexists. split_and!; vm_compute; reflexivity.
  - split; [compute_decide|]. constructor; [|constructor]. split; [compute_decide|vm_compute; reflexivity].
  - constructor; [compute_decide|constructor].
  - compute_decide.
  - compute_decide.
  - split; compute_decide.
  - assert (calculateDelegationReward (GV ctx_dbg) (mkDelegateData bob 1000000) 10 20 bob_candidate = 19) as R by (vm_compute; reflexivity).
    rewrite R in E, H. exists dbg'. split; [exact E|]. rewrite !H.
    assert (total_of alice dbg1 = Some 2500) as -> by (vm_compute; reflexivity).
    assert (total_of bob dbg1 = Some 0) as -> by (vm_compute; reflexivity). split; reflexivity.
Defined.

(** A delegation of one ICX (10^18) over a term of 43120 blocks earns more than what is
    recorded: the product does not fit in 64 bits. *)
Example recorded_wraps :
  calculateDelegationReward gvs5 (mkDelegateData bob (10 ^ 18)) 10 43130 bob_candidate = 83179012345679012 /\
  u64 (u64 (300 * 43120) * 10 ^ 18) / rewardDivider = 114481265214.
Proof. vm_compute. done. Qed.

(** A write goes to the first period below the height, not the latest. *)
Example oldest_reward : getReward (mkDebugCalcResult alice 0 0 [NewReward 5; NewReward 10]) 20 = Some 0%nat.
Proof. reflexivity. Qed.

(** ** Stored results *)

Definition result2 : CalcDebugResult := default (mkCalcDebugResult 0 [] zero_CalcDebugData) (result dbg2).

Lemma dbg2_result : result dbg2 = Some result2.
Proof. vm_compute. reflexivity. Qed.

Lemma result2_wf : wf_debug result2.
Proof.
  split; [compute_decide|]. split; [exact I|]. exists (make_bytes BlockHashSize). split; [vm_compute; reflexivity|].
  split; [compute_decide|]. vm_compute. reflexivity.
Qed.

Lemma debug_store_empty : debug_store (∅ : store).
Proof. intros k v Hk. destruct (get_empty k v Hk). Qed.

Lemma debug_query_witness :
  exists d rs, WriteCalcDebugResult dbg2 (∅ : store) = Ok d /\ handleQueryCalcDebugResult d alice 20 = Ok rs /\ result2 ∈ rs.
Proof.
  destruct (debug_query dbg2 result2 (∅ : store) alice 20 debug_store_empty dbg2_result result2_wf)
    as (d & rs & E & _ & Eq & H); [compute_decide|].
  exists d, rs. split; [exact E|]. split; [exact Eq|]. apply H. split; [left; reflexivity|].
  split; [compute_decide|]. unfold asked_for. rewrite decide_False by discriminate. compute_decide.
Defined.

(** A result of height 276 (0x114) is found under 20 (0x14), and every result
    under 0. *)
Example height_suffix : height_matches 20 276 /\ height_matches 0 276 /\ ~ height_matches 276 20.
Proof. split_and!; compute_decide. Qed.

(** A duplicate address in the configuration makes the deletion panic once
    there are results. *)
Example delete_duplicate :
  DeleteDebuggingAddress alice (mkCalcDebug (mkCalcDebugConfig true [alice; alice])
    (Some (mkCalcDebugResult 0 [] (mkCalcDebugData [] [] [mkDebugCalcResult alice 0 0 []; mkDebugCalcResult alice 0 0 []])))) = Panic.
Proof. vm_compute. reflexivity. Qed.

(** A switch is set while a calculation runs, although the answer says it failed. *)
Definition ctx_calculating : Context store := update_DB (fun s => set_info (set_Calculating 20 (info s)) s) ctx0.
Example flag_set_anyway :
  handleCalcDebugFlagOn ctx_calculating (mkCalcDebug NewCalcDebugConfig None)
  = (mkCalcDebug (mkCalcDebugConfig true []) None, ResponseCalcDebug false zero_MessageData).
Proof. vm_compute. reflexivity. Qed.
