(* ===== verification/DebugCalcExamples.v ===== *)
(** * A calculation with the debug output on

    The calculation of [PayExamples.v] traced for Alice and Bob: what it
    records of a delegation that changes, of blocks without validators, and
    where the output does make it panic. *)

From S2P Require Import Prelude Bytes HexInt Address Store Codec Typed Account ClaimDB Management IISSData IScoreDB Context Reward Calculate DoCalculate CalcDebug DebugTrace MsgDebug DebugCalc DebugCalcSpec Wire Examples CalcExamples PayExamples DebugExamples.
Import Wire.Instances.

Definition order (candidates : PRepCandidates) : list PRepCandidate := (map_to_list candidates).*2.
Abbreviation traced_run iiss dbg :=
  (DoCalculate_debug (D := store) digest map_to_list words order quiet 0 ctx0 request20 iiss true 1 dbg (∅ : store)).
Abbreviation plain_run iiss :=
  (DoCalculate (D := store) (E := debug_error) digest map_to_list quiet 0 ctx0 request20 iiss true 1).

Definition started_pay : Context store := default ctx0 (started ctx0 iiss_pay).
Lemma started_pay_ok : started ctx0 iiss_pay = Some started_pay.
Proof. vm_compute. reflexivity. Qed.

Lemma started_pay_readable : scores_readable (conf dbg0) started_pay.
Proof.
  intros a. unfold dbg0. cbn [conf Addresses]. intros [->|[->|Ha]%elem_of_cons]%elem_of_cons; [| |destruct (not_elem_of_nil _ Ha)].
  - exists 2500. vm_compute. reflexivity.
  - exists 0. vm_compute. reflexivity.
Qed.

Lemma started_pay_totals : totals_ok (ctx_PRep started_pay).
Proof.
  assert (ctx_PRep started_pay = [prep6]) as -> by (vm_compute; reflexivity).
  constructor; [|constructor]. intros _. vm_compute. discriminate.
Qed.

Definition paid_debug : calc_result store := get_ok (no_result ctx0) (plain_run iiss_pay).
Lemma paid_debug_ok : plain_run iiss_pay = Ok paid_debug.
Proof. apply get_ok_eq. vm_compute. reflexivity. Qed.

Lemma DoCalculate_debug_transparent_witness :
  exists dbg' dbgDB', conf dbg' = conf dbg0 /\ traced_run iiss_pay dbg0 = Ok (paid_debug, dbg', dbgDB').
Proof.
  destruct (DoCalculate_debug_transparent (D := store) digest map_to_list words order quiet 0 ctx0 request20 iiss_pay true 1
    dbg0 (∅ : store)) as (dbg' & dbgDB' & Hc & E).
  - intros ctx' Hs. rewrite started_pay_ok in Hs. apply (inj Some) in Hs as <-.
    split; [exact started_pay_readable|exact started_pay_totals].
  - rewrite paid_debug_ok in E. exists dbg', dbgDB'. split; [exact Hc|exact E].
Defined.

(** ** What is stored *)

Definition stored_results (m : outcome debug_error (calc_result store * CalcDebug * store)) (height : Z)
    : list (list (Address * Z)) :=
  match m with
  | Ok (_, _, d) =>
      match handleQueryCalcDebugResult d zero_Address height with
      | Ok rs => map (fun r => map (fun c => (cr_Address c, TotalIScore c)) (cdr_Results r)) (take 1 rs)
      | _ => []
      end
  | _ => []
  end.

Definition final_IScore (iiss : store) (a : Address) : option Z :=
  match plain_run iiss with
  | Ok r =>
      match getCalculateDB (E := debug_error) (DB (res_ctx r)) a with
      | Ok f => data ← get_account (DB (res_ctx r)) f a; ia_IScore <$> NewIScoreAccountFromBytes data
      | _ => None
      end
  | _ => None
  end.

(** With one delegation and one P-Rep the record is the I-Score. *)
Example recorded_in_full :
  stored_results (traced_run iiss20 dbg0) 20 = [[(alice, 2519); (bob, 1400000000)]] /\
  final_IScore iiss20 alice = Some 2519 /\ final_IScore iiss20 bob = Some 1400000000.
Proof. vm_compute. done. Qed.

(** Alice changes her delegation at block 12.  The pass has recorded the old one
    up to block 20 (19) and the transaction records the new one from block 12 on
    (30): the 15 of the old one in these blocks are taken off her I-Score, not
    off the record. *)
Lemma old_delegation_recorded_twice :
  stored_results (traced_run iiss_pay dbg0) 20 = [[(alice, 11002549); (bob, 1411000000)]] /\
  final_IScore iiss_pay alice = Some 11002534 /\ final_IScore iiss_pay bob = Some 1411000000.
Proof. vm_compute. done. Qed.

(** Bob produces block 16 without validators: he is paid, and nothing is
    recorded. *)
Definition bp16 : IISSBlockProduceInfo := mkIISSBP 16 (mkIISSBPData bob []).
Definition iiss_alone : store := bucket_Set PrefixIISSBPInfo (bp_ID bp16) (marshal (bp_Data bp16)) iiss20.
Lemma lone_generator_unrecorded :
  stored_results (traced_run iiss_alone dbg0) 20 = [[(alice, 2519); (bob, 1400000000)]] /\
  final_IScore iiss_alone bob = Some 1411000000.
Proof. vm_compute. done. Qed.

(** A total delegation of 2^64: the calculation is done without the output and
    divides by zero with it. *)
Definition prep_wraps : PRep := mkPRep 6 (mkPRepData (2 ^ 64) [mkPRepDelegationInfo bob (2 ^ 64)]).
Definition iiss_wraps : store := bucket_Set PrefixPRep (pr_ID prep_wraps) (pr_Bytes prep_wraps) iiss20.
Lemma total_delegation_panics :
  traced_run iiss_wraps dbg0 = Panic /\ final_IScore iiss_wraps bob = Some 1400000000.
Proof. vm_compute. done. Qed.

(** The flag is switched on while the first calculation runs: there is no
    result to write to. *)
Lemma flag_on_panics :
  WriteBeta3Info words ctx0 alice 300 (mkDelegateData bob 1000000) 10 20
    (handleCalcDebugFlagOn ctx_calculating (mkCalcDebug (mkCalcDebugConfig false [alice]) None)).1 = Panic.
Proof. vm_compute. reflexivity. Qed.
