(* ===== verification/IpcExamples.v ===== *)
(** * Examples of calls over a connection

    Encodings of the messages, requests and responses (arrays of their
    fields, as [codec.MP] writes them), which satisfy the laws of [Remote.v], and
    the theorems of [Server.v], [Remote.v] and [ClaimRemote.v] on the state of
    [Examples.v]. *)

From Stdlib Require Strings.String.
From S2P Require Import Prelude Bytes HexInt Address Store Codec Typed Account ClaimDB Management IISSData IScoreDB Context Reward CalcDebug MsgDebug Calculate DoCalculate Messages Dispatch ClaimLedger Ipc Server Client Remote ClaimRemote Wire Examples CalcExamples DebugExamples.
Import Wire.Instances Msgpack.
Import String.StringSyntax.

(** ** Messages *)

(** What is left after decoding is no longer than what was there. *)
Definition mp_le {A} (c : mpcodec A) : Prop := forall bs a r, dec c bs = Some (a, r) -> (length r <= length bs)%nat.

Lemma take_be_le n bs z r : take_be n bs = Some (z, r) -> (length r <= length bs)%nat.
Proof. unfold take_be. case_decide; [done|]. intros [= _ <-]. rewrite length_drop. lia. Qed.
Lemma mp_uint_le : mp_le mp_uint.
Proof.
  intros [|b bs] a r; [done|]. cbn [mp_uint dec dec_uint length].
  repeat case_match; try done; [by intros [= _ <-]; lia|..]; intros E%take_be_le; lia.
Qed.
Lemma dec_unary_le bs n r : dec_unary bs = Some (n, r) -> (length r <= length bs)%nat.
Proof.
  revert n. induction bs as [|b bs IH]; intros n; [done|]. cbn. case_match; [intros [= _ <-]; lia|].
  destruct (dec_unary bs) as [[k r']|]; [|done]. intros [= _ ->]. specialize (IH _ eq_refl). lia.
Qed.
Lemma to_nat1_le bs n m r : to_nat1 (take_be n bs) = Some (m, r) -> (length r <= length bs)%nat.
Proof. destruct (take_be n bs) as [[z r']|] eqn:E; [|done]. intros [= _ ->]. by apply take_be_le in E. Qed.
Lemma dec_len_lt f fm m16 m32 bs n r : dec_len f fm m16 m32 bs = Some (n, r) -> (length r < length bs)%nat.
Proof.
  destruct bs as [|b bs]; [done|]. cbn. repeat case_match; try done.
  - intros [= _ <-]. lia.
  - intros E%to_nat1_le. lia.
  - intros E%to_nat1_le. lia.
  - intros E%dec_unary_le. lia.
Qed.
Lemma mp_bytes_le : mp_le mp_bytes.
Proof.
  intros bs a r. cbn [mp_bytes dec]. destruct (dec_str_len bs) as [[n r']|] eqn:E; [|done]. case_decide; [done|].
  intros [= _ <-]. apply dec_len_lt in E. rewrite length_drop. lia.
Qed.
Lemma mp_pair_le {A B} (a : mpcodec A) (b : mpcodec B) : mp_le a -> mp_le b -> mp_le (mp_pair a b).
Proof.
  intros Ha Hb bs p r. cbn. destruct (dec a bs) as [[x r1]|] eqn:E1; [|done].
  destruct (dec b r1) as [[y r2]|] eqn:E2; [|done]. intros [= _ <-]. apply Ha in E1. apply Hb in E2. lia.
Qed.
Lemma mp_iso_le {A B} (f : A -> B) g (c : mpcodec B) : mp_le c -> mp_le (mp_iso f g c).
Proof. intros Hc bs a r. cbn. destruct (dec c bs) as [[x r1]|] eqn:E; [|done]. intros [= _ <-]. by apply Hc in E. Qed.
Lemma mp_struct_lt {A} n (c : mpcodec A) bs a r : mp_le c -> dec (mp_struct n c) bs = Some (a, r) -> (length r < length bs)%nat.
Proof.
  intros Hc. cbn. destruct (dec_arr_len bs) as [[m r1]|] eqn:E; [|done]. case_match; [|done]. intros Hd%Hc.
  apply dec_len_lt in E. lia.
Qed.

Definition mp_message : mpcodec message := mp_struct 3 (mp_iso
  (fun m => (m_Msg m, (m_Id m, m_Data m))) (fun p => mkMessage p.1 p.2.1 p.2.2) (mp_pair mp_uint (mp_pair mp_uint mp_bytes))).

Lemma mp_message_ok : mp_ok mp_message (fun m => is_u64 (m_Msg m) /\ is_u32 (m_Id m)).
Proof. struct_ok. intros [msg id data] [Hm Hi]. cbn in *. unfold is_u32, is_u64 in *. split; [|done]. split_and!; lia || done. Qed.

#[export] Instance mp_framing : Framing := {|
  frame := enc mp_message;
  unframe := dec mp_message;
  valid_data := fun _ => True;
  nil_data := [0xc0];
|}.

#[export] Instance mp_framing_laws : FramingLaws.
Proof.
  split.
  - intros m rest (Hm & Hi & _). by apply mp_message_ok.
  - intros bs m rest E. eapply mp_struct_lt; [|exact E].
    apply mp_iso_le, mp_pair_le; [apply mp_uint_le|]. apply mp_pair_le; [apply mp_uint_le|apply mp_bytes_le].
  - done.
Qed.

(** ** Requests and responses *)

Definition mp_optbytes : mpcodec (option bytes) := mp_ptr mp_bytes.
Lemma mp_optbytes_ok : mp_ok mp_optbytes (opt_ok (fun _ => True)).
Proof.
  apply mp_ptr_ok; [apply mp_bytes_ok|]. intros a. cbn. unfold enc_str_len, enc_len.
  repeat case_match; cbn; bool_to_Z; eexists _, _; (split; [reflexivity|lia]).
Qed.

Definition mp_ResponseVersion : mpcodec ResponseVersion := mp_struct 3 (mp_iso
  (fun r => (rv_Version r, (rv_BlockHeight r, rv_BlockHash r))) (fun p => mkResponseVersion p.1 p.2.1 p.2.2)
  (mp_pair mp_uint (mp_pair mp_uint mp_hash))).
Definition mp_ClaimMessage : mpcodec ClaimMessage := mp_struct 5 (mp_iso
  (fun r => (cm_Address r, (cm_BlockHeight r, (cm_BlockHash r, (cm_TXIndex r, cm_TXHash r)))))
  (fun p => let '(a, (h, (bh, (i, th)))) := p in mkClaimMessage a h bh i th)
  (mp_pair mp_address (mp_pair mp_uint (mp_pair mp_bytes (mp_pair mp_uint mp_bytes))))).
Definition mp_ResponseClaim : mpcodec ResponseClaim := mp_struct 2 (mp_iso
  (fun r => (rcl_ClaimMessage r, rcl_IScore r)) (fun p => mkResponseClaim p.1 p.2) (mp_pair mp_ClaimMessage mp_hexint)).
Definition mp_Query : mpcodec Query := mp_struct 4 (mp_iso
  (fun r => (q_Address r, (q_BlockHeight r, (q_BlockHash r, q_TXHash r)))) (fun p => mkQuery p.1 p.2.1 p.2.2.1 p.2.2.2)
  (mp_pair mp_address (mp_pair mp_uint (mp_pair mp_bytes mp_bytes)))).
Definition mp_ResponseQuery : mpcodec ResponseQuery := mp_struct 3 (mp_iso
  (fun r => (rq_Address r, (rq_IScore r, rq_BlockHeight r))) (fun p => mkResponseQuery p.1 p.2.1 p.2.2)
  (mp_pair mp_address (mp_pair mp_hexint mp_uint))).
Definition mp_CalculateRequest : mpcodec CalculateRequest := mp_struct 3 (mp_iso
  (fun r => (req_Path r, (req_BlockHeight r, req_BlockHash r))) (fun p => mkCalculateRequest p.1 p.2.1 p.2.2)
  (mp_pair mp_bytes (mp_pair mp_uint mp_bytes))).
Definition mp_CalculateResponse : mpcodec CalculateResponse := mp_struct 2 (mp_iso
  (fun r => (resp_Status r, resp_BlockHeight r)) (fun p => mkCalculateResponse p.1 p.2) (mp_pair mp_uint mp_uint)).
Definition mp_CalculateDone : mpcodec CalculateDone := mp_struct 4 (mp_iso
  (fun r => (cd_Success r, (cd_Height r, (cd_Reward r, cd_StateHash r)))) (fun p => mkCalculateDone p.1 p.2.1 p.2.2.1 p.2.2.2)
  (mp_pair mp_bool (mp_pair mp_uint (mp_pair mp_hexint mp_optbytes)))).
Definition mp_StartBlock : mpcodec StartBlock := mp_struct 2 (mp_iso
  (fun r => (sb_BlockHeight r, sb_BlockHash r)) (fun p => mkStartBlock p.1 p.2) (mp_pair mp_uint mp_optbytes)).
Definition mp_CommitBlock : mpcodec CommitBlock := mp_struct 3 (mp_iso
  (fun r => (cbk_Success r, (cbk_BlockHeight r, cbk_BlockHash r))) (fun p => mkCommitBlock p.1 p.2.1 p.2.2)
  (mp_pair mp_bool (mp_pair mp_uint mp_optbytes))).
Definition mp_CommitClaim : mpcodec CommitClaim := mp_struct 6 (mp_iso
  (fun r => (cc_Success r, (cc_Address r, (cc_BlockHeight r, (cc_BlockHash r, (cc_TXIndex r, cc_TXHash r))))))
  (fun p => let '(s, (a, (h, (bh, (i, th))))) := p in mkCommitClaim s a h bh i th)
  (mp_pair mp_bool (mp_pair mp_address (mp_pair mp_uint (mp_pair mp_bytes (mp_pair mp_uint mp_bytes)))))).
Definition mp_QueryStatus : mpcodec QueryCalculateStatusResponse := mp_struct 2 (mp_iso
  (fun r => (qs_Status r, qs_BlockHeight r)) (fun p => mkQueryStatus p.1 p.2) (mp_pair mp_uint mp_uint)).
Definition mp_QueryResult : mpcodec QueryCalculateResultResponse := mp_struct 4 (mp_iso
  (fun r => (qr_Status r, (qr_BlockHeight r, (qr_IScore r, qr_StateHash r)))) (fun p => mkQueryResult p.1 p.2.1 p.2.2.1 p.2.2.2)
  (mp_pair mp_uint (mp_pair mp_uint (mp_pair mp_hexint mp_bytes)))).
Definition mp_RollBackRequest : mpcodec RollBackRequest := mp_struct 2 (mp_iso
  (fun r => (rb_BlockHeight r, rb_BlockHash r)) (fun p => mkRollBackRequest p.1 p.2) (mp_pair mp_uint mp_bytes)).
Definition mp_RollBackResponse : mpcodec RollBackResponse := mp_struct 2 (mp_iso
  (fun r => (rbr_Success r, rbr_Request r)) (fun p => mkRollBackResponse p.1 p.2) (mp_pair mp_bool mp_RollBackRequest)).
Definition mp_ResponseInit : mpcodec ResponseInit := mp_struct 2 (mp_iso
  (fun r => (ri_Success r, ri_BlockHeight r)) (fun p => mkResponseInit p.1 p.2) (mp_pair mp_bool mp_uint)).
Definition mp_DebugMessage : mpcodec DebugMessage := mp_struct 2 (mp_iso
  (fun r => (dm_Cmd r, (md_Address (dm_MessageData r), (md_OutputPath (dm_MessageData r), md_BlockHeight (dm_MessageData r)))))
  (fun p => mkDebugMessage p.1 (mkMessageData p.2.1 p.2.2.1 p.2.2.2))
  (mp_pair mp_uint (mp_pair mp_address (mp_pair mp_bytes mp_uint)))).

(** The responses of DEBUG are only sent: each is a number here. *)
Definition debug_tag (r : debug_response) : Z :=
  match r with
  | ResponseDebugStats _ _ _ => 0
  | ResponseDebugDBInfo _ _ => 1
  | ResponseDebugPRep _ _ => 2
  | ResponseDebugPRepCandidate _ _ => 3
  | ResponseDebugGV _ _ => 4
  | ResponseCalcDebug _ _ => 5
  | ResponseCalcDebugAddressList _ _ => 6
  | ResponseQueryCalcDebugResult _ => 7
  end.

#[export] Instance mp_protocol : ProtocolCodecs := {|
  codec_uint64 := mp_codec mp_uint;
  codec_ResponseVersion := mp_codec mp_ResponseVersion;
  codec_ClaimMessage := mp_codec mp_ClaimMessage;
  codec_ResponseClaim := mp_codec mp_ResponseClaim;
  codec_Query := mp_codec mp_Query;
  codec_ResponseQuery := mp_codec mp_ResponseQuery;
  codec_CalculateRequest := mp_codec mp_CalculateRequest;
  codec_CalculateResponse := mp_codec mp_CalculateResponse;
  codec_CalculateDone := mp_codec mp_CalculateDone;
  codec_StartBlock := mp_codec mp_StartBlock;
  codec_CommitBlock := mp_codec mp_CommitBlock;
  codec_CommitClaim := mp_codec mp_CommitClaim;
  codec_QueryStatus := mp_codec mp_QueryStatus;
  codec_QueryResult := mp_codec mp_QueryResult;
  codec_RollBackRequest := mp_codec mp_RollBackRequest;
  codec_RollBackResponse := mp_codec mp_RollBackResponse;
  codec_ResponseInit := mp_codec mp_ResponseInit;
  codec_DebugMessage := mp_codec mp_DebugMessage;
  codec_debug_response := {| marshal r := [debug_tag r]; unmarshal _ r := (r, false) |};
|}.

Lemma mp_wire {A} `{!WF A} (c : mpcodec A) : mp_ok c wf -> dec c [] = None -> @WireType A (mp_codec c) _ _.
Proof. intros Hc He. split; [by apply mp_codec_laws|done]. Qed.

Lemma mp_ClaimMessage_ok : mp_ok mp_ClaimMessage wf.
Proof. struct_ok. intros [] (?&?&?). cbn in *. by split_and!. Qed.
Lemma mp_RollBackRequest_ok : mp_ok mp_RollBackRequest wf.
Proof. struct_ok. by intros []. Qed.

#[export] Instance mp_protocol_laws : ProtocolLaws.
Proof.
  split.
  - apply _.
  - apply mp_wire; [apply mp_uint_ok|reflexivity].
  - apply mp_wire; [|reflexivity]. struct_ok. intros [] (?&?&?). by split_and!.
  - apply mp_wire; [apply mp_ClaimMessage_ok|reflexivity].
  - apply mp_wire; [|reflexivity]. struct_ok; [apply mp_ClaimMessage_ok|]. by intros [].
  - apply mp_wire; [|reflexivity]. struct_ok. intros [] (?&?). by split_and!.
  - apply mp_wire; [|reflexivity]. struct_ok. intros [] (?&?). by split_and!.
  - apply mp_wire; [|reflexivity]. struct_ok. by intros [].
  - apply mp_wire; [|reflexivity]. struct_ok. by intros [] (?&?).
  - apply mp_wire; [|reflexivity]. struct_ok; [apply mp_optbytes_ok|]. intros [? ? ? []] ?; by split_and!.
  - apply mp_wire; [|reflexivity]. struct_ok; [apply mp_optbytes_ok|]. intros [? []] ?; by split_and!.
  - apply mp_wire; [|reflexivity]. struct_ok; [apply mp_optbytes_ok|]. intros [? ? []] ?; by split_and!.
  - apply mp_wire; [|reflexivity]. struct_ok. intros [] (?&?&?). cbn in *. by split_and!.
  - apply mp_wire; [|reflexivity]. struct_ok. by intros [] (?&?).
  - apply mp_wire; [|reflexivity]. struct_ok. by intros [] (?&?).
  - apply mp_wire; [apply mp_RollBackRequest_ok|reflexivity].
  - apply mp_wire; [|reflexivity]. struct_ok; [apply mp_RollBackRequest_ok|]. by intros [].
  - apply mp_wire; [|reflexivity]. struct_ok. by intros [].
Qed.

(** ** A server and a client *)

Definition shake0 (b : bytes) : bytes := take 64 b.
Definition order0 (m : gmap bytes Z) : list (bytes * Z) := map_to_list m.
Definition candidates0 (m : PRepCandidates) : list (Address * PRepCandidate) := map_to_list m.

(** Every path leads to an empty store. *)
Definition world0 : calc_world store := mkWorld quiet (fun _ => ∅) (fun path => ([], path)).

Definition m0 : manager store := mkManager ctx0 dbg0 ∅ 0 [].

Definition claim_message : message := mkMessage MsgClaim 7 (marshal claim1).
Definition handle0 : manager store -> message -> outcome Empty_set (manager store * list message * bool) :=
  mh_HandleMessage shake0 order0 candidates0 world0.
Definition claimed_m0 : manager store := set_ctx ctx1 m0.

Lemma claim_handled :
  handle0 m0 claim_message
  = Ok (claimed_m0, [mkMessage MsgClaim 7 (marshal (mkResponseClaim (mkClaimMessage alice 10 hash1 0 (replicate 32 5)) 2000))], true).
Proof. vm_compute. reflexivity. Qed.


(** ** A session *)

#[local] Instance server0 : Peer (endpoint (manager store)) := server_peer shake0 order0 candidates0 world0.
#[local] Instance direct0 : Client (Direct (D := store)) := direct_client shake0 order0 world0.

Abbreviation session0 := (direct_session (D := store) shake0 order0 world0).

Definition alice_text : bytes := Address_String alice.
Definition session_calls : calls :=
  [existT _ A_SendVersion; existT _ (A_SendInit 11); existT _ (A_SendClaim alice_text 11 [] 0 [] false false);
   existT _ (A_SendQuery alice_text 11 [] [49; 50]); existT _ A_SendQueryCalculateStatus].

Definition after_session : option (direct store * results) := session0 session_calls (mkDirect m0 0 []).
Definition session_state : direct store := match after_session with Some (s, _) => s | None => mkDirect m0 0 [] end.
Definition session_results : results := match after_session with Some (_, r) => r | None => [] end.

Lemma session_ok : session0 session_calls (mkDirect m0 0 []) = Some (session_state, session_results).
Proof.
  assert (is_Some after_session) as [[s r] E].
  { apply (bool_decide_unpack _). vm_compute. exact I. }
  unfold session_state, session_results. rewrite E. exact E.
Qed.

Example session_claim :
  nth_error session_results 2 = Some (existT ResponseClaim (Ok (mkResponseClaim (mkClaimMessage alice 10 (height_hash 32 11) 0 (height_hash 32 11)) 2000))) /\
  nth_error session_results 3 = Some (existT ResponseQuery (Ok (mkResponseQuery alice 500 10))).
Proof. vm_compute. split; reflexivity. Qed.

Lemma wire_refines_direct_witness :
  exists rc rc', InitRCIPC ([None; None] ++ [Some (accepted m0)]) = Ok rc /\
    wire_session session_calls rc = (rc', session_results) /\
    ep_state (rc_peer rc') = d_mgr session_state.
Proof.
  destruct (wire_refines_direct shake0 order0 candidates0 world0 m0 [None; None] [] session_calls session_state session_results)
    as (rc & rc' & K1 & K2 & K3 & _); [compute_decide|repeat constructor|cbn; lia|exact session_ok|].
  exists rc, rc'. split; [exact K1|split; [exact K2|exact K3]].
Defined.

(** The data of this CALCULATE cannot be read: it is refused. *)
Definition synced (m : manager store) : RCIPC (endpoint (manager store)) := pending_rc m 0 [].
Lemma synced_ok m : in_sync (synced m) (mkDirect m 0 []).
Proof. split_and!; [compute_decide|constructor|reflexivity]. Qed.

Definition refused : option (direct store * outcome client_error CalculateResponse) :=
  SendCalculate (M := Direct) [100] 20 (mkDirect m0 0 []).
Definition refused_state : direct store := match refused with Some (s, _) => s | None => mkDirect m0 0 [] end.
Definition refused_response : CalculateResponse := mkCalculateResponse CalcRespStatusInvalidData 20.

Lemma refused_ok : SendCalculate (M := Direct) [100] 20 (mkDirect m0 0 []) = Some (refused_state, Ok refused_response).
Proof.
  assert (option_map snd refused = Some (Ok refused_response)) as E by (vm_compute; reflexivity).
  unfold refused_state. fold refused. destruct refused as [[s r]|]; [|discriminate]. cbn in E. congruence.
Qed.

Definition query_of (a : Address) : rpc ResponseQuery := R_Query (mkQuery a 20 [] []).

Lemma refused_mgr : d_mgr refused_state = m0 /\ d_id refused_state = 0 /\ d_done refused_state = [mkCalculateDone false 20 0 None].
Proof. vm_compute. done. Qed.

Lemma query_alice : answered shake0 order0 world0 (query_of alice) 0 m0 m0 (mkResponseQuery alice 2500 10).
Proof. split_and!; [compute_decide..|vm_compute; reflexivity]. Qed.
Lemma query_bob : answered shake0 order0 world0 (query_of bob) 0 m0 m0 (mkResponseQuery bob 0 0).
Proof. split_and!; [compute_decide..|vm_compute; reflexivity]. Qed.


(** ** A claim over the connection *)

Definition claimed_by_client : option (direct store * outcome client_error ResponseClaim) :=
  SendClaim (M := Direct) alice_text 11 [] 0 [] false false (mkDirect m0 0 []).
Definition claimed_state : direct store := match claimed_by_client with Some (s, _) => s | None => mkDirect m0 0 [] end.
Definition claimed_response : ResponseClaim :=
  mkResponseClaim (mkClaimMessage alice 10 (height_hash 32 11) 0 (height_hash 32 11)) 2000.
Lemma claimed_by_client_ok :
  SendClaim (M := Direct) alice_text 11 [] 0 [] false false (mkDirect m0 0 []) = Some (claimed_state, Ok claimed_response).
Proof.
  assert (option_map snd claimed_by_client = Some (Ok claimed_response)) as E by (vm_compute; reflexivity).
  unfold claimed_state. fold claimed_by_client. destruct claimed_by_client as [[s r]|]; [|discriminate]. cbn in E. congruence.
Qed.

Lemma SendClaim_claims_witness :
  exists rc, SendClaim (M := Wire _) alice_text 11 [] 0 [] false false (synced m0) = (rc, Ok claimed_response) /\
    claimed (mg_ctx (d_mgr claimed_state)) alice = 2000.
Proof.
  destruct (SendClaim_claims shake0 order0 candidates0 world0 11 (synced m0) (mkDirect m0 0 []) alice_text [] 0 [] claimed_state claimed_response)
    as (rc & K1 & _ & K2 & _); [apply synced_ok|exact ctx0_ledger|exact claimed_by_client_ok|discriminate|].
  exists rc. split; [exact K1|]. change alice with (address_arg alice_text) at 1.
  etransitivity; [exact K2|]. vm_compute. reflexivity.
Defined.
