(* ===== verification/SendIpcExamples.v ===== *)
(** * Examples of command lines

    [sendipc claim] against the state of [Examples.v], and what some options
    do at the edges. *)

From Stdlib Require Strings.String.
From S2P Require Import Prelude Bytes HexInt HexText Flags Address Store Codec Typed Account ClaimDB Management IISSData IScoreDB Context Reward CalcDebug MsgDebug Calculate DoCalculate Messages Dispatch ClaimLedger Ipc Server Client Remote ClaimRemote Wire Examples CalcExamples DebugExamples IpcExamples DBToolCLI SendIpc SendIpcSpec RcTool.
Import Wire.Instances.
Import String.StringSyntax.

#[local] Instance server1 : Peer (endpoint (manager store)) := server_peer shake0 order0 candidates0 world0.
#[local] Instance direct1 : Client (Direct (D := store)) := direct_client shake0 order0 world0.
#[local] Instance tolerant1 : Tolerant (Direct (D := store)) := direct_tolerant shake0 order0 world0.

(** The capacities Go gives short strings: their length rounded up to 16. *)
Definition cap16 (n : nat) : nat := (16 * ((n + 15) / 16))%nat.
Definition no_config (_ : bytes) : option (list (bytes * Address)) := None.
Definition sock0 : bytes := str "/tmp/icon-rc.sock".
Definition connect0 (address : bytes) : option (endpoint (manager store) * bytes) :=
  if bool_decide (address = sock0) then Some (accepted m0) else None.

(** ** A claim *)

(** [claim -address hx07.. --blockheight=11 -no-commit=false] *)
Definition claim_line : list bytes :=
  [str "-address"; alice_text; str "--blockheight=11"; str "-no-commit=false"].
Definition claim_assignments : list assignment :=
  [(str "address", alice_text); (str "blockheight", str "11"); (str "no-commit", str "false")].
Definition claim_options : Options :=
  mkOptions alice_text 11 [] 0 [] false false true [] (str "./monitor.json") (str "http://localhost:9091").

Lemma claim_line_ok : command_line (sendipc_flags Cmd_claim) claim_assignments claim_line.
Proof.
  apply (line_cons _ opt_address alice_text [str "-address"; alice_text]); [reflexivity|by apply spelled_next|].
  apply (line_cons _ opt_blockheight (str "11") [str "--blockheight=11"]); [reflexivity|apply spelled_equals2|].
  apply (line_cons _ opt_no_commit (str "false") [str "-no-commit=false"] [] []); [reflexivity|apply spelled_equals|constructor].
Qed.

Lemma claim_options_ok : assign_all (sendipc_flags Cmd_claim) claim_assignments default_Options = Ok claim_options.
Proof. vm_compute. reflexivity. Qed.

Definition claimed_by_line : option (direct store * outcome client_error (option ResponseClaim)) :=
  cli_claim (M := Direct) alice_text 11 [] 0 [] false false (mkDirect m0 1 []).
Definition line_state : direct store := match claimed_by_line with Some (s, _) => s | None => mkDirect m0 1 [] end.
Lemma claimed_by_line_ok :
  cli_claim (M := Direct) alice_text 11 [] 0 [] false false (mkDirect m0 1 []) = Some (line_state, Ok (Some claimed_response)).
Proof.
  assert (option_map snd claimed_by_line = Some (Ok (Some claimed_response))) as E by (vm_compute; reflexivity).
  unfold line_state. fold claimed_by_line. destruct claimed_by_line as [[s r]|]; [|discriminate]. cbn in E. congruence.
Qed.

Lemma sendipc_claims_witness :
  exists rc, sendipc_Run cap16 no_config 0 connect0 (sock0 :: str "claim" :: claim_line) = Ok (rc, None) /\
    ep_state (rc_peer rc) = d_mgr line_state /\ claimed (mg_ctx (d_mgr line_state)) alice = 2000.
Proof.
  destruct (sendipc_claims shake0 order0 candidates0 world0 cap16 no_config 0 connect0 m0 sock0 claim_assignments claim_line
    claim_options line_state claimed_response) as (rc & K1 & K2 & K3 & _);
    [reflexivity|compute_decide|exact ctx0_ledger|exact claim_line_ok|exact claim_options_ok|discriminate|reflexivity|reflexivity
    |eexists; reflexivity|exact claimed_by_line_ok|discriminate|].
  exists rc. split; [exact K1|]. split; [exact K2|]. change alice with (address_arg alice_text) at 1.
  etransitivity; [exact K3|]. vm_compute. reflexivity.
Defined.

(** ** Options *)

(** [commitclaim -fail] is [commitclaim]: both report success, and only
    [-fail=false] reports that the transaction failed. *)
Lemma fail_reports_success :
  o_fail <$> (match ParseOrExit (sendipc_flags Cmd_commitclaim) [str "-fail"] default_Options with Ok o => Some o | _ => None end) = Some true /\
  o_fail default_Options = true /\
  o_fail <$> (match ParseOrExit (sendipc_flags Cmd_commitclaim) [str "-fail=false"] default_Options with Ok o => Some o | _ => None end) = Some false.
Proof. vm_compute. done. Qed.

(** An unknown option, a number that is none, and [-h] end the program. *)
Example bad_options :
  ParseOrExit (sendipc_flags Cmd_init) [str "-height=1"] default_Options = Err (Exit 2) /\
  ParseOrExit (sendipc_flags Cmd_init) [str "-blockheight=ten"] default_Options = Err (Exit 2) /\
  Parse (sendipc_flags Cmd_init) [str "-h"] default_Options = Err FlagHelp.
Proof. vm_compute. done. Qed.

(** What follows the first argument that is no option is not looked at. *)
Example options_end :
  Parse (sendipc_flags Cmd_init) [str "5"; str "-blockheight=7"] default_Options = Ok (default_Options, [str "5"; str "-blockheight=7"]).
Proof. vm_compute. reflexivity. Qed.

(** A block hash of 20 bytes is sent with 12 characters of its own text behind it. *)
Lemma rollback_hash_residue :
  let s := str "00112233445566778899aabbccddeeff00112233" in
  option_map (hash_slice cap16 s) (hex_DecodeString s) =
  option_map (fun hash => Some (hash ++ str "aabbccddeeff")) (hex_DecodeString s).
Proof. vm_compute. reflexivity. Qed.

(** One of four bytes ends the program. *)
Lemma rollback_hash_short :
  cli_rollback (M := Direct) cap16 20 (str "00112233") (mkDirect m0 1 []) = Some (mkDirect m0 1 [], Panic).
Proof. vm_compute. reflexivity. Qed.

(** ** The monitor program *)

Definition monitor0 : option (endpoint (manager store) * bytes) := Some (accept true m0).
Definition no_disk : disk (D := store) := mkDisk (fun _ => ∅) (fun _ => ∅) (fun _ => ∅).
Definition rctool (args : list bytes) := rctool_Run no_disk monitor0 args.
Definition monitored {A B} (r : outcome exit (RCIPC (endpoint (manager store)) * A * B)) : option (list Address * bool * B) :=
  match r with
  | Ok (rc, _, b) =>
      let cf := conf (mg_dbg (ep_state (rc_peer rc))) in Some (Addresses cf, CalcDebug.Flag cf, b)
  | _ => None
  end.

(** The addresses and the switch of the debug output, from the command line. *)
Example rctool_switches :
  monitored (rctool [str "calculate_debug"; str "add"; str "cx0303030303030303030303030303030303030303"]) =
    Some ([alice; bob; 1 :: replicate 20 3], true, false) /\
  monitored (rctool [str "calculate_debug"; str "disable"]) = Some ([alice; bob], false, false) /\
  monitored (rctool [str "calculate_debug"; str "add"]) = Some ([alice; bob], true, true).
Proof. vm_compute. done. Qed.

(** A monitor asks for a calculation that is not known: the server answers. *)
Example rctool_result :
  match rctool [str "calculate"; str "7"] with Ok (_, Some (SaidResult r), false) => qr_BlockHeight r = 7 | _ => False end.
Proof. vm_compute. reflexivity. Qed.
