(* ===== verification/SoundExamples.v ===== *)
(** * An example of well-typed states

    The state of [Examples.v] is well-typed; the server handles a claim, a
    calculation and a rollback from it. *)

From stdpp Require Import relations.
From S2P Require Import Prelude Bytes HexInt Address Store Codec Typed Account ClaimDB ClaimJournal Management IISSData IScoreDB Context Mirror Reward CalcDebug MsgDebug Calculate AccountDBs DoCalculate AccountPass CalcState CalcTotal Messages Dispatch ClaimLedger ClaimTypes Ipc Server WellTyped Wire Examples CalcExamples PayExamples DebugExamples IpcExamples.
Import Wire.Instances.

Lemma ctx0_well_typed : well_typed ctx0.
Proof.
  destruct ctx0_stores as (E1 & E2 & E3). split; [exact ctx0_ready|..].
  - rewrite E1. intros k v K. destruct (get_empty k v K).
  - rewrite E2. intros k v K. destruct (get_empty k v K).
  - rewrite E3. intros k v K. destruct (get_empty k v K).
  - assert (calcResult (DB ctx0) = ∅) as -> by (vm_compute; reflexivity). intros k v K. destruct (get_empty k v K).
Qed.

(** Every path leads to the same IISS data. *)
Definition world_pay : calc_world store := mkWorld quiet (fun _ => iiss_pay) (fun path => ([], path)).
Definition handle_pay : manager store -> message -> outcome Empty_set (manager store * list message * bool) :=
  mh_HandleMessage shake0 order0 candidates0 world_pay.

Definition calculate_message : message := mkMessage MsgCalculate 8 (marshal (mkCalculateRequest [100] 20 [])).
Definition rollback_message : message := mkMessage MsgRollBack 9 (marshal (mkRollBackRequest 15 hash1)).

Lemma claim_message_ok : message_typed world_pay m0 claim_message.
Proof.
  intros a Ea. injection Ea as <-. intros req E.
  assert (unmarshal_new zero_ClaimMessage (m_Data claim_message) = Some claim1) as E1 by (vm_compute; reflexivity).
  rewrite E1 in E. injection E as <-. apply claim1_wf.
Qed.

Lemma calculate_message_ok : message_typed world_pay claimed_m0 calculate_message.
Proof.
  intros a Ea. injection Ea as <-. intros req _. cbn [w_open world_pay].
  destruct iiss_pay_ok as [K1 K2 K3]. split; [|exact K2|exact K3].
  assert (ctx_PRep (mg_ctx claimed_m0) = ctx_PRep ctx0) as -> by (vm_compute; reflexivity). exact K1.
Qed.

Lemma rollback_message_ok m : message_typed world_pay m rollback_message.
Proof.
  intros a Ea. injection Ea as <-. intros req E.
  assert (unmarshal_new zero_RollBackRequest (m_Data rollback_message) = Some (mkRollBackRequest 15 hash1)) as E1 by (vm_compute; reflexivity).
  rewrite E1 in E. injection E as <-. compute_decide.
Qed.

Lemma no_bytes : (unmarshal [] zero_ClaimBackupInfo).1 = zero_ClaimBackupInfo.
Proof. reflexivity. Qed.

Lemma claim_handled_pay : exists sent, handle_pay m0 claim_message = Ok (claimed_m0, sent, true).
Proof. eexists. vm_compute. reflexivity. Qed.

Lemma server_sound_witness :
  exists m2 m3 sent ok, rtc (served shake0 order0 candidates0 world_pay) m0 m2 /\
    handle_pay m2 rollback_message = Ok (m3, sent, ok) /\ well_typed (mg_ctx m3).
Proof.
  destruct claim_handled_pay as [sent1 K1].
  assert (rtc (served shake0 order0 candidates0 world_pay) m0 claimed_m0) as R1
    by (apply rtc_once; eapply serve; [exact claim_message_ok|exact K1]).
  destruct (server_sound shake0 order0 (fun m => reflexivity _) candidates0 world_pay m0 claimed_m0 calculate_message
    no_bytes ctx0_well_typed R1 calculate_message_ok) as (_ & m2 & sent2 & ok2 & K2 & _).
  assert (rtc (served shake0 order0 candidates0 world_pay) m0 m2) as R2
    by (eapply rtc_r; [exact R1|]; eapply serve; [exact calculate_message_ok|exact K2]).
  destruct (server_sound shake0 order0 (fun m => reflexivity _) candidates0 world_pay m0 m2 rollback_message
    no_bytes ctx0_well_typed R2 (rollback_message_ok m2)) as (_ & m3 & sent3 & ok3 & K3 & Hw).
  exists m2, m3, sent3, ok3. split; [exact R2|]. split; [exact K3|exact Hw].
Defined.
