(* ===== verification/ConcurrentExamples.v ===== *)
(** * Examples of claims handled at the same time

    [Concurrent.v] on the state of [Examples.v]: two sessions that mix, and
    two races.  Two CLAIMs of one address in one block are both answered with its
    I-Score; a CLAIM that has read the claim DB when a COMMIT_BLOCK writes it
    lets the address claim twice. *)

From S2P Require Import Prelude Bytes HexInt Address Store Codec Typed Account ClaimDB ClaimJournal History Management IISSData IScoreDB Context Messages ClaimLedger Rollback Concurrent Wire Examples.
Import Wire.Instances.

Definition claim_bob : ClaimMessage := mkClaimMessage bob 11 hash1 1 (replicate 32 6).

Definition sessions0 : list (list claim_op) :=
  [[Op_claim claim1; Op_commit (commit_of claim1)]; [Op_claim claim_bob]].
Definition keys0 : list bytes := [pc_ID (pre_commit_of claim1); pc_ID (pre_commit_of claim_bob)].
Definition schedule0 : list nat := [0; 1; 0; 1; 1; 0; 0; 1; 0; 0; 0; 0]%nat.

Definition mixed : store * list session := run_schedule ctx0 (preCommit (DB ctx0), map start sessions0) schedule0.

Lemma alone_alice : run_ops ctx0 [Op_claim claim1; Op_commit (commit_of claim1)] = Ok (ctx2, [(10, Some 2000)]).
Proof. cbn [run_ops run_op]. rewrite claim1_ok. reflexivity. Qed.

Lemma keys0_ok : Forall2 (fun k ops => Forall (op_ok k) ops) keys0 sessions0.
Proof.
  pose proof claim1_wf. assert (wf_CommitClaim (commit_of claim1)) by compute_decide. assert (wf_ClaimMessage claim_bob) by compute_decide.
  repeat match goal with |- Forall2 _ _ _ => constructor | |- Forall _ _ => constructor | |- op_ok _ _ => split; [reflexivity|assumption] end.
Qed.

Lemma claims_isolated_witness :
  mixed.2 !! 0%nat = Some (mkSession [] Idle [(10, Some 2000)]) /\
  ldb_get mixed.1 (pc_ID (pre_commit_of claim1)) = ldb_get (preCommit (DB ctx2)) (pc_ID (pre_commit_of claim1)).
Proof.
  destruct (claims_isolated ctx0 keys0 sessions0 schedule0 mixed.1 mixed.2) as [K _].
  - destruct ctx0_stores as (-> & _). apply pc_inv_empty.
  - compute_decide.
  - exact keys0_ok.
  - unfold mixed. by rewrite <-surjective_pairing.
  - exact (K 0%nat _ _ ctx2 [(10, Some 2000)] eq_refl eq_refl (le_n _) alone_alice).
Defined.

(** ** One address, one block, two transactions *)

Definition claim_again : ClaimMessage := mkClaimMessage alice 11 hash1 1 (replicate 32 6).

(** Both read the pre-commit DB before either writes it. *)
Lemma claim_race :
  (run_schedule ctx0 (preCommit (DB ctx0), map start [[Op_claim claim1]; [Op_claim claim_again]]) [0; 1; 0; 1; 0; 1; 0; 1]%nat).2
  = [mkSession [] Idle [(10, Some 2000)]; mkSession [] Idle [(10, Some 2000)]] /\
  option_map snd (match run_ops ctx0 [Op_claim claim1; Op_claim claim_again] with Ok r => Some r | _ => None end)
  = Some [(10, Some 2000); (11, None)].
Proof. vm_compute. done. Qed.

(** ** A block committed while a claim is handled *)

(** The CLAIM of the next block reads the claim DB, the block with the first claim
    is committed, then it reads the account and goes on. *)
Definition claim12 : ClaimMessage := mkClaimMessage alice 12 hash2 0 (replicate 32 5).
Definition reading : store * session := Nat.iter 2 (session_step ctx2) (preCommit (DB ctx2), start [Op_claim claim12]).
Definition committed11 : Context store :=
  state_of ctx2 (commitBlock (E := Empty_set) (with_pc ctx2 reading.1) commit1).
Definition claimed12 : store * session := Nat.iter 2 (session_step committed11) (preCommit (DB committed11), reading.2).
Definition committed12 : Context store :=
  state_of ctx2 (commitBlock (E := Empty_set) (DoCommitClaim (with_pc committed11 claimed12.1) (commit_of claim12))
    (mkCommitBlock true 12 (Some hash2))).

Lemma claim_commit_race :
  s_answers claimed12.2 = [(10, Some 2000)] /\ earned committed12 alice = 2500 /\ claimed committed12 alice = 4000.
Proof. vm_compute. done. Qed.
