(* ===== verification/ResumeExamples.v ===== *)
(** * Examples of resumed calculations

    The calculation of [PayExamples.v], stopped by an exit of the process and
    completed by the next one; and two cases in which the completed
    calculation pays more than it should. *)

From S2P Require Import Prelude Bytes HexInt Address Store Codec Typed Account ClaimDB Management IISSData IScoreDB Context Mirror Reward Calculate AccountDBs DoCalculate AccountPass CalcState CalcTotal SameStores Interrupted Reapply Resume Wire Examples CalcExamples PayExamples.
Import Wire.Instances.

Lemma ok_inj {E A} (a b : A) : Ok (E := E) a = Ok b -> a = b.
Proof. intros H. injection H as H. exact H. Qed.

(** The pass over the first account DB ends, that over the second stops at its
    first account. *)
Definition exiting : calc_env := mkCalcEnv (fun i _ => (0 <? i)%nat) notifyExit.

Definition stop_by_exit (iiss : store) : calc_result store := get_ok (no_result ctx0) (run exiting ctx0 iiss).
Definition exited20 : calc_result store := stop_by_exit iiss_pay.

Lemma exited20_ok : run exiting ctx0 iiss_pay = Ok exited20.
Proof. apply get_ok_eq. vm_compute. reflexivity. Qed.

Lemma ctx0_channel : channel (ctx_Cancel ctx0) = 0%nat.
Proof. vm_compute. reflexivity. Qed.

Lemma request20_height : request_height ctx0 header20 = 20.
Proof. vm_compute. reflexivity. Qed.

Lemma quiet_uninterrupted : uninterrupted quiet.
Proof. intros i n. reflexivity. Qed.

Lemma exited20_err : res_err exited20 = Some (CalcCancelByExit 20).
Proof. vm_compute. reflexivity. Qed.

Lemma iiss_pay_registered : registered_first (ctx_PRepCandidates ctx0) (iiss_txs iiss_pay).
Proof.
  assert (iiss_txs iiss_pay = [tx_TXData reg7; tx12]) as -> by (vm_compute; reflexivity).
  split; [intros H; discriminate H|]. split; [intros H; discriminate H|exact I].
Qed.

Lemma ctx0_resumable : resumable ctx0 iiss_pay [prep6] 20.
Proof.
  split; [exact ctx0_ready|exact iiss_pay_ok|exact (le_n 1)| |exact iiss_pay_registered| |vm_compute; discriminate].
  - constructor; [vm_compute; reflexivity|constructor].
  - intros b i [d Hd]. discriminate (no_backups20 _ _ Hd).
Qed.

Abbreviation start_again ctx iiss :=
  (InitManager (D := store) (E := Empty_set) digest map_to_list quiet ctx 2 (fun _ => iiss)).

Lemma InitManager_resumes_witness :
  exists ctx2, start_again (res_ctx exited20) iiss_pay = Ok ctx2 /\ same_state [prep6] (res_ctx paid20) ctx2.
Proof.
  pose proof (InitManager_resumes (E := Empty_set) digest map_to_list (fun m => Permutation_refl _) quiet exiting ctx0 request20
    iiss_pay true 1 exited20 20 header20 [gv5] [prep6] (fun _ => iiss_pay) 2 iiss_pay_load ctx0_resumable
    quiet_uninterrupted (fun _ => eq_refl)) as H.
  rewrite ctx0_channel in H. destruct (H exited20_ok exited20_err request20_height eq_refl) as (r0 & ctx2 & E0 & _ & E2 & Hs).
  exists ctx2. split; [exact E2|]. pose proof (ok_inj _ _ (eq_trans (eq_sym paid20_ok) E0)) as E. subst r0. exact Hs.
Defined.

(** ** Two P-Rep lists *)

(** A second list from block 15 on, as after the removal of a P-Rep: both
    lists are in memory twice after the restart, and the blocks of the first
    one are paid for each copy. *)
Definition prep15 : PRep := mkPRep 15 (mkPRepData 1000000 [mkPRepDelegationInfo bob 1000000]).
Definition iiss_two : store := bucket_Set PrefixPRep (pr_ID prep15) (pr_Bytes prep15) iiss_pay.

Lemma two_lists_paid_twice :
  option_map Beta2 (res_stats (get_ok (no_result ctx0) (run quiet ctx0 iiss_two))) = Some 1400000000 /\
  exists ctx2, start_again (res_ctx (stop_by_exit iiss_two)) iiss_two = Ok ctx2 /\
    map pr_BlockHeight (ctx_PRep ctx2) = [6; 15; 6; 15] /\ option_map Beta2 (ctx_stats ctx2) = Some 2300000000.
Proof.
  split; [vm_compute; reflexivity|].
  exists (get_ok ctx0 (start_again (res_ctx (stop_by_exit iiss_two)) iiss_two)).
  split; [apply get_ok_eq; vm_compute; reflexivity|]. split; vm_compute; reflexivity.
Qed.

(** ** A crash after the passes *)

(** The process dies when the rewards of the IISS data are written to the
    account DBs, before [setCalcDoneBH]. *)
Definition crashed20 : Context store :=
  let ctx := res_ctx exited20 in set_DB (set_files (files (DB (res_ctx paid20))) (DB ctx)) ctx.

(** The next process adds the rewards again to the accounts that are not in
    the query DBs, whose passes therefore do not overwrite: Bob has twice the
    I-Score, and the result that is announced counts it once. *)
Lemma crash_paid_twice :
  option_map TotalReward (res_stats paid20) = Some 1422000034 /\
  option_map IScore (calc_account (DB (res_ctx paid20)) bob) = Some 1411000000 /\
  exists ctx2, start_again crashed20 iiss_pay = Ok ctx2 /\
    option_map TotalReward (ctx_stats ctx2) = Some 1422000034 /\
    option_map IScore (calc_account (DB ctx2) bob) = Some 2822000000.
Proof.
  split; [vm_compute; reflexivity|]. split; [vm_compute; reflexivity|].
  exists (get_ok ctx0 (start_again crashed20 iiss_pay)).
  split; [apply get_ok_eq; vm_compute; reflexivity|]. split; vm_compute; reflexivity.
Qed.

(** The process dies between [setCalcDoneBH] and [WriteCalculationResult]: the
    next one has nothing to reload, and never has the result. *)
Definition unrecorded20 : Context store :=
  update_DB (set_calcResult (calcResult (DB ctx0))) (res_ctx paid20).

Lemma crash_loses_result :
  exists ctx2, start_again unrecorded20 iiss_pay = Ok ctx2 /\
    DoQueryCalculateStatus ctx2 = (CalculationDone, 20) /\
    DoQueryCalculateResult (E := Empty_set) ctx2 20 = Ok (mkQueryResult InvalidBH 20 0 []).
Proof.
  exists (get_ok ctx0 (start_again unrecorded20 iiss_pay)).
  split; [apply get_ok_eq; vm_compute; reflexivity|]. split; vm_compute; reflexivity.
Qed.
