(* ===== verification/ToolExamples.v ===== *)
(** * Examples of the command-line tools

    The database browser on the state of [Examples.v]: the I-Scores it
    writes, the pre-commits it finds, and where its guess of the query DBs is
    wrong; and the databases of the test data program. *)

From Stdlib Require Strings.String.
From S2P Require Import Prelude Bytes HexInt HexText Flags Address Store Codec Typed Account ClaimDB ClaimJournal History Management IISSData IScoreDB Context Reward CalcDebug MsgDebug Calculate DoCalculate Messages Main DBTest ClaimLedger Rollback DBTool DBToolIISS DBToolSpec IISSTool Wire Examples CalcExamples.
Import Wire.Instances.
Import String.StringSyntax.

(** ** I-Scores *)

Definition good_entry (i : Z) (k v : bytes) : bool :=
  bool_decide (wf_Address k) && bool_decide (is_Some (NewIScoreAccountFromBytes v)) &&
  match getQueryDB (E := Empty_set) (DB ctx0) k with Ok f => bool_decide (f = query_name (DB ctx0) i) | _ => false end.

Lemma ctx0_entries : Forall (fun i => map_Forall (fun k v => good_entry i k v = true) (db_at (DB ctx0) (query_name (DB ctx0) i))) [1; 2].
Proof. compute_decide. Qed.

Lemma good_entry_ok i k v : good_entry i k v = true ->
  wf_Address k /\ is_Some (NewIScoreAccountFromBytes v) /\ getQueryDB (E := Empty_set) (DB ctx0) k = Ok (query_name (DB ctx0) i).
Proof.
  unfold good_entry. generalize (query_name (DB ctx0) i). intros f. generalize (getQueryDB (E := Empty_set) (DB ctx0) k).
  intros m. rewrite !andb_true_iff, !bool_decide_eq_true. intros [[H1 H2] H3]. split; [exact H1|]. split; [exact H2|].
  destruct m as [f'| |]; [|discriminate..]. apply bool_decide_eq_true in H3. by rewrite H3.
Qed.

Lemma ctx0_browsable : browsable ctx0.
Proof.
  split; [apply ctx0_accounts| |].
  - intros i k v Hi Hk. assert (Hn : DBCount (info (DB ctx0)) = 2) by (vm_compute; reflexivity). rewrite Hn in Hi.
    apply (good_entry_ok i). pose proof ctx0_entries as H. rewrite Forall_forall in H. refine (H i _ k v Hk).
    assert (i = 1 \/ i = 2) as [-> | ->] by lia; repeat constructor.
  - intros a v Hv. destruct ctx0_stores as (_ & Hc & _). rewrite Hc in Hv. destruct (get_empty a v Hv).
Qed.


(** After the first calculation only the calculate DBs have accounts: the
    browser takes them for the query DBs, and writes what cannot be claimed yet. *)
Definition first_ctx : Context store := let s := DB start_ctx in set_DB (put_alice (getCalculateDB s alice) s) start_ctx.

Lemma wrong_half :
  (match getIScore (files (DB first_ctx)) (claim (DB first_ctx)) with Ok r => r !! Address_String alice | _ => None end) = Some 2500 /\
  DoQuery (E := Empty_set) first_ctx (mkQuery alice 11 hash1 []) = Ok (mkResponseQuery alice 0 0).
Proof. vm_compute. done. Qed.

(** ** Pre-commits *)

Lemma pc_inv_ctx1 : pc_inv (preCommit (DB ctx1)).
Proof. apply (lg_pc 11). eapply (ledger_claim (E := Empty_set)); [apply ctx0_ledger|apply claim1_wf|done|apply claim1_ok]. Qed.

Lemma getKeys_spec_witness :
  getKeys (preCommit (DB ctx1)) alice 11 = Ok [pc_ID (pre_commit_of claim1)] /\
  getKeys (preCommit (DB ctx1)) zero_Address 11 = Err ErrNoPreCommitKey.
Proof.
  split.
  - destruct (getKeys_spec (preCommit (DB ctx1)) alice 11 pc_inv_ctx1) as [-> _]; [compute_decide|lia|]. vm_compute. reflexivity.
  - destruct (getKeys_spec (preCommit (DB ctx1)) zero_Address 11 pc_inv_ctx1) as (_ & _ & K); [compute_decide|lia|]. exact (K eq_refl).
Defined.

(** Asked for the claims of Alice in block 11, it finds the one in block 267. *)
Definition claim267 : ClaimMessage := mkClaimMessage alice 267 hash1 0 (replicate 32 5).
Lemma other_block :
  getKeys (preCommit (DB (write_claim claim267 1000 ctx0))) alice 11 = Ok [pc_ID (pre_commit_of claim267)].
Proof. vm_compute. reflexivity. Qed.

(** ** The IISS data tool *)

Lemma cli_transaction_delegation_witness :
  exists d' tx, cli_transaction 3 (Address_String alice) 15 TXDataTypeDelegate (Address_String bob) 700 (∅ : store) = Ok d' /\
    bucket_Get PrefixIISSTX d' (be64 3) = Some (marshal (tx_TXData tx)) /\
    NewIScoreAccountFromIISS (E := Empty_set) tx
    = Ok (Some (mkIScoreAccount alice (mkIScoreData 0 15 [Some (mkDelegateData bob 700)]))).
Proof.
  destruct (cli_transaction_delegation 3 alice 15 bob 700 (∅ : store) alice_wf) as (d' & tx & H1 & H2 & _ & _ & H3); [compute_decide..|].
  by exists d', tx.
Defined.

(** Block producers at heights 11, 12 and 15. *)
Definition bp_store (hs : list Z) : store :=
  match fold_left (fun d h => let! d := d in cli_bp h (Address_String alice) (Address_String bob) false d) hs (Ok (∅ : store))
  with Ok d => d | _ => (∅ : store) end.

Lemma bp_entries : iter_prefix PrefixIISSBPInfo (bp_store [11; 12; 15])
  = map (fun h => (PrefixIISSBPInfo ++ be64 h, marshal (mkIISSBPData alice [bob]))) [11; 12; 15].
Proof. vm_compute. reflexivity. Qed.

Lemma ReadIISSBP_spec_witness :
  ReadIISSBP (bp_store [11; 12; 15]) = ([13; 14], (3, 2)) /\
  exists out, (ReadIISSBP (bp_store [11; 12; 15])).1 = out /\ 13 ∈ out /\ 15 ∉ out.
Proof.
  split; [vm_compute; reflexivity|].
  destruct (ReadIISSBP_spec (bp_store [11; 12; 15]) 11 [12; 15]) as (out & -> & H).
  - rewrite bp_entries. repeat constructor.
  - repeat constructor.
  - repeat constructor; lia.
  - exists out. split; [done|]. rewrite !H. split.
    + split_and!; [lia|compute_decide|]. exists 15. split; [compute_decide|lia].
    + intros (_ & K & _). apply K. compute_decide.
Defined.

(** The first entry does not decode: every height from 1 is reported missing. *)
Lemma bad_first_entry :
  ReadIISSBP (bucket_Set PrefixIISSBPInfo (be64 3) [] (bp_store [11])) = (seqZ 1 10, (2, 10)).
Proof. vm_compute. reflexivity. Qed.

(** ** The test data program *)

Module TestData.
(** The random part of an address: all [200], and the number of its entry. *)
Definition rand0 (i j : nat) : bytes := replicate 17 200 ++ [Z.of_nat i; Z.of_nat j; 0].
Definition candidates1 (m : PRepCandidates) : list (Address * PRepCandidate) := map_to_list m.
Definition quiet0 : calc_env := mkCalcEnv (fun _ _ => false) id.
Definition dbtest (args : list bytes) (ds : gmap bytes (rc_disk (D := store))) :=
  dbtest_Run (fun _ => []) (fun m => map_to_list m) candidates1 quiet0 rand0 args ∅ ds.

Definition created (args : list bytes) : gmap bytes (rc_disk (D := store)) :=
  match dbtest (str "test" :: str "create" :: args) ∅ with Ok (ds, _) => ds | _ => ∅ end.

(** How many accounts an account DB has. *)
Definition account_count (ds : gmap bytes (rc_disk (D := store))) (f : fname) : option nat :=
  k ← ds !! str "test"; (fun d : store => size d) <$> rd_files k !! f.

(** Two account DBs of three accounts each, on one side. *)
Example create_counts :
  let ds := created [str "-db=2"; str "-account"; str "6"] in
  map (account_count ds) [AccountName 1 2 0; AccountName 2 2 0; AccountName 1 2 1; AccountName 2 2 1] =
    [Some 3%nat; Some 3%nat; Some 0%nat; Some 0%nat].
Proof. vm_compute. reflexivity. Qed.

(** A query of a database that does not exist makes one without account DBs,
    and divides by their number. *)
Example query_unknown : dbtest [str "other"; str "query"; str "-address"; Address_String alice] ∅ = Panic.
Proof. vm_compute. reflexivity. Qed.

(** The counts that [create] refuses. *)
Example create_refused :
  dbtest [str "test"; str "create"; str "-db=257"] ∅ = Err (Exit 1) /\
  dbtest [str "test"; str "create"; str "-account=0"] ∅ = Err (Exit 1).
Proof. vm_compute. done. Qed.
End TestData.
